(* ===== verification/_CoqProject ===== *)
-Q . S2P
Prelude.v
Common.v
Float32.v
Cache.v
Csr.v
Layout.v
Preprocess.v
GraphDistribution.v
AddressMap.v
DramInterface.v
DramCommon.v
IniReader.v
Double.v
Grisu.v
GrisuCorrect.v
JsonReader.v
JsonWriter.v
JsonRoundTrip.v
Inputs.v
IniParser.v
DramConfig.v
DramTiming.v
BankState.v
ChannelState.v
ChannelTiming.v
SimpleStats.v
CommandQueue.v
Refresh.v
DramController.v
ControllerSafety.v
ControllerBounds.v
ControllerLimits.v
IdealDram.v
DramSystem.v
StatsReport.v
StatsFiles.v
StatsRuns.v
Hmc.v
HmcSafety.v
MemorySystem.v
Cpu.v
Memory.v
GraphReader.v
FeatureReader.v
Simd.v
Accelerator.v
Inference.v
Waiting.v
Liveness.v
Prepared.v
Main.v
CsvLog.v
