(* ===== verification/Prelude.v ===== *)
(** * Verification of the SGCN accelerator simulator and its DRAM simulator

    ** The program

    The repository is a cycle-level simulator of SGCN, a graph-convolution
    accelerator (src/src), linked with the memory simulator DRAMsim3
    (src/DRAMsim3).  A run
      - reads a graph in CSR form and a feature matrix, deals the rows of the
        graph to [n] engines, optionally tiles each engine's subgraph, and lays
        values, row pointers, columns and features out in memory
        (preprocessor.cc);
      - simulates the engines cycle by cycle (controller.cc): a graph reader per
        engine (g_reader.cc) requests the graph and streams edges to the shared
        feature reader (f_reader.cc), which fetches feature lines through an LRU
        cache (cache.cc) and tells the engine's SIMD unit (simd.cc) when a row
        ends, upon which the unit writes the row's output lines; all requests go
        through memory.cc to DRAMsim3, whose callbacks route the replies;
      - ends when every output line has been written back.
    DRAMsim3 maps an address to channel, rank, bank group, bank, row and column
    (configuration.cc), queues it in the channel's controller (controller.cc),
    turns it into commands (command_queue.cc) that the banks accept only in the
    right state and not before the times the tables of timing.cc allow
    (bankstate.cc, channel_state.cc), inserts refreshes (refresh.cc), and counts
    events (simple_stats.cc).  At the end it writes its statistics as JSON with the
    library json.hpp; [main] reads two figures of the file back with the library
    jsoncpp and appends them, with its own counts, to a CSV file.

    ** Conventions

    Code that can fail returns an [outcome]: [Ok] with the result or [Fault] with
    the way it fails, undefined behaviour included ([Undefined]: an index out of
    range, a division by zero, an overflow of [int]).  Objects are records,
    methods functions from the old to the new record; the objects a method
    reaches through pointers or globals are arguments and results.  [uint64_t]
    values are [Z] with [u64] where the code can wrap around, [int] values [Z],
    with the range check written out where overflow can happen; [float]
    quotients are computed at binary32 precision (Float32.v), [double] arithmetic
    at binary64 precision (Double.v).  Loops over
    indices are [for_int] and [for_range]; loops bounded only by the data they
    consume are structural on that data or take fuel, and the theorems then say
    how much fuel is enough.

    ** Files

    Shared: Prelude.v (outcomes, loops, vectors, machine integers, record
    update), Csr.v (the mathematical graph behind CSR arrays), Layout.v (the
    interface [Layout]: what the preprocessor promises about memory regions),
    DramInterface.v (the interface [DramBackend] with its laws [DramLaws]: what
    a memory system offers to memory.cc, that it loses and invents no transaction,
    [DramTotal]: that it does not fail within a given number of cycles, and
    [DramLive]: that it answers in the end).

    The accelerator, src/src:
      - Common.v: common.h and the globals ([Env]);
      - Float32.v: [ceil((float)a / b)], checked against the standard library's
        specification of floating point;
      - Cache.v: cache.cc;  Preprocess.v: preprocessor.cc;
      - GraphDistribution.v, AddressMap.v: correctness of [LAC], [Tiling],
        [TransXW] and [AddressMapping];
      - Memory.v: memory.cc, over any [DramBackend];
      - GraphReader.v: g_reader.cc;  FeatureReader.v: f_reader.cc;
      - Simd.v: simd.cc;  Accelerator.v: controller.cc and the composition;
      - Inputs.v: the text files and the options (preprocessor.cc, main.cc);
      - Inference.v: the inference never fails;  Waiting.v: every request that is
        awaited is on its way;  Liveness.v: the inference ends;
      - Prepared.v: the preprocessor delivers what the inference needs;
      - Main.v: main.cc, end to end;  CsvLog.v: several runs at once, with the
        result directory, the lock file and the CSV file they share.

    The memory simulator, src/DRAMsim3/src:
      - DramCommon.v: common.h, common.cc;  IniReader.v, IniParser.v: the lookups
        and the parser of INIReader.h;
      - DramConfig.v: configuration.cc and the address mapping;
      - DramTiming.v: timing.cc;  BankState.v: bankstate.cc;
      - ChannelState.v: channel_state.cc;  ChannelTiming.v: runs of a channel;
      - SimpleStats.v: the counters of simple_stats.cc;  StatsReport.v: its energies
        and averages, the JSON object and the files, and what main.cc reads back;
        StatsFiles.v: what is in the files;  StatsRuns.v: the figures of whole runs
        of the JEDEC system;
      - CommandQueue.v: command_queue.cc;
      - Refresh.v: refresh.cc;  DramController.v: controller.cc;
      - ControllerSafety.v, ControllerBounds.v, ControllerLimits.v: runs of a
        channel controller, how much it holds, and the two settings in which it
        fails;
      - IdealDram.v, DramSystem.v: [IdealDRAMSystem] and [JedecDRAMSystem] of
        dram_system.cc, both instances of [DramBackend];
      - Hmc.v, HmcSafety.v: hmc.cc and runs of the memory cube, a third instance;
      - MemorySystem.v: memory_system.cc, the choice between JEDEC and HMC, and
        the configuration file;
      - Cpu.v: cpu.cc and main.cc, the stand-alone drivers.

    The libraries between the two, as far as the program uses them:
      - Double.v: double arithmetic, [strtod] and stream input, GetReal;
      - Grisu.v, GrisuCorrect.v: the printing of doubles in
        DRAMsim3/ext/headers/json.hpp (namespace dtoa_impl) and its correctness;
      - JsonWriter.v: the serializer of json.hpp;
      - JsonReader.v: [Json::Reader] and [Json::Value] of src/jsoncpp.cc;
      - JsonRoundTrip.v: what the one writes the other reads.

    ** What the theorems show

    The program as a whole (C1-C6): [main] on well-formed text files reads them,
    prepares the graph, simulates without a failure and ends only when every output
    line has been written back.  C1 is about the concrete memory systems; the
    others hold over any memory that obeys [DramLaws] (and [DramTotal] where
    nothing fails, [DramLive] where it ends).  In X_CMP and MAT mode the simulation
    does end, after finitely many cycles (C2, C6): a measure of what is left of
    the streams, the requests and the queues decreases in every cycle in which the
    memory answers.  The witnesses of the safety theorems run DRAMsim3's HBM2
    configuration, those of termination the ideal memory, which is shown to be
    live; the JEDEC and HMC systems are not.

    Preprocessing (C4, C7-C12): the sizes computed in single precision are exact;
    every row and edge of the graph ends up in exactly one engine, tile by tile;
    the regions of the layout are disjoint, aligned and in order; each stored
    feature line has its own address; the result is what the simulation needs.

    The engines (C13-C17): the graph reader emits exactly the edge stream of its
    subgraph, [bf] times, in order; the feature reader never fails and never
    requests a line twice; the SIMD unit writes every output line once; the cache
    is an LRU cache.

    The memory side (C18-C25): nothing is lost between the accelerator and the
    DRAM; any sequence of cycles and offers on the JEDEC system, and on a channel
    controller, succeeds, loses and invents no transaction, stays within the
    configured queues and acknowledges writes within two cycles; no timing
    constraint and no activation window is violated; the address mapping is a
    bijection.

    The statistics (C26-C32): epoch statistics add up; the report is well formed
    whenever it is printed; the figures [main] logs after
    any run of the JEDEC system are those of channel 0's counters; the file
    of the epochs is one JSON array.  Underneath, every value written by json.hpp is
    read back unchanged by jsoncpp; Grisu2 prints every double so that it is read
    back bit for bit; the reader of jsoncpp ends on every document.

    The memory cube (C33): runs of the cube never fail and lose nothing, for as
    many cycles as the [int] ages allow.

    Files, drivers and processes (C34-C38): graph, feature and memory configuration
    files are read back as they were written; the stand-alone drivers run, and a
    trace is replayed in order; runs that share a working directory lose no record,
    but the lock file does not keep them apart.

    Limits (C39, C40): with dual commands enabled the channel controller drops a
    read, and in the cube a write can take the response of a read of its address;
    the theorems exhibit the runs.

    ** Bounds and fuel

    [Accelerator.inference_loop] runs for a given number of cycles: the theorems
    hold for every number.  [GraphReader.skip_fuel] bounds the loop over empty
    rows by the rows of all remaining passes, [CommandQueue.issue_loop] makes one
    round over the queues as the code does.  [Hmc.logic_cycles] has a round per
    picosecond up to the next DRAM cycle, [Hmc.try_links] one per link; loops over
    text take the length of the text, and [JsonReader.parse] twice that length,
    which is enough because every token takes a character ([json_reader_total]).

    ** Not modelled

    The status messages and the text report of the statistics (laid out by fmt) are
    output only.  In the CSV record the two figures of the memory stand as the text
    that [operator<<] makes of them, which is an argument of [Main.sim_main].  The
    thermal model (thermal.cc) is compiled only with THERMAL and rests on SuperLU, a
    library that is not part of the repository.  Of json.hpp and jsoncpp only what
    the program calls is modelled; args.hxx, catch.hpp and fmt are not.  The order in
    which unordered maps are traversed is not fixed by the language; it shows only in
    the text report. *)

From stdpp Require Import base tactics list list_numbers numbers gmap.
From Stdlib Require Import ZArith Lia.

#[global] Open Scope Z_scope.

(** ** Outcomes of fallible code

    The C++ code leaves a function in one of the following abnormal ways:
    [AbruptExit] / [exit(1)], an exception, or behaviour the language leaves
    undefined (an out-of-range [operator[]], an integer division by zero). *)
Inductive fault :=
  | AbruptExit        (** [AbruptExit(__FILE__, __LINE__)] *)
  | ExitFailure       (** [exit(1)] *)
  | InvalidArgument   (** [throw invalid_argument(...)], from the code or from [stoi]/[stoull] *)
  | OutOfRange        (** [throw out_of_range(...)] *)
  | AssertFailed      (** a failed [assert] *)
  | LengthError       (** [throw length_error(...)], from [reserve] *)
  | Thrown            (** an exception thrown by one of the JSON libraries *)
  | Undefined.        (** undefined behaviour *)

#[export] Instance fault_eq_dec : EqDecision fault.
Proof. solve_decision. Defined.

Inductive outcome (A : Type) :=
  | Ok (a : A)
  | Fault (f : fault).
Arguments Ok {A} a.
Arguments Fault {A} f.

#[export] Instance outcome_ret : MRet outcome := @Ok.
#[export] Instance outcome_bind : MBind outcome := fun A B k m =>
  match m with Ok a => k a | Fault f => Fault f end.

Lemma bind_ok {A B} (m : outcome A) (k : A -> outcome B) b :
  (m ≫= k) = Ok b <-> exists a, m = Ok a /\ k a = Ok b.
Proof. destruct m; simpl; naive_solver. Qed.

(** [ok_inv H] opens every bind of a successful computation [H : _ = Ok _]. *)
Ltac ok_inv H :=
  lazymatch type of H with
  | (_ ≫= _) = Ok _ =>
      let a := fresh "r" in let H1 := fresh "E" in
      apply bind_ok in H; destruct H as (a & H1 & H); ok_inv H1; ok_inv H
  | mret _ = Ok _ => injection H as H; try subst
  | Ok _ = Ok _ => injection H as H; try subst
  | Fault _ = Ok _ => discriminate H
  | _ => idtac
  end.

(** ** Loops *)
Fixpoint for_each {A S : Type} (f : A -> S -> outcome S) (l : list A) (s : S) : outcome S :=
  match l with
  | [] => Ok s
  | x :: l => s' ← f x s; for_each f l s'
  end.

(** [for (int i = 0; i < n; i++)] *)
Definition for_int {S : Type} (n : Z) (f : Z -> S -> outcome S) (s : S) : outcome S :=
  for_each f (seqZ 0 n) s.

(** [for (int i = a; i < b; i++)] *)
Definition for_range {S : Type} (a b : Z) (f : Z -> S -> outcome S) (s : S) : outcome S :=
  for_each f (seqZ a (b - a)) s.

Section for_each.
Context {A S : Type} (f : A -> S -> outcome S).

Lemma for_each_app l1 l2 s :
  for_each f (l1 ++ l2) s = (for_each f l1 s ≫= for_each f l2).
Proof.
  revert s; induction l1 as [|x l1 IH]; intros s; simpl; [done|].
  destruct (f x s); simpl; auto.
Qed.

Lemma for_each_inv (P : S -> Prop) l s s' :
  (forall x t t', x ∈ l -> P t -> f x t = Ok t' -> P t') ->
  P s -> for_each f l s = Ok s' -> P s'.
Proof.
  revert s; induction l as [|x l IH]; simpl; intros s Hf Hs H; ok_inv H; [done|].
  apply (IH r); [|by apply (Hf x s r); [set_solver|..]|done].
  intros y t t' Hy; apply Hf; set_solver.
Qed.

Lemma for_each_total (P : S -> Prop) l s :
  (forall x t, x ∈ l -> P t -> exists t', f x t = Ok t' /\ P t') ->
  P s -> exists s', for_each f l s = Ok s' /\ P s'.
Proof.
  revert s; induction l as [|x l IH]; simpl; intros s Hf Hs; [eauto|].
  destruct (Hf x s) as (t & -> & Ht); [set_solver|done|].
  apply IH; [|done]. intros; apply Hf; [set_solver|done].
Qed.

Lemma for_each_ext g l s :
  (forall x t, x ∈ l -> f x t = g x t) -> for_each f l s = for_each g l s.
Proof.
  revert s; induction l as [|x l IH]; simpl; intros s H; [done|].
  rewrite H by set_solver. destruct (g x s); simpl; [|done].
  apply IH; set_solver.
Qed.
End for_each.

Lemma for_each_fmap {A B S} (h : A -> B) (f : B -> S -> outcome S) l s :
  for_each f (h <$> l) s = for_each (fun a => f (h a)) l s.
Proof.
  revert s; induction l as [|a l IH]; intros s; [done|]. rewrite fmap_cons. simpl.
  destruct (f (h a) s); simpl; auto.
Qed.

Lemma seqZ_one m : seqZ m 1 = [m].
Proof. by rewrite seqZ_cons by lia. Qed.

(** A counting loop follows the states [g a], [g (a + 1)], ..., [g b]. *)
Lemma for_range_steps {S : Type} (a b : Z) (f : Z -> S -> outcome S) (g : Z -> S) :
  a <= b -> (forall i, a <= i < b -> f i (g i) = Ok (g (i + 1))) ->
  for_range a b f (g a) = Ok (g b).
Proof.
  intros Hab Hf. unfold for_range. remember (Z.to_nat (b - a)) as m eqn:Hm.
  replace b with (a + Z.of_nat m) in * by lia. clear Hm Hab b.
  replace (a + Z.of_nat m - a) with (Z.of_nat m) by lia.
  induction m as [|m IH]; simpl; [by rewrite Z.add_0_r|].
  replace (Z.pos (Pos.of_succ_nat m)) with (Z.of_nat (Datatypes.S m)) by lia.
  rewrite seqZ_S, for_each_app, IH by (intros; apply Hf; lia).
  simpl. rewrite Hf by lia. simpl. do 2 f_equal. lia.
Qed.

Lemma for_int_steps {S : Type} (m : Z) (f : Z -> S -> outcome S) (g : Z -> S) :
  0 <= m -> (forall i, 0 <= i < m -> f i (g i) = Ok (g (i + 1))) ->
  for_int m f (g 0) = Ok (g m).
Proof.
  intros Hm Hf. pose proof (for_range_steps 0 m f g Hm Hf) as H.
  unfold for_range in H. by rewrite Z.sub_0_r in H.
Qed.

(** The same for an invariant indexed by the loop counter. *)
Lemma for_int_ind {S : Type} (m : Z) (f : Z -> S -> outcome S) (P : Z -> S -> Prop) s :
  0 <= m -> P 0 s ->
  (forall i t, 0 <= i < m -> P i t -> exists t', f i t = Ok t' /\ P (i + 1) t') ->
  exists s', for_int m f s = Ok s' /\ P m s'.
Proof.
  intros Hm H0 Hf. unfold for_int. rewrite <- (Z2Nat.id m Hm) in *.
  generalize dependent (Z.to_nat m). clear m Hm. intros m.
  induction m as [|m IH]; intros Hf; [by exists s|].
  rewrite seqZ_S, for_each_app. destruct IH as (t & -> & Ht); [intros; apply Hf; [lia|done]|].
  destruct (Hf (Z.of_nat m) t) as (t' & Ef & Ht'); [lia|done|].
  cbn [mbind outcome_bind for_each]. rewrite Z.add_0_l, Ef. exists t'. split; [done|].
  by replace (Z.of_nat (Datatypes.S m)) with (Z.of_nat m + 1) by lia.
Qed.

(** ** Vectors: [v[i]] with the undefined behaviour out of range written out *)
Definition vget {A} (v : list A) (i : Z) : outcome A :=
  if decide (i < 0) then Fault Undefined
  else match v !! Z.to_nat i with Some a => Ok a | None => Fault Undefined end.

Definition vset {A} (v : list A) (i : Z) (a : A) : outcome (list A) :=
  if decide (0 <= i < Z.of_nat (length v)) then Ok (<[Z.to_nat i := a]> v) else Fault Undefined.

Definition vsize {A} (v : list A) : Z := Z.of_nat (length v).

(** [v[i] = g(v[i])] *)
Definition vupd {A} (v : list A) (i : Z) (g : A -> A) : outcome (list A) :=
  a ← vget v i; vset v i (g a).

(** [v[i].push_back(a)] *)
Definition vpush {A} (v : list (list A)) (i : Z) (a : A) : outcome (list (list A)) :=
  vupd v i (fun w => w ++ [a]).

Lemma vget_ok {A} (v : list A) i a :
  vget v i = Ok a <-> 0 <= i /\ v !! Z.to_nat i = Some a.
Proof. unfold vget. destruct (decide (i < 0)), (v !! Z.to_nat i) eqn:?; naive_solver lia. Qed.

Lemma vget_total {A} (v : list A) i : 0 <= i < vsize v -> exists a, vget v i = Ok a.
Proof.
  unfold vsize; intros Hi. destruct (lookup_lt_is_Some_2 v (Z.to_nat i)) as [a Ha]; [lia|].
  exists a. apply vget_ok. split; [lia|done].
Qed.

Lemma vset_ok {A} (v : list A) i a v' :
  vset v i a = Ok v' <-> 0 <= i < vsize v /\ v' = <[Z.to_nat i := a]> v.
Proof. unfold vset, vsize. destruct (decide _); naive_solver. Qed.

Lemma vset_vsize {A} (v v' : list A) i a : vset v i a = Ok v' -> vsize v' = vsize v.
Proof. intros [_ ->]%vset_ok. unfold vsize. by rewrite length_insert. Qed.

Lemma vset_total {A} (v : list A) i a : 0 <= i < vsize v -> exists v', vset v i a = Ok v' /\ vsize v' = vsize v.
Proof.
  intros Hi. destruct (vset v i a) as [v'|] eqn:E; [exists v'; split; [done|by eapply vset_vsize]|].
  unfold vset in E. rewrite decide_True in E by (unfold vsize in Hi; lia). discriminate E.
Qed.

Lemma vget_vset_eq {A} (v v' : list A) i a : vset v i a = Ok v' -> vget v' i = Ok a.
Proof.
  intros [Hi ->]%vset_ok. apply vget_ok. split; [lia|].
  apply list_lookup_insert_eq. unfold vsize in *; lia.
Qed.

Lemma vget_vset_ne {A} (v v' : list A) i j a :
  i <> j -> vset v i a = Ok v' -> vget v' j = vget v j.
Proof.
  intros Hij [Hi ->]%vset_ok. unfold vget. case_decide; [done|].
  rewrite list_lookup_insert_ne; [done|]. lia.
Qed.

Lemma vsize_nonneg {A} (v : list A) : 0 <= vsize v.
Proof. unfold vsize; lia. Qed.

Lemma vsize_app {A} (v w : list A) : vsize (v ++ w) = vsize v + vsize w.
Proof. unfold vsize. rewrite length_app. lia. Qed.

Lemma vsize_replicate {A} n (x : A) : 0 <= n -> vsize (replicate (Z.to_nat n) x) = n.
Proof. intros Hn. unfold vsize. rewrite length_replicate. lia. Qed.

(** ** Tabulated vectors: a vector of [n] entries given by a function of the index.
    The loops that fill a vector are proved by following this form. *)
Definition tab {A} (n : Z) (f : Z -> A) : list A := f <$> seqZ 0 n.

Definition upd {A} (f : Z -> A) (i : Z) (a : A) : Z -> A :=
  fun j => if decide (j = i) then a else f j.

Lemma upd_eq {A} (f : Z -> A) i a : upd f i a i = a.
Proof. unfold upd. by rewrite decide_True. Qed.

Lemma upd_ne {A} (f : Z -> A) i j a : j <> i -> upd f i a j = f j.
Proof. intros. unfold upd. by rewrite decide_False. Qed.

Section tab.
Context {A : Type} (n : Z).
Implicit Types f g : Z -> A.

Lemma tab_lookup f (i : nat) : Z.of_nat i < n -> tab n f !! i = Some (f (Z.of_nat i)).
Proof.
  intros Hi. unfold tab. rewrite list_lookup_fmap, lookup_seqZ_lt by lia. simpl. f_equal.
Qed.

Lemma tab_length f : length (tab n f) = Z.to_nat n.
Proof. unfold tab. by rewrite length_fmap, length_seqZ. Qed.

Lemma vsize_tab f : 0 <= n -> vsize (tab n f) = n.
Proof. intros. unfold vsize. rewrite tab_length. lia. Qed.

Lemma vget_tab f i : 0 <= i < n -> vget (tab n f) i = Ok (f i).
Proof.
  intros Hi. apply vget_ok. split; [lia|]. rewrite tab_lookup by lia. f_equal. f_equal. lia.
Qed.

Lemma vget_tab_inv f i a : vget (tab n f) i = Ok a -> 0 <= i < n /\ a = f i.
Proof.
  intros [Hi H]%vget_ok. pose proof (lookup_lt_Some _ _ _ H) as Hl. rewrite tab_length in Hl.
  rewrite tab_lookup in H by lia. rewrite Z2Nat.id in H by lia. split; [lia|congruence].
Qed.

Lemma tab_ext f g : (forall i, 0 <= i < n -> f i = g i) -> tab n f = tab n g.
Proof.
  intros H. unfold tab. apply list_fmap_ext. intros k i [-> Hi]%lookup_seqZ. apply H. lia.
Qed.

Lemma tab_replicate (a : A) : replicate (Z.to_nat n) a = tab n (fun _ => a).
Proof.
  unfold tab. apply list_eq. intros k.
  rewrite list_lookup_fmap. destruct (decide (k < Z.to_nat n)%nat).
  - rewrite lookup_replicate_2, lookup_seqZ_lt by lia. done.
  - rewrite (lookup_ge_None_2 (replicate _ _)) by (rewrite length_replicate; lia).
    by rewrite lookup_seqZ_ge by lia.
Qed.

Lemma vset_tab f i a : 0 <= i < n -> vset (tab n f) i a = Ok (tab n (upd f i a)).
Proof.
  intros Hi. apply vset_ok. rewrite vsize_tab by lia. split; [lia|].
  apply list_eq. intros k. destruct (decide (Z.of_nat k < n)).
  - rewrite tab_lookup by lia. destruct (decide (k = Z.to_nat i)) as [->|Hk].
    + rewrite list_lookup_insert_eq by (rewrite tab_length; lia).
      rewrite Z2Nat.id by lia. by rewrite upd_eq.
    + rewrite list_lookup_insert_ne by lia. rewrite tab_lookup by lia.
      by rewrite upd_ne by lia.
  - rewrite !(proj2 (lookup_ge_None _ _)); [done|..];
      rewrite ?length_insert, tab_length; lia.
Qed.

Lemma vupd_tab f i (h : A -> A) :
  0 <= i < n -> vupd (tab n f) i h = Ok (tab n (upd f i (h (f i)))).
Proof. intros Hi. unfold vupd. rewrite vget_tab by done. simpl. by apply vset_tab. Qed.
End tab.

Lemma vpush_tab {A} n (f : Z -> list A) i a :
  0 <= i < n -> vpush (tab n f) i a = Ok (tab n (upd f i (f i ++ [a]))).
Proof. intros Hi. unfold vpush. by rewrite vupd_tab. Qed.

Lemma filter_keep_all {A} (P : A -> Prop) `{!forall x, Decision (P x)} (l : list A) :
  (forall x, x ∈ l -> P x) -> filter P l = l.
Proof.
  induction l as [|x l IH]; intros Hp; [done|].
  rewrite filter_cons_True by set_solver. f_equal. apply IH. set_solver.
Qed.

(** ** Prefix sums *)
Fixpoint psum_nat (f : Z -> Z) (n : nat) : Z :=
  match n with O => 0 | S n => psum_nat f n + f (Z.of_nat n) end.

(** [f 0 + ... + f (n - 1)] *)
Definition psum (f : Z -> Z) (n : Z) : Z := psum_nat f (Z.to_nat n).

Lemma psum_0 f : psum f 0 = 0.
Proof. done. Qed.

Lemma psum_succ f n : 0 <= n -> psum f (n + 1) = psum f n + f n.
Proof.
  intros Hn. unfold psum. replace (Z.to_nat (n + 1)) with (S (Z.to_nat n)) by lia.
  simpl. by rewrite Z2Nat.id by lia.
Qed.

Lemma psum_mono f i j : (forall k, 0 <= f k) -> 0 <= i <= j -> psum f i <= psum f j.
Proof.
  intros Hf Hij. replace j with (i + Z.of_nat (Z.to_nat (j - i))) by lia.
  induction (Z.to_nat (j - i)) as [|k IH]; [rewrite Z.add_0_r; lia|].
  replace (i + Z.of_nat (S k)) with (i + Z.of_nat k + 1) by lia.
  rewrite psum_succ by lia. specialize (Hf (i + Z.of_nat k)). lia.
Qed.

Lemma psum_nonneg f n : (forall k, 0 <= f k) -> 0 <= n -> 0 <= psum f n.
Proof. intros Hf Hn. rewrite <- (psum_0 f). by apply psum_mono. Qed.

(** Changing one term changes the sum by the difference. *)
Lemma psum_upd f n i x : 0 <= i < n -> psum (upd f i x) n = psum f n - f i + x.
Proof.
  intros Hi. replace n with (i + 1 + Z.of_nat (Z.to_nat (n - (i + 1)))) by lia.
  induction (Z.to_nat (n - (i + 1))) as [|k IH].
  - rewrite Z.add_0_r, !psum_succ, upd_eq by lia.
    assert (psum (upd f i x) i = psum f i) as ->; [|lia].
    unfold psum. assert (Hle : Z.of_nat (Z.to_nat i) <= i) by lia. revert Hle.
    induction (Z.to_nat i) as [|m IHm]; intros Hle; simpl; [done|].
    rewrite IHm by lia. by rewrite upd_ne by lia.
  - replace (i + 1 + Z.of_nat (S k)) with (i + 1 + Z.of_nat k + 1) by lia.
    rewrite !psum_succ, IH by lia. rewrite upd_ne by lia. lia.
Qed.

Lemma psum_le f g n : (forall k, 0 <= k < n -> f k <= g k) -> psum f n <= psum g n.
Proof.
  intros H. destruct (decide (n <= 0)) as [Hn|Hn].
  { unfold psum. by replace (Z.to_nat n) with 0%nat by lia. }
  replace n with (Z.of_nat (Z.to_nat n)) in * by lia. unfold psum. rewrite Nat2Z.id.
  induction (Z.to_nat n) as [|m IH]; simpl; [done|].
  assert (f (Z.of_nat m) <= g (Z.of_nat m)) by (apply H; lia).
  destruct (decide (Z.of_nat m <= 0)); [replace m with 0%nat in * by lia; simpl in *; lia|].
  assert (psum_nat f m <= psum_nat g m); [|lia]. apply IH; [intros; apply H; lia|lia].
Qed.

Lemma psum_ext f g n : (forall k, 0 <= k < n -> f k = g k) -> psum f n = psum g n.
Proof. intros H. apply Z.le_antisymm; apply psum_le; intros k Hk; rewrite H; lia. Qed.

Lemma psum_zero n : psum (fun _ => 0) n = 0.
Proof. unfold psum. induction (Z.to_nat n) as [|m IH]; simpl; lia. Qed.

(** Sums of dominated terms are equal only when all the terms are. *)
Lemma psum_tight f g n :
  (forall k, 0 <= k < n -> f k <= g k) -> psum g n <= psum f n -> forall k, 0 <= k < n -> f k = g k.
Proof.
  intros Hle Hs k Hk. pose proof (Hle k Hk). destruct (decide (f k = g k)) as [|Hne]; [done|].
  pose proof (psum_upd f n k (g k) Hk) as E.
  assert (psum (upd f k (g k)) n <= psum g n); [|lia].
  apply psum_le. intros j Hj. unfold upd. destruct (decide (j = k)) as [->|]; [lia|auto].
Qed.

(** A sum whose terms change at one place. *)
Lemma psum_local f g n i :
  0 <= i < n -> (forall k, 0 <= k < n -> k <> i -> g k = f k) -> psum g n = psum f n - f i + g i.
Proof.
  intros Hi Hf. rewrite <- psum_upd by done. apply psum_ext. intros k Hk. unfold upd.
  destruct (decide (k = i)) as [->|]; auto.
Qed.

Lemma psum_ge f n i : 0 <= i < n -> (forall k, 0 <= k < n -> 0 <= f k) -> f i <= psum f n.
Proof.
  intros Hi Hf. pose proof (psum_upd f n i 0 Hi) as E. rewrite <- (psum_zero n) in E at 1.
  assert (psum (fun _ => 0) n <= psum (upd f i 0) n); [|rewrite psum_zero in *; lia].
  apply psum_le. intros k Hk. unfold upd. destruct (decide (k = i)); auto with lia.
Qed.

(** ** 64-bit unsigned arithmetic *)
Definition u64 (x : Z) : Z := x mod 2 ^ 64.
Definition u64_max : Z := 2 ^ 64 - 1.

(** Conversion to [int]. *)
Definition i32 (x : Z) : Z := (x + 2 ^ 31) mod 2 ^ 32 - 2 ^ 31.

Lemma i32_small x : - 2 ^ 31 <= x < 2 ^ 31 -> i32 x = x.
Proof. intros. unfold i32. rewrite Z.mod_small; lia. Qed.

Lemma u64_small x : 0 <= x < 2 ^ 64 -> u64 x = x.
Proof. apply Z.mod_small. Qed.

Lemma u64_add_l x y : u64 (u64 x + y) = u64 (x + y).
Proof. unfold u64. by rewrite Z.add_mod_idemp_l by lia. Qed.

Lemma u64_range x : 0 <= u64 x < 2 ^ 64.
Proof. apply Z.mod_pos_bound. lia. Qed.

(** ** Lexicographic descent

    [lexlt l l'] for vectors of the same length: the first entry that differs is
    smaller in [l], and not negative.  There is no infinite descent. *)
Fixpoint lexlt (l l' : list Z) : Prop :=
  match l, l' with
  | x :: l, y :: l' => (0 <= x < y /\ length l = length l') \/ (x = y /\ lexlt l l')
  | _, _ => False
  end.

Lemma lexlt_length l l' : lexlt l l' -> length l = length l'.
Proof.
  revert l'. induction l as [|x l IH]; intros [|y l']; simpl; try done.
  intros [[_ ->]|[_ Hl]]; [done|]. by rewrite (IH l' Hl).
Qed.

Lemma lexlt_trans l1 l2 l3 : lexlt l1 l2 -> lexlt l2 l3 -> lexlt l1 l3.
Proof.
  revert l2 l3. induction l1 as [|x l1 IH]; intros [|y l2] [|z l3]; simpl; try done.
  intros [[H1 E1]|[-> H1]] [[H2 E2]|[-> H2]]; [left; split; [lia|congruence]|left; split; [lia|] ..|right; eauto].
  - pose proof (lexlt_length _ _ H2). congruence.
  - pose proof (lexlt_length _ _ H1). congruence.
Qed.

Lemma lexlt_app_l l l' t t' : lexlt l l' -> length t = length t' -> lexlt (l ++ t) (l' ++ t').
Proof.
  revert l'. induction l as [|x l IH]; intros [|y l']; simpl; try done.
  intros [[H1 E1]|[-> H1]] Ht; [left|right; auto]. split; [done|]. rewrite !length_app. congruence.
Qed.

Lemma lexlt_app_r l t t' : lexlt t t' -> lexlt (l ++ t) (l ++ t').
Proof. intros Ht. induction l as [|x l IH]; [done|]. by right. Qed.

Lemma lexlt_Acc k : forall l, length l = k -> Acc lexlt l.
Proof.
  induction k as [|k IH]; intros l Hl.
  { constructor. intros l' Hlt. destruct l; [|done]. by destruct l'. }
  destruct l as [|x l]; [done|]. injection Hl as Hl.
  assert (Htail : forall x, (forall y l, 0 <= y < x -> length l = k -> Acc lexlt (y :: l)) ->
    forall l, length l = k -> Acc lexlt (x :: l)).
  { clear x l Hl. intros x Hx l Hl. pose proof (IH l Hl) as Ha. induction Ha as [l _ IHl].
    constructor. intros [|y l'] Hlt; [done|]. destruct Hlt as [[Hy Hlen]|[-> Hlt]].
    - apply Hx; [done|congruence].
    - apply IHl; [done|]. pose proof (lexlt_length _ _ Hlt). congruence. }
  assert (Hnat : forall m x, x < Z.of_nat m -> forall l, length l = k -> Acc lexlt (x :: l)).
  { clear x l Hl. induction m as [|m IHm]; intros x Hx l Hl.
    - apply Htail; [|done]. intros y l' Hy. lia.
    - apply Htail; [|done]. intros y l' Hy Hl'. apply IHm; [lia|done]. }
  apply (Hnat (S (Z.to_nat x))); [lia|done].
Qed.

(** ** Hints

    [vec] rewrites sizes and reads of vectors, [vec_solve] closes the size and
    range side conditions that come with them. *)
Create HintDb vec.
#[export] Hint Rewrite @vsize_app @upd_eq u64_add_l : vec.
#[export] Hint Rewrite @vsize_tab @vget_tab @vset_tab @vupd_tab @vpush_tab using lia : vec.
#[export] Hint Resolve vsize_nonneg u64_range : vec.
#[export] Hint Resolve vget_total psum_nonneg psum_ext : vec.

Ltac vec_solve := autorewrite with vec; auto with vec; try lia.

(** ** Record update: [r <| field := v |>]

    [eta_fields] rebuilds a record from its projections; [build_setter]
    abstracts one projection of that expansion. *)
Class Fields (R : Type) := eta_fields : R -> R.
Class Setter {R E : Type} (proj : R -> E) := put : E -> R -> R.
Arguments put {R E} proj {_} v r /.
#[export] Typeclasses Opaque Setter Fields.

Ltac build_setter proj :=
  lazymatch type of proj with
  | ?R -> ?E =>
      let eta := constr:(_ : Fields R) in
      let eta := eval hnf in eta in
      exact (fun (v : E) (r : R) =>
        ltac:(let b := eval cbv beta in (eta r) in
              let g := eval pattern (proj r) in b in
              lazymatch g with ?h _ => let b' := eval cbv beta in (h v) in exact b' end))
  end.

#[export] Hint Extern 1 (Setter ?p) => build_setter p : typeclass_instances.

Declare Scope record_scope.
#[global] Open Scope record_scope.
Notation "r <| p := v |>" := (put p v r)
  (at level 8, left associativity, p at level 1, v at level 99,
   format "r  <| p  :=  v |>") : record_scope.
