(* ===== verification/Common.v ===== *)
(** * The shared data of the accelerator model (src/common.h)

    The enumerations and records every component of the simulator uses: the
    architecture and data descriptions, the per-engine index record, the edge
    descriptor passed from the graph reader to the feature reader and the
    memory transaction.  [int] fields are [Z]; [uint64_t] fields are [Z] kept in
    range by the operations that compute them ([u64]). *)

From stdpp Require Import base tactics list list_numbers numbers strings gmap.
From Stdlib Require Import ZArith Lia.
From S2P Require Import Prelude.

Definition WRITE : bool := true.
Definition READ : bool := false.

Definition CACHE_LINE_COUNT : Z := 16.
Definition CACHE_LINE_BYTE : Z := 64.
Definition REQUEST_LIMIT : Z := 10240.

Inductive R_TYPE := Row | Column | Value | Empty.
Inductive F_MODE := X_CMP | MAT | CSR | X_FULL_CMP.
Inductive GNN_MODE := GCN | OTHER.

#[export] Instance R_TYPE_eq_dec : EqDecision R_TYPE.
Proof. solve_decision. Defined.
#[export] Instance F_MODE_eq_dec : EqDecision F_MODE.
Proof. solve_decision. Defined.
#[export] Instance GNN_MODE_eq_dec : EqDecision GNN_MODE.
Proof. solve_decision. Defined.

Record ArchInfo := mkArchInfo {
  n_of_engine : Z;
  cache_size : Z;
  cache_way : Z;
  cache_set : Z;
  urb : Z;
  bf : Z;
  lac_width : Z;
  x_unit : Z;
  mode : F_MODE;
  gnn_mode : GNN_MODE;
  d_value_addr_start : Z;
  a_row_addr_start : Z;
  a_col_addr_start : Z;
  xw_ele_addr_start : Z;
  axw_addr_start : Z;
  mem_type : string;
  mem_output : string
}.

#[export] Instance ArchInfo_fields : Fields ArchInfo := fun a =>
  mkArchInfo (n_of_engine a) (cache_size a) (cache_way a) (cache_set a) (urb a) (bf a)
    (lac_width a) (x_unit a) (mode a) (gnn_mode a) (d_value_addr_start a)
    (a_row_addr_start a) (a_col_addr_start a) (xw_ele_addr_start a) (axw_addr_start a)
    (mem_type a) (mem_output a).

Record DataInfo := mkDataInfo {
  a_h : Z;
  a_w : Z;
  x_h : Z;
  x_w : Z;
  w_h : Z;
  w_w : Z;
  n_tiles : Z;
  total_urb : Z;
  num_e : Z;
  num_v : Z
}.

#[export] Instance DataInfo_fields : Fields DataInfo := fun d =>
  mkDataInfo (a_h d) (a_w d) (x_h d) (x_w d) (w_h d) (w_w d) (n_tiles d) (total_urb d)
    (num_e d) (num_v d).

Record DataIndex := mkDataIndex {
  value_addr_start : Z;
  value_addr_end : Z;
  row_addr_start : Z;
  row_addr_end : Z;
  col_addr_start : Z;
  col_addr_end : Z;
  row : Z;
  zero_row : Z;
  di_total_write : Z
}.

#[export] Instance DataIndex_fields : Fields DataIndex := fun d =>
  mkDataIndex (value_addr_start d) (value_addr_end d) (row_addr_start d) (row_addr_end d)
    (col_addr_start d) (col_addr_end d) (row d) (zero_row d) (di_total_write d).

(** [DataIndex()]: value initialisation zeroes every member. *)
Definition DataIndex_default : DataIndex := mkDataIndex 0 0 0 0 0 0 0 0 0.

Record EdgeInfo := mkEdgeInfo {
  ei_id : Z;
  ei_is_last : bool;
  ei_dst : Z;
  ei_v_fold : Z
}.

#[export] Instance EdgeInfo_eq_dec : EqDecision EdgeInfo.
Proof. solve_decision. Defined.

Record Transaction := mkTransaction {
  t_address : Z;
  t_is_write : bool
}.

#[export] Instance Transaction_eq_dec : EqDecision Transaction.
Proof. solve_decision. Defined.

(** The globals of preprocessor.cc that the simulation loop only reads. *)
Record Env := mkEnv {
  arch_info : ArchInfo;
  data_info : DataInfo;
  data_index : list DataIndex;
  row_ptr : list (list Z);
  col_idx : list (list Z);
  x_to_addr : list (list Z)
}.

#[export] Instance Env_fields : Fields Env := fun e =>
  mkEnv (arch_info e) (data_info e) (data_index e) (row_ptr e) (col_idx e) (x_to_addr e).
