(* ===== verification/Float32.v ===== *)
(** * Single-precision division and ceiling

    The sources compute every block count as [ceil((float)a / b)] or
    [ceil((float)a / b / c)] in IEEE binary32.  This file models that
    arithmetic: a finite float is a pair (numerator, positive denominator), and
    every conversion and division rounds to the nearest 24-bit significand, ties
    to even.  The operands are [int]s, so the exponent range (no overflow, no
    subnormal) is never reached and is not modelled.  Division by zero, whose
    infinite result makes the conversion back to [int] undefined, is a fault. *)

From stdpp Require Import base tactics list list_numbers numbers strings gmap.
From Stdlib Require Import ZArith Lia Floats.SpecFloat.
From S2P Require Import Prelude.

(** A float as a rational [num / den], [den > 0]. *)
Definition float32 : Type := Z * Z.

(** Round to the nearest integer of [n / d], ties to even. *)
Definition rne (n d : Z) : Z :=
  let q := n / d in
  let r := n mod d in
  if 2 * r <? d then q
  else if d <? 2 * r then q + 1
  else if Z.even q then q else q + 1.

(** The binary logarithm of a fraction, rounded down: [2^k <= n / d < 2^(k+1)] for
    [n, d > 0]. *)
Definition log2_ratio (n d : Z) : Z :=
  let k := Z.log2 n - Z.log2 d in
  if n * 2 ^ Z.max 0 (- k) <? d * 2 ^ Z.max 0 k then k - 1 else k.

(** The binary exponent that leaves a 24-bit significand:
    [2^23 <= (n / d) / 2^e < 2^24]. *)
Definition f32_exp (n d : Z) : Z := log2_ratio n d - 23.

Definition f32_round_pos (n d : Z) : float32 :=
  let e := f32_exp n d in
  (rne (n * 2 ^ Z.max 0 (- e)) (d * 2 ^ Z.max 0 e) * 2 ^ Z.max 0 e, 2 ^ Z.max 0 (- e)).

(** The binary32 number nearest to [n / d], [d > 0]. *)
Definition f32_round (n d : Z) : float32 :=
  if n =? 0 then (0, 1)
  else if n <? 0 then let '(m, s) := f32_round_pos (- n) d in (- m, s)
  else f32_round_pos n d.

(** [(float)a] for an [int] or a [size_t] [a]. *)
Definition f32_of_Z (a : Z) : float32 := f32_round a 1.

(** [x / (float)b] *)
Definition f32_div (x y : float32) : outcome float32 :=
  let '(xn, xd) := x in
  let '(yn, yd) := y in
  if yn =? 0 then Fault Undefined
  else if yn <? 0 then Ok (f32_round (- (xn * yd)) (xd * - yn))
  else Ok (f32_round (xn * yd) (xd * yn)).

(** [ceil], an exact operation. *)
Definition f32_ceil (x : float32) : Z := let '(n, d) := x in - ((- n) / d).

(** [(int)ceil((float)a / b)] *)
Definition ceil_div (a b : Z) : outcome Z :=
  x ← f32_div (f32_of_Z a) (f32_of_Z b);
  Ok (f32_ceil x).

(** [(int)ceil((float)a / b / c)] *)
Definition ceil_div2 (a b c : Z) : outcome Z :=
  x ← f32_div (f32_of_Z a) (f32_of_Z b);
  y ← f32_div x (f32_of_Z c);
  Ok (f32_ceil y).

(** The exact ceiling division the code means. *)
Definition cdiv (a b : Z) : Z := - ((- a) / b).

(** ** Rounding lemmas *)

Lemma rne_bounds n d : 0 < d -> 2 * Z.abs (rne n d * d - n) <= d.
Proof.
  intros Hd. unfold rne. pose proof (Z.div_mod n d ltac:(lia)) as E.
  pose proof (Z.mod_pos_bound n d Hd). set (q := n / d) in *. set (r := n mod d) in *.
  clearbody q r. assert (E0 : q * d - n = - r) by (rewrite E; ring).
  assert (E1 : (q + 1) * d - n = d - r) by (rewrite E; ring).
  destruct (Z.ltb_spec (2 * r) d); [rewrite E0; lia|].
  destruct (Z.ltb_spec d (2 * r)); [rewrite E1; lia|].
  destruct (Z.even q); [rewrite E0|rewrite E1]; lia.
Qed.

Lemma rne_exact m d : 0 < d -> rne (m * d) d = m.
Proof.
  intros Hd. unfold rne. rewrite Z.mod_mul, Z.div_mul by lia.
  destruct (Z.ltb_spec (2 * 0) d); lia.
Qed.

Lemma rne_le n d m : 0 < d -> n <= m * d -> rne n d <= m.
Proof. intros Hd Hn. pose proof (rne_bounds n d Hd). nia. Qed.

Lemma pow2_pos k : 0 <= k -> 0 < 2 ^ k.
Proof. intros. by apply Z.pow_pos_nonneg. Qed.

Lemma max_pow_pos k : 0 < 2 ^ Z.max 0 k.
Proof. apply pow2_pos. lia. Qed.

(** The two scale factors of an exponent differ by exactly [2^e]. *)
Lemma scale_shift k : 2 ^ Z.max 0 (k + 1) * 2 ^ Z.max 0 (- k) =
                      2 * (2 ^ Z.max 0 k * 2 ^ Z.max 0 (- (k + 1))).
Proof.
  transitivity (2 ^ (Z.max 0 (k + 1) + Z.max 0 (- k))); [by rewrite Z.pow_add_r by lia|].
  replace (Z.max 0 (k + 1) + Z.max 0 (- k)) with (1 + (Z.max 0 k + Z.max 0 (- (k + 1)))) by lia.
  by rewrite !Z.pow_add_r by lia.
Qed.

(** [n / d] compared with [2^k], scale factors written out. *)
Definition ge_pow (n d k : Z) : Prop := d * 2 ^ Z.max 0 k <= n * 2 ^ Z.max 0 (- k).

Lemma ge_pow_anti n d k : 0 < n -> 0 < d -> ge_pow n d (k + 1) -> ge_pow n d k.
Proof.
  unfold ge_pow. intros Hn Hd H. pose proof (scale_shift k).
  pose proof (max_pow_pos k). pose proof (max_pow_pos (- k)).
  pose proof (max_pow_pos (k + 1)). pose proof (max_pow_pos (- (k + 1))).
  set (a := 2 ^ Z.max 0 (k + 1)) in *. set (b := 2 ^ Z.max 0 (- k)) in *.
  set (a' := 2 ^ Z.max 0 k) in *. set (b' := 2 ^ Z.max 0 (- (k + 1))) in *.
  assert (d * a * b <= n * b' * b) by nia. nia.
Qed.

Lemma ge_pow_log n d :
  0 < n -> 0 < d ->
  let k := Z.log2 n - Z.log2 d in ge_pow n d (k - 1) /\ ~ ge_pow n d (k + 1).
Proof.
  intros Hn Hd k. pose proof (Z.log2_spec n Hn) as [Hn1 Hn2].
  pose proof (Z.log2_spec d Hd) as [Hd1 Hd2].
  pose proof (Z.log2_nonneg n). pose proof (Z.log2_nonneg d).
  unfold ge_pow. set (ln := Z.log2 n) in *. set (ld := Z.log2 d) in *.
  rewrite Z.pow_succ_r in Hn2, Hd2 by lia. subst k.
  assert (Hsc : forall j, 2 ^ ld * 2 ^ Z.max 0 (ln - ld + j) * 2 ^ Z.max 0 (- j) =
                          2 ^ ln * 2 ^ Z.max 0 (- (ln - ld + j)) * 2 ^ Z.max 0 j).
  { intros j. rewrite <- !Z.pow_add_r by lia. f_equal. lia. }
  pose proof (Hsc (-1)) as H1. pose proof (Hsc 1) as H2. change (- -1) with 1 in H1.
  change (- (1)) with (-1) in H2. replace (ln - ld + -1) with (ln - ld - 1) in H1 by lia.
  change (2 ^ Z.max 0 1) with 2 in *. change (2 ^ Z.max 0 (-1)) with 1 in *.
  pose proof (max_pow_pos (ln - ld - 1)). pose proof (max_pow_pos (- (ln - ld - 1))).
  pose proof (max_pow_pos (ln - ld + 1)). pose proof (max_pow_pos (- (ln - ld + 1))).
  set (a := 2 ^ Z.max 0 (ln - ld - 1)) in *. set (b := 2 ^ Z.max 0 (- (ln - ld - 1))) in *.
  set (a' := 2 ^ Z.max 0 (ln - ld + 1)) in *. set (b' := 2 ^ Z.max 0 (- (ln - ld + 1))) in *.
  split; nia.
Qed.

Lemma log2_ratio_spec n d :
  0 < n -> 0 < d -> ge_pow n d (log2_ratio n d) /\ ~ ge_pow n d (log2_ratio n d + 1).
Proof.
  intros Hn Hd. destruct (ge_pow_log n d Hn Hd) as [Hlo Hhi]. unfold log2_ratio.
  set (k := Z.log2 n - Z.log2 d) in *. destruct (Z.ltb_spec (n * 2 ^ Z.max 0 (- k)) (d * 2 ^ Z.max 0 k)); [|done].
  split; [done|]. replace (k - 1 + 1) with k by lia. unfold ge_pow. lia.
Qed.

Lemma ge_pow_shift n d e j :
  0 <= j -> ge_pow n d (e + j) <-> 2 ^ j * (d * 2 ^ Z.max 0 e) <= n * 2 ^ Z.max 0 (- e).
Proof.
  intros Hj. unfold ge_pow.
  assert (E : 2 ^ Z.max 0 (e + j) * 2 ^ Z.max 0 (- e) =
              2 ^ j * 2 ^ Z.max 0 e * 2 ^ Z.max 0 (- (e + j))).
  { rewrite <- !Z.pow_add_r by lia. f_equal. lia. }
  pose proof (max_pow_pos (- e)) as Hb. pose proof (max_pow_pos (- (e + j))) as HB.
  rewrite (Z.mul_le_mono_pos_r (d * _) _ (2 ^ Z.max 0 (- e))) by done.
  rewrite (Z.mul_le_mono_pos_r (2 ^ j * _) _ (2 ^ Z.max 0 (- (e + j)))) by done.
  rewrite <- (Z.mul_assoc d), E. 
  replace (d * (2 ^ j * 2 ^ Z.max 0 e * 2 ^ Z.max 0 (- (e + j))))
    with (2 ^ j * (d * 2 ^ Z.max 0 e) * 2 ^ Z.max 0 (- (e + j))) by ring.
  by replace (n * 2 ^ Z.max 0 (- (e + j)) * 2 ^ Z.max 0 (- e))
    with (n * 2 ^ Z.max 0 (- e) * 2 ^ Z.max 0 (- (e + j))) by ring.
Qed.

(** The scaled numerator and denominator of the significand. *)
Definition scaled_num (n d : Z) : Z := n * 2 ^ Z.max 0 (- f32_exp n d).
Definition scaled_den (n d : Z) : Z := d * 2 ^ Z.max 0 (f32_exp n d).

Lemma f32_exp_spec n d :
  0 < n -> 0 < d ->
  2 ^ 23 * scaled_den n d <= scaled_num n d < 2 ^ 24 * scaled_den n d.
Proof.
  intros Hn Hd. destruct (log2_ratio_spec n d Hn Hd) as [Hk1 Hk2]. unfold scaled_num, scaled_den.
  replace (log2_ratio n d) with (f32_exp n d + 23) in Hk1 by (unfold f32_exp; lia).
  replace (log2_ratio n d + 1) with (f32_exp n d + 24) in Hk2 by (unfold f32_exp; lia).
  rewrite ge_pow_shift in Hk1, Hk2 by lia. lia.
Qed.

Lemma scaled_den_pos n d : 0 < d -> 0 < scaled_den n d.
Proof. intros. unfold scaled_den. pose proof (max_pow_pos (f32_exp n d)). nia. Qed.

Lemma f32_round_pos_eq n d :
  f32_round_pos n d = (rne (scaled_num n d) (scaled_den n d) * 2 ^ Z.max 0 (f32_exp n d),
                       2 ^ Z.max 0 (- f32_exp n d)).
Proof. done. Qed.

(** A number [m * 2^t] with a significand of at most 24 bits is not changed. *)
Lemma f32_round_exact n d m tp tn :
  0 < n -> 0 < d -> 0 <= tp -> 0 <= tn -> 0 < m <= 2 ^ 24 ->
  n * 2 ^ tn = m * 2 ^ tp * d ->
  let '(p, q) := f32_round n d in 0 < q /\ p * d = n * q.
Proof.
  intros Hn Hd Htp Htn Hm E. unfold f32_round.
  rewrite (proj2 (Z.eqb_neq n 0)), (proj2 (Z.ltb_ge n 0)) by lia.
  rewrite f32_round_pos_eq. split; [apply max_pow_pos|].
  pose proof (f32_exp_spec n d Hn Hd) as [Hlo Hhi].
  pose proof (scaled_den_pos n d Hd) as HD.
  set (e := f32_exp n d) in *.
  assert (HM : exists M, scaled_num n d = M * scaled_den n d); cycle 1.
  { destruct HM as [M HM]. rewrite HM, rne_exact by done.
    unfold scaled_num, scaled_den in HM. fold e in HM. lia. }
  (* m * 2^(tp - tn - e) is an integer *)
  assert (Hs : scaled_num n d * 2 ^ (tn + Z.max 0 e) = m * 2 ^ (tp + Z.max 0 (- e)) * scaled_den n d).
  { unfold scaled_num, scaled_den. fold e. rewrite !Z.pow_add_r by lia.
    replace (n * 2 ^ Z.max 0 (- e) * (2 ^ tn * 2 ^ Z.max 0 e))
      with (n * 2 ^ tn * (2 ^ Z.max 0 (- e) * 2 ^ Z.max 0 e)) by ring.
    rewrite E. ring. }
  set (u := tn + Z.max 0 e) in *. set (v := tp + Z.max 0 (- e)) in *.
  assert (0 <= u) by lia. assert (0 <= v) by lia.
  pose proof (pow2_pos u ltac:(lia)). pose proof (pow2_pos v ltac:(lia)).
  destruct (Z.le_gt_cases u v) as [Huv|Huv].
  - exists (m * 2 ^ (v - u)). replace v with (u + (v - u)) in Hs by lia.
    rewrite Z.pow_add_r in Hs by lia. apply (Z.mul_reg_r _ _ (2 ^ u)); [lia|].
    rewrite Hs. ring.
  - exists (2 ^ 23). replace u with (v + 1 + (u - v - 1)) in Hs by lia.
    rewrite !Z.pow_add_r in Hs by lia. pose proof (pow2_pos (u - v - 1) ltac:(lia)).
    set (w := 2 ^ (u - v - 1)) in *. set (V := 2 ^ v) in *.
    assert (Hs' : scaled_num n d * 2 * w = m * scaled_den n d).
    { apply (Z.mul_reg_r _ _ V); [lia|]. nia. }
    change (2 ^ 24) with (2 * 2 ^ 23) in *. nia.
Qed.

Lemma cdiv_unique a b z : 0 < b -> (z - 1) * b < a <= z * b -> cdiv a b = z.
Proof.
  intros Hb Hz. unfold cdiv. enough ((- a) / b = - z) by lia.
  symmetry. apply (Z.div_unique _ _ _ (z * b - a)); [left|]; nia.
Qed.

Lemma cdiv_spec a b : 0 < b -> (cdiv a b - 1) * b < a <= cdiv a b * b.
Proof.
  intros Hb. unfold cdiv. pose proof (Z.div_mod (- a) b ltac:(lia)).
  pose proof (Z.mod_pos_bound (- a) b Hb). nia.
Qed.

(** Rounding a quotient [a / b] of numbers up to [2^24] does not cross an
    integer, so the ceiling is the exact one. *)
Lemma ceil_round n d a b :
  0 < n -> 0 < d -> 0 < a <= 2 ^ 24 -> 0 < b -> n * b = a * d ->
  let '(p, q) := f32_round n d in 0 < q /\ cdiv p q = cdiv a b.
Proof.
  intros Hn Hd Ha Hb E. unfold f32_round.
  rewrite (proj2 (Z.eqb_neq n 0)), (proj2 (Z.ltb_ge n 0)) by lia.
  rewrite f32_round_pos_eq. split; [apply max_pow_pos|].
  pose proof (f32_exp_spec n d Hn Hd) as [Hlo Hhi].
  pose proof (scaled_den_pos n d Hd) as HD.
  pose proof (cdiv_spec a b Hb) as [Hz1 Hz2]. set (z := cdiv a b) in *.
  apply cdiv_unique; [apply max_pow_pos|].
  pose proof (max_pow_pos (f32_exp n d)) as HA.
  pose proof (max_pow_pos (- f32_exp n d)) as HB.
  assert (EN : scaled_num n d * b = a * d * 2 ^ Z.max 0 (- f32_exp n d)).
  { unfold scaled_num. rewrite <- E. ring. }
  assert (HDe : scaled_den n d = d * 2 ^ Z.max 0 (f32_exp n d)) by done.
  set (N := scaled_num n d) in *. set (D := scaled_den n d) in *.
  set (s := 2 ^ Z.max 0 (f32_exp n d)) in *. set (t := 2 ^ Z.max 0 (- f32_exp n d)) in *.
  assert (Hst : s = 1 \/ (t = 1 /\ 2 <= s)).
  { subst s t. destruct (Z.le_gt_cases (f32_exp n d) 0) as [He|He].
    - left. by rewrite Z.max_l by lia.
    - right. split; [by rewrite Z.max_l by lia|]. rewrite Z.max_r by lia.
      change 2 with (2 ^ 1) at 1. apply Z.pow_le_mono_r; lia. }
  clearbody s t N D z. clear E n Hn.
  pose proof (rne_bounds N D HD) as HM. pose proof (rne_le N D (z * t) HD) as Hle.
  pose proof (rne_exact (2 ^ 23) D HD) as Hex.
  (* N / D = (a t) / (b s) *)
  assert (EQ : N * b * s = a * t * D) by (rewrite EN, HDe; ring).
  clear EN HDe Hd d.
  assert (HtD : 0 < t * D) by (apply Z.mul_pos_pos; lia).
  assert (EQ' : N * s * b = a * (t * D)) by lia. clear EQ.
  assert (Hup : N * s <= z * t * D).
  { apply (Z.mul_le_mono_pos_r _ _ b Hb). rewrite EQ'.
    replace (z * t * D * b) with (z * b * (t * D)) by ring.
    apply Z.mul_le_mono_nonneg_r; lia. }
  assert (Hlow : t * D <= b * (N * s - (z - 1) * t * D)).
  { assert (((z - 1) * b + 1) * (t * D) <= a * (t * D)) by (apply Z.mul_le_mono_nonneg_r; lia).
    lia. }
  assert (Hbs : b * s <= 2 * t).
  { apply (Z.mul_le_mono_pos_r _ _ (2 ^ 23 * D)); [lia|].
    assert (2 ^ 23 * D * (b * s) <= N * (b * s)) by (apply Z.mul_le_mono_nonneg_r; nia).
    assert (a * (t * D) <= 2 ^ 24 * (t * D)) by (apply Z.mul_le_mono_nonneg_r; lia). lia. }
  destruct Hst as [->|[-> Hs]].
  - (* the unit is at most one *)
    rewrite !Z.mul_1_r in *. split; [|specialize (Hle Hup); lia].
    apply (Z.mul_lt_mono_pos_r D); [done|].
    destruct (decide (b = 2 * t)) as [Hbt|Hbt].
    + assert (HN : N = 2 ^ 23 * D).
      { subst b. assert (N * 2 <= 2 ^ 24 * D); [|lia].
        apply (Z.mul_le_mono_pos_r _ _ t); [done|].
        assert (a * (t * D) <= 2 ^ 24 * (t * D)) by (apply Z.mul_le_mono_nonneg_r; lia). lia. }
      rewrite HN, Hex. rewrite HN in Hlow. set (X := 2 ^ 23 * D - (z - 1) * t * D) in *.
      assert (0 < X) by nia. lia.
    + set (X := N - (z - 1) * t * D) in *. assert (D < 2 * X) by (clear -Hlow Hbs Hbt Hb HD; nia).
      lia.
  - (* the unit is at least two: then b = 1, s = 2 and a = 2^24 *)
    assert (b = 1) by nia. subst b. assert (s = 2) by lia. subst s.
    assert (HN : N = 2 ^ 23 * D) by nia. rewrite HN, Hex.
    assert (a = 2 ^ 24) by nia. subst a. lia.
Qed.

(** [(float)a] is exact up to [2^24]. *)
Lemma f32_of_Z_exact a :
  0 < a <= 2 ^ 24 -> exists k, 0 < k /\ f32_of_Z a = (a * k, k).
Proof.
  intros Ha. pose proof (f32_round_exact a 1 a 0 0) as H. unfold f32_of_Z.
  destruct (f32_round a 1) as [p q]. destruct H as [Hq H]; [lia..|].
  exists q. split; [done|]. f_equal. lia.
Qed.

Lemma f32_div_pos n d b j : 0 < b -> 0 < j -> f32_div (n, d) (b * j, j) =
  Ok (f32_round (n * j) (d * (b * j))).
Proof.
  intros Hb Hj. unfold f32_div.
  by rewrite (proj2 (Z.eqb_neq (b * j) 0)), (proj2 (Z.ltb_ge (b * j) 0)) by nia.
Qed.

(** [ceil((float)a / b)] is the exact ceiling division for operands up to [2^24]. *)
Lemma ceil_div_exact a b :
  0 <= a <= 2 ^ 24 -> 0 < b <= 2 ^ 24 -> ceil_div a b = Ok (cdiv a b).
Proof.
  intros Ha Hb. unfold ceil_div. destruct (f32_of_Z_exact b Hb) as (j & Hj & ->).
  destruct (decide (a = 0)) as [->|Ha0].
  { change (f32_of_Z 0) with (0, 1). rewrite f32_div_pos by lia. done. }
  destruct (f32_of_Z_exact a ltac:(lia)) as (k & Hk & ->).
  rewrite f32_div_pos by lia. simpl.
  pose proof (ceil_round (a * k * j) (k * (b * j)) a b) as H.
  destruct (f32_round _ _) as [p q]. destruct H as [_ H]; [nia..|].
  unfold f32_ceil. by rewrite <- H.
Qed.

(** The same for the second division by [CACHE_LINE_COUNT] of [urb]. *)
Lemma ceil_div2_16 a b :
  0 < a <= 2 ^ 24 -> 0 < b <= 2 ^ 24 -> ceil_div2 a b 16 = Ok (cdiv a (b * 16)).
Proof.
  intros Ha Hb. unfold ceil_div2. destruct (f32_of_Z_exact b Hb) as (j & Hj & ->).
  destruct (f32_of_Z_exact a Ha) as (k & Hk & ->).
  destruct (f32_of_Z_exact 16) as (l & Hl & ->); [lia|].
  rewrite f32_div_pos by lia. cbn [mbind outcome_bind].
  set (n := a * k * j). set (d := k * (b * j)).
  assert (0 < n) by (unfold n; nia). assert (0 < d) by (unfold d; nia).
  pose proof (ceil_round n d a b) as Hcr. pose proof (f32_exp_spec n d) as Hexp.
  pose proof (rne_bounds (scaled_num n d) (scaled_den n d) (scaled_den_pos n d ltac:(done))) as HM.
  assert (E : f32_round n d = f32_round_pos n d).
  { unfold f32_round. by rewrite (proj2 (Z.eqb_neq n 0)), (proj2 (Z.ltb_ge n 0)) by lia. }
  rewrite E in *. rewrite f32_round_pos_eq in *.
  destruct Hcr as [Hq Hcr]; [done|done|done|lia|unfold n, d; ring|].
  set (M := rne (scaled_num n d) (scaled_den n d)) in *.
  assert (0 < M <= 2 ^ 24).
  { pose proof (scaled_den_pos n d ltac:(done)). specialize (Hexp ltac:(done) ltac:(done)). nia. }
  set (s := 2 ^ Z.max 0 (f32_exp n d)) in *. set (t := 2 ^ Z.max 0 (- f32_exp n d)) in *.
  assert (0 < s) by apply max_pow_pos.
  rewrite f32_div_pos by lia. cbn [mbind outcome_bind].
  pose proof (f32_round_exact (M * s * l) (t * (16 * l)) M (Z.max 0 (f32_exp n d))
                (Z.max 0 (- f32_exp n d) + 4)) as Hx.
  destruct (f32_round (M * s * l) (t * (16 * l))) as [p q].
  destruct Hx as [Hq' Hx]; [nia|nia|lia|lia|done|rewrite Z.pow_add_r by lia; fold s t; ring|].
  unfold f32_ceil. change (- (- p / q)) with (cdiv p q). f_equal.
  pose proof (cdiv_spec (M * s) t Hq) as Hy. rewrite Hcr in Hy.
  pose proof (cdiv_spec a b ltac:(lia)) as Hc. pose proof (cdiv_spec a (b * 16) ltac:(lia)) as Hz.
  apply cdiv_unique; [done|]. set (z := cdiv a (b * 16)) in *. set (y := cdiv a b) in *.
  assert (16 * (z - 1) < y <= 16 * z) by nia.
  assert (Hpq : M * s * q = p * (16 * t)).
  { apply (Z.mul_reg_r _ _ l); [lia|]. lia. }
  assert (0 < t * q) by (by apply Z.mul_pos_pos).
  split; [apply (Z.mul_lt_mono_pos_r (16 * t))|apply (Z.mul_le_mono_pos_r _ _ (16 * t))];
    [lia| |lia|]; rewrite <- Hpq.
  - apply Z.le_lt_trans with ((y - 1) * t * q); [|apply Z.mul_lt_mono_pos_r; lia].
    replace ((z - 1) * q * (16 * t)) with (16 * (z - 1) * (t * q)) by ring.
    replace ((y - 1) * t * q) with ((y - 1) * (t * q)) by ring.
    apply Z.mul_le_mono_nonneg_r; lia.
  - apply Z.le_trans with (y * t * q); [apply Z.mul_le_mono_nonneg_r; lia|].
    replace (z * q * (16 * t)) with (16 * z * (t * q)) by ring.
    replace (y * t * q) with (y * (t * q)) by ring.
    apply Z.mul_le_mono_nonneg_r; lia.
Qed.

(** C7. The sizes computed in single precision are exact ceilings.  For operands
    up to 2^24, [ceil((float)a / b)] is the least integer not below [a / b], and
    the two roundings of [ceil((float)a / b / CACHE_LINE_COUNT)] do not change
    the ceiling either.  The bound cannot be raised: the quotient of 2^24 + 1
    and 1 loses a unit, so one row of such a graph would have no place. *)
Theorem float_ceiling_exact a b :
  0 < a <= 2 ^ 24 -> 0 < b <= 2 ^ 24 ->
  (ceil_div a b = Ok (cdiv a b) /\ (cdiv a b - 1) * b < a <= cdiv a b * b) /\
  (ceil_div2 a b 16 = Ok (cdiv a (b * 16)) /\ (cdiv a (b * 16) - 1) * (b * 16) < a <= cdiv a (b * 16) * (b * 16)) /\
  ceil_div (2 ^ 24 + 1) 1 = Ok (2 ^ 24).
Proof.
  intros Ha Hb. split_and!.
  - apply ceil_div_exact; lia.
  - apply cdiv_spec; lia.
  - apply cdiv_spec; lia.
  - by apply ceil_div2_16.
  - apply cdiv_spec; lia.
  - apply cdiv_spec; lia.
  - vm_compute. reflexivity.
Qed.

Lemma float_ceiling_exact_witness :
  ceil_div 16777215 10 = Ok 1677722 /\ ceil_div2 16777215 10 16 = Ok 104858.
Proof.
  destruct (float_ceiling_exact 16777215 10) as ((H1 & _) & (H2 & _) & _); [lia|lia|].
  split; [rewrite H1|rewrite H2]; vm_compute; reflexivity.
Defined.

(** ** Cross-check against the kernel's IEEE specification

    [SpecFloat] with a 24-bit significand and [emax = 128] is binary32.  The
    model agrees with it on operands around every rounding boundary. *)
Definition spec_of_Z (a : Z) : spec_float := binary_normalize 24 128 a 0 false.

Definition agrees (a b : Z) : bool :=
  match SFdiv 24 128 (spec_of_Z a) (spec_of_Z b), f32_div (f32_of_Z a) (f32_of_Z b) with
  | S754_finite false m e, Ok (n, d) =>
      Z.pos m * 2 ^ Z.max 0 e * d =? n * 2 ^ Z.max 0 (- e)
  | S754_zero _, Ok (n, _) => n =? 0
  | _, _ => false
  end.

Example f32_agrees_with_specfloat :
  forallb (fun a => forallb (agrees a)
      [1; 3; 7; 16; 17; 100; 999; 16777215; 16777217; 33554433])
    [0; 1; 2; 3; 5; 10; 1000; 99999; 16777215; 16777216; 16777217; 16777219; 33554431;
     1999999999] = true.
Proof. vm_compute. reflexivity. Qed.
