(* ===== verification/Cache.v ===== *)
(** * The set-associative feature cache (src/cache.h, src/cache.cc)

    [sa_cache[set][way]] is a list of ways, most recently used first.  The
    section proves the class correct as an LRU cache: the invariant (every set
    holds at most [cache_way] lines, without repetition, each line in the set
    its address selects), the behaviour of [Access] and [Insert] on every
    branch, and a refinement of an abstract specification that keeps a single
    recency list and selects the lines of a set by filtering. *)

From stdpp Require Import base tactics list list_numbers numbers strings gmap.
From Stdlib Require Import ZArith Lia.
From S2P Require Import Prelude Common.

Record Cache := mkCache { sa_cache : list (list Z) }.

#[export] Instance Cache_fields : Fields Cache := fun c => mkCache (sa_cache c).

Section cache.
Context (arch : ArchInfo).

(** [Cache::Cache()] *)
Definition Cache_new : Cache :=
  mkCache (replicate (Z.to_nat (cache_set arch)) []).

(** [Cache::FindSet]: [uint64_t] subtraction, division and remainder. *)
Definition FindSet (address : Z) : outcome Z :=
  let addr_normalized := u64 (address - xw_ele_addr_start arch) in
  if decide (cache_set arch = 0) then Fault Undefined
  else Ok ((addr_normalized / CACHE_LINE_BYTE) mod u64 (cache_set arch)).

(** [Cache::FindWay]: the first way holding the address, -1 if none. *)
Fixpoint FindWay_from (i : Z) (ways : list Z) (address : Z) : Z :=
  match ways with
  | [] => -1
  | a :: ways => if decide (a = address) then i else FindWay_from (i + 1) ways address
  end.

Definition FindWay (c : Cache) (address set : Z) : outcome Z :=
  ways ← vget (sa_cache c) set;
  Ok (FindWay_from 0 ways address).

(** [vector::pop_back], undefined on an empty vector. *)
Definition pop_back (ways : list Z) : outcome (list Z) :=
  match ways with [] => Fault Undefined | _ => Ok (removelast ways) end.

(** [Cache::Insert]: evict the last way when the set is full, insert in front. *)
Definition Insert (c : Cache) (address : Z) : outcome Cache :=
  set ← FindSet address;
  ways ← vget (sa_cache c) set;
  ways ← (if decide (vsize ways = cache_way arch) then pop_back ways else Ok ways);
  sa ← vset (sa_cache c) set (address :: ways);
  Ok (c <| sa_cache := sa |>).

(** [Cache::Access]: on a hit the line moves to the front. *)
Definition Access (c : Cache) (address : Z) : outcome (bool * Cache) :=
  set ← FindSet address;
  way ← FindWay c address set;
  if decide (way = -1) then Ok (false, c)
  else
    ways ← vget (sa_cache c) set;
    sa ← vset (sa_cache c) set (address :: delete (Z.to_nat way) ways);
    Ok (true, c <| sa_cache := sa |>).

(** ** Invariant *)

(** The set an address selects, as a total function. *)
Definition set_index (a : Z) : Z :=
  (u64 (a - xw_ele_addr_start arch) / CACHE_LINE_BYTE) mod cache_set arch.

(** The geometry [ParseIni] computes is usable: at least one set and one way. *)
Definition geometry_ok : Prop := 0 < cache_set arch < 2 ^ 31 /\ 0 < cache_way arch.

Record cache_inv (c : Cache) : Prop := {
  inv_sets : vsize (sa_cache c) = cache_set arch;
  inv_ways : forall s ways, vget (sa_cache c) s = Ok ways -> vsize ways <= cache_way arch;
  inv_nodup : forall s ways, vget (sa_cache c) s = Ok ways -> NoDup ways;
  inv_home : forall s ways a, vget (sa_cache c) s = Ok ways -> a ∈ ways -> set_index a = s
}.

(** The lines the cache holds. *)
Definition cached (c : Cache) (a : Z) : Prop :=
  exists ways, vget (sa_cache c) (set_index a) = Ok ways /\ a ∈ ways.

#[export] Instance cached_dec c a : Decision (cached c a).
Proof.
  destruct (vget (sa_cache c) (set_index a)) as [ways|f] eqn:E.
  - destruct (decide (a ∈ ways)) as [Ha|Ha]; [left; by exists ways|]. right. intros (w & Hw & Hin). congruence.
  - right. intros (w & Hw & _). congruence.
Defined.

Context (Hgeo : geometry_ok).

Lemma FindSet_ok a : FindSet a = Ok (set_index a).
Proof.
  destruct Hgeo as [Hs _]. unfold FindSet, set_index.
  destruct (decide _); [lia|]. by rewrite (u64_small (cache_set arch)) by lia.
Qed.

Lemma set_index_range a : 0 <= set_index a < cache_set arch.
Proof. apply Z.mod_pos_bound. apply Hgeo. Qed.

Lemma ways_total c a : cache_inv c -> exists ways, vget (sa_cache c) (set_index a) = Ok ways.
Proof. intros Hc. apply vget_total. rewrite (inv_sets c Hc). apply set_index_range. Qed.

Lemma FindWay_from_spec i ways a :
  0 <= i ->
  (a ∉ ways /\ FindWay_from i ways a = -1) \/
  (exists l r, ways = l ++ a :: r /\ a ∉ l /\ FindWay_from i ways a = i + Z.of_nat (length l)).
Proof.
  revert i; induction ways as [|b ways IH]; intros i Hi; simpl.
  - left. split; [apply not_elem_of_nil|done].
  - destruct (decide (b = a)) as [->|Hne].
    + right. exists [], ways. split_and!; [done|apply not_elem_of_nil|simpl; lia].
    + destruct (IH (i + 1)) as [[Hn ->]|(l & r & -> & Hl & ->)]; [lia|left|right].
      * split; [set_solver|done].
      * exists (b :: l), r. split_and!; [done|set_solver|simpl; lia].
Qed.

(** The cache as an association of its sets: the effect of replacing the ways
    of one set, seen through [vget]. *)
Lemma vget_replace (sa sa' : list (list Z)) s s' w :
  vset sa s w = Ok sa' -> vget sa' s' = if decide (s = s') then Ok w else vget sa s'.
Proof.
  intros H. destruct (decide (s = s')) as [->|Hne];
    [by eapply vget_vset_eq|by eapply vget_vset_ne].
Qed.

(** [Access] on a cache satisfying the invariant never faults; it reports a
    hit exactly when the line is cached and then moves it to the front. *)
Lemma Access_spec c a :
  cache_inv c ->
  (~ cached c a /\ Access c a = Ok (false, c)) \/
  (cached c a /\ exists l r sa,
     vget (sa_cache c) (set_index a) = Ok (l ++ a :: r) /\ a ∉ l /\
     vset (sa_cache c) (set_index a) (a :: l ++ r) = Ok sa /\
     Access c a = Ok (true, mkCache sa)).
Proof.
  intros Hc. destruct (ways_total c a Hc) as [ways Hw].
  unfold Access, FindWay. rewrite FindSet_ok. simpl. rewrite Hw. simpl.
  destruct (FindWay_from_spec 0 ways a) as [[Hn E]|(l & r & -> & Hl & E)]; [lia|left|right];
    rewrite E.
  - split; [|done]. intros (w & Hw' & Ha). congruence.
  - split; [exists (l ++ a :: r); split; [done|set_solver]|].
    rewrite decide_False by lia. simpl.
    destruct (vset (sa_cache c) (set_index a) (a :: l ++ r)) as [sa|] eqn:Hs; cycle 1.
    { unfold vset in Hs. case_decide as Hd; [done|]. destruct Hd.
      change (0 <= set_index a < vsize (sa_cache c)). rewrite (inv_sets c Hc).
      apply set_index_range. }
    exists l, r, sa. split_and!; [done..|].
    replace (delete (Z.to_nat (Z.of_nat (length l))) (l ++ a :: r)) with (l ++ r); cycle 1.
    { rewrite Nat2Z.id. by rewrite delete_middle. }
    by rewrite Hs.
Qed.

Lemma vset_set_total c a w :
  cache_inv c -> exists sa, vset (sa_cache c) (set_index a) w = Ok sa.
Proof.
  intros Hc. exists (<[Z.to_nat (set_index a) := w]> (sa_cache c)). apply vset_ok.
  rewrite (inv_sets c Hc). split; [apply set_index_range|done].
Qed.

Lemma pop_back_ok ways : ways <> [] -> pop_back ways = Ok (removelast ways).
Proof. by destruct ways. Qed.

(** The ways left after the eviction test of [Insert]. *)
Definition evict (ways : list Z) : list Z :=
  if decide (vsize ways = cache_way arch) then removelast ways else ways.

(** [Insert] never faults: the victim, if any, is the last way of the set. *)
Lemma Insert_spec c a :
  cache_inv c -> exists ways sa,
    vget (sa_cache c) (set_index a) = Ok ways /\
    vset (sa_cache c) (set_index a) (a :: evict ways) = Ok sa /\
    Insert c a = Ok (mkCache sa).
Proof.
  intros Hc. destruct (ways_total c a Hc) as [ways Hw].
  destruct (vset_set_total c a (a :: evict ways) Hc) as [sa Hs].
  exists ways, sa. split_and!; [done..|]. unfold Insert. rewrite FindSet_ok. simpl.
  rewrite Hw. simpl. unfold evict in Hs. destruct (decide _) as [Hf|]; simpl.
  - rewrite pop_back_ok; simpl; [by rewrite Hs|].
    intros ->. unfold vsize in Hf; simpl in Hf; destruct Hgeo; lia.
  - by rewrite Hs.
Qed.

Lemma vget_new s ways : vget (sa_cache Cache_new) s = Ok ways -> ways = [].
Proof.
  intros [_ H]%vget_ok. apply lookup_replicate in H. naive_solver.
Qed.

(** Replacing the ways of one set by a duplicate-free list of at most
    [cache_way] lines of that set keeps the invariant. *)
Lemma cache_inv_replace c s w sa :
  cache_inv c -> vset (sa_cache c) s w = Ok sa ->
  vsize w <= cache_way arch -> NoDup w -> (forall a, a ∈ w -> set_index a = s) ->
  cache_inv (mkCache sa).
Proof.
  intros Hc Hs Hl Hn Hh. split; simpl.
  - rewrite (vset_vsize _ _ _ _ Hs). apply Hc.
  - intros s' ways Hw. rewrite (vget_replace _ _ _ _ _ Hs) in Hw.
    destruct (decide _); [naive_solver|]. by eapply inv_ways.
  - intros s' ways Hw. rewrite (vget_replace _ _ _ _ _ Hs) in Hw.
    destruct (decide _); [naive_solver|]. by eapply inv_nodup.
  - intros s' ways b Hw Hb. rewrite (vget_replace _ _ _ _ _ Hs) in Hw.
    destruct (decide _); [naive_solver|]. by eapply inv_home.
Qed.

Lemma removelast_sublist {A} (l : list A) : removelast l `sublist_of` l.
Proof.
  induction l as [|x [|y l] IH]; simpl; [done|by apply sublist_cons|].
  by apply sublist_skip.
Qed.

Lemma evict_sublist ways : evict ways `sublist_of` ways.
Proof. unfold evict. case_decide; [apply removelast_sublist|done]. Qed.

Lemma vsize_removelast {A} (l : list A) : l <> [] -> vsize (removelast l) = vsize l - 1.
Proof.
  destruct l as [|x l _] using rev_ind; [done|intros _].
  rewrite List.removelast_last, vsize_app. unfold vsize; simpl; lia.
Qed.

Lemma evict_size ways : vsize ways <= cache_way arch -> vsize (evict ways) < cache_way arch.
Proof.
  intros Hw. unfold evict. case_decide as Hd; [|lia].
  rewrite vsize_removelast; [lia|]. intros ->. unfold vsize in Hd. simpl in Hd.
  destruct Hgeo; lia.
Qed.

(** ** The recency-list specification

    The abstract cache is one duplicate-free list of addresses, the most
    recently used first; the lines of a set are found by filtering.  An access
    to a cached line moves it to the front.  An insertion into a full set drops
    the least recently used line of that set. *)
Definition spec_lines (rec : list Z) (s : Z) : list Z := filter (fun b => set_index b = s) rec.

Definition spec_access (rec : list Z) (a : Z) : bool * list Z :=
  if decide (a ∈ rec) then (true, a :: filter (fun b => b <> a) rec) else (false, rec).

Definition spec_insert (rec : list Z) (a : Z) : list Z :=
  let lines := spec_lines rec (set_index a) in
  a :: if decide (vsize lines = cache_way arch)
       then match last lines with Some v => filter (fun b => b <> v) rec | None => rec end
       else rec.

(** The concrete cache represents the recency list. *)
Record represents (c : Cache) (rec : list Z) : Prop := {
  rep_inv : cache_inv c;
  rep_nodup : NoDup rec;
  rep_lines : forall s, 0 <= s < cache_set arch -> vget (sa_cache c) s = Ok (spec_lines rec s)
}.

Lemma represents_new : represents Cache_new [].
Proof.
  assert (Hn : vsize (sa_cache Cache_new) = cache_set arch).
  { unfold vsize, Cache_new; simpl. rewrite length_replicate. destruct Hgeo; lia. }
  split; [split|constructor|]; [done|..].
  - intros s ways ->%vget_new. unfold vsize; simpl. destruct Hgeo; lia.
  - intros s ways ->%vget_new. constructor.
  - intros s ways a ->%vget_new Ha. by apply not_elem_of_nil in Ha.
  - intros s Hs. rewrite <- Hn in Hs. apply vget_total in Hs as [ways Hw].
    by rewrite Hw, (vget_new _ _ Hw).
Qed.

Lemma elem_of_spec_lines rec s a : a ∈ spec_lines rec s <-> set_index a = s /\ a ∈ rec.
Proof. unfold spec_lines. by rewrite list_elem_of_filter. Qed.

Lemma cached_iff c rec a : represents c rec -> cached c a <-> a ∈ rec.
Proof.
  intros Hr. unfold cached. rewrite (rep_lines c rec Hr) by apply set_index_range.
  split.
  - by intros (w & [= <-] & [_ Ha]%elem_of_spec_lines).
  - intros Ha. eexists; split; [done|]. by apply elem_of_spec_lines.
Qed.

Lemma filter_swap (P Q : Z -> Prop) `{!forall x, Decision (P x), !forall x, Decision (Q x)} (l : list Z) :
  filter P (filter Q l) = filter Q (filter P l).
Proof.
  rewrite !list_filter_filter. apply list_filter_iff. naive_solver.
Qed.

Lemma filter_ne_split (l r : list Z) a : a ∉ l -> a ∉ r -> filter (fun b => b <> a) (l ++ a :: r) = l ++ r.
Proof.
  intros Hl Hr. rewrite filter_app, filter_cons_False by naive_solver.
  f_equal; apply filter_keep_all; intros b Hb; congruence.
Qed.

Lemma spec_lines_other rec a s :
  set_index a <> s -> spec_lines (filter (fun b => b <> a) rec) s = spec_lines rec s.
Proof.
  intros Ha. unfold spec_lines. rewrite filter_swap. apply filter_keep_all.
  intros b Hb. apply elem_of_spec_lines in Hb as [Hb _]. congruence.
Qed.

Lemma spec_lines_cons rec a s :
  spec_lines (a :: rec) s = if decide (set_index a = s) then a :: spec_lines rec s
                            else spec_lines rec s.
Proof. unfold spec_lines. rewrite filter_cons. done. Qed.

(** One set changes from [w0] to [w] and the recency list changes to [rec']
    accordingly: the representation is kept. *)
Lemma represents_replace c rec rec' a w sa :
  represents c rec -> vset (sa_cache c) (set_index a) w = Ok sa ->
  NoDup rec' -> vsize w <= cache_way arch ->
  spec_lines rec' (set_index a) = w ->
  (forall s, s <> set_index a -> spec_lines rec' s = spec_lines rec s) ->
  represents (mkCache sa) rec'.
Proof.
  intros Hr Hs Hn Hl Hw Ho. split; [|done|].
  - eapply cache_inv_replace; [apply Hr|exact Hs|exact Hl|..]; subst w.
    + by apply NoDup_filter.
    + intros b Hb. by apply elem_of_spec_lines in Hb as [? _].
  - intros s Hrange. simpl. rewrite (vget_replace _ _ _ _ _ Hs).
    destruct (decide (set_index a = s)) as [<-|Hne]; [by rewrite Hw|].
    rewrite Ho by done. by apply Hr.
Qed.

Lemma Access_refines c rec a :
  represents c rec ->
  exists c', Access c a = Ok (fst (spec_access rec a), c') /\
             represents c' (snd (spec_access rec a)).
Proof.
  intros Hr. pose proof (cached_iff c rec a Hr) as Hc.
  unfold spec_access. destruct (Access_spec c a (rep_inv _ _ Hr))
    as [[Hn ->]|[Hy (l & r & sa & Hw & Hl & Hs & ->)]].
  - rewrite decide_False by tauto. eauto.
  - rewrite decide_True by tauto. eexists; split; [done|].
    rewrite (rep_lines c rec Hr) in Hw by apply set_index_range. injection Hw as Hw.
    assert (Hnd : NoDup (spec_lines rec (set_index a))) by apply NoDup_filter, Hr.
    rewrite Hw in Hnd. apply NoDup_app in Hnd as (Hnl & Hd & [Har Hnr]%NoDup_cons).
    eapply represents_replace; [exact Hr|exact Hs|..]; simpl.
    + constructor; [by intros [? _]%list_elem_of_filter|]. apply NoDup_filter, Hr.
    + transitivity (vsize (l ++ a :: r)).
      { unfold vsize. rewrite !length_cons, !length_app, length_cons. lia. }
      rewrite <- Hw. eapply (inv_ways c (rep_inv _ _ Hr)), (rep_lines c rec Hr), set_index_range.
    + rewrite spec_lines_cons, decide_True by done. f_equal.
      unfold spec_lines. rewrite filter_swap. unfold spec_lines in Hw. rewrite Hw.
      by apply filter_ne_split.
    + intros s Hne. rewrite spec_lines_cons, decide_False by done. by apply spec_lines_other.
Qed.

Lemma spec_evict rec s lines :
  NoDup rec -> spec_lines rec s = lines -> lines <> [] ->
  exists v, last lines = Some v /\ v ∈ rec /\ set_index v = s /\
    spec_lines (filter (fun b => b <> v) rec) s = removelast lines.
Proof.
  intros Hn Hl Hne. destruct lines as [|v l _] using rev_ind; [done|].
  exists v. rewrite last_snoc. assert (Hv : v ∈ spec_lines rec s) by (rewrite Hl; set_solver).
  unfold spec_lines in Hv. apply list_elem_of_filter in Hv as [Hv1 Hv2].
  split_and!; [done..|]. rewrite List.removelast_last.
  assert (Hnd : NoDup (spec_lines rec s)) by by apply NoDup_filter.
  rewrite Hl in Hnd. apply NoDup_app in Hnd as (_ & Hd & _).
  unfold spec_lines in *. rewrite filter_swap, Hl.
  rewrite filter_ne_split; [by rewrite app_nil_r|intros Hin; apply (Hd v Hin); set_solver|].
  apply not_elem_of_nil.
Qed.

Lemma Insert_refines c rec a :
  represents c rec -> a ∉ rec ->
  exists c', Insert c a = Ok c' /\ represents c' (spec_insert rec a).
Proof.
  intros Hr Ha. destruct (Insert_spec c a (rep_inv _ _ Hr)) as (ways & sa & Hw & Hs & ->).
  eexists; split; [done|]. pose proof (inv_ways c (rep_inv _ _ Hr) _ _ Hw) as Hlen.
  rewrite (rep_lines c rec Hr) in Hw by apply set_index_range. injection Hw as Hw.
  pose proof (rep_nodup _ _ Hr) as Hnd. pose proof (evict_size ways Hlen) as Hev.
  eapply represents_replace; [exact Hr|exact Hs|..]; unfold spec_insert; rewrite ?Hw;
    unfold evict in *; destruct (decide (vsize ways = cache_way arch)) as [Hfull|Hfull];
    try (destruct (spec_evict rec _ ways Hnd Hw) as (v & -> & Hv & Hvs & Hve);
         [intros ->; unfold vsize in Hfull; simpl in Hfull; destruct Hgeo; lia|]).
  - constructor; [by intros [_ ?]%list_elem_of_filter|by apply NoDup_filter].
  - by constructor.
  - unfold vsize in *. rewrite length_cons. lia.
  - unfold vsize in *. rewrite length_cons. lia.
  - by rewrite spec_lines_cons, decide_True, Hve by done.
  - by rewrite spec_lines_cons, decide_True, Hw by done.
  - intros s Hs'. rewrite spec_lines_cons, decide_False by done.
    apply spec_lines_other. congruence.
  - intros s Hs'. by rewrite spec_lines_cons, decide_False by done.
Qed.

(** ** Runs of the cache *)
Inductive cache_op := OpAccess (a : Z) | OpInsert (a : Z).

(** The hits a sequence of calls on the [Cache] object reports. *)
Fixpoint run_ops (c : Cache) (ops : list cache_op) : outcome (list bool * Cache) :=
  match ops with
  | [] => Ok ([], c)
  | OpAccess a :: ops =>
      '(h, c1) ← Access c a;
      '(hs, c2) ← run_ops c1 ops;
      Ok (h :: hs, c2)
  | OpInsert a :: ops => c1 ← Insert c a; run_ops c1 ops
  end.

Fixpoint spec_ops (rec : list Z) (ops : list cache_op) : list bool * list Z :=
  match ops with
  | [] => ([], rec)
  | OpAccess a :: ops =>
      let '(h, rec1) := spec_access rec a in
      let '(hs, rec2) := spec_ops rec1 ops in (h :: hs, rec2)
  | OpInsert a :: ops => spec_ops (spec_insert rec a) ops
  end.

(** Every insertion brings in a line that is not cached at that moment. *)
Fixpoint fresh_inserts (rec : list Z) (ops : list cache_op) : bool :=
  match ops with
  | [] => true
  | OpAccess a :: ops => fresh_inserts (snd (spec_access rec a)) ops
  | OpInsert a :: ops => bool_decide (a ∉ rec) && fresh_inserts (spec_insert rec a) ops
  end.

Lemma run_ops_refines ops c rec :
  represents c rec -> fresh_inserts rec ops = true ->
  exists c', run_ops c ops = Ok (fst (spec_ops rec ops), c') /\
             represents c' (snd (spec_ops rec ops)).
Proof.
  revert c rec; induction ops as [|[a|a] ops IH]; intros c rec Hr Hf; simpl in *; [eauto|..].
  - destruct (Access_refines c rec a Hr) as (c1 & -> & Hr1). simpl.
    destruct (IH c1 _ Hr1 Hf) as (c2 & -> & Hr2). simpl.
    destruct (spec_access rec a) as [h r1]; simpl in *.
    destruct (spec_ops r1 ops); simpl in *. eauto.
  - apply andb_prop in Hf as [Ha%bool_decide_eq_true Hf].
    destruct (Insert_refines c rec a Hr Ha) as (c1 & -> & Hr1). simpl. by apply IH.
Qed.
End cache.

(** ** Properties *)


(** [Insert] evicts only when the set of the address is full, the victim is
    the least recently used line of that set, the new line is cached afterwards
    and every other cached line stays cached. *)
Theorem insert_evicts_lru (arch : ArchInfo) (c : Cache) (a b : Z) (ways : list Z) :
  geometry_ok arch -> cache_inv arch c ->
  vget (sa_cache c) (set_index arch a) = Ok ways ->
  exists c', Insert arch c a = Ok c' /\ cached arch c' a /\
    (b <> a -> cached arch c b ->
      cached arch c' b \/ (vsize ways = cache_way arch /\ last ways = Some b)).
Proof.
  intros Hg Hc Hw. destruct (Insert_spec arch Hg c a Hc) as (w & sa & Hw' & Hs & Hi).
  assert (w = ways) as -> by congruence. exists (mkCache sa). split; [done|].
  pose proof (vget_replace _ _ _ (set_index arch b) _ Hs) as Hb. split.
  - exists (a :: evict arch ways). split; [by eapply vget_vset_eq|set_solver].
  - intros Hne (wb & Hwb & Hin). unfold cached; simpl. rewrite Hb.
    destruct (decide (set_index arch a = set_index arch b)) as [E|E]; [|by left; eauto].
    assert (wb = ways) as -> by congruence. unfold evict. destruct (decide _) as [Hf|Hf].
    + destruct ways as [|v l _] using rev_ind; [by apply not_elem_of_nil in Hin|].
      rewrite List.removelast_last, last_snoc.
      apply elem_of_app in Hin as [Hin| ->%list_elem_of_singleton]; [left|by right].
      eexists; split; [done|]. by right.
    + left. eexists; split; [done|]. by right.
Qed.

(** A 4-set, 2-way cache whose first line is at address 4096. *)
Definition demo_arch : ArchInfo :=
  mkArchInfo 2 512 2 4 1 1 32 32 MAT GCN 0 1024 2048 4096 8192 "HBM2" "out".

