(* ===== verification/Csr.v ===== *)
(** * Compressed sparse rows

    The specification vocabulary of the graph pipeline: a graph is a list of
    rows (each row the list of its column indices), [offsets] and [concat] are
    its CSR arrays, and [lac_rows] / [tile_rows] say which rows an engine or a
    tile must hold. *)

From stdpp Require Import base tactics list list_numbers numbers strings gmap.
From Stdlib Require Import ZArith Lia.
From S2P Require Import Prelude.

(** The number of edges of a list of rows. *)
Definition edges (rows : list (list Z)) : Z := vsize (concat rows).

(** Row offsets: the prefix sums of the row lengths, starting at [acc]. *)
Fixpoint offsets_from (acc : Z) (rows : list (list Z)) : list Z :=
  acc :: match rows with [] => [] | r :: rows => offsets_from (acc + vsize r) rows end.

Definition offsets (rows : list (list Z)) : list Z := offsets_from 0 rows.

Lemma edges_nil : edges [] = 0.
Proof. done. Qed.

Lemma edges_cons r rows : edges (r :: rows) = vsize r + edges rows.
Proof. unfold edges. simpl. apply vsize_app. Qed.

Lemma edges_app rows1 rows2 : edges (rows1 ++ rows2) = edges rows1 + edges rows2.
Proof. unfold edges. rewrite concat_app. apply vsize_app. Qed.

Lemma offsets_from_length acc rows : length (offsets_from acc rows) = S (length rows).
Proof. revert acc; induction rows; intros; simpl; [done|]. f_equal; auto. Qed.

Lemma vsize_offsets rows : vsize (offsets rows) = vsize rows + 1.
Proof. unfold vsize, offsets. rewrite offsets_from_length. lia. Qed.

Lemma offsets_from_lookup acc rows i :
  (i <= length rows)%nat -> offsets_from acc rows !! i = Some (acc + edges (take i rows)).
Proof.
  revert acc i; induction rows as [|r rows IH]; intros acc [|i] Hi; simpl in *;
    rewrite ?edges_nil; [f_equal; lia|lia|f_equal; lia|].
  rewrite IH by lia. rewrite edges_cons. f_equal; lia.
Qed.

Lemma vget_offsets rows i :
  0 <= i <= vsize rows -> vget (offsets rows) i = Ok (edges (take (Z.to_nat i) rows)).
Proof.
  intros Hi. apply vget_ok. split; [lia|]. unfold offsets, vsize in *.
  by rewrite offsets_from_lookup by lia.
Qed.

Lemma offsets_from_snoc acc rows r :
  offsets_from acc (rows ++ [r]) = offsets_from acc rows ++ [acc + edges rows + vsize r].
Proof.
  revert acc; induction rows as [|r' rows IH]; intros acc; simpl.
  - by rewrite edges_nil, Z.add_0_r.
  - rewrite IH, edges_cons. do 3 f_equal. lia.
Qed.

Lemma offsets_snoc rows r : offsets (rows ++ [r]) = offsets rows ++ [edges rows + vsize r].
Proof. unfold offsets. rewrite offsets_from_snoc. do 2 f_equal. Qed.

(** The offsets of consecutive rows delimit exactly the columns of the row. *)
Lemma edges_take_S rows i r :
  rows !! i = Some r -> edges (take (S i) rows) = edges (take i rows) + vsize r.
Proof.
  intros Hr. erewrite take_S_r by done. rewrite edges_app, edges_cons, edges_nil. lia.
Qed.

Lemma concat_slice rows i r :
  rows !! i = Some r ->
  Forall2 (fun j c => vget (concat rows) j = Ok c)
    (seqZ (edges (take i rows)) (vsize r)) r.
Proof.
  intros Hr.
  assert (Hcat : concat rows = concat (take i rows) ++ r ++ concat (drop (S i) rows)).
  { by rewrite <- (take_drop_middle rows i r Hr) at 1; rewrite concat_app. }
  rewrite Hcat. apply Forall2_same_length_lookup_2.
  { rewrite length_seqZ. unfold vsize. lia. }
  intros k j c [-> Hk]%lookup_seqZ Hc. apply vget_ok.
  unfold edges, vsize in *. split; [lia|].
  replace (Z.to_nat _) with (length (concat (take i rows)) + k)%nat by lia.
  rewrite lookup_app_r by lia. replace (_ + k - _)%nat with k by lia.
  by rewrite lookup_app_l by (by eapply lookup_lt_Some).
Qed.

(** An element of a concatenation by list and position. *)
Lemma concat_lookup {A} (l : list (list A)) i r j :
  l !! i = Some r -> (j < length r)%nat ->
  concat l !! (length (concat (take i l)) + j)%nat = r !! j.
Proof.
  intros Hr Hj. assert (E : concat l = concat (take i l) ++ r ++ concat (drop (S i) l)).
  { by rewrite <- (take_drop_middle l i r Hr) at 1; rewrite concat_app. }
  rewrite E, lookup_app_r by lia.
  replace (_ + j - _)%nat with j by lia. by rewrite lookup_app_l by done.
Qed.

Lemma edges_take_mono rows i j : (i <= j)%nat -> edges (take i rows) <= edges (take j rows).
Proof.
  intros Hij. replace (take i rows) with (take i (take j rows)) by (rewrite take_take; f_equal; lia).
  rewrite <- (take_drop i (take j rows)) at 2. rewrite edges_app.
  unfold edges at 3. pose proof (vsize_nonneg (concat (drop i (take j rows)))). lia.
Qed.

(** ** What each engine must hold after [LAC] *)
Definition lac_engine (w n : Z) (i : nat) : Z := (Z.of_nat i / w) mod n.

(** The rows among the first [m] that belong to engine [e], in order. *)
Definition lac_rows_upto (w n : Z) (rows : list (list Z)) (m : nat) (e : Z) : list (list Z) :=
  omap (fun i => if decide (lac_engine w n i = e) then rows !! i else None) (seq 0 m).

Definition lac_rows (w n : Z) (rows : list (list Z)) (e : Z) : list (list Z) :=
  lac_rows_upto w n rows (length rows) e.

Lemma lac_rows_upto_S w n rows m r e :
  rows !! m = Some r ->
  lac_rows_upto w n rows (S m) e =
    if decide (lac_engine w n m = e) then lac_rows_upto w n rows m e ++ [r]
    else lac_rows_upto w n rows m e.
Proof.
  intros Hr. unfold lac_rows_upto. rewrite seq_S, omap_app. simpl. case_decide.
  - by rewrite Hr.
  - by rewrite app_nil_r.
Qed.

Lemma lac_rows_elem w n rows e r : r ∈ lac_rows w n rows e -> r ∈ rows.
Proof.
  intros (i & _ & Hi)%list_elem_of_omap. case_decide; [|done].
  by eapply list_elem_of_lookup_2.
Qed.

(** ** What each tile must hold after [Tiling] *)
Definition tile_part (unit_v l : Z) (r : list Z) : list Z := filter (fun c => Z.quot c unit_v = l) r.

Definition tile_rows (nt unit_v : Z) (rows : list (list Z)) : list (list Z) :=
  concat ((fun l => tile_part unit_v l <$> rows) <$> seqZ 0 nt).
