(* ===== verification/Layout.v ===== *)
(** * The memory-layout interface

    What the preprocessor promises to the components that issue and classify
    memory requests: one region of whole cache lines per engine for the values,
    the row pointers and the column indices of its subgraph, the regions of one
    array consecutive, the three arrays one after the other below the feature
    region. *)

From stdpp Require Import base tactics list list_numbers numbers strings gmap.
From Stdlib Require Import ZArith Lia.
From S2P Require Import Prelude Common.

(** The regions [start e, stop e) of [n] engines tile [lo, hi) in engine order,
    in whole cache lines. *)
Record regions_ok (n lo hi : Z) (start stop : Z -> Z) : Prop := {
  reg_lo : forall e, 0 <= e < n -> lo <= start e;
  reg_hi : forall e, 0 <= e < n -> stop e <= hi;
  reg_ord : forall e, 0 <= e < n -> start e <= stop e;
  reg_seq : forall e e', 0 <= e -> e < e' -> e' < n -> stop e <= start e';
  reg_lines : forall e, 0 <= e < n -> exists k, stop e = start e + k * CACHE_LINE_BYTE
}.

Class Layout (a : ArchInfo) (idx : list DataIndex) : Prop := {
  lay_engines : vsize idx = n_of_engine a;
  lay_value : exists D, idx = tab (n_of_engine a) D /\
    regions_ok (n_of_engine a) (d_value_addr_start a) (a_row_addr_start a)
      (fun e => value_addr_start (D e)) (fun e => value_addr_end (D e)) /\
    regions_ok (n_of_engine a) (a_row_addr_start a) (a_col_addr_start a)
      (fun e => row_addr_start (D e)) (fun e => row_addr_end (D e)) /\
    regions_ok (n_of_engine a) (a_col_addr_start a) (xw_ele_addr_start a)
      (fun e => col_addr_start (D e)) (fun e => col_addr_end (D e));
  lay_order : 0 <= d_value_addr_start a /\ d_value_addr_start a <= a_row_addr_start a /\
    a_row_addr_start a <= a_col_addr_start a /\ a_col_addr_start a <= xw_ele_addr_start a /\
    xw_ele_addr_start a < 2 ^ 64
}.

(** An address of a region belongs to no earlier region. *)
Lemma regions_first n lo hi start stop e e' addr :
  regions_ok n lo hi start stop -> 0 <= e < n -> 0 <= e' < e ->
  start e <= addr < stop e -> ~ (start e' <= addr < stop e').
Proof. intros Hr He He' Ha. pose proof (reg_seq _ _ _ _ _ Hr e' e). lia. Qed.
