(* ===== verification/Preprocess.v ===== *)
(** * The preprocessor (src/preprocessor.cc): graph distribution and address map

    [LAC] deals the rows of the input graph to the engines in chunks of
    [lac_width], [Tiling] splits each engine's subgraph into column tiles,
    [TransXW] turns the feature matrix into per-row cache-line lists and
    [AddressMapping] lays graph, features and output out in memory.  The state
    is the set of globals of the file; [Preprocess] is the constructor after
    the files have been read. *)

From stdpp Require Import base tactics list list_numbers numbers strings gmap.
From Stdlib Require Import ZArith Lia.
From S2P Require Import Prelude Common Float32.

(** The globals of preprocessor.cc and the member [xw]. *)
Record Pre := mkPre {
  p_arch : ArchInfo;
  p_data : DataInfo;
  p_index : list DataIndex;
  p_row_ptr : list (list Z);
  p_col_idx : list (list Z);
  p_x_to_addr : list (list Z);
  p_xw : list (list Z);
  p_total_write : Z
}.

#[export] Instance Pre_fields : Fields Pre := fun p =>
  mkPre (p_arch p) (p_data p) (p_index p) (p_row_ptr p) (p_col_idx p) (p_x_to_addr p)
    (p_xw p) (p_total_write p).

(** [v.size() - 1] as a loop bound: on an empty vector it is [SIZE_MAX] and the
    loop reads out of range. *)
Definition size_minus_1 {A} (v : list A) : outcome Z :=
  match v with [] => Fault Undefined | _ => Ok (vsize v - 1) end.

(** ** LAC *)
Section lac.
Context (lac_w n : Z) (row_ptr_origin col_idx_origin : list Z).

Record LacState := mkLacState {
  edge_acm : list Z;
  row_ptr_lac : list (list Z);
  col_idx_lac : list (list Z)
}.

Definition lac_init : LacState :=
  mkLacState (replicate (Z.to_nat n) 0) (replicate (Z.to_nat n) [0]) (replicate (Z.to_nat n) []).

(** The body of the distribution loop for vertex [i]. *)
Definition lac_row (i : Z) (s : LacState) : outcome LacState :=
  if decide (lac_w = 0 \/ n = 0) then Fault Undefined else
  let lac_idx := Z.rem (Z.quot i lac_w) n in
  e0 ← vget row_ptr_origin i;
  e1 ← vget row_ptr_origin (i + 1);
  acm ← vupd (edge_acm s) lac_idx (fun x => x + (e1 - e0));
  x ← vget acm lac_idx;
  rows ← vpush (row_ptr_lac s) lac_idx x;
  cols ← for_range e0 e1 (fun j cs =>
           c ← vget col_idx_origin j;
           vpush cs lac_idx c) (col_idx_lac s);
  Ok (mkLacState acm rows cols).

Definition lac_distribute : outcome LacState :=
  m ← size_minus_1 row_ptr_origin;
  for_int m lac_row lac_init.
End lac.

(** The number of rows without an edge: [row_ptr[j+1] == row_ptr[j]]. *)
Fixpoint count_zero_rows (rp : list Z) : Z :=
  match rp with
  | a :: ((b :: _) as rp') => (if decide (b = a) then 1 else 0) + count_zero_rows rp'
  | _ => 0
  end.

(** The loop that fills [row], [zero_row] and [total_write] of [data_index[i]]. *)
Definition index_rows (turb : Z) (rps : list (list Z)) (n : Z) (idx : list DataIndex)
    : outcome (list DataIndex) :=
  for_int n (fun i idx =>
    rp ← vget rps i;
    m ← size_minus_1 rp;
    let zero := count_zero_rows rp in
    vupd idx i (fun d => d <| row := m |> <| zero_row := zero |>
                           <| di_total_write := (m - zero) * turb |>)) idx.

(** The two adjustments of [arch_info.lac_width]. *)
Definition lac_width_of (a : ArchInfo) (d : DataInfo) : outcome Z :=
  w ← (if decide (lac_width a = -1) then ceil_div (a_h d) (n_of_engine a) else Ok (lac_width a));
  if decide (w = 0) then ceil_div2 (a_h d) (n_tiles d) (n_of_engine a) else Ok w.

Definition LAC (p : Pre) : outcome Pre :=
  let n := n_of_engine (p_arch p) in
  w ← lac_width_of (p_arch p) (p_data p);
  row_ptr_origin ← vget (p_row_ptr p) 0;
  col_idx_origin ← vget (p_col_idx p) 0;
  s ← lac_distribute w n row_ptr_origin col_idx_origin;
  idx ← index_rows (total_urb (p_data p)) (row_ptr_lac s) n (p_index p);
  Ok (p <| p_arch := (p_arch p) <| lac_width := w |> |>
        <| p_index := idx |>
        <| p_row_ptr := row_ptr_lac s |> <| p_col_idx := col_idx_lac s |>).

(** ** Tiling *)
Section tiling.
Context (nt unit_v : Z).

(** [for (l = 0; ...) if (t_idx < t_unit[l]) { ...; break; }]: the tile of a
    column, [None] when no tile takes it. *)
Fixpoint find_tile (t_unit : list Z) (t_idx l : Z) : option Z :=
  match t_unit with
  | [] => None
  | t :: t_unit => if t_idx <? t then Some l else find_tile t_unit t_idx (l + 1)
  end.

(** The accumulated tile data 1, 2, ..., [n_tiles]. *)
Definition t_unit : list Z := seqZ 1 nt.

(** One edge of a row goes to the tile of its column. *)
Definition tile_edge (cols : list Z) (k : Z) (s : list Z * list (list Z))
    : outcome (list Z * list (list Z)) :=
  let '(edge_acm, e_list) := s in
  c ← vget cols k;
  if decide (unit_v = 0) then Fault Undefined else
  match find_tile t_unit (Z.quot c unit_v) 0 with
  | None => Ok (edge_acm, e_list)
  | Some l =>
      acm ← vupd edge_acm l (fun x => x + 1);
      el ← vpush e_list l c;
      Ok (acm, el)
  end.

(** One row: count its edges per tile, append the counts to [v_list]. *)
Definition tile_row (rows cols : list Z) (j : Z) (s : list (list Z) * list (list Z))
    : outcome (list (list Z) * list (list Z)) :=
  let '(v_list, e_list) := s in
  e0 ← vget rows j;
  e1 ← vget rows (j + 1);
  '(acm, e_list) ← for_range e0 e1 (tile_edge cols) (replicate (length t_unit) 0, e_list);
  v_list ← for_int (vsize t_unit) (fun k vl => x ← vget acm k; vpush vl k x) v_list;
  Ok (v_list, e_list).

(** "Trans to CSR": the tiles one after the other. *)
Definition tiles_to_csr (v_list e_list : list (list Z)) : outcome (list Z * list Z) :=
  '(_, rp, ci) ← for_int (vsize t_unit) (fun j '(v_acm, rp, ci) =>
      vs ← vget v_list j;
      es ← vget e_list j;
      let '(v_acm, rp) := fold_left (fun '(v_acm, rp) v => (v_acm + v, rp ++ [v_acm + v]))
                            vs (v_acm, rp) in
      Ok (v_acm, rp, ci ++ es)) (0, [0], []);
  Ok (rp, ci).

(** One engine. *)
Definition tile_engine (rows cols : list Z) : outcome (list Z * list Z) :=
  m ← size_minus_1 rows;
  '(v_list, e_list) ← for_int m (tile_row rows cols)
     (replicate (length t_unit) [], replicate (length t_unit) []);
  tiles_to_csr v_list e_list.
End tiling.

Definition Tiling (p : Pre) : outcome Pre :=
  let n := n_of_engine (p_arch p) in
  let nt := n_tiles (p_data p) in
  if decide (1 < nt) then
    unit_v ← ceil_div (a_w (p_data p)) nt;
    '(rps, cis) ← for_int n (fun i '(rps, cis) =>
        rows ← vget (p_row_ptr p) i;
        cols ← vget (p_col_idx p) i;
        '(rp, ci) ← tile_engine nt unit_v rows cols;
        Ok (rps ++ [rp], cis ++ [ci])) ([], []);
    idx ← index_rows (total_urb (p_data p)) rps n (p_index p);
    Ok (p <| p_index := idx |> <| p_row_ptr := rps |> <| p_col_idx := cis |>)
  else Ok p.

(** ** TransXW: from the feature matrix to cache-line lists *)
Section transxw.
Context (oob : Z -> Z -> Z).

(** [xw[i][j]].  The X_CMP loop runs [j] up to and including [x_w], one past
    the end of a row of [x_w] elements; [oob i j] stands for whatever that
    read of foreign memory yields. *)
Definition xw_read (xw : list (list Z)) (i j : Z) : outcome Z :=
  r ← vget xw i;
  if decide (j = vsize r) then Ok (oob i j) else vget r j.

(** The line markers of a finished block: [1] while [count > 0], then [0]. *)
Definition push_block (cur_urb count : Z) (r : list Z) : list Z * Z :=
  fold_left (fun '(r, count) _ => (r ++ [if count >? 0 then 1 else 0], count - CACHE_LINE_COUNT))
    (seqZ 0 cur_urb) (r, count).

(** One column [j] of row [i] in X_CMP mode. *)
Definition xcmp_col (xunit xw turb nbf nurb hdr : Z) (m : list (list Z)) (i j : Z)
    (s : list Z * Z) : outcome (list Z * Z) :=
  let '(r, count) := s in
  if decide (xunit = 0) then Fault Undefined else
  let '(r, count) :=
    if decide (Z.rem j xunit = 0 \/ j = xw) then
      let cur_urb := if decide (j = xw) then turb - (nbf - 1) * nurb else nurb in
      let '(r, _) := push_block cur_urb count r in (r, hdr)
    else (r, count) in
  v ← xw_read m i j;
  Ok (r, if decide (v = 0) then count else count + 1).

(** Row [i] in X_CMP mode. *)
Definition xcmp_row (xunit xw turb nbf nurb hdr : Z) (m : list (list Z)) (i : Z) (r : list Z)
    : outcome (list Z) :=
  '(r, _) ← for_range 1 (xw + 1) (xcmp_col xunit xw turb nbf nurb hdr m i) (r, hdr);
  Ok r.

(** The number of nonzero elements of row [i], read in range. *)
Definition row_nnz (m : list (list Z)) (i xw acc : Z) : outcome Z :=
  r ← vget m i;
  for_int xw (fun j acc => v ← vget r j; Ok (if decide (v = 0) then acc else acc + 1)) acc.

(** Apply [f] to row [i] of [x_to_addr], for every [i < x_h]. *)
Definition each_row (xh : Z) (f : Z -> list Z -> outcome (list Z)) (x2a : list (list Z))
    : outcome (list (list Z)) :=
  for_int xh (fun i x2a => r ← vget x2a i; r ← f i r; vset x2a i r) x2a.

Definition TransXW (p : Pre) : outcome Pre :=
  let a := p_arch p in
  let d := p_data p in
  p ← match mode a with
      | X_CMP =>
          nurb ← ceil_div (x_unit a) CACHE_LINE_COUNT;
          nbf ← ceil_div (x_w d) (x_unit a);
          let turb := nbf * nurb in
          hdr ← ceil_div (x_unit a) 32;
          x2a ← each_row (x_h d) (xcmp_row (x_unit a) (x_w d) turb nbf nurb hdr (p_xw p))
                  (p_x_to_addr p);
          idx ← for_int (n_of_engine a) (fun i idx =>
                  rp ← vget (p_row_ptr p) i;
                  vupd idx i (fun x => x <| di_total_write :=
                    (vsize rp - 1 - zero_row x) * turb |>)) (p_index p);
          Ok (p <| p_arch := a <| urb := nurb |> <| bf := nbf |> |>
                <| p_data := d <| total_urb := turb |> |>
                <| p_x_to_addr := x2a |> <| p_index := idx |>)
      | MAT =>
          unit ← ceil_div (x_w d) CACHE_LINE_COUNT;
          x2a ← each_row (x_h d) (fun _ r => Ok (r ++ replicate (Z.to_nat unit) 1)) (p_x_to_addr p);
          Ok (p <| p_x_to_addr := x2a |>)
      | CSR =>
          x2a ← each_row (x_h d) (fun i r =>
                  x_acm ← row_nnz (p_xw p) i (x_w d) 0;
                  block ← ceil_div x_acm CACHE_LINE_COUNT;
                  Ok (r ++ [1] ++ replicate (Z.to_nat (2 * block)) 1 ++ [x_acm])) (p_x_to_addr p);
          Ok (p <| p_x_to_addr := x2a |>)
      | X_FULL_CMP =>
          x2a ← each_row (x_h d) (fun i r =>
                  hdr ← ceil_div (x_w d) 32;
                  count ← row_nnz (p_xw p) i (x_w d) hdr;
                  block ← ceil_div count CACHE_LINE_COUNT;
                  Ok (r ++ [1] ++ replicate (Z.to_nat block) 1)) (p_x_to_addr p);
          Ok (p <| p_x_to_addr := x2a |>)
      end;
  Ok (p <| p_xw := [] |>).
End transxw.

(** ** AddressMapping *)

(** Consecutive regions of [frags[i]] cache lines, one per engine. *)
Definition place_regions (set_range : Z -> Z -> DataIndex -> DataIndex) (frags : list Z) (n : Z)
    (s : list DataIndex * Z) : outcome (list DataIndex * Z) :=
  for_int n (fun i '(idx, address) =>
    f ← vget frags i;
    let address' := u64 (address + f * CACHE_LINE_BYTE) in
    idx ← vupd idx i (set_range address address');
    Ok (idx, address')) s.

Definition set_value_range (s e : Z) (d : DataIndex) : DataIndex :=
  d <| value_addr_start := s |> <| value_addr_end := e |>.
Definition set_row_range (s e : Z) (d : DataIndex) : DataIndex :=
  d <| row_addr_start := s |> <| row_addr_end := e |>.
Definition set_col_range (s e : Z) (d : DataIndex) : DataIndex :=
  d <| col_addr_start := s |> <| col_addr_end := e |>.

(** [x_to_addr[row][col]] read and written. *)
Definition mget (m : list (list Z)) (i j : Z) : outcome Z := r ← vget m i; vget r j.
Definition mset (m : list (list Z)) (i j v : Z) : outcome (list (list Z)) :=
  r ← vget m i; r ← vset r j v; vset m i r.

(** The innermost loop of the X_CMP / MAT mapping; [true] once it broke off. *)
Definition map_line (nurb turb i j k : Z) (s : list (list Z) * Z * bool)
    : outcome (list (list Z) * Z * bool) :=
  let '(m, address, stop) := s in
  if stop then Ok s else
  let col := i * nurb + k in
  if decide (col = turb) then Ok (m, address, true) else
  v ← mget m j col;
  m ← (if decide (v = 1) then mset m j col address else Ok m);
  Ok (m, u64 (address + CACHE_LINE_BYTE), false).

Definition map_sliced (nbf xh nurb turb : Z) (s : list (list Z) * Z) : outcome (list (list Z) * Z) :=
  for_int nbf (fun i s => for_int xh (fun j '(m, address) =>
    '(m, address, _) ← for_int nurb (map_line nurb turb i j) (m, address, false);
    Ok (m, address)) s) s.

(** Row pointers of CSR mode, [x_change] of them per cache line. *)
Definition map_row_ptrs (xh x_change : Z) (s : list (list Z) * Z) : outcome (list (list Z) * Z) :=
  for_range 1 (xh + 1) (fun i '(m, address) =>
    m ← mset m (i - 1) 0 address;
    if decide (x_change = 0) then Fault Undefined else
    Ok (m, if decide (Z.rem i x_change = 0) then u64 (address + CACHE_LINE_BYTE) else address)) s.

(** The column-index ([off = 1]) and value ([off = 2]) passes of CSR mode; the
    last element of a row is its number of nonzeros, popped by the second pass. *)
Definition map_csr_pass (off : Z) (pop : bool) (xh : Z) (s : list (list Z) * Z)
    : outcome (list (list Z) * Z) :=
  '(m, address, _) ← for_int xh (fun i '(m, address, x_acm) =>
    r ← vget m i;
    let cnt := i32 (u64 (vsize r - 2) / 2) in
    '(m, address) ← for_int cnt (fun j '(m, address) =>
        m ← mset m i (j * 2 + off) address;
        Ok (m, u64 (address + CACHE_LINE_BYTE))) (m, address);
    r ← vget m i;
    nnz ← vget r (vsize r - 1);
    let x_acm := x_acm + nnz in
    m ← (if pop then vset m i (removelast r) else Ok m);
    Ok (m, if decide (Z.rem x_acm CACHE_LINE_COUNT = 0) then address
           else u64 (address - CACHE_LINE_BYTE), x_acm)) (s.1, s.2, 0);
  Ok (m, address).

(** The second loop of X_FULL_CMP: every line of every row, entry 0 included. *)
Definition map_full (xh : Z) (s : list (list Z) * Z) : outcome (list (list Z) * Z) :=
  for_int xh (fun i '(m, address) =>
    r ← vget m i;
    for_int (vsize r) (fun j '(m, address) =>
      m ← mset m i j address;
      Ok (m, u64 (address + CACHE_LINE_BYTE))) (m, address)) s.

(** [(int)(CACHE_LINE_COUNT / ceil((float)x_w / 32))], a float division
    truncated; zero when a row bitmap is longer than a cache line. *)
Definition x_change_of (xw : Z) : outcome Z :=
  h ← ceil_div xw 32;
  q ← f32_div (f32_of_Z CACHE_LINE_COUNT) (f32_of_Z h);
  Ok (Z.quot q.1 q.2).

Definition frags_of (vs : list (list Z)) (n : Z) : outcome (list Z) :=
  for_int n (fun i fs => v ← vget vs i; f ← ceil_div (vsize v) CACHE_LINE_COUNT; Ok (fs ++ [f])) [].

Definition AddressMapping (p : Pre) : outcome Pre :=
  let a := p_arch p in
  let d := p_data p in
  let n := n_of_engine a in
  row_frags ← frags_of (p_row_ptr p) n;
  col_frags ← frags_of (p_col_idx p) n;
  '(idx, a_row) ← place_regions set_value_range col_frags n (p_index p, 0);
  '(idx, a_col) ← place_regions set_row_range row_frags n (idx, a_row);
  '(idx, xw_start) ← place_regions set_col_range col_frags n (idx, a_col);
  '(m, address) ← match mode a with
      | X_CMP | MAT => map_sliced (bf a) (x_h d) (urb a) (total_urb d) (p_x_to_addr p, xw_start)
      | CSR =>
          s ← map_row_ptrs (x_h d) CACHE_LINE_COUNT (p_x_to_addr p, xw_start);
          s ← map_csr_pass 1 false (x_h d) s;
          map_csr_pass 2 true (x_h d) s
      | X_FULL_CMP =>
          x_change ← x_change_of (x_w d);
          s ← map_row_ptrs (x_h d) x_change (p_x_to_addr p, xw_start);
          map_full (x_h d) s
      end;
  Ok (p <| p_arch := a <| d_value_addr_start := 0 |> <| a_row_addr_start := a_row |>
                       <| a_col_addr_start := a_col |> <| xw_ele_addr_start := xw_start |>
                       <| axw_addr_start := address |> |>
        <| p_index := idx |> <| p_x_to_addr := m |>).

(** ** The constructor after the files are read *)
Definition Preprocess (oob : Z -> Z -> Z) (p : Pre) : outcome Pre :=
  let p := p <| p_index := p_index p ++ replicate (Z.to_nat (n_of_engine (p_arch p))) DataIndex_default |> in
  p ← LAC p;
  p ← Tiling p;
  let p := p <| p_x_to_addr := p_x_to_addr p ++ replicate (Z.to_nat (x_h (p_data p))) [] |> in
  p ← TransXW oob p;
  p ← AddressMapping p;
  Ok (p <| p_total_write := fold_left (fun t d => u64 (t + di_total_write d)) (p_index p)
                              (p_total_write p) |>).
