(* ===== verification/GraphDistribution.v ===== *)
(** * Correctness of [LAC] and [Tiling]

    [LAC] gives engine [e] exactly the CSR of the rows [i] with
    [(i / lac_width) mod n = e], in order; [Tiling] reorders an engine's
    subgraph tile by tile without losing or inventing an edge; the row, zero-row
    and write counts recorded in [data_index] are those of the stored CSR. *)

From stdpp Require Import base tactics list list_numbers numbers strings gmap.
From Stdlib Require Import ZArith Lia.
From S2P Require Import Prelude Common Float32 Csr Preprocess.

Lemma size_minus_1_offsets rows : size_minus_1 (offsets rows) = Ok (vsize rows).
Proof.
  transitivity (Ok (A := Z) (vsize (offsets rows) - 1)); [by destruct rows|].
  rewrite vsize_offsets. f_equal. lia.
Qed.

(** ** LAC *)
Section lac_correct.
Context (w n : Z) (rows : list (list Z)).
Hypothesis Hw : 0 < w.
Hypothesis Hn : 0 < n.

(** The state after the first [m] vertices. *)
Definition lac_state (m : nat) : LacState :=
  mkLacState (tab n (fun e => edges (lac_rows_upto w n rows m e)))
             (tab n (fun e => offsets (lac_rows_upto w n rows m e)))
             (tab n (fun e => concat (lac_rows_upto w n rows m e))).

Lemma lac_init_state : lac_init n = lac_state 0.
Proof. unfold lac_init. by rewrite !tab_replicate. Qed.

Lemma lac_engine_range m : 0 <= lac_engine w n m < n.
Proof. by apply Z.mod_pos_bound. Qed.

Lemma lac_idx_engine m : Z.rem (Z.quot (Z.of_nat m) w) n = lac_engine w n m.
Proof.
  rewrite Z.quot_div_nonneg by lia. apply Z.rem_mod_nonneg; [|lia].
  apply Z.div_pos; lia.
Qed.

(** Appending the columns [vs], read one after the other, to one entry. *)
Lemma push_range {A} (cols : list A) (f : Z -> list A) e js vs :
  0 <= e < n -> Forall2 (fun j c => vget cols j = Ok c) js vs ->
  for_each (fun j cs => c ← vget cols j; vpush cs e c) js (tab n f) =
  Ok (tab n (upd f e (f e ++ vs))).
Proof.
  intros He Hf. revert f; induction Hf as [|j c js vs Hj _ IH]; intros f; simpl.
  - f_equal. apply tab_ext. intros i _. unfold upd. case_decide; [|done].
    subst. by rewrite app_nil_r.
  - rewrite Hj. simpl. rewrite vpush_tab by done. simpl. rewrite IH. f_equal.
    apply tab_ext. intros i _. rewrite upd_eq. unfold upd. case_decide; [|done].
    by rewrite <- app_assoc.
Qed.

Lemma lac_row_step m r :
  rows !! m = Some r ->
  lac_row w n (offsets rows) (concat rows) (Z.of_nat m) (lac_state m) = Ok (lac_state (S m)).
Proof.
  intros Hr. pose proof (lookup_lt_Some _ _ _ Hr) as Hm.
  pose proof (lac_engine_range m) as He. unfold lac_row.
  rewrite decide_False by lia. rewrite lac_idx_engine. set (e := lac_engine w n m) in *.
  rewrite !vget_offsets by (unfold vsize; lia). cbn [mbind outcome_bind].
  replace (Z.to_nat (Z.of_nat m + 1)) with (S m) by lia. rewrite Nat2Z.id.
  rewrite (edges_take_S rows m r Hr). unfold lac_state at 1 2 3. simpl edge_acm.
  rewrite vupd_tab by done. cbn [mbind outcome_bind]. rewrite vget_tab by done.
  cbn [mbind outcome_bind row_ptr_lac col_idx_lac].
  rewrite vpush_tab by done. cbn [mbind outcome_bind].
  unfold for_range. replace (_ + vsize r - _) with (vsize r) by lia.
  rewrite (push_range _ _ e _ r He (concat_slice rows m r Hr)). simpl.
  unfold lac_state. do 2 f_equal; apply tab_ext; intros i Hi;
    rewrite (lac_rows_upto_S _ _ _ _ r) by done; fold e;
    unfold upd; rewrite ?(decide_True (P := e = e)) by done;
    destruct (decide (i = e)) as [->|Hne];
    rewrite ?decide_True, ?decide_False by congruence; try done.
  - rewrite edges_app, edges_cons, edges_nil. lia.
  - by rewrite offsets_snoc.
  - rewrite concat_app. simpl. by rewrite app_nil_r.
Qed.

Lemma lac_distribute_ok :
  lac_distribute w n (offsets rows) (concat rows) = Ok (lac_state (length rows)).
Proof.
  unfold lac_distribute. assert (Hs : size_minus_1 (offsets rows) = Ok (vsize rows)).
  { by apply size_minus_1_offsets. }
  rewrite Hs. simpl. rewrite lac_init_state.
  rewrite (for_int_steps _ _ (fun i => lac_state (Z.to_nat i))); unfold vsize.
  - by rewrite Nat2Z.id.
  - lia.
  - intros i Hi. destruct (lookup_lt_is_Some_2 rows (Z.to_nat i)) as [r Hr]; [lia|].
    rewrite <- (Z2Nat.id i) at 1 by lia. rewrite (lac_row_step _ r) by done.
    do 2 f_equal. lia.
Qed.
End lac_correct.

(** ** Row statistics *)

(** Rows with at least one edge: the ones the SIMD engines write back. *)
Definition nonzero_rows (rows : list (list Z)) : Z := vsize (filter (fun r => r <> []) rows).
Definition zero_rows (rows : list (list Z)) : Z := vsize rows - nonzero_rows rows.

Lemma nonzero_rows_cons r rows :
  nonzero_rows (r :: rows) = (if decide (r = []) then 0 else 1) + nonzero_rows rows.
Proof.
  unfold nonzero_rows. rewrite filter_cons. unfold vsize.
  destruct (decide (r = [])), (decide (r <> [])); naive_solver lia.
Qed.

Lemma count_zero_offsets_from acc rows :
  count_zero_rows (offsets_from acc rows) = zero_rows rows.
Proof.
  revert acc; induction rows as [|r rows IH]; intros acc; [done|].
  transitivity ((if decide (acc + vsize r = acc) then 1 else 0)
                + count_zero_rows (offsets_from (acc + vsize r) rows)).
  { by destruct rows. }
  rewrite IH. unfold zero_rows. rewrite nonzero_rows_cons. unfold vsize.
  destruct (decide (r = [])) as [->|Hr]; simpl.
  - rewrite decide_True by lia. lia.
  - rewrite decide_False; [lia|]. destruct r; [done|simpl; lia].
Qed.

Definition indexed (turb : Z) (R : Z -> list (list Z)) (D : Z -> DataIndex) (e : Z) : DataIndex :=
  (D e) <| row := vsize (R e) |> <| zero_row := zero_rows (R e) |>
        <| di_total_write := nonzero_rows (R e) * turb |>.

Lemma index_rows_ok turb n R D :
  0 <= n ->
  index_rows turb (tab n (fun e => offsets (R e))) n (tab n D) = Ok (tab n (indexed turb R D)).
Proof.
  intros Hn. unfold index_rows.
  rewrite <- (tab_ext n (fun e => if decide (e < 0) then indexed turb R D e else D e) D).
  2: { intros i Hi. by rewrite decide_False by lia. }
  rewrite (for_int_steps _ _
    (fun k => tab n (fun e => if decide (e < k) then indexed turb R D e else D e))); [|done|].
  { f_equal. apply tab_ext. intros i Hi. by rewrite decide_True by lia. }
  intros i Hi. rewrite vget_tab by done. cbn [mbind outcome_bind].
  rewrite size_minus_1_offsets. cbn [mbind outcome_bind].
  rewrite vupd_tab by done. f_equal. apply tab_ext. intros e He.
  unfold upd. destruct (decide (e = i)) as [->|Hne].
  - rewrite decide_False, decide_True by lia. unfold offsets. rewrite count_zero_offsets_from.
    unfold indexed, zero_rows. simpl. f_equal. ring.
  - destruct (decide (e < i)); [rewrite decide_True|rewrite decide_False]; try done; lia.
Qed.

(** ** Every row goes to exactly one engine *)
Lemma concat_tab_push {A} n (f : Z -> list A) e x :
  0 <= e < n -> concat (tab n (upd f e (f e ++ [x]))) ≡ₚ x :: concat (tab n f).
Proof.
  intros He. unfold tab. replace n with (e + (1 + (n - e - 1))) by lia.
  rewrite !(seqZ_app 0 e), !(seqZ_app _ 1), !fmap_app, !concat_app by lia.
  rewrite Z.add_0_l, !seqZ_one, !list_fmap_singleton. simpl. rewrite !app_nil_r, upd_eq.
  assert (Hout : forall a b, (b <= e \/ e < a) ->
    upd f e (f e ++ [x]) <$> seqZ a (b - a) = f <$> seqZ a (b - a)).
  { intros a b Hab. apply list_fmap_ext. intros k i [-> Hi]%lookup_seqZ. apply upd_ne. lia. }
  pose proof (Hout 0 e ltac:(lia)) as H1. rewrite Z.sub_0_r in H1. rewrite H1.
  pose proof (Hout (e + 1) n ltac:(lia)) as H2.
  replace (n - (e + 1)) with (n - e - 1) in H2 by lia.
  rewrite H2.
  rewrite <- !app_assoc. simpl. rewrite (app_assoc _ (f e)), (app_assoc _ (f e)).
  by rewrite Permutation_middle.
Qed.

Lemma lac_partition_upto w n rows m :
  0 < n -> (m <= length rows)%nat ->
  concat (tab n (lac_rows_upto w n rows m)) ≡ₚ take m rows.
Proof.
  intros Hn. induction m as [|m IH]; intros Hm.
  - unfold tab, lac_rows_upto. simpl. rewrite take_0. 
    by induction (seqZ 0 n).
  - destruct (lookup_lt_is_Some_2 rows m) as [r Hr]; [lia|].
    pose proof (Z.mod_pos_bound (Z.of_nat m / w) n Hn) as He.
    rewrite (tab_ext n _ (upd (lac_rows_upto w n rows m) (lac_engine w n m)
                            (lac_rows_upto w n rows m (lac_engine w n m) ++ [r]))).
    2: { intros e _. rewrite (lac_rows_upto_S _ _ _ _ r) by done. unfold upd.
         repeat case_decide; congruence. }
    rewrite concat_tab_push by done. rewrite IH by lia.
    erewrite take_S_r by done. by rewrite <- Permutation_cons_append.
Qed.

(** ** Tiling *)
Lemma find_tile_ok nt t l0 a :
  0 <= t - a < nt -> find_tile (seqZ (a + 1) nt) t l0 = Some (l0 + (t - a)).
Proof.
  intros Ht. remember (Z.to_nat nt) as k eqn:Hk. revert nt Hk t l0 a Ht.
  induction k as [|k IH]; intros nt Hk t l0 a Ht; [lia|].
  rewrite seqZ_cons by lia. simpl. destruct (Z.ltb_spec t (a + 1)).
  - f_equal. lia.
  - replace (Z.succ (a + 1)) with (a + 1 + 1) by lia. rewrite IH by lia. f_equal. lia.
Qed.

Section tile_correct.
Context (nt unit_v : Z).
Hypothesis Hnt : 0 <= nt.
Hypothesis Hunit : 0 < unit_v.

(** Every column of the row falls in one of the tiles. *)
Definition tileable (r : list Z) : Prop := forall c, c ∈ r -> 0 <= c < nt * unit_v.

Lemma find_tile_col c : 0 <= c < nt * unit_v ->
  find_tile (t_unit nt) (Z.quot c unit_v) 0 = Some (Z.quot c unit_v) /\
  0 <= Z.quot c unit_v < nt.
Proof.
  intros Hc. rewrite Z.quot_div_nonneg by lia.
  assert (0 <= c / unit_v < nt).
  { split; [apply Z.div_pos; lia|]. apply Z.div_lt_upper_bound; lia. }
  split; [|done]. unfold t_unit. rewrite (find_tile_ok nt _ 0 0) by lia. f_equal. lia.
Qed.

Lemma tile_part_cons l c r :
  tile_part unit_v l (c :: r) = (if decide (Z.quot c unit_v = l) then [c] else []) ++ tile_part unit_v l r.
Proof. unfold tile_part. rewrite filter_cons. by case_decide. Qed.

Lemma length_t_unit : length (t_unit nt) = Z.to_nat nt.
Proof. apply length_seqZ. Qed.

Lemma vsize_t_unit : vsize (t_unit nt) = nt.
Proof. unfold vsize. rewrite length_t_unit. lia. Qed.

Lemma tile_edges_ok cols js r (a : Z -> Z) (f : Z -> list Z) :
  Forall2 (fun j c => vget cols j = Ok c) js r -> tileable r ->
  for_each (tile_edge nt unit_v cols) js (tab nt a, tab nt f) =
  Ok (tab nt (fun l => a l + vsize (tile_part unit_v l r)),
      tab nt (fun l => f l ++ tile_part unit_v l r)).
Proof.
  intros Hf Hr. revert a f; induction Hf as [|j c js r Hj _ IH]; intros a f; simpl.
  - do 2 f_equal; apply tab_ext; intros l _; [unfold vsize; simpl; lia|by rewrite app_nil_r].
  - destruct (find_tile_col c) as [Hft Hlt]; [apply Hr; set_solver|].
    unfold tile_edge at 1. rewrite Hj. cbn [mbind outcome_bind]. rewrite decide_False by lia.
    rewrite Hft, vupd_tab by done. cbn [mbind outcome_bind]. rewrite vpush_tab by done.
    cbn [mbind outcome_bind]. rewrite IH by (intros x Hx; apply Hr; set_solver).
    do 2 f_equal; apply tab_ext; intros l _; rewrite tile_part_cons; unfold upd;
      destruct (decide (l = Z.quot c unit_v)) as [->|Hne].
    + rewrite decide_True, vsize_app by done. unfold vsize at 2. simpl. lia.
    + rewrite decide_False by done. done.
    + rewrite decide_True by done. by rewrite <- app_assoc.
    + by rewrite decide_False by done.
Qed.

Lemma push_counts (a : Z -> Z) (f : Z -> list Z) :
  for_int nt (fun k vl => x ← vget (tab nt a) k; vpush vl k x) (tab nt f) =
  Ok (tab nt (fun l => f l ++ [a l])).
Proof.
  pose proof (for_int_steps nt (fun k vl => x ← vget (tab nt a) k; vpush vl k x)
    (fun k => tab nt (fun l => if decide (l < k) then f l ++ [a l] else f l)) Hnt) as H.
  cbv beta in H. rewrite (tab_ext nt _ f) in H.
  2: { intros i Hi. by rewrite decide_False by lia. }
  rewrite H.
  - f_equal. apply tab_ext. intros i Hi. by rewrite decide_True by lia.
  - intros i Hi. rewrite vget_tab by done. cbn [mbind outcome_bind].
    rewrite vpush_tab by done. f_equal. apply tab_ext. intros l Hl. unfold upd.
    destruct (decide (l = i)) as [->|Hne].
    + by rewrite decide_False, decide_True by lia.
    + destruct (decide (l < i)); [rewrite decide_True|rewrite decide_False]; try done; lia.
Qed.

(** The lists after the first [m] rows. *)
Definition v_upto (rows : list (list Z)) (m : nat) : list (list Z) :=
  tab nt (fun l => vsize <$> (tile_part unit_v l <$> take m rows)).
Definition e_upto (rows : list (list Z)) (m : nat) : list (list Z) :=
  tab nt (fun l => concat (tile_part unit_v l <$> take m rows)).

Lemma tile_row_step rows m r :
  rows !! m = Some r -> tileable r ->
  tile_row nt unit_v (offsets rows) (concat rows) (Z.of_nat m) (v_upto rows m, e_upto rows m) =
  Ok (v_upto rows (S m), e_upto rows (S m)).
Proof.
  intros Hr Ht. pose proof (lookup_lt_Some _ _ _ Hr) as Hm. unfold tile_row.
  rewrite !vget_offsets by (unfold vsize; lia). cbn [mbind outcome_bind].
  replace (Z.to_nat (Z.of_nat m + 1)) with (S m) by lia. rewrite Nat2Z.id.
  rewrite (edges_take_S rows m r Hr). unfold for_range.
  replace (_ + vsize r - _) with (vsize r) by lia.
  rewrite length_t_unit, tab_replicate. unfold e_upto at 1.
  rewrite (tile_edges_ok _ _ r) by (done || by apply concat_slice). cbn [mbind outcome_bind].
  rewrite vsize_t_unit. unfold v_upto at 1. rewrite push_counts. cbn [mbind outcome_bind].
  unfold v_upto, e_upto. do 2 f_equal; apply tab_ext; intros l _;
    erewrite (take_S_r rows m) by done; rewrite !fmap_app; simpl.
  - done.
  - rewrite concat_app. simpl. by rewrite app_nil_r.
Qed.

Lemma offsets_from_fold rows acc rp :
  fold_left (fun '(v_acm, rp) v => (v_acm + v, rp ++ [v_acm + v])) (vsize <$> rows) (acc, rp) =
  (acc + edges rows, rp ++ tail (offsets_from acc rows)).
Proof.
  revert acc rp; induction rows as [|r rows IH]; intros acc rp; simpl.
  - rewrite edges_nil, Z.add_0_r. by rewrite app_nil_r.
  - rewrite IH, edges_cons. f_equal; [lia|]. rewrite <- app_assoc. simpl.
    by destruct rows.
Qed.

Lemma offsets_from_app acc rows1 rows2 :
  offsets_from acc (rows1 ++ rows2) = offsets_from acc rows1 ++ tail (offsets_from (acc + edges rows1) rows2).
Proof.
  revert acc; induction rows1 as [|r rows1 IH]; intros acc; simpl.
  - rewrite edges_nil, Z.add_0_r. by destruct rows2.
  - by rewrite IH, edges_cons, Z.add_assoc.
Qed.

(** The rows of the first [k] tiles. *)
Definition tiles_upto (rows : list (list Z)) (k : Z) : list (list Z) :=
  concat ((fun l => tile_part unit_v l <$> rows) <$> seqZ 0 k).

Lemma tiles_upto_S rows k : 0 <= k ->
  tiles_upto rows (k + 1) = tiles_upto rows k ++ (tile_part unit_v k <$> rows).
Proof.
  intros Hk. unfold tiles_upto. rewrite seqZ_app, fmap_app, concat_app, seqZ_one by lia.
  simpl. by rewrite app_nil_r.
Qed.

Lemma tiles_to_csr_ok rows :
  tiles_to_csr nt (tab nt (fun l => vsize <$> (tile_part unit_v l <$> rows)))
                  (tab nt (fun l => concat (tile_part unit_v l <$> rows))) =
  Ok (offsets (tile_rows nt unit_v rows), concat (tile_rows nt unit_v rows)).
Proof.
  unfold tiles_to_csr. rewrite vsize_t_unit.
  rewrite (for_int_steps nt _ (fun k => (edges (tiles_upto rows k), offsets (tiles_upto rows k),
                                         concat (tiles_upto rows k))) Hnt); [done|].
  intros i Hi. rewrite !vget_tab by done. cbn [mbind outcome_bind].
  rewrite offsets_from_fold, tiles_upto_S, edges_app, concat_app by lia.
  unfold offsets. by rewrite offsets_from_app.
Qed.

Lemma tile_engine_ok rows :
  Forall tileable rows ->
  tile_engine nt unit_v (offsets rows) (concat rows) =
  Ok (offsets (tile_rows nt unit_v rows), concat (tile_rows nt unit_v rows)).
Proof.
  intros Hr. unfold tile_engine. rewrite size_minus_1_offsets. cbn [mbind outcome_bind].
  rewrite length_t_unit, !tab_replicate.
  change (tab nt (fun _ => []), tab nt (fun _ => [])) with (v_upto rows 0, e_upto rows 0).
  pose proof (for_int_steps (vsize rows) (tile_row nt unit_v (offsets rows) (concat rows))
    (fun i => (v_upto rows (Z.to_nat i), e_upto rows (Z.to_nat i)))) as H.
  change (for_int (vsize rows) (tile_row nt unit_v (offsets rows) (concat rows))
            (v_upto rows 0, e_upto rows 0)) with
    (for_int (vsize rows) (tile_row nt unit_v (offsets rows) (concat rows))
       (v_upto rows (Z.to_nat 0), e_upto rows (Z.to_nat 0))).
  rewrite H.
  - cbn [mbind outcome_bind]. rewrite <- tiles_to_csr_ok. unfold v_upto, e_upto, vsize.
    by rewrite Nat2Z.id, firstn_all.
  - apply vsize_nonneg.
  - intros i Hi. unfold vsize in Hi.
    destruct (lookup_lt_is_Some_2 rows (Z.to_nat i)) as [r Hri]; [lia|].
    rewrite <- (Z2Nat.id i) at 1 by lia. rewrite (tile_row_step _ _ r) by
      (done || by eapply Forall_lookup_1 in Hr).
    do 3 f_equal; lia.
Qed.
End tile_correct.

(** ** Tiling permutes the edges of an engine *)
Lemma concat_fmap_app {A B} (f g : A -> list B) l :
  concat ((fun x => f x ++ g x) <$> l) ≡ₚ concat (f <$> l) ++ concat (g <$> l).
Proof.
  induction l as [|x l IH]; simpl; [done|]. rewrite IH, <- !app_assoc.
  apply Permutation_app_head. rewrite !app_assoc. apply Permutation_app_tail.
  apply Permutation_app_comm.
Qed.

Lemma concat_tile_parts nt unit_v r :
  0 <= nt -> 0 < unit_v -> tileable nt unit_v r ->
  concat (tab nt (fun l => tile_part unit_v l r)) ≡ₚ r.
Proof.
  intros Hnt Hu. induction r as [|c r IH]; intros Hr.
  - unfold tab, tile_part. simpl. by induction (seqZ 0 nt).
  - rewrite (tab_ext nt _ (fun l => (if decide (Z.quot c unit_v = l) then [c] else [])
                                     ++ tile_part unit_v l r)) by (intros; apply tile_part_cons).
    unfold tab at 1. rewrite concat_fmap_app. fold (tab nt (fun l => tile_part unit_v l r)).
    rewrite IH by (intros x Hx; apply Hr; set_solver).
    destruct (find_tile_col nt unit_v Hu c) as [_ Hq]; [apply Hr; set_solver|].
    pose proof (concat_tab_push nt (fun _ => []) (Z.quot c unit_v) c Hq) as Hp.
    rewrite (tab_ext nt _ (fun l => if decide (Z.quot c unit_v = l) then [c] else [])) in Hp.
    2: { intros l _. unfold upd. repeat case_decide; naive_solver. }
    unfold tab at 1 in Hp. rewrite Hp.
    assert (Hnil : forall l : list Z, concat ((fun _ : Z => @nil Z) <$> l) = []).
    { by induction l. }
    unfold tab. by rewrite Hnil.
Qed.

Lemma tile_rows_permutation nt unit_v rows :
  0 <= nt -> 0 < unit_v -> Forall (tileable nt unit_v) rows ->
  concat (tile_rows nt unit_v rows) ≡ₚ concat rows.
Proof.
  intros Hnt Hu Hr. unfold tile_rows.
  induction Hr as [|r rows Hr _ IH]; simpl.
  - by induction (seqZ 0 nt).
  - assert (Hc : forall l : list Z,
      concat (concat ((fun k => tile_part unit_v k r :: (tile_part unit_v k <$> rows)) <$> l)) ≡ₚ
      concat ((fun k => tile_part unit_v k r) <$> l) ++
      concat (concat ((fun k => tile_part unit_v k <$> rows) <$> l))).
    { clear. induction l as [|k l IH]; simpl; [done|].
      rewrite !concat_app, IH, <- !app_assoc. apply Permutation_app_head.
      rewrite !app_assoc. apply Permutation_app_tail. apply Permutation_app_comm. }
    rewrite Hc, IH. apply Permutation_app_tail. by apply concat_tile_parts.
Qed.

(** ** Properties *)

(** [LAC] in one equation. *)
Lemma LAC_run (p : Pre) (rows : list (list Z)) (D : Z -> DataIndex) :
  let n := n_of_engine (p_arch p) in
  let w := lac_width (p_arch p) in
  0 < n -> 0 < w ->
  p_row_ptr p = [offsets rows] -> p_col_idx p = [concat rows] -> p_index p = tab n D ->
  LAC p = Ok (p <| p_arch := (p_arch p) <| lac_width := w |> |>
                <| p_index := tab n (indexed (total_urb (p_data p)) (lac_rows w n rows) D) |>
                <| p_row_ptr := tab n (fun e => offsets (lac_rows w n rows e)) |>
                <| p_col_idx := tab n (fun e => concat (lac_rows w n rows e)) |>).
Proof.
  intros n w Hn Hw Hrp Hci Hidx. unfold LAC, lac_width_of. fold n w.
  rewrite decide_False by lia. cbn [mbind outcome_bind]. rewrite decide_False by lia.
  rewrite Hrp, Hci, Hidx. simpl. rewrite lac_distribute_ok by done. simpl.
  by rewrite index_rows_ok by lia.
Qed.

(** [Tiling] in one equation. *)
Lemma Tiling_run (p : Pre) (R : Z -> list (list Z)) (D : Z -> DataIndex) :
  let n := n_of_engine (p_arch p) in
  let nt := n_tiles (p_data p) in
  let unit_v := cdiv (a_w (p_data p)) nt in
  0 < n -> 1 < nt <= 2 ^ 24 -> 0 < a_w (p_data p) <= 2 ^ 24 ->
  p_row_ptr p = tab n (fun e => offsets (R e)) ->
  p_col_idx p = tab n (fun e => concat (R e)) -> p_index p = tab n D ->
  (forall e r c, r ∈ R e -> c ∈ r -> 0 <= c < a_w (p_data p)) ->
  0 < unit_v /\ (forall e, Forall (tileable nt unit_v) (R e)) /\
  Tiling p = Ok (p <| p_index := tab n (indexed (total_urb (p_data p)) (fun e => tile_rows nt unit_v (R e)) D) |>
                   <| p_row_ptr := tab n (fun e => offsets (tile_rows nt unit_v (R e))) |>
                   <| p_col_idx := tab n (fun e => concat (tile_rows nt unit_v (R e))) |>).
Proof.
  intros n nt unit_v Hn Hnt Haw Hrp Hci Hidx Hcol.
  pose proof (cdiv_spec (a_w (p_data p)) nt ltac:(lia)) as Hcd. fold unit_v in Hcd.
  assert (Hu : 0 < unit_v) by nia.
  assert (Ht : forall e, Forall (tileable nt unit_v) (R e)).
  { intros e. apply Forall_forall. intros r Hr c Hc. specialize (Hcol e r c Hr Hc). lia. }
  split; [done|]. split; [done|].
  unfold Tiling. fold n nt. rewrite decide_True by lia.
  rewrite ceil_div_exact by lia. fold unit_v. cbn [mbind outcome_bind].
  rewrite (for_int_steps n _ (fun k => (tab k (fun e => offsets (tile_rows nt unit_v (R e))),
                                        tab k (fun e => concat (tile_rows nt unit_v (R e)))))); [|lia|].
  2: { intros i Hi. rewrite Hrp, Hci, !vget_tab by done. cbn [mbind outcome_bind].
       rewrite tile_engine_ok by (done || lia). cbn [mbind outcome_bind].
       unfold tab. by rewrite !(seqZ_app 0 i 1), !fmap_app, !Z.add_0_l, !seqZ_one by lia. }
  cbn [mbind outcome_bind]. by rewrite Hidx, index_rows_ok by lia.
Qed.



(** ** Witnesses: two engines, four vertices, chunks of one row *)
Definition demo_rows : list (list Z) := [[1; 2]; [0]; []; [3; 0]].

Definition demo_pre : Pre :=
  mkPre (mkArchInfo 2 512 2 4 1 1 1 32 MAT GCN 0 0 0 0 0 "HBM2" "out")
        (mkDataInfo 4 4 4 16 16 16 2 1 5 4)
        [DataIndex_default; DataIndex_default]
        [[0; 2; 3; 3; 5]] [[1; 2; 0; 3; 0]] [] [] 0.


Definition demo_tiled : Pre :=
  demo_pre <| p_row_ptr := [[0; 2; 2]; [0; 1; 3]] |> <| p_col_idx := [[1; 2]; [0; 3; 0]] |>.

