(* ===== verification/AddressMap.v ===== *)
(** * Correctness of the memory layout ([AddressMapping], [TransXW])

    The graph regions are consecutive and disjoint, one per engine and per
    array; the feature lines of X_CMP and MAT mode are laid out slice by slice
    behind them, injectively; the CSR block counts are exact up to [2^24]
    elements.  The last part shows what [TransXW] makes of the feature matrix in
    X_CMP mode. *)

From stdpp Require Import base tactics list list_numbers numbers strings gmap.
From Stdlib Require Import ZArith Lia.
From S2P Require Import Prelude Common Float32 Csr Layout Preprocess.

(** ** Graph regions *)
Lemma frags_of_ok n (v : Z -> list Z) :
  0 <= n -> (forall e, 0 <= e < n -> vsize (v e) <= 2 ^ 24) ->
  frags_of (tab n v) n = Ok (tab n (fun e => cdiv (vsize (v e)) CACHE_LINE_COUNT)).
Proof.
  intros Hn Hv. unfold frags_of.
  rewrite (for_int_steps n _ (fun k => tab k (fun e => cdiv (vsize (v e)) CACHE_LINE_COUNT)) Hn);
    [done|].
  intros i Hi. rewrite vget_tab by done. cbn [mbind outcome_bind].
  rewrite ceil_div_exact; [|split; [apply vsize_nonneg|auto]|unfold CACHE_LINE_COUNT; lia].
  cbn [mbind outcome_bind]. unfold tab.
  by rewrite seqZ_app, fmap_app, Z.add_0_l, seqZ_one by lia.
Qed.

Section regions.
Context (n : Z) (f : Z -> Z) (base : Z).
Hypothesis Hn : 0 <= n.
Hypothesis Hf : forall e, 0 <= f e.
Hypothesis Hbase : 0 <= base.
Hypothesis Hfit : base + psum f n * CACHE_LINE_BYTE < 2 ^ 64.

(** The first address of region [e]; region [e] ends where [e + 1] starts. *)
Definition region (e : Z) : Z := base + psum f e * CACHE_LINE_BYTE.

Lemma region_mono i j : 0 <= i <= j -> region i <= region j.
Proof.
  intros Hij. unfold region, CACHE_LINE_BYTE. pose proof (psum_mono f i j Hf Hij). lia.
Qed.

Lemma region_u64 i : 0 <= i <= n -> 0 <= region i < 2 ^ 64.
Proof.
  intros Hi. pose proof (region_mono i n ltac:(lia)). pose proof (region_mono 0 i ltac:(lia)) as H0.
  unfold region in H0 at 1. rewrite psum_0 in H0. unfold region in *. lia.
Qed.

Lemma place_regions_ok (set_range : Z -> Z -> DataIndex -> DataIndex) (D : Z -> DataIndex) :
  place_regions set_range (tab n f) n (tab n D, base) =
  Ok (tab n (fun e => set_range (region e) (region (e + 1)) (D e)), region n).
Proof.
  assert (E0 : region 0 = base) by (unfold region; rewrite psum_0; lia).
  unfold place_regions. rewrite <- E0 at 1.
  rewrite <- (tab_ext n (fun e => if decide (e < 0) then set_range (region e) (region (e + 1)) (D e)
                                  else D e) D) by (intros i Hi; by rewrite decide_False by lia).
  rewrite (for_int_steps n _
    (fun k => (tab n (fun e => if decide (e < k) then set_range (region e) (region (e + 1)) (D e)
                               else D e), region k)) Hn).
  - do 2 f_equal. apply tab_ext. intros i Hi. by rewrite decide_True by lia.
  - intros i Hi. rewrite vget_tab by done. cbn [mbind outcome_bind].
    assert (Ha : u64 (region i + f i * CACHE_LINE_BYTE) = region (i + 1)).
    { assert (E : region i + f i * CACHE_LINE_BYTE = region (i + 1)).
      { unfold region. rewrite psum_succ by lia. lia. }
      rewrite E. apply u64_small, region_u64. lia. }
    rewrite Ha, vupd_tab by done. cbn [mbind outcome_bind]. do 2 f_equal.
    apply tab_ext. intros e He. unfold upd. destruct (decide (e = i)) as [->|Hne].
    + by rewrite decide_False, decide_True by lia.
    + destruct (decide (e < i)); [rewrite decide_True|rewrite decide_False]; try done; lia.
Qed.
End regions.

(** ** Feature lines of X_CMP and MAT mode *)
Section sliced.
Context (nbf xh nurb turb start : Z) (g : Z -> Z -> Z).
Hypothesis Hbf : 0 < nbf.
Hypothesis Hxh : 0 <= xh.
Hypothesis Hurb : 0 < nurb.
Hypothesis Hturb : (nbf - 1) * nurb <= turb <= nbf * nurb.
Hypothesis Hstart : 0 <= start.
Hypothesis Hfit : start + xh * turb * CACHE_LINE_BYTE < 2 ^ 64.

(** Lines of a row in the slices before [i], and in slice [i]. *)
Definition before (i : Z) : Z := Z.min (i * nurb) turb.
Definition width (i : Z) : Z := before (i + 1) - before i.

(** The position of line [c] of row [j] in the slice-major order. *)
Definition line_index (j c : Z) : Z :=
  let i := c / nurb in xh * before i + j * width i + (c - i * nurb).

Definition line_addr (j c : Z) : Z := start + line_index j c * CACHE_LINE_BYTE.

Definition mapped (j c : Z) : Z := if decide (g j c = 1) then line_addr j c else g j c.

(** Lines visited when the loops reach [(i, j, k)]. *)
Definition visited (i j k j' c : Z) : bool :=
  bool_decide (c < i * nurb) ||
  (bool_decide (c < (i + 1) * nurb) && (bool_decide (j' < j) ||
     (bool_decide (j' = j) && bool_decide (c < i * nurb + k)))).

Definition mat_at (i j k : Z) : list (list Z) :=
  tab xh (fun j' => tab turb (fun c => if visited i j k j' c then mapped j' c else g j' c)).

Definition addr_at (i j k : Z) : Z :=
  start + (xh * before i + j * width i + k) * CACHE_LINE_BYTE.

Lemma before_in i : 0 <= i < nbf -> before i = i * nurb.
Proof. intros Hi. unfold before. nia. Qed.

Lemma width_range i : 0 <= i < nbf -> 0 <= width i <= nurb /\ i * nurb + width i <= turb /\
  (width i < nurb -> i * nurb + width i = turb).
Proof. intros Hi. unfold width. rewrite (before_in i Hi). unfold before. nia. Qed.

Lemma visited_ext i j k i' j' k' :
  (forall r c, 0 <= r < xh -> 0 <= c < turb -> visited i j k r c = visited i' j' k' r c) ->
  mat_at i j k = mat_at i' j' k'.
Proof.
  intros H. unfold mat_at. apply tab_ext. intros r Hr. apply tab_ext. intros c Hc.
  by rewrite (H r c Hr Hc).
Qed.

Lemma mset_tab (h : Z -> Z -> Z) j c v :
  0 <= j < xh -> 0 <= c < turb ->
  mset (tab xh (fun r => tab turb (h r))) j c v =
  Ok (tab xh (fun r => tab turb (upd (h r) c (if decide (r = j) then v else h r c)))).
Proof.
  intros Hj Hc. unfold mset. rewrite vget_tab by done. cbn [mbind outcome_bind].
  rewrite vset_tab by done. cbn [mbind outcome_bind]. rewrite vset_tab by done. f_equal.
  apply tab_ext. intros r Hr. unfold upd at 1. destruct (decide (r = j)) as [->|]; [done|].
  apply tab_ext. intros c' Hc'. unfold upd. by destruct (decide _) as [->|].
Qed.

Lemma mget_tab (h : Z -> Z -> Z) j c :
  0 <= j < xh -> 0 <= c < turb -> mget (tab xh (fun r => tab turb (h r))) j c = Ok (h j c).
Proof.
  intros Hj Hc. unfold mget. rewrite vget_tab by done. cbn [mbind outcome_bind].
  by rewrite vget_tab.
Qed.

Lemma mget_mat_at i j k r c :
  0 <= r < xh -> 0 <= c < turb ->
  mget (mat_at i j k) r c = Ok (if visited i j k r c then mapped r c else g r c).
Proof.
  apply (mget_tab (fun r c => if visited i j k r c then mapped r c else g r c)).
Qed.

Lemma mset_mat_at i j k r c v :
  0 <= r < xh -> 0 <= c < turb ->
  mset (mat_at i j k) r c v = Ok (tab xh (fun r' => tab turb
    (upd (fun c' => if visited i j k r' c' then mapped r' c' else g r' c') c
       (if decide (r' = r) then v else if visited i j k r' c then mapped r' c else g r' c)))).
Proof.
  apply (mset_tab (fun r c => if visited i j k r c then mapped r c else g r c)).
Qed.

Lemma div_slice i c : i * nurb <= c < (i + 1) * nurb -> c / nurb = i.
Proof. intros Hc. symmetry. apply (Z.div_unique _ _ _ (c - i * nurb)); [left|]; lia. Qed.

(** The address counter stays in range. *)
Lemma addr_at_range i j k :
  0 <= i < nbf -> 0 <= j < xh -> 0 <= k <= width i ->
  0 <= addr_at i j k /\ addr_at i j k <= start + xh * turb * CACHE_LINE_BYTE.
Proof.
  intros Hi Hj Hk. destruct (width_range i Hi) as (Hw & Hwt & _).
  unfold addr_at, CACHE_LINE_BYTE. rewrite (before_in i Hi).
  assert (0 <= i * nurb) by nia.
  assert (j * width i + k <= xh * width i) by nia.
  assert (xh * (i * nurb) + xh * width i <= xh * turb) by nia.
  assert (0 <= xh * (i * nurb)) by nia. assert (0 <= j * width i) by nia. lia.
Qed.

(** Visiting one more line changes one entry. *)
Lemma mat_at_step i j k :
  0 <= i < nbf -> 0 <= j < xh -> 0 <= k < width i ->
  let c := i * nurb + k in
  mat_at i j (k + 1) = tab xh (fun r => tab turb
    (upd (fun c' => if visited i j k r c' then mapped r c' else g r c') c
       (if decide (r = j) then mapped r c
        else if visited i j k r c then mapped r c else g r c))).
Proof.
  intros Hi Hj Hk c. destruct (width_range i Hi) as (Hw & Hwt & _).
  unfold mat_at. apply tab_ext. intros r Hr. apply tab_ext. intros c' Hc'. unfold upd.
  destruct (decide (c' = c)) as [->|Hne].
  - destruct (decide (r = j)) as [->|Hrj].
    + unfold visited. rewrite (bool_decide_eq_true_2 (c < (i + 1) * nurb)) by (unfold c; lia).
      rewrite (bool_decide_eq_true_2 (j = j)) by done.
      rewrite (bool_decide_eq_true_2 (c < i * nurb + (k + 1))) by (unfold c; lia).
      by rewrite !orb_true_r.
    + unfold visited. by rewrite !(bool_decide_eq_false_2 (r = j)) by done.
  - assert (visited i j (k + 1) r c' = visited i j k r c') as ->; [|done].
    unfold visited. do 4 f_equal. apply bool_decide_ext. unfold c in Hne. lia.
Qed.

Lemma map_line_step i j k :
  0 <= i < nbf -> 0 <= j < xh -> 0 <= k < width i ->
  map_line nurb turb i j k (mat_at i j k, addr_at i j k, false) =
  Ok (mat_at i j (k + 1), addr_at i j (k + 1), false).
Proof.
  intros Hi Hj Hk. destruct (width_range i Hi) as (Hw & Hwt & _).
  set (c := i * nurb + k). assert (Hc : 0 <= c < turb) by (unfold c; nia).
  assert (Hq : c / nurb = i) by (apply div_slice; unfold c; lia).
  unfold map_line. cbv beta iota zeta. fold c. rewrite decide_False by lia.
  rewrite mget_mat_at by done. cbn [mbind outcome_bind].
  assert (Hv : visited i j k j c = false).
  { unfold visited. rewrite (bool_decide_eq_false_2 (c < i * nurb)) by (unfold c; lia).
    rewrite (bool_decide_eq_false_2 (j < j)) by lia.
    rewrite (bool_decide_eq_false_2 (c < i * nurb + k)) by (unfold c; lia).
    by rewrite !andb_false_r. }
  rewrite Hv. assert (Ha : u64 (addr_at i j k + CACHE_LINE_BYTE) = addr_at i j (k + 1)).
  { pose proof (addr_at_range i j (k + 1) Hi Hj ltac:(lia)).
    replace (addr_at i j k + CACHE_LINE_BYTE) with (addr_at i j (k + 1))
      by (unfold addr_at; ring). apply u64_small. lia. }
  assert (Hla : line_addr j c = addr_at i j k).
  { unfold line_addr, line_index, addr_at. rewrite Hq. do 2 f_equal. unfold c. lia. }
  rewrite Ha.
  destruct (decide (g j c = 1)) as [Hg|Hg].
  - rewrite mset_mat_at by done. cbn [mbind outcome_bind].
    rewrite (mat_at_step i j k Hi Hj Hk). fold c. do 3 f_equal. apply tab_ext. intros r Hr.
    destruct (decide (r = j)) as [->|]; [|done]. unfold mapped. by rewrite decide_True, Hla.
  - cbn [mbind outcome_bind]. rewrite (mat_at_step i j k Hi Hj Hk). fold c. do 3 f_equal.
    apply tab_ext. intros r Hr. apply tab_ext. intros c' Hc'. unfold upd.
    destruct (decide (c' = c)) as [->|]; [|done].
    destruct (decide (r = j)) as [->|]; [|done]. rewrite Hv. unfold mapped.
    by rewrite decide_False.
Qed.

Lemma visited_iff i j k r c :
  visited i j k r c = true <->
  c < i * nurb \/ (c < (i + 1) * nurb /\ (r < j \/ (r = j /\ c < i * nurb + k))).
Proof.
  unfold visited.
  by rewrite orb_true_iff, andb_true_iff, orb_true_iff, andb_true_iff, !bool_decide_eq_true.
Qed.

Lemma mat_next_row i j :
  0 <= i < nbf -> mat_at i j (width i) = mat_at i (j + 1) 0.
Proof.
  intros Hi. destruct (width_range i Hi) as (Hw & Hwt & Hlast).
  apply visited_ext. intros r c Hr Hc. apply eq_iff_eq_true. rewrite !visited_iff. lia.
Qed.

Lemma mat_next_slice i : mat_at i xh 0 = mat_at (i + 1) 0 0.
Proof.
  apply visited_ext. intros r c Hr Hc. apply eq_iff_eq_true. rewrite !visited_iff. lia.
Qed.

Lemma addr_next_row i j : addr_at i j (width i) = addr_at i (j + 1) 0.
Proof. unfold addr_at. ring. Qed.

Lemma addr_next_slice i : addr_at i xh 0 = addr_at (i + 1) 0 0.
Proof. unfold addr_at, width. ring. Qed.

Lemma map_row_ok i j :
  0 <= i < nbf -> 0 <= j < xh ->
  exists b, for_int nurb (map_line nurb turb i j) (mat_at i j 0, addr_at i j 0, false) =
            Ok (mat_at i (j + 1) 0, addr_at i (j + 1) 0, b).
Proof.
  intros Hi Hj. destruct (width_range i Hi) as (Hw & Hwt & Hlast).
  pose proof (for_int_steps nurb (map_line nurb turb i j) (fun k =>
    if decide (k <= width i) then (mat_at i j k, addr_at i j k, false)
    else (mat_at i j (width i), addr_at i j (width i), true)) ltac:(lia)) as H.
  cbv beta in H. rewrite (decide_True (P := 0 <= width i)) in H by lia.
  rewrite H.
  - rewrite mat_next_row, addr_next_row by done.
    destruct (decide (nurb <= width i)); [|eauto].
    replace nurb with (width i) by lia. rewrite mat_next_row, addr_next_row by done. eauto.
  - intros k Hk. destruct (decide (k <= width i)) as [Hkw|Hkw].
    + destruct (decide (k = width i)) as [->|Hne].
      * rewrite decide_False by lia. unfold map_line. by rewrite decide_True by lia.
      * rewrite decide_True by lia. apply map_line_step; lia.
    + by rewrite decide_False by lia.
Qed.

Lemma map_slice_ok i :
  0 <= i < nbf ->
  for_int xh (fun j '(m, address) =>
    '(m, address, _) ← for_int nurb (map_line nurb turb i j) (m, address, false);
    Ok (m, address)) (mat_at i 0 0, addr_at i 0 0) = Ok (mat_at (i + 1) 0 0, addr_at (i + 1) 0 0).
Proof.
  intros Hi. rewrite <- mat_next_slice, <- addr_next_slice.
  apply (for_int_steps xh _ (fun j => (mat_at i j 0, addr_at i j 0)) Hxh).
  intros j Hj. destruct (map_row_ok i j Hi Hj) as [b ->]. done.
Qed.

Lemma map_sliced_ok :
  map_sliced nbf xh nurb turb (tab xh (fun j => tab turb (g j)), start) =
  Ok (tab xh (fun j => tab turb (mapped j)), start + xh * turb * CACHE_LINE_BYTE).
Proof.
  unfold map_sliced.
  replace (tab xh (fun j => tab turb (g j))) with (mat_at 0 0 0).
  2: { apply tab_ext. intros r Hr. apply tab_ext. intros c Hc.
       destruct (visited 0 0 0 r c) eqn:E; [|done]. apply visited_iff in E. lia. }
  replace start with (addr_at 0 0 0) at 1
    by (unfold addr_at; rewrite (before_in 0) by lia; ring).
  rewrite (for_int_steps nbf _ (fun i => (mat_at i 0 0, addr_at i 0 0))) by
    (lia || intros i Hi; by apply map_slice_ok).
  do 2 f_equal.
  - apply tab_ext. intros r Hr. apply tab_ext. intros c Hc.
    assert (visited nbf 0 0 r c = true) as ->; [|done]. apply visited_iff. lia.
  - unfold addr_at, before. rewrite Z.min_r by lia. ring.
Qed.

(** Distinct lines get distinct places, all inside the feature region. *)
Lemma line_index_range j c :
  0 <= j < xh -> 0 <= c < turb -> 0 <= line_index j c < xh * turb.
Proof.
  intros Hj Hc. unfold line_index. set (i := c / nurb).
  pose proof (Z.div_mod c nurb ltac:(lia)) as Hd. pose proof (Z.mod_pos_bound c nurb Hurb).
  fold i in Hd. assert (Hi : 0 <= i < nbf) by nia.
  destruct (width_range i Hi) as (Hw & Hwt & Hlast). rewrite before_in by done.
  assert (c - i * nurb < width i) by nia.
  assert (j * width i + (c - i * nurb) < xh * width i) by nia.
  assert (xh * (i * nurb) + xh * width i <= xh * turb) by nia.
  assert (0 <= xh * (i * nurb)) by nia. assert (0 <= j * width i) by nia. lia.
Qed.

Lemma line_slice j c :
  0 <= j < xh -> 0 <= c < turb -> let i := c / nurb in
  0 <= i < nbf /\ 0 <= c - i * nurb < width i /\
  xh * before i <= line_index j c < xh * before (i + 1).
Proof.
  intros Hj Hc i. pose proof (Z.div_mod c nurb ltac:(lia)) as Hd.
  pose proof (Z.mod_pos_bound c nurb Hurb). fold i in Hd. assert (Hi : 0 <= i < nbf) by nia.
  destruct (width_range i Hi) as (Hw & Hwt & Hlast).
  assert (Hk : 0 <= c - i * nurb < width i) by nia. split_and!; [lia..| |].
  - unfold line_index. fold i. assert (0 <= j * width i) by nia. lia.
  - unfold line_index. fold i. replace (before (i + 1)) with (before i + width i)
      by (unfold width; ring).
    assert (j * width i + (c - i * nurb) < xh * width i) by nia. lia.
Qed.

Lemma line_index_inj j c j' c' :
  0 <= j < xh -> 0 <= c < turb -> 0 <= j' < xh -> 0 <= c' < turb ->
  line_index j c = line_index j' c' -> j = j' /\ c = c'.
Proof.
  intros Hj Hc Hj' Hc' E.
  destruct (line_slice j c Hj Hc) as (Hi & Hk & Hr).
  destruct (line_slice j' c' Hj' Hc') as (Hi' & Hk' & Hr').
  set (i := c / nurb) in *. set (i' := c' / nurb) in *.
  assert (Hmono : forall a b, a <= b -> before a <= before b) by (unfold before; intros; nia).
  assert (i = i') as Hii.
  { destruct (Z.lt_trichotomy i i') as [Hlt|[->|Hlt]]; [|done|].
    - pose proof (Hmono (i + 1) i' ltac:(lia)). nia.
    - pose proof (Hmono (i' + 1) i ltac:(lia)). nia. }
  unfold line_index in E. fold i i' in E. rewrite <- Hii in *.
  assert (j * width i + (c - i * nurb) = j' * width i + (c' - i * nurb)) by lia.
  assert (j = j') by nia. nia.
Qed.
End sliced.

(** ** The whole of [AddressMapping] *)
Section mapping.
Context (p : Pre) (R C : Z -> list Z) (D : Z -> DataIndex).
Let n : Z := n_of_engine (p_arch p).
Let rf (e : Z) : Z := cdiv (vsize (R e)) CACHE_LINE_COUNT.
Let cf (e : Z) : Z := cdiv (vsize (C e)) CACHE_LINE_COUNT.

(** The three arrays start here. *)
Definition row_base : Z := region cf 0 n.
Definition col_base : Z := region rf row_base n.
Definition xw_base : Z := region cf col_base n.

Definition placed (e : Z) : DataIndex :=
  set_col_range (region cf col_base e) (region cf col_base (e + 1))
    (set_row_range (region rf row_base e) (region rf row_base (e + 1))
      (set_value_range (region cf 0 e) (region cf 0 (e + 1)) (D e))).

Hypothesis Hn : 0 <= n.
Hypothesis Hrp : p_row_ptr p = tab n R.
Hypothesis Hci : p_col_idx p = tab n C.
Hypothesis Hidx : p_index p = tab n D.
Hypothesis HR : forall e, 0 <= e < n -> vsize (R e) <= 2 ^ 24.
Hypothesis HC : forall e, 0 <= e < n -> vsize (C e) <= 2 ^ 24.
Hypothesis Hfit : xw_base < 2 ^ 64.

Lemma cdiv_nonneg a b : 0 <= a -> 0 < b -> 0 <= cdiv a b.
Proof. intros Ha Hb. pose proof (cdiv_spec a b Hb). nia. Qed.

Lemma rf_nonneg e : 0 <= rf e.
Proof. apply cdiv_nonneg; [apply vsize_nonneg|done]. Qed.
Lemma cf_nonneg e : 0 <= cf e.
Proof. apply cdiv_nonneg; [apply vsize_nonneg|done]. Qed.

Lemma bases_ordered : 0 <= row_base /\ row_base <= col_base /\ col_base <= xw_base.
Proof.
  pose proof (psum_nonneg cf n cf_nonneg Hn). pose proof (psum_nonneg rf n rf_nonneg Hn).
  unfold xw_base, col_base, row_base, region, CACHE_LINE_BYTE. lia.
Qed.

(** The graph part of the mapping, up to the choice of the feature mapping. *)
Lemma mapping_prefix :
  AddressMapping p =
  '(m, address) ← match mode (p_arch p) with
      | X_CMP | MAT => map_sliced (bf (p_arch p)) (x_h (p_data p)) (urb (p_arch p))
                         (total_urb (p_data p)) (p_x_to_addr p, xw_base)
      | CSR =>
          s ← map_row_ptrs (x_h (p_data p)) CACHE_LINE_COUNT (p_x_to_addr p, xw_base);
          s ← map_csr_pass 1 false (x_h (p_data p)) s;
          map_csr_pass 2 true (x_h (p_data p)) s
      | X_FULL_CMP =>
          x_change ← x_change_of (x_w (p_data p));
          s ← map_row_ptrs (x_h (p_data p)) x_change (p_x_to_addr p, xw_base);
          map_full (x_h (p_data p)) s
      end;
  Ok (p <| p_arch := (p_arch p) <| d_value_addr_start := 0 |> <| a_row_addr_start := row_base |>
                       <| a_col_addr_start := col_base |> <| xw_ele_addr_start := xw_base |>
                       <| axw_addr_start := address |> |>
        <| p_index := tab n placed |> <| p_x_to_addr := m |>).
Proof.
  pose proof bases_ordered as (H0 & H1 & H2). unfold AddressMapping. fold n.
  rewrite Hrp, Hci, Hidx, !frags_of_ok by done. cbn [mbind outcome_bind]. fold rf cf.
  change (fun e : Z => cdiv (vsize (R e)) CACHE_LINE_COUNT) with rf.
  change (fun e : Z => cdiv (vsize (C e)) CACHE_LINE_COUNT) with cf.
  rewrite (place_regions_ok n cf 0) by
    (done || apply cf_nonneg || (change (row_base < 2 ^ 64); lia)).
  cbn [mbind outcome_bind]. fold row_base.
  rewrite (place_regions_ok n rf row_base) by
    (done || apply rf_nonneg || (change (col_base < 2 ^ 64); lia)).
  cbn [mbind outcome_bind]. fold col_base.
  rewrite (place_regions_ok n cf col_base) by
    (done || apply cf_nonneg || lia || (change (xw_base < 2 ^ 64); lia)).
  cbn [mbind outcome_bind]. done.
Qed.

Lemma regions_ok_of (f : Z -> Z) base :
  (forall e, 0 <= f e) -> 0 <= base ->
  regions_ok n base (region f base n) (region f base) (fun e => region f base (e + 1)).
Proof.
  intros Hf Hb. assert (E0 : base = region f base 0).
  { unfold region. rewrite psum_0. lia. }
  split; intros e He.
  - rewrite E0 at 1. apply region_mono; [done|lia].
  - apply region_mono; [done|lia].
  - apply region_mono; [done|lia].
  - intros H1 H2 H3. apply region_mono; [done|lia].
  - exists (f e). unfold region. rewrite psum_succ by lia. ring.
Qed.

Lemma placed_layout address :
  Layout ((p_arch p) <| d_value_addr_start := 0 |> <| a_row_addr_start := row_base |>
            <| a_col_addr_start := col_base |> <| xw_ele_addr_start := xw_base |>
            <| axw_addr_start := address |>) (tab n placed).
Proof.
  pose proof bases_ordered as (H0 & H1 & H2). split; simpl; fold n.
  - by apply vsize_tab.
  - exists placed. split_and!; [done|..]; simpl.
    + apply regions_ok_of; [apply cf_nonneg|done].
    + apply regions_ok_of; [apply rf_nonneg|done].
    + apply regions_ok_of; [apply cf_nonneg|lia].
  - lia.
Qed.
End mapping.

(** ** The feature lines of X_CMP mode *)

(** The number of nonzero elements among the columns [a <= j < b]. *)
Definition nnz (x : Z -> Z) (a b : Z) : Z := psum (fun k => if decide (x (a + k) = 0) then 0 else 1) (b - a).

Lemma nnz_empty x a : nnz x a a = 0.
Proof. unfold nnz. by rewrite Z.sub_diag, psum_0. Qed.

Lemma nnz_succ x a b :
  a <= b -> nnz x a (b + 1) = nnz x a b + (if decide (x b = 0) then 0 else 1).
Proof.
  intros Hab. unfold nnz. replace (b + 1 - a) with (b - a + 1) by lia.
  rewrite psum_succ by lia. by replace (a + (b - a)) with b by lia.
Qed.

Lemma tab_app {A} m k (f : Z -> A) :
  0 <= m -> 0 <= k -> tab m f ++ tab k (fun i => f (m + i)) = tab (m + k) f.
Proof.
  intros Hm Hk. unfold tab. rewrite (seqZ_app 0 m k), fmap_app by lia. f_equal.
  rewrite Z.add_0_l. apply list_eq. intros i. rewrite !list_lookup_fmap.
  destruct (decide (Z.of_nat i < k)).
  - by rewrite !lookup_seqZ_lt by lia.
  - by rewrite !lookup_seqZ_ge by lia.
Qed.

Lemma tab_snoc {A} m (f : Z -> A) : 0 <= m -> tab (m + 1) f = tab m f ++ [f m].
Proof.
  intros Hm. unfold tab. by rewrite (seqZ_app 0 m 1), fmap_app, Z.add_0_l, seqZ_one by lia.
Qed.

(** The markers of one block of [count] words: line [k] is used while words are left. *)
Definition marker (count k : Z) : Z := if count - k * CACHE_LINE_COUNT >? 0 then 1 else 0.

Lemma push_block_ok cur count r :
  0 <= cur ->
  push_block cur count r = (r ++ tab cur (marker count), count - cur * CACHE_LINE_COUNT).
Proof.
  intros Hc. unfold push_block. rewrite <- (Z2Nat.id cur Hc).
  induction (Z.to_nat cur) as [|k IH].
  - unfold tab. simpl. rewrite app_nil_r. f_equal. lia.
  - rewrite seqZ_S, fold_left_app, IH. simpl. rewrite <- app_assoc. f_equal; [|lia].
    f_equal. replace (Z.of_nat (S k)) with (Z.of_nat k + 1) by lia. by rewrite tab_snoc by lia.
Qed.

Section xcmp.
Context (oob : Z -> Z -> Z) (xunit xw hdr : Z) (X : Z -> Z -> Z).
Let nurb : Z := cdiv xunit CACHE_LINE_COUNT.
Let nbf : Z := cdiv xw xunit.
Let turb : Z := nbf * nurb.

(** The words of block [b] of a row: the bitmap header and the nonzero elements
    the loop counts; the first block misses column 0. *)
Definition block_words (x : Z -> Z) (b : Z) : Z :=
  hdr + nnz x (Z.max 1 (b * xunit)) (Z.min ((b + 1) * xunit) xw).

(** The marker of line [c] of a row. *)
Definition xcmp_marker (x : Z -> Z) (c : Z) : Z :=
  marker (block_words x (c / nurb)) (c mod nurb).

Hypothesis Hxunit : 0 < xunit.
Hypothesis Hxw : 0 < xw.

Lemma nurb_pos : 0 < nurb.
Proof. pose proof (cdiv_spec xunit CACHE_LINE_COUNT eq_refl). unfold nurb, CACHE_LINE_COUNT in *. lia. Qed.

Lemma nbf_pos : 0 < nbf.
Proof. pose proof (cdiv_spec xw xunit Hxunit). unfold nbf. nia. Qed.

Lemma xcmp_markers_snoc x b :
  0 <= b -> tab (b * nurb) (xcmp_marker x) ++ tab nurb (marker (block_words x b)) =
  tab ((b + 1) * nurb) (xcmp_marker x).
Proof.
  intros Hb. pose proof nurb_pos. replace ((b + 1) * nurb) with (b * nurb + nurb) by lia.
  rewrite <- tab_app by nia. f_equal. apply tab_ext. intros k Hk. unfold xcmp_marker.
  rewrite Z.div_add_l, Z.div_small, Z.add_0_r by lia.
  by rewrite Z.add_comm, Z.mod_add, Z.mod_small by lia.
Qed.

(** The loop state before column [j]: the finished blocks and the running count. *)
Definition xcmp_state (x : Z -> Z) (j : Z) : list Z * Z :=
  let b := (j - 1) / xunit in
  (tab (b * nurb) (xcmp_marker x), hdr + nnz x (Z.max 1 (b * xunit)) j).

Section row.
Context (xh i : Z).
Hypothesis Hi : 0 <= i < xh.
Let m : list (list Z) := tab xh (fun i => tab xw (X i)).

Lemma xw_read_in j : 0 <= j < xw -> xw_read oob m i j = Ok (X i j).
Proof.
  intros Hj. unfold xw_read, m. rewrite vget_tab by done. cbn [mbind outcome_bind].
  rewrite vsize_tab, decide_False by lia. by rewrite vget_tab.
Qed.

Lemma xw_read_end : xw_read oob m i xw = Ok (oob i xw).
Proof.
  unfold xw_read, m. rewrite vget_tab by done. cbn [mbind outcome_bind].
  by rewrite vsize_tab, decide_True by lia.
Qed.

Lemma block_end j :
  1 <= j -> Z.rem j xunit = 0 -> j = ((j - 1) / xunit + 1) * xunit /\ j / xunit = (j - 1) / xunit + 1.
Proof.
  intros Hj Hr. pose proof (Z.quot_rem j xunit ltac:(lia)) as Hq. rewrite Hr in Hq.
  set (q := Z.quot j xunit) in *. assert (0 < q) by nia.
  assert ((j - 1) / xunit = q - 1) as ->.
  { symmetry. apply (Z.div_unique _ _ _ (xunit - 1)); [left|]; lia. }
  split; [lia|]. symmetry. apply (Z.div_unique _ _ _ 0); [left|]; lia.
Qed.

Lemma block_inside j :
  1 <= j -> Z.rem j xunit <> 0 -> j / xunit = (j - 1) / xunit.
Proof.
  intros Hj Hr. rewrite Z.rem_mod_nonneg in Hr by lia.
  pose proof (Z.div_mod j xunit ltac:(lia)). pose proof (Z.mod_pos_bound j xunit Hxunit).
  apply (Z.div_unique _ _ _ (j mod xunit - 1)); [left|]; lia.
Qed.

Lemma xcmp_col_step j :
  1 <= j < xw ->
  xcmp_col oob xunit xw turb nbf nurb hdr m i j (xcmp_state (X i) j) = Ok (xcmp_state (X i) (j + 1)).
Proof.
  intros Hj. unfold xcmp_col. unfold xcmp_state at 1. rewrite decide_False by lia.
  rewrite xw_read_in by lia. unfold xcmp_state. replace (j + 1 - 1) with j by lia.
  pose proof nurb_pos as Hnp. set (b := (j - 1) / xunit).
  assert (Hb : 0 <= b) by (apply Z.div_pos; lia).
  destruct (decide (Z.rem j xunit = 0)) as [Hr|Hr].
  - destruct (block_end j ltac:(lia) Hr) as [Ej Eb]. fold b in Ej, Eb.
    rewrite decide_True by tauto. rewrite (decide_False (P := j = xw)) by lia.
    rewrite push_block_ok by lia. cbn [mbind outcome_bind]. rewrite Eb. do 2 f_equal.
    + rewrite <- xcmp_markers_snoc by done. do 2 f_equal. unfold block_words.
      rewrite <- Ej, Z.min_l by lia. done.
    + rewrite <- Ej, Z.max_r, nnz_succ, nnz_empty by lia. destruct (decide _); lia.
  - rewrite block_inside by (done || lia). fold b.
    rewrite (decide_False (P := Z.rem j xunit = 0 \/ j = xw)) by lia. cbn [mbind outcome_bind].
    do 2 f_equal. assert (b * xunit <= j - 1) by (unfold b; rewrite Z.mul_comm; apply Z.mul_div_le; lia).
    rewrite nnz_succ by lia. destruct (decide _); lia.
Qed.

Lemma last_block : (xw - 1) / xunit = nbf - 1.
Proof.
  pose proof (cdiv_spec xw xunit Hxunit). fold nbf in H.
  symmetry. apply (Z.div_unique _ _ _ (xw - 1 - xunit * (nbf - 1))); [left|]; lia.
Qed.

Lemma xcmp_row_ok :
  xcmp_row oob xunit xw turb nbf nurb hdr m i [] = Ok (tab turb (xcmp_marker (X i))).
Proof.
  pose proof nurb_pos as Hnp. pose proof nbf_pos as Hbp. unfold xcmp_row.
  replace ([], hdr) with (xcmp_state (X i) 1).
  2: { unfold xcmp_state. rewrite Z.div_0_l, Z.mul_0_l, Z.max_l, nnz_empty, Z.add_0_r by lia. done. }
  unfold for_range. replace (xw + 1 - 1) with (xw - 1 + 1) by lia.
  rewrite seqZ_app, for_each_app by lia.
  pose proof (for_range_steps 1 xw _ (xcmp_state (X i)) ltac:(lia) xcmp_col_step) as H.
  unfold for_range in H. rewrite H. clear H. cbn [mbind outcome_bind].
  replace (1 + (xw - 1)) with xw by lia. rewrite seqZ_one. cbn [for_each].
  unfold xcmp_col, xcmp_state. rewrite decide_False by lia.
  rewrite (decide_True (P := _ \/ xw = xw)) by tauto. rewrite (decide_True (P := xw = xw)) by done.
  replace (turb - (nbf - 1) * nurb) with nurb by (unfold turb; lia).
  rewrite push_block_ok by lia. rewrite xw_read_end. cbn [mbind outcome_bind].
  rewrite last_block. f_equal. unfold turb. replace nbf with (nbf - 1 + 1) at 3 by lia.
  rewrite <- xcmp_markers_snoc by lia. do 2 f_equal. unfold block_words.
  rewrite Z.min_r; [done|]. pose proof (cdiv_spec xw xunit Hxunit). fold nbf in H.
  replace (nbf - 1 + 1) with nbf by lia. lia.
Qed.
End row.
End xcmp.

Lemma each_row_ok xh (f : Z -> list Z -> outcome (list Z)) (g g' : Z -> list Z) :
  0 <= xh -> (forall i, 0 <= i < xh -> f i (g i) = Ok (g' i)) ->
  each_row xh f (tab xh g) = Ok (tab xh g').
Proof.
  intros Hxh Hf. unfold each_row.
  rewrite <- (tab_ext xh (fun i => if decide (i < 0) then g' i else g i) g)
    by (intros; by rewrite decide_False by lia).
  rewrite (for_int_steps xh _ (fun k => tab xh (fun i => if decide (i < k) then g' i else g i)) Hxh).
  - f_equal. apply tab_ext. intros. by rewrite decide_True by lia.
  - intros i Hi. rewrite vget_tab by done. cbn [mbind outcome_bind].
    rewrite decide_False by lia. rewrite Hf by done. cbn [mbind outcome_bind].
    rewrite vset_tab by done. f_equal. apply tab_ext. intros k Hk. unfold upd.
    destruct (decide (k = i)) as [->|]; [by rewrite decide_True by lia|].
    destruct (decide (k < i)); [rewrite decide_True|rewrite decide_False]; done || lia.
Qed.

(** [AddressMapping] in X_CMP and MAT mode in one equation. *)
Lemma sliced_mapping_run (p : Pre) (R C : Z -> list Z) (D : Z -> DataIndex) (g : Z -> Z -> Z) :
  let n := n_of_engine (p_arch p) in
  let nbf := bf (p_arch p) in
  let nurb := urb (p_arch p) in
  let turb := total_urb (p_data p) in
  let xh := x_h (p_data p) in
  let base := xw_base p R C in
  mode (p_arch p) = X_CMP \/ mode (p_arch p) = MAT ->
  0 <= n -> p_row_ptr p = tab n R -> p_col_idx p = tab n C -> p_index p = tab n D ->
  (forall e, 0 <= e < n -> vsize (R e) <= 2 ^ 24) ->
  (forall e, 0 <= e < n -> vsize (C e) <= 2 ^ 24) ->
  0 < nbf -> 0 < nurb -> 0 <= xh -> (nbf - 1) * nurb <= turb <= nbf * nurb ->
  p_x_to_addr p = tab xh (fun j => tab turb (g j)) ->
  base + xh * turb * CACHE_LINE_BYTE < 2 ^ 64 ->
  0 <= base < 2 ^ 64 /\
  AddressMapping p =
    Ok (p <| p_arch := (p_arch p) <| d_value_addr_start := 0 |> <| a_row_addr_start := row_base p C |>
                         <| a_col_addr_start := col_base p R C |> <| xw_ele_addr_start := base |>
                         <| axw_addr_start := base + xh * turb * CACHE_LINE_BYTE |> |>
          <| p_index := tab n (placed p R C D) |>
          <| p_x_to_addr := tab xh (fun j => tab turb (mapped xh nurb turb base g j)) |>).
Proof.
  intros n nbf nurb turb xh base Hm Hn Hrp Hci Hidx HR HC Hbf Hurb Hxh Ht Hx Hfit.
  destruct (bases_ordered p R C Hn) as (H0 & H1 & H2).
  assert (Hb : 0 <= base < 2 ^ 64).
  { assert (0 <= turb) by nia. assert (0 <= xh * turb) by nia.
    unfold CACHE_LINE_BYTE in Hfit. fold base in H2. lia. }
  assert (E : map_sliced nbf xh nurb turb (p_x_to_addr p, base) =
    Ok (tab xh (fun j => tab turb (mapped xh nurb turb base g j)), base + xh * turb * CACHE_LINE_BYTE))
    by (rewrite Hx; apply map_sliced_ok; done || lia).
  split; [done|]. rewrite (mapping_prefix p R C D) by (done || apply Hb).
  destruct Hm as [-> | ->]; fold nbf nurb turb xh base; rewrite E; reflexivity.
Qed.

(** [TransXW] in X_CMP mode in one equation. *)
Lemma transxw_xcmp_run (p : Pre) (oob : Z -> Z -> Z) (R : Z -> list Z) (D : Z -> DataIndex)
    (X : Z -> Z -> Z) :
  let n := n_of_engine (p_arch p) in
  let xunit := x_unit (p_arch p) in
  let xw := x_w (p_data p) in
  let xh := x_h (p_data p) in
  let nurb := cdiv xunit CACHE_LINE_COUNT in
  let nbf := cdiv xw xunit in
  mode (p_arch p) = X_CMP -> 0 <= n -> 0 <= xh ->
  0 < xunit <= 2 ^ 24 -> 0 < xw <= 2 ^ 24 ->
  p_row_ptr p = tab n R -> p_index p = tab n D ->
  p_xw p = tab xh (fun i => tab xw (X i)) -> p_x_to_addr p = tab xh (fun _ => []) ->
  TransXW oob p =
    Ok (p <| p_arch := (p_arch p) <| urb := nurb |> <| bf := nbf |> |>
          <| p_data := (p_data p) <| total_urb := nbf * nurb |> |>
          <| p_x_to_addr := tab xh (fun i => tab (nbf * nurb) (xcmp_marker xunit xw (cdiv xunit 32) (X i))) |>
          <| p_index := tab n (fun e => (D e) <| di_total_write :=
                                   (vsize (R e) - 1 - zero_row (D e)) * (nbf * nurb) |>) |>
          <| p_xw := [] |>).
Proof.
  intros n xunit xw xh nurb nbf Hmode Hn Hxh Hxu Hxw Hrp Hidx Hm Hx.
  unfold TransXW. rewrite Hmode. fold n xunit xw xh.
  rewrite !ceil_div_exact by (unfold CACHE_LINE_COUNT; lia). cbn [mbind outcome_bind].
  fold nurb nbf. rewrite Hx, (each_row_ok xh _ _
    (fun i => tab (nbf * nurb) (xcmp_marker xunit xw (cdiv xunit 32) (X i))) Hxh).
  2: { intros i Hi. rewrite Hm. apply xcmp_row_ok; done || lia. }
  cbn [mbind outcome_bind]. rewrite Hrp, Hidx.
  rewrite <- (tab_ext n (fun e => if decide (e < 0) then (D e) <| di_total_write :=
    (vsize (R e) - 1 - zero_row (D e)) * (nbf * nurb) |> else D e) D)
    by (intros; by rewrite decide_False by lia).
  rewrite (for_int_steps n _ (fun k => tab n (fun e => if decide (e < k) then
    (D e) <| di_total_write := (vsize (R e) - 1 - zero_row (D e)) * (nbf * nurb) |> else D e)) Hn).
  - cbn [mbind outcome_bind]. do 2 f_equal. simpl. f_equal.
    apply tab_ext. intros e He. by rewrite decide_True by lia.
  - intros e He. rewrite vget_tab by done. cbn [mbind outcome_bind].
    rewrite vupd_tab by done. f_equal. apply tab_ext. intros k Hk. unfold upd.
    destruct (decide (k = e)) as [->|].
    + by rewrite decide_False, decide_True by lia.
    + destruct (decide (k < e)); [rewrite decide_True|rewrite decide_False]; done || lia.
Qed.

(** [TransXW] in MAT mode: every line of every row is present. *)
Lemma transxw_mat_run (p : Pre) (oob : Z -> Z -> Z) :
  let xw := x_w (p_data p) in
  let xh := x_h (p_data p) in
  mode (p_arch p) = MAT -> 0 <= xh -> 0 < xw <= 2 ^ 24 -> p_x_to_addr p = tab xh (fun _ => []) ->
  TransXW oob p =
    Ok (p <| p_x_to_addr := tab xh (fun _ => tab (cdiv xw CACHE_LINE_COUNT) (fun _ => 1)) |> <| p_xw := [] |>).
Proof.
  intros xw xh Hmode Hxh Hxw Hx. unfold TransXW. rewrite Hmode. fold xw xh.
  rewrite ceil_div_exact by (unfold CACHE_LINE_COUNT; lia). cbn [mbind outcome_bind].
  rewrite Hx, (each_row_ok xh _ _ (fun _ => tab (cdiv xw CACHE_LINE_COUNT) (fun _ => 1)) Hxh); [done|].
  intros i Hi. cbn [app]. f_equal. apply tab_replicate.
Qed.

(** ** The properties *)

(** C10: whatever the feature mode, an [AddressMapping] that returns leaves a
    memory layout in which the value, row-pointer and column-index regions of
    the engines are consecutive, disjoint and in engine order, each a whole
    number of cache lines, and lie below the feature region. *)
Theorem address_mapping_layout (p p' : Pre) (R C : Z -> list Z) (D : Z -> DataIndex) :
  let n := n_of_engine (p_arch p) in
  0 <= n -> p_row_ptr p = tab n R -> p_col_idx p = tab n C -> p_index p = tab n D ->
  (forall e, 0 <= e < n -> vsize (R e) <= 2 ^ 24) ->
  (forall e, 0 <= e < n -> vsize (C e) <= 2 ^ 24) ->
  xw_base p R C < 2 ^ 64 ->
  AddressMapping p = Ok p' ->
  Layout (p_arch p') (p_index p') /\
  (forall e, 0 <= e < n -> exists d, vget (p_index p') e = Ok d /\
     col_addr_end d - col_addr_start d = CACHE_LINE_BYTE * cdiv (vsize (C e)) CACHE_LINE_COUNT /\
     value_addr_end d - value_addr_start d = CACHE_LINE_BYTE * cdiv (vsize (C e)) CACHE_LINE_COUNT /\
     row_addr_end d - row_addr_start d = CACHE_LINE_BYTE * cdiv (vsize (R e)) CACHE_LINE_COUNT /\
     row d = row (D e) /\ zero_row d = zero_row (D e) /\ di_total_write d = di_total_write (D e)).
Proof.
  intros n Hn Hrp Hci Hidx HR HC Hfit HA.
  rewrite (mapping_prefix p R C D) in HA by done.
  apply bind_ok in HA as ([m address] & _ & HA). injection HA as <-. simpl. split.
  - by apply placed_layout.
  - intros e He. exists (placed p R C D e). rewrite vget_tab by done. split; [done|]. simpl.
    unfold region. rewrite !psum_succ by lia. split_and!; try done; ring.
Qed.



(** ** Witnesses and limits *)

(** Two engines, four vertices; a 4 x 40 feature matrix in 16-element slices. *)
Definition demo_map : Pre :=
  mkPre (mkArchInfo 2 512 2 4 1 3 1 32 MAT GCN 0 0 0 0 0 "HBM2" "out")
        (mkDataInfo 4 4 4 40 40 40 1 3 5 4)
        [DataIndex_default; DataIndex_default]
        [[0; 2; 2]; [0; 1; 3]] [[1; 2]; [0; 3; 0]] (replicate 4 [1; 1; 1]) [] 0.

Lemma demo_R : p_row_ptr demo_map = tab 2 (fun e => if decide (e = 0) then [0; 2; 2] else [0; 1; 3]).
Proof. reflexivity. Qed.
Lemma demo_C : p_col_idx demo_map = tab 2 (fun e => if decide (e = 0) then [1; 2] else [0; 3; 0]).
Proof. reflexivity. Qed.

Lemma address_mapping_layout_witness :
  exists p', AddressMapping demo_map = Ok p' /\ Layout (p_arch p') (p_index p').
Proof.
  destruct (AddressMapping demo_map) as [p'|f] eqn:E; [|exfalso; vm_compute in E; discriminate E].
  exists p'. split; [reflexivity|].
  refine (proj1 (address_mapping_layout demo_map p' _ _ (fun _ => DataIndex_default)
    _ demo_R demo_C eq_refl _ _ _ E)).
  - vm_compute. discriminate.
  - intros e _. destruct (decide (e = 0)); vm_compute; discriminate.
  - intros e _. destruct (decide (e = 0)); vm_compute; discriminate.
  - vm_compute. reflexivity.
Defined.


(** A 2 x 40 matrix whose only nonzero element is column 0 of row 0; slices of 32. *)
Definition demo_xcmp : Pre :=
  demo_map <| p_arch := (p_arch demo_map) <| mode := X_CMP |> |>
           <| p_data := (p_data demo_map) <| x_h := 2 |> |>
           <| p_xw := [1 :: replicate 39 0; replicate 40 0] |> <| p_x_to_addr := [[]; []] |>.

