(* ===== verification/DramInterface.v ===== *)
(** * The interface between the accelerator and the DRAM simulator

    The accelerator uses a memory system through three operations of
    [dramsim3::MemorySystem] (DRAMsim3/src/memory_system.cc); [DramLaws] states
    what the accelerator's accounting relies on: no transaction is lost and none
    is invented; [DramTotal] adds that the operations do not fail, [DramLive] that
    what is inside is eventually served. *)

From stdpp Require Import base tactics list list_numbers numbers strings gmap.
From Stdlib Require Import ZArith Lia.
From S2P Require Import Prelude Common.

Class DramBackend (D : Type) := {
  dram_will_accept : D -> Z -> bool -> outcome bool;
  dram_add : D -> Z -> bool -> outcome D;
  (** The completed transactions in the order of their callbacks. *)
  dram_tick : D -> outcome (D * list Transaction)
}.

Class DramLaws (D : Type) `{DramBackend D} := {
  dram_inv : D -> Prop;
  dram_pending : D -> list Transaction;
  dram_add_law : forall d a w d',
    dram_inv d -> 0 <= a < 2 ^ 64 -> dram_will_accept d a w = Ok true -> dram_add d a w = Ok d' ->
    dram_inv d' /\ dram_pending d' ≡ₚ mkTransaction a w :: dram_pending d;
  dram_tick_law : forall d d' done,
    dram_inv d -> dram_tick d = Ok (d', done) ->
    dram_inv d' /\ done ++ dram_pending d' ≡ₚ dram_pending d
}.

(** A memory system whose operations succeed: [dram_ready n d] says that [d] is
    good for [n] more cycles. *)
Class DramTotal (D : Type) `{DramBackend D} := {
  dram_ready : Z -> D -> Prop;
  dram_accept_total : forall n d a w,
    dram_ready n d -> 0 <= a < 2 ^ 64 -> exists ok, dram_will_accept d a w = Ok ok;
  dram_add_total : forall n d a w,
    dram_ready n d -> 0 <= a < 2 ^ 64 -> dram_will_accept d a w = Ok true ->
    exists d', dram_add d a w = Ok d' /\ dram_ready n d';
  dram_tick_total : forall n d,
    0 < n -> dram_ready n d -> exists d' done, dram_tick d = Ok (d', done) /\ dram_ready (n - 1) d'
}.

(** A memory system that serves what it holds: it refuses a transaction only
    while it has others to work on, and [dram_lag] bounds the cycles until the
    next one completes. *)
Class DramLive (D : Type) `{DramLaws D} := {
  dram_lag : D -> Z;
  dram_refuse_law : forall d a w,
    dram_inv d -> dram_will_accept d a w = Ok false -> dram_pending d <> [];
  dram_lag_law : forall d d',
    dram_inv d -> dram_tick d = Ok (d', []) -> dram_pending d <> [] -> 0 <= dram_lag d' < dram_lag d
}.
