(* ===== verification/DramCommon.v ===== *)
(** * DRAMsim3: shared data and bit arithmetic (DRAMsim3/src/common.h, common.cc)

    Addresses, commands and transactions of the DRAM simulator, the predicates
    on commands, and the integer helpers ([LogBase2], [ModuloWidth],
    [GetBitInPos]) with what they compute. *)

From stdpp Require Import base tactics list list_numbers numbers strings gmap.
From Stdlib Require Import ZArith Lia.
From S2P Require Import Prelude.

Record Address := mkAddress {
  channel : Z;
  rank : Z;
  bankgroup : Z;
  bank : Z;
  arow : Z;
  column : Z
}.

(** [Address()] *)
Definition Address_default : Address := mkAddress (-1) (-1) (-1) (-1) (-1) (-1).

#[export] Instance Address_eq_dec : EqDecision Address.
Proof. solve_decision. Defined.

Inductive CommandType :=
  | C_READ | C_READ_PRECHARGE | C_WRITE | C_WRITE_PRECHARGE | ACTIVATE | PRECHARGE
  | REFRESH_BANK | REFRESH | SREF_ENTER | SREF_EXIT | C_SIZE.

#[export] Instance CommandType_eq_dec : EqDecision CommandType.
Proof. solve_decision. Defined.

(** [static_cast<int>(cmd_type)] *)
Definition cmd_index (c : CommandType) : nat :=
  match c with
  | C_READ => 0 | C_READ_PRECHARGE => 1 | C_WRITE => 2 | C_WRITE_PRECHARGE => 3 | ACTIVATE => 4
  | PRECHARGE => 5 | REFRESH_BANK => 6 | REFRESH => 7 | SREF_ENTER => 8 | SREF_EXIT => 9
  | C_SIZE => 10
  end.

Record Command := mkCommand {
  cmd_type : CommandType;
  addr : Address;
  hex_addr : Z
}.

#[export] Instance Command_fields : Fields Command := fun c =>
  mkCommand (cmd_type c) (addr c) (hex_addr c).

#[export] Instance Command_eq_dec : EqDecision Command.
Proof. solve_decision. Defined.

(** [Command()] *)
Definition Command_default : Command := mkCommand C_SIZE Address_default 0.

Definition IsValid (c : Command) : bool := bool_decide (cmd_type c <> C_SIZE).
Definition IsRefresh (c : Command) : bool :=
  match cmd_type c with REFRESH | REFRESH_BANK => true | _ => false end.
Definition IsRead (c : Command) : bool :=
  match cmd_type c with C_READ | C_READ_PRECHARGE => true | _ => false end.
Definition IsWrite (c : Command) : bool :=
  match cmd_type c with C_WRITE | C_WRITE_PRECHARGE => true | _ => false end.
Definition IsReadWrite (c : Command) : bool := IsRead c || IsWrite c.
Definition IsRankCMD (c : Command) : bool :=
  match cmd_type c with REFRESH | SREF_ENTER | SREF_EXIT => true | _ => false end.

Definition Rank (c : Command) : Z := rank (addr c).
Definition Bankgroup (c : Command) : Z := bankgroup (addr c).
Definition Bank (c : Command) : Z := bank (addr c).
Definition Row (c : Command) : Z := arow (addr c).

(** [dramsim3::Transaction] *)
Record DTrans := mkDTrans {
  dt_addr : Z;
  dt_added : Z;
  dt_complete : Z;
  dt_is_write : bool
}.

#[export] Instance DTrans_fields : Fields DTrans := fun t =>
  mkDTrans (dt_addr t) (dt_added t) (dt_complete t) (dt_is_write t).

#[export] Instance DTrans_eq_dec : EqDecision DTrans.
Proof. solve_decision. Defined.

(** [Transaction(addr, is_write)] *)
Definition DTrans_new (a : Z) (w : bool) : DTrans := mkDTrans a 0 0 w.

(** [while (power_of_two > 1) { power_of_two /= 2; i++; }]; an [int] is halved
    at most 30 times, so 31 rounds of fuel always suffice ([LogBase2_log2]). *)
Fixpoint log_loop (fuel : nat) (power_of_two i : Z) : Z :=
  match fuel with
  | O => i
  | S fuel => if decide (power_of_two > 1) then log_loop fuel (Z.quot power_of_two 2) (i + 1) else i
  end.

Definition LogBase2 (power_of_two : Z) : Z := log_loop 31 power_of_two 0.

(** On [uint64_t]; [pos], [bit_width < 64]. *)
Definition ModuloWidth (a bit_width pos : Z) : Z :=
  let a := Z.shiftr a pos in
  let store := a in
  let a := Z.shiftr a bit_width in
  let a := u64 (Z.shiftl a bit_width) in
  Z.lxor store a mod 2 ^ 32.

Definition GetBitInPos (bits pos : Z) : Z := Z.land (Z.shiftr bits pos) 1.

Lemma log_loop_log2 fuel p i :
  1 <= p < 2 ^ Z.of_nat fuel -> log_loop fuel p i = i + Z.log2 p.
Proof.
  revert p i. induction fuel as [|fuel IH]; intros p i Hp; [simpl in Hp; lia|].
  cbn [log_loop]. rewrite Nat2Z.inj_succ, Z.pow_succ_r in Hp by lia.
  destruct (decide (p > 1)) as [H1|H1].
  - rewrite Z.quot_div_nonneg by lia. pose proof (Z.div_mod p 2 ltac:(lia)) as Hd.
    pose proof (Z.mod_pos_bound p 2 ltac:(lia)). rewrite IH by lia.
    assert (Z.log2 p = Z.log2 (p / 2) + 1); [|lia].
    assert (Hq : p / 2 > 0) by lia.
    destruct (Z.eq_dec (p mod 2) 0) as [E|E].
    + replace p with (2 * (p / 2)) at 1 by lia. rewrite Z.log2_double by lia. lia.
    + replace p with (2 * (p / 2) + 1) at 1 by lia. rewrite Z.log2_succ_double by lia. lia.
  - replace p with 1 by lia. simpl. lia.
Qed.

Lemma LogBase2_log2 p : 1 <= p < 2 ^ 31 -> LogBase2 p = Z.log2 p.
Proof. intros Hp. unfold LogBase2. by rewrite log_loop_log2. Qed.

Lemma LogBase2_small p : p <= 1 -> LogBase2 p = 0.
Proof. intros Hp. unfold LogBase2. cbn [log_loop]. by rewrite decide_False by lia. Qed.

Lemma LogBase2_nonneg p : p < 2 ^ 31 -> 0 <= LogBase2 p.
Proof.
  intros Hp. destruct (decide (p <= 1)).
  - by rewrite LogBase2_small by lia.
  - rewrite LogBase2_log2 by lia. apply Z.log2_nonneg.
Qed.

(** The field of [bit_width] bits at [pos]. *)
Lemma ModuloWidth_spec a w pos :
  0 <= a < 2 ^ 64 -> 0 <= w <= 32 -> 0 <= pos ->
  ModuloWidth a w pos = (a / 2 ^ pos) mod 2 ^ w.
Proof.
  intros Ha Hw Hp. unfold ModuloWidth. rewrite Z.shiftr_div_pow2 by lia.
  set (b := a / 2 ^ pos).
  assert (Hb : 0 <= b < 2 ^ 64).
  { split; [apply Z.div_pos; lia|]. apply Z.le_lt_trans with a; [|lia].
    apply Z.div_le_upper_bound; [lia|]. assert (1 <= 2 ^ pos) by lia. nia. }
  rewrite Z.shiftr_div_pow2, Z.shiftl_mul_pow2 by lia.
  pose proof (Z.div_mod b (2 ^ w) ltac:(lia)) as Hd.
  pose proof (Z.mod_pos_bound b (2 ^ w) ltac:(lia)) as Hm.
  assert (Hq : 0 <= b / 2 ^ w) by (apply Z.div_pos; lia).
  assert (0 <= b / 2 ^ w * 2 ^ w) by (apply Z.mul_nonneg_nonneg; lia).
  rewrite u64_small by lia.
  assert (Hx : Z.lxor b (b / 2 ^ w * 2 ^ w) = b mod 2 ^ w).
  { apply Z.bits_inj'. intros i Hi. rewrite Z.lxor_spec.
    rewrite <- (Z.shiftl_mul_pow2 (b / 2 ^ w) w), <- (Z.shiftr_div_pow2 b w) by lia.
    destruct (decide (i < w)).
    - rewrite Z.shiftl_spec_low, Z.mod_pow2_bits_low by lia. by rewrite xorb_false_r.
    - rewrite Z.shiftl_spec, Z.shiftr_spec, Z.mod_pow2_bits_high by lia.
      replace (i - w + w) with i by lia. apply xorb_nilpotent. }
  rewrite Hx. apply Z.mod_small. split; [lia|].
  apply Z.lt_le_trans with (2 ^ w); [lia|]. apply Z.pow_le_mono_r; lia.
Qed.

Lemma GetBitInPos_spec bits pos :
  0 <= pos -> GetBitInPos bits pos = Z.b2z (Z.testbit bits pos).
Proof.
  intros Hp. unfold GetBitInPos. change 1 with (Z.ones 1) at 1.
  rewrite Z.land_ones, Z.shiftr_div_pow2 by lia. by rewrite <- Z.testbit_spec'.
Qed.
