(* ===== verification/IniReader.v ===== *)
(** * DRAMsim3: the INI lookup (DRAMsim3/ext/headers/INIReader.h)

    The key/value map of a parsed configuration file and the typed lookups the
    configuration uses.  The values are read with [strtol(value, &end, 0)],
    which is written out here. *)

From stdpp Require Import base tactics list list_numbers numbers strings gmap.
From Stdlib Require Import ZArith Lia Ascii.
From S2P Require Import Prelude.

(** [_values]: the value of every key ["section=name"], keys in lower case. *)
Record INIReader := mkINIReader { _values : gmap string string }.

(** [::tolower] in the "C" locale. *)
Definition tolower (c : Ascii.ascii) : Ascii.ascii :=
  let n := Ascii.N_of_ascii c in
  if decide (65 <= n <= 90)%N then Ascii.ascii_of_N (n + 32) else c.

Fixpoint lower (s : string) : string :=
  match s with
  | EmptyString => EmptyString
  | String c s => String (tolower c) (lower s)
  end.

Definition MakeKey (section name : string) : string := lower (section +:+ "=" +:+ name).

Definition Get (r : INIReader) (section name default_value : string) : string :=
  match _values r !! MakeKey section name with Some v => v | None => default_value end.

(** ** Strings *)
Lemma string_app_cons x (s t : string) : String x s +:+ t = String x (s +:+ t).
Proof. done. Qed.

Lemma string_app_assoc (s t u : string) : (s +:+ t) +:+ u = s +:+ (t +:+ u).
Proof. induction s as [|x s IH]; [done|]. by rewrite !string_app_cons, IH. Qed.

Lemma string_app_nil (s : string) : s +:+ EmptyString = s.
Proof. induction s as [|x s IH]; [done|]. by rewrite string_app_cons, IH. Qed.

Lemma string_length_app (s t : string) : String.length (s +:+ t) = (String.length s + String.length t)%nat.
Proof. induction s as [|x s IH]; [done|]. rewrite string_app_cons. cbn [String.length]. by rewrite IH. Qed.

(** [isspace] in the "C" locale *)
Definition is_space (c : Ascii.ascii) : bool :=
  let n := Ascii.N_of_ascii c in bool_decide (n = 32 \/ 9 <= n <= 13)%N.

(** The value of a digit of base 36 at most, if the character is one. *)
Definition digit (c : Ascii.ascii) : option Z :=
  let n := Z.of_N (Ascii.N_of_ascii c) in
  if decide (48 <= n <= 57) then Some (n - 48)
  else if decide (97 <= n <= 122) then Some (n - 87)
  else if decide (65 <= n <= 90) then Some (n - 55)
  else None.

Definition digit_in (base : Z) (c : Ascii.ascii) : option Z :=
  match digit c with Some d => if decide (d < base) then Some d else None | None => None end.

(** The digits at the head of the string: how many and the number they spell. *)
Fixpoint digits (base : Z) (s : string) (n : Z) (used : nat) : nat * Z :=
  match s with
  | EmptyString => (used, n)
  | String c s' =>
      match digit_in base c with
      | Some d => digits base s' (n * base + d) (S used)
      | None => (used, n)
      end
  end.

Fixpoint skip_space (s : string) : string :=
  match s with
  | String c s' => if is_space c then skip_space s' else s
  | EmptyString => s
  end.

(** Base 0: "0x" before a hexadecimal digit is base 16, a leading 0 is base 8. *)
Definition strtol_digits (s : string) : nat * Z :=
  match s with
  | String "0" (String x (String c t)) =>
      if bool_decide (x = "x"%char \/ x = "X"%char) && bool_decide (is_Some (digit_in 16 c))
      then digits 16 (String c t) 0 0
      else digits 8 s 0 0
  | String "0" _ => digits 8 s 0 0
  | _ => digits 10 s 0 0
  end.

(** [strtol(s, &end, 0)]; [None] when [end == s]. *)
Definition strtol (s : string) : option Z :=
  let s := skip_space s in
  let '(neg, s) :=
    match s with
    | String "-" t => (true, t)
    | String "+" t => (false, t)
    | _ => (false, s)
    end in
  let '(used, n) := strtol_digits s in
  if decide (used = 0%nat) then None
  else Some (Z.max (- 2 ^ 63) (Z.min (2 ^ 63 - 1) (if (neg : bool) then - n else n))).

(** [INIReader::GetInteger] *)
Definition GetLong (r : INIReader) (section name : string) (default_value : Z) : Z :=
  match strtol (Get r section name "") with Some n => n | None => default_value end.

Definition GetBoolean (r : INIReader) (section name : string) (default_value : bool) : bool :=
  let valstr := lower (Get r section name "") in
  if bool_decide (valstr = "true" \/ valstr = "yes" \/ valstr = "on" \/ valstr = "1") then true
  else if bool_decide (valstr = "false" \/ valstr = "no" \/ valstr = "off" \/ valstr = "0") then false
  else default_value.

(** [INIReader::ValueHandler]: a repeated key appends a line to its value. *)
Definition ValueHandler (r : INIReader) (section name value : string) : INIReader :=
  let key := MakeKey section name in
  let old := match _values r !! key with Some v => v | None => ""%string end in
  let old := match old with EmptyString => old | _ => old +:+ String "010" EmptyString end in
  mkINIReader (<[key := old +:+ value]> (_values r)).

(** Lookups of the key that was just parsed, whatever the case of its name. *)
Lemma Get_ValueHandler r section name value section' name' d :
  MakeKey section' name' = MakeKey section name ->
  _values r !! MakeKey section name = None ->
  Get (ValueHandler r section name value) section' name' d = value.
Proof.
  intros E Hn. unfold Get, ValueHandler. cbn [_values]. by rewrite E, Hn, lookup_insert_eq.
Qed.

Example strtol_forms :
  strtol "  42abc" = Some 42 /\ strtol "0x4D2" = Some 1234 /\ strtol "-017" = Some (-15) /\
  strtol "0xg" = Some 0 /\ strtol "x1" = None.
Proof. by vm_compute. Qed.
