(* ===== verification/Double.v ===== *)
(** * Double-precision numbers

    A [double] is a number of IEEE binary64 in the representation of the standard
    library's [SpecFloat].  An operation on finite numbers computes the exact
    result as a fraction and rounds it to the nearest double, ties to even; text
    is converted the same way, as strtod does.  Where an operand is zero, infinite
    or NaN the operations are those of [SpecFloat], with which the others are
    compared on samples. *)

From stdpp Require Import base tactics list list_numbers numbers strings gmap.
From Stdlib Require Import ZArith Lia Ascii Floats.SpecFloat.
From S2P Require Import Prelude Float32 IniReader.

Create HintDb double.

Definition double : Type := spec_float.

(** [static_cast<float>(d)] *)
Definition float_of (d : double) : spec_float :=
  match d with
  | S754_finite s m e => binary_round 24 128 s m e
  | _ => d
  end.

(** A finite number other than zero in its normal form. *)
Definition canonical (m e : Z) : Prop :=
  0 < m < 2 ^ 53 /\ -1074 <= e <= 971 /\ (2 ^ 52 <= m \/ e = -1074).

(** ** Rounding *)
(** A significand of 54 bits is halved, a number out of range is infinite. *)
Definition pack64 (s : bool) (m e : Z) : double :=
  let '(m, e) := if m =? 2 ^ 53 then (2 ^ 52, e + 1) else (m, e) in
  if m <=? 0 then S754_zero s
  else if 971 <? e then S754_infinity s
  else S754_finite s (Z.to_pos m) e.

(** The exponent of the result: the significand gets 53 bits, but the exponent is
    at least that of the subnormal numbers. *)
Definition f64_exp (n d : Z) : Z := Z.max (log2_ratio n d - 52) (-1074).

(** The double nearest to [n / d], ties to even ([0 <= n], [0 < d]). *)
Definition round64 (s : bool) (n d : Z) : double :=
  if n =? 0 then S754_zero s
  else
    let e := f64_exp n d in
    pack64 s (rne (n * 2 ^ Z.max 0 (- e)) (d * 2 ^ Z.max 0 e)) e.

(** ** Arithmetic *)
(** [(-1)^s * n * 2^e] *)
Definition round_scaled (s : bool) (n e : Z) : double := round64 s (n * 2 ^ Z.max 0 e) (2 ^ Z.max 0 (- e)).

Definition signed (s : bool) (m : Z) : Z := if s then - m else m.

Definition dadd (x y : double) : double :=
  match x, y with
  | S754_finite sx mx ex, S754_finite sy my ey =>
      let e := Z.min ex ey in
      let z := signed sx (Z.pos mx) * 2 ^ (ex - e) + signed sy (Z.pos my) * 2 ^ (ey - e) in
      round_scaled (z <? 0) (Z.abs z) e
  | _, _ => SFadd 53 1024 x y
  end.

Definition dneg (x : double) : double := SFopp x.
Definition dsub (x y : double) : double := dadd x (dneg y).

Definition dmul (x y : double) : double :=
  match x, y with
  | S754_finite sx mx ex, S754_finite sy my ey => round_scaled (xorb sx sy) (Z.pos mx * Z.pos my) (ex + ey)
  | _, _ => SFmul 53 1024 x y
  end.

Definition ddiv (x y : double) : double :=
  match x, y with
  | S754_finite sx mx ex, S754_finite sy my ey =>
      round64 (xorb sx sy) (Z.pos mx * 2 ^ Z.max 0 (ex - ey)) (Z.pos my * 2 ^ Z.max 0 (ey - ex))
  | _, _ => SFdiv 53 1024 x y
  end.

(** [static_cast<double>(z)] *)
Definition dof (z : Z) : double := round64 (z <? 0) (Z.abs z) 1.

(** ** Decimal text *)
(** [m * 10^e] *)
Definition decimal (s : bool) (m e : Z) : double :=
  if 0 <=? e then round64 s (m * 10 ^ e) 1 else round64 s m (10 ^ (- e)).

(** The digits at the head of a text: how many, the number they spell and the
    rest. *)
Fixpoint span_digits (base : Z) (s : string) (n : Z) (used : nat) : nat * Z * string :=
  match s with
  | EmptyString => (used, n, s)
  | String c t =>
      match digit_in base c with
      | Some d => span_digits base t (n * base + d) (S used)
      | None => (used, n, s)
      end
  end.

(** [-] or [+] *)
Definition span_sign (s : string) : bool * string :=
  match s with
  | String "-" t => (true, t)
  | String "+" t => (false, t)
  | _ => (false, s)
  end.

(** An exponent: the letter, a sign, decimal digits.  Without digits it is not part
    of the number. *)
Definition span_exponent (lower upper : ascii) (s : string) : Z * string :=
  match s with
  | String c t =>
      if bool_decide (c = lower \/ c = upper) then
        let '(neg, t) := span_sign t in
        let '(used, n, r) := span_digits 10 t 0 0 in
        if decide (used = 0%nat) then (0, s) else (if (neg : bool) then - n else n, r)
      else (0, s)
  | EmptyString => (0, s)
  end.

(** An unsigned number at the head of a text: all its digits as an integer, the
    number of digits behind the point, the exponent and the rest. *)
Definition span_number (base : Z) (lower upper : ascii) (s : string) : option (Z * Z * Z * string) :=
  let '(ui, n, r) := span_digits base s 0 0 in
  let '(uf, n, r) :=
    match r with
    | String "." t => span_digits base t n 0
    | _ => (0%nat, n, r)
    end in
  if decide (ui = 0%nat /\ uf = 0%nat) then None
  else let '(e, r) := span_exponent lower upper r in Some (n, Z.of_nat uf, e, r).

(** [m * 2^e] *)
Definition binary (s : bool) (m e : Z) : double :=
  if 0 <=? e then round64 s (m * 2 ^ e) 1 else round64 s m (2 ^ (- e)).

Definition decimal_at (neg : bool) (s : string) : option (double * string) :=
  match span_number 10 "e" "E" s with
  | Some (n, uf, e, r) => Some (decimal neg n (e - uf), r)
  | None => None
  end.

(** [strtod(s, &end)]: the number and the text at [end]; [None] when [end == s].
    Infinity, NaN and hexadecimal numbers are accepted, too. *)
Definition strtod (s : string) : option (double * string) :=
  let '(neg, s) := span_sign (skip_space s) in
  let head n := lower (String.substring 0 n s) in
  if bool_decide (head 3%nat = "inf"%string) then
    Some (S754_infinity neg, String.substring (if bool_decide (head 8%nat = "infinity"%string) then 8 else 3) (String.length s) s)
  else if bool_decide (head 3%nat = "nan"%string) then Some (S754_nan, String.substring 3 (String.length s) s)
  else if bool_decide (head 2%nat = "0x"%string) then
    match span_number 16 "p" "P" (String.substring 2 (String.length s) s) with
    | Some (n, uf, e, r) => Some (binary neg n (e - 4 * uf), r)
    | None => decimal_at neg s
    end
  else decimal_at neg s.

(** [INIReader::GetReal] *)
Definition GetReal (r : INIReader) (section name : string) (default_value : double) : double :=
  match strtod (Get r section name "") with Some (d, _) => d | None => default_value end.

(** [is >> value] of an [istringstream] over the text: the whole text has to be a
    decimal number, and a number out of range fails. *)
Definition stream_double (s : string) : option double :=
  let '(neg, t) := span_sign s in
  match decimal_at neg t with
  | Some (S754_infinity _, _) => None
  | Some (d, EmptyString) => Some d
  | _ => None
  end.

(** ** Numbers near a double are rounded to it *)
Lemma rne_unique n d m : 0 < d -> 2 * Z.abs (n - m * d) < d -> rne n d = m.
Proof. intros Hd Hm. pose proof (rne_bounds n d Hd). nia. Qed.

Lemma ge_pow_le n d k j : 0 < n -> 0 < d -> j <= k -> ge_pow n d k -> ge_pow n d j.
Proof.
  intros Hn Hd Hjk. replace k with (j + Z.of_nat (Z.to_nat (k - j))) by lia.
  induction (Z.to_nat (k - j)) as [|i IH]; [by rewrite Z.add_0_r|].
  intros H. apply IH, ge_pow_anti; try done. by replace (j + Z.of_nat i + 1) with (j + Z.of_nat (S i)) by lia.
Qed.

Lemma log2_ratio_unique n d k :
  0 < n -> 0 < d -> ge_pow n d k -> ~ ge_pow n d (k + 1) -> log2_ratio n d = k.
Proof.
  intros Hn Hd H1 H2. destruct (log2_ratio_spec n d Hn Hd) as [L1 L2].
  destruct (Z.lt_trichotomy (log2_ratio n d) k) as [H|[H|H]]; [|done|]; exfalso.
  - apply L2. apply (ge_pow_le n d k); [lia..|done].
  - apply H2. apply (ge_pow_le n d (log2_ratio n d)); [lia..|done].
Qed.

Lemma pack64_canonical s m e : canonical m e -> pack64 s m e = S754_finite s (Z.to_pos m) e.
Proof.
  intros (Hm & He & _). unfold pack64. rewrite (proj2 (Z.eqb_neq m (2 ^ 53))) by lia.
  by rewrite (proj2 (Z.leb_gt m 0)), (proj2 (Z.ltb_ge 971 e)) by lia.
Qed.

(** The fraction [n / d] lies nearer to [m * 2^e] than to its neighbours; below the
    least significand the neighbour is only half as far away. *)
Definition nearest (n d m e : Z) : Prop :=
  let N := n * 2 ^ Z.max 0 (- e) in
  let D := d * 2 ^ Z.max 0 e in
  2 * N < (2 * m + 1) * D /\
  (if decide (m = 2 ^ 52 /\ -1074 < e) then (4 * m - 1) * D < 4 * N else (2 * m - 1) * D < 2 * N).

Lemma round64_nearest s n d m e :
  0 < n -> 0 < d -> canonical m e -> nearest n d m e -> round64 s n d = S754_finite s (Z.to_pos m) e.
Proof.
  intros Hn Hd Hc [Hup Hlow]. pose proof Hc as (Hm & He & Hnorm). unfold round64, f64_exp.
  rewrite (proj2 (Z.eqb_neq n 0)) by lia.
  pose proof (ge_pow_shift n d e 53 ltac:(lia)) as G53. pose proof (ge_pow_shift n d e 52 ltac:(lia)) as G52.
  pose proof (ge_pow_shift n d e 51 ltac:(lia)) as G51.
  pose proof (scale_shift (e - 1)) as Hsc. replace (e - 1 + 1) with e in Hsc by lia.
  pose proof (max_pow_pos e) as HB. pose proof (max_pow_pos (e - 1)) as HB'.
  pose proof (max_pow_pos (- e)) as HA. pose proof (max_pow_pos (- (e - 1))) as HA'.
  assert (HD : 0 < d * 2 ^ Z.max 0 e) by (by apply Z.mul_pos_pos).
  set (N := n * 2 ^ Z.max 0 (- e)) in *. set (D := d * 2 ^ Z.max 0 e) in *.
  assert (Hhalf : (2 * m - 1) * D < 2 * N) by (destruct (decide _); lia).
  assert (Hrne : rne N D = m) by (apply rne_unique; [done|]; lia).
  assert (Hno53 : ~ ge_pow n d (e + 53)) by (rewrite G53; intros H; nia).
  destruct (Z.le_gt_cases (2 ^ 52 * D) N) as [Hbig|Hsmall].
  - rewrite (log2_ratio_unique n d (e + 52)); [|done..|by apply G52|by replace (e + 52 + 1) with (e + 53) by lia].
    replace (Z.max (e + 52 - 52) (-1074)) with e by lia. fold N D. by rewrite Hrne, pack64_canonical.
  - assert (Hno52 : ~ ge_pow n d (e + 52)) by (rewrite G52; lia).
    destruct (decide (e = -1074)) as [Emin|Emin].
    + assert (log2_ratio n d < e + 52).
      { destruct (Z.lt_ge_cases (log2_ratio n d) (e + 52)) as [|H]; [done|]. exfalso. apply Hno52.
        apply (ge_pow_le n d (log2_ratio n d)); [done..|]. by apply log2_ratio_spec. }
      replace (Z.max (log2_ratio n d - 52) (-1074)) with e by lia. fold N D. by rewrite Hrne, pack64_canonical.
    + assert (Em : m = 2 ^ 52) by nia. rewrite decide_True in Hlow by lia.
      rewrite (log2_ratio_unique n d (e + 51)); [|done..|apply G51; nia|by replace (e + 51 + 1) with (e + 52) by lia].
      replace (Z.max (e + 51 - 52) (-1074)) with (e - 1) by lia.
      assert (HND : n * 2 ^ Z.max 0 (- (e - 1)) * D = 2 * N * (d * 2 ^ Z.max 0 (e - 1))).
      { unfold N, D. transitivity (n * d * (2 ^ Z.max 0 e * 2 ^ Z.max 0 (- (e - 1)))); [ring|]. rewrite Hsc. ring. }
      assert (0 < d * 2 ^ Z.max 0 (e - 1)) by (by apply Z.mul_pos_pos).
      set (N' := n * 2 ^ Z.max 0 (- (e - 1))) in *. set (D' := d * 2 ^ Z.max 0 (e - 1)) in *.
      rewrite (rne_unique N' D' (2 ^ 53)).
      * unfold pack64. rewrite Z.eqb_refl. replace (e - 1 + 1) with e by lia. rewrite Em.
        by rewrite (proj2 (Z.leb_gt (2 ^ 52) 0)), (proj2 (Z.ltb_ge 971 e)) by lia.
      * done.
      * assert (N' < 2 ^ 53 * D') by (apply (Z.mul_lt_mono_pos_r D); [done|]; rewrite HND; nia).
        assert ((2 ^ 54 - 1) * D' < 2 * N'); [|lia].
        apply (Z.mul_lt_mono_pos_r D); [done|]. nia.
Qed.

(** A double is read from a text that spells it exactly. *)
Lemma round64_exact s n d m e :
  0 < d -> canonical m e -> n * 2 ^ Z.max 0 (- e) = m * (d * 2 ^ Z.max 0 e) -> round64 s n d = S754_finite s (Z.to_pos m) e.
Proof.
  intros Hd Hc H. pose proof Hc as (Hm & _).
  pose proof (max_pow_pos e). pose proof (max_pow_pos (- e)).
  assert (0 < d * 2 ^ Z.max 0 e) by (by apply Z.mul_pos_pos).
  apply round64_nearest; [nia|done..|]. unfold nearest. rewrite H. destruct (decide _); split; lia.
Qed.

(** ** The results are doubles *)
(** A finite number is in its normal form. *)
Definition valid (d : double) : Prop :=
  match d with S754_finite _ m e => canonical (Z.pos m) e | _ => True end.

#[export] Instance canonical_dec m e : Decision (canonical m e).
Proof. unfold canonical. apply _. Defined.

#[export] Instance valid_dec d : Decision (valid d).
Proof. destruct d; simpl; apply _. Defined.

Lemma pack64_valid s m e :
  0 <= m <= 2 ^ 53 -> -1074 <= e -> 2 ^ 52 <= m \/ e = -1074 -> valid (pack64 s m e).
Proof.
  intros Hm He Hn. unfold pack64. destruct (Z.eqb_spec m (2 ^ 53)) as [->|Hne]; cbn [Z.leb].
  - rewrite (proj2 (Z.leb_gt (2 ^ 52) 0)) by lia. destruct (Z.ltb_spec 971 (e + 1)); [done|].
    unfold valid, canonical. rewrite Z2Pos.id by lia. lia.
  - destruct (Z.leb_spec m 0); [done|]. destruct (Z.ltb_spec 971 e); [done|].
    unfold valid, canonical. rewrite Z2Pos.id by lia. lia.
Qed.

Lemma round64_valid s n d : 0 <= n -> 0 < d -> valid (round64 s n d).
Proof.
  intros Hn Hd. unfold round64. destruct (Z.eqb_spec n 0); [done|]. unfold f64_exp.
  destruct (log2_ratio_spec n d ltac:(lia) Hd) as [L1 L2]. set (k := log2_ratio n d) in *.
  set (e := Z.max (k - 52) (-1074)). pose proof (max_pow_pos e) as HB. pose proof (max_pow_pos (- e)) as HA.
  assert (HD : 0 < d * 2 ^ Z.max 0 e) by (by apply Z.mul_pos_pos).
  pose proof (ge_pow_shift n d e 53 ltac:(lia)) as G53. pose proof (ge_pow_shift n d e 52 ltac:(lia)) as G52.
  assert (Hno : ~ ge_pow n d (e + 53)).
  { intros H. apply L2. apply (ge_pow_le n d (e + 53)); [lia..|done]. }
  rewrite G53 in Hno.
  pose proof (rne_bounds (n * 2 ^ Z.max 0 (- e)) (d * 2 ^ Z.max 0 e) HD) as Hb.
  set (N := n * 2 ^ Z.max 0 (- e)) in *. set (D := d * 2 ^ Z.max 0 e) in *. assert (0 <= N) by nia.
  apply pack64_valid; [|lia|].
  - split; [nia|]. apply rne_le; lia.
  - destruct (decide (e = -1074)) as [|He]; [by right|left].
    assert (H52 : 2 ^ 52 * D <= N) by (apply G52; replace (e + 52) with k by lia; done). nia.
Qed.

Lemma round_scaled_valid s n e : 0 <= n -> valid (round_scaled s n e).
Proof. intros Hn. pose proof (max_pow_pos e). apply round64_valid; [nia|apply max_pow_pos]. Qed.

Lemma dof_valid z : valid (dof z).
Proof. apply round64_valid; lia. Qed.

Lemma dneg_valid x : valid x -> valid (dneg x).
Proof. by destruct x. Qed.

Lemma dadd_valid x y : valid x -> valid y -> valid (dadd x y).
Proof.
  intros Hx Hy. destruct x as [[]|[]| |sx mx ex], y as [[]|[]| |sy my ey]; try done.
  apply round_scaled_valid. lia.
Qed.

Lemma dsub_valid x y : valid x -> valid y -> valid (dsub x y).
Proof. intros Hx Hy. by apply dadd_valid, dneg_valid. Qed.

Lemma dmul_valid x y : valid x -> valid y -> valid (dmul x y).
Proof.
  intros Hx Hy. destruct x as [[]|[]| |sx mx ex], y as [[]|[]| |sy my ey]; try done.
  by apply round_scaled_valid.
Qed.

Lemma ddiv_valid x y : valid x -> valid y -> valid (ddiv x y).
Proof.
  intros Hx Hy. destruct x as [[]|[]| |sx mx ex], y as [[]|[]| |sy my ey]; try done.
  pose proof (max_pow_pos (ex - ey)). pose proof (max_pow_pos (ey - ex)). apply round64_valid; nia.
Qed.

#[export] Hint Resolve dof_valid dneg_valid dadd_valid dsub_valid dmul_valid ddiv_valid : double.

Lemma decimal_valid s m e : 0 <= m -> valid (decimal s m e).
Proof.
  intros Hm. unfold decimal. destruct (Z.leb_spec 0 e); apply round64_valid; lia.
Qed.

Lemma binary_valid s m e : 0 <= m -> valid (binary s m e).
Proof.
  intros Hm. unfold binary. destruct (Z.leb_spec 0 e); apply round64_valid; lia.
Qed.

Lemma digit_in_nonneg base c d : digit_in base c = Some d -> 0 <= d.
Proof.
  unfold digit_in. destruct (digit c) as [x|] eqn:E; [|done]. intros H. assert (x = d) as -> by (by case_decide; simplify_eq).
  clear H. destruct c as [[] [] [] [] [] [] [] []]; vm_compute in E; simplify_eq; lia.
Qed.

Lemma span_digits_nonneg base s : forall n used u m r, 0 <= base -> 0 <= n -> span_digits base s n used = (u, m, r) -> 0 <= m.
Proof.
  induction s as [|c s IH]; intros n used u m r Hb Hn; cbn [span_digits]; [by intros [= _ <- _]|].
  destruct (digit_in base c) as [d|] eqn:E; [|by intros [= _ <- _]]. apply IH; [done|].
  pose proof (digit_in_nonneg base c d E). nia.
Qed.

Lemma span_number_nonneg base l u s n uf e r : 0 <= base -> span_number base l u s = Some (n, uf, e, r) -> 0 <= n.
Proof.
  intros Hb. unfold span_number. destruct (span_digits base s 0 0) as [[ui n0] r0] eqn:E0.
  pose proof (span_digits_nonneg base s 0 0 ui n0 r0 Hb ltac:(lia) E0) as H0.
  set (x := match r0 with String "." t => span_digits base t n0 0 | _ => (0%nat, n0, r0) end).
  assert (Hx : 0 <= x.1.2).
  { assert (H : x = (0%nat, n0, r0) \/ exists t, x = span_digits base t n0 0)
      by (unfold x; destruct r0 as [|[[] [] [] [] [] [] [] []] t]; eauto).
    destruct H as [->|[t ->]]; [done|]. destruct (span_digits base t n0 0) as [[a b] c] eqn:E.
    by apply (span_digits_nonneg base t n0 0 a b c Hb H0). }
  destruct x as [[a b] c]. case_decide; [done|]. destruct (span_exponent l u c) as [e' r']. by intros [= <- _ _ _].
Qed.

Lemma decimal_at_valid neg s d r : decimal_at neg s = Some (d, r) -> valid d.
Proof.
  unfold decimal_at. destruct (span_number 10 "e" "E" s) as [[[[n uf] e] t]|] eqn:E; [|done]. intros [= <- _].
  by apply decimal_valid, (span_number_nonneg 10 "e" "E" s n uf e t).
Qed.

Lemma strtod_valid s d r : strtod s = Some (d, r) -> valid d.
Proof.
  unfold strtod. destruct (span_sign (skip_space s)) as [neg t]. repeat case_bool_decide; try by intros [= <- _].
  - destruct (span_number 16 "p" "P" _) as [[[[n uf] e] u]|] eqn:E; [|apply decimal_at_valid]. intros [= <- _].
    apply binary_valid. by eapply span_number_nonneg; [|exact E].
  - apply decimal_at_valid.
Qed.

Lemma GetReal_valid r section name d : valid d -> valid (GetReal r section name d).
Proof.
  intros Hd. unfold GetReal. destruct (strtod _) as [[x t]|] eqn:E; [|done]. by eapply strtod_valid.
Qed.

#[export] Hint Resolve GetReal_valid : double.

(** ** Comparison with SpecFloat *)
Definition sample : list double :=
  [S754_zero false; dof (-3); decimal false 1 (-1); decimal false 5 (-324); decimal true 17976931348623157 292;
   S754_infinity true].

Definition same (x y : double) : bool :=
  match x, y with
  | S754_zero s, S754_zero t | S754_infinity s, S754_infinity t => Bool.eqb s t
  | S754_nan, S754_nan => true
  | S754_finite s m e, S754_finite t n f => Bool.eqb s t && (m =? n)%positive && (e =? f)
  | _, _ => false
  end.

Example arithmetic_agrees_with_specfloat :
  forallb (fun x => forallb (fun y =>
      same (dadd x y) (SFadd 53 1024 x y) && same (dsub x y) (SFsub 53 1024 x y) &&
      same (dmul x y) (SFmul 53 1024 x y) && same (ddiv x y) (SFdiv 53 1024 x y)) sample) sample = true /\
  forallb (fun z => same (dof z) (binary_normalize 53 1024 z 0 false))
    [0; 1; -7; 2 ^ 53 + 1; 2 ^ 53 + 3; -(2 ^ 63); 2 ^ 64 - 1] = true.
Proof. vm_compute. split; reflexivity. Qed.
