(* ===== verification/Grisu.v ===== *)
(** * Printing doubles: Grisu2 (DRAMsim3/ext/headers/json.hpp, dtoa_impl)

    The statistics are written as JSON by the library json.hpp, which prints a
    [double] with the Grisu2 algorithm: the boundaries of the number are scaled
    by a cached power of ten, and digits of the upper one are generated until
    the decimal number lies between them.  All of it is 64-bit integer
    arithmetic; the [assert]s of the source are faults here. *)

From stdpp Require Import base tactics list list_numbers numbers strings gmap.
From Stdlib Require Import ZArith Lia Ascii Floats.SpecFloat.
From S2P Require Import Prelude Float32 IniReader Double.

Definition assert_that (P : Prop) `{!Decision P} : outcome unit :=
  if decide P then Ok tt else Fault AssertFailed.

(** ** diyfp: f * 2^e with a 64-bit significand *)
Record diyfp := mkDiyfp { df : Z; de : Z }.

Definition diyfp_sub (x y : diyfp) : outcome diyfp :=
  _ ← assert_that (de x = de y);
  _ ← assert_that (df y <= df x);
  Ok (mkDiyfp (df x - df y) (de x)).

Definition diyfp_mul (x y : diyfp) : diyfp :=
  let u_lo := Z.land (df x) 0xFFFFFFFF in
  let u_hi := Z.shiftr (df x) 32 in
  let v_lo := Z.land (df y) 0xFFFFFFFF in
  let v_hi := Z.shiftr (df y) 32 in
  let p0 := u64 (u_lo * v_lo) in
  let p1 := u64 (u_lo * v_hi) in
  let p2 := u64 (u_hi * v_lo) in
  let p3 := u64 (u_hi * v_hi) in
  let p0_hi := Z.shiftr p0 32 in
  let p1_lo := Z.land p1 0xFFFFFFFF in
  let p1_hi := Z.shiftr p1 32 in
  let p2_lo := Z.land p2 0xFFFFFFFF in
  let p2_hi := Z.shiftr p2 32 in
  let Q := u64 (p0_hi + p1_lo + p2_lo) in
  let Q := u64 (Q + Z.shiftl 1 (64 - 32 - 1)) in
  let h := u64 (p3 + p2_hi + p1_hi + Z.shiftr Q 32) in
  mkDiyfp h (de x + de y + 64).

(** The loop of [normalize]; a significand other than 0 needs at most 63 rounds. *)
Fixpoint normalize_loop (fuel : nat) (x : diyfp) : diyfp :=
  match fuel with
  | O => x
  | S fuel =>
      if decide (Z.shiftr (df x) 63 = 0) then normalize_loop fuel (mkDiyfp (u64 (Z.shiftl (df x) 1)) (de x - 1))
      else x
  end.

Definition diyfp_normalize (x : diyfp) : outcome diyfp :=
  _ ← assert_that (df x <> 0);
  Ok (normalize_loop 63 x).

Definition diyfp_normalize_to (x : diyfp) (target_exponent : Z) : outcome diyfp :=
  let delta := de x - target_exponent in
  _ ← assert_that (0 <= delta);
  _ ← assert_that (Z.shiftr (u64 (Z.shiftl (df x) delta)) delta = df x);
  Ok (mkDiyfp (u64 (Z.shiftl (df x) delta)) target_exponent).

(** ** The boundaries of a double *)
(** The bits of the positive double [m * 2^e], less the sign. *)
Definition reinterpret_bits (m e : Z) : Z :=
  if decide (2 ^ 52 <= m) then (e + 1075) * 2 ^ 52 + (m - 2 ^ 52) else m.

Record boundaries := mkBoundaries { bw : diyfp; bminus : diyfp; bplus : diyfp }.

Definition compute_boundaries (m e : Z) : outcome boundaries :=
  let bits := reinterpret_bits m e in
  let E := Z.shiftr bits 52 in
  let F := Z.land bits (2 ^ 52 - 1) in
  let v := if decide (E = 0) then mkDiyfp F (-1074) else mkDiyfp (F + 2 ^ 52) (E - 1075) in
  let m_plus := mkDiyfp (2 * df v + 1) (de v - 1) in
  let m_minus :=
    if decide (F = 0 /\ 1 < E) then mkDiyfp (4 * df v - 1) (de v - 2)
    else mkDiyfp (2 * df v - 1) (de v - 1) in
  w_plus ← diyfp_normalize m_plus;
  w_minus ← diyfp_normalize_to m_minus (de w_plus);
  w ← diyfp_normalize v;
  Ok (mkBoundaries w w_minus w_plus).

(** ** The cached powers of ten *)
Definition kAlpha : Z := -60.
Definition kGamma : Z := -32.

(** c = f * 2^e, about 10^k *)
Record cached_power := mkCached { cf : Z; ce : Z; ck : Z }.

Definition kCachedPowers : list cached_power := [
  mkCached 0xAB70FE17C79AC6CA (-1060) (-300); mkCached 0xFF77B1FCBEBCDC4F (-1034) (-292); mkCached 0xBE5691EF416BD60C (-1007) (-284);
  mkCached 0x8DD01FAD907FFC3C (-980) (-276); mkCached 0xD3515C2831559A83 (-954) (-268); mkCached 0x9D71AC8FADA6C9B5 (-927) (-260);
  mkCached 0xEA9C227723EE8BCB (-901) (-252); mkCached 0xAECC49914078536D (-874) (-244); mkCached 0x823C12795DB6CE57 (-847) (-236);
  mkCached 0xC21094364DFB5637 (-821) (-228); mkCached 0x9096EA6F3848984F (-794) (-220); mkCached 0xD77485CB25823AC7 (-768) (-212);
  mkCached 0xA086CFCD97BF97F4 (-741) (-204); mkCached 0xEF340A98172AACE5 (-715) (-196); mkCached 0xB23867FB2A35B28E (-688) (-188);
  mkCached 0x84C8D4DFD2C63F3B (-661) (-180); mkCached 0xC5DD44271AD3CDBA (-635) (-172); mkCached 0x936B9FCEBB25C996 (-608) (-164);
  mkCached 0xDBAC6C247D62A584 (-582) (-156); mkCached 0xA3AB66580D5FDAF6 (-555) (-148); mkCached 0xF3E2F893DEC3F126 (-529) (-140);
  mkCached 0xB5B5ADA8AAFF80B8 (-502) (-132); mkCached 0x87625F056C7C4A8B (-475) (-124); mkCached 0xC9BCFF6034C13053 (-449) (-116);
  mkCached 0x964E858C91BA2655 (-422) (-108); mkCached 0xDFF9772470297EBD (-396) (-100); mkCached 0xA6DFBD9FB8E5B88F (-369) (-92);
  mkCached 0xF8A95FCF88747D94 (-343) (-84); mkCached 0xB94470938FA89BCF (-316) (-76); mkCached 0x8A08F0F8BF0F156B (-289) (-68);
  mkCached 0xCDB02555653131B6 (-263) (-60); mkCached 0x993FE2C6D07B7FAC (-236) (-52); mkCached 0xE45C10C42A2B3B06 (-210) (-44);
  mkCached 0xAA242499697392D3 (-183) (-36); mkCached 0xFD87B5F28300CA0E (-157) (-28); mkCached 0xBCE5086492111AEB (-130) (-20);
  mkCached 0x8CBCCC096F5088CC (-103) (-12); mkCached 0xD1B71758E219652C (-77) (-4); mkCached 0x9C40000000000000 (-50) (4);
  mkCached 0xE8D4A51000000000 (-24) (12); mkCached 0xAD78EBC5AC620000 (3) (20); mkCached 0x813F3978F8940984 (30) (28);
  mkCached 0xC097CE7BC90715B3 (56) (36); mkCached 0x8F7E32CE7BEA5C70 (83) (44); mkCached 0xD5D238A4ABE98068 (109) (52);
  mkCached 0x9F4F2726179A2245 (136) (60); mkCached 0xED63A231D4C4FB27 (162) (68); mkCached 0xB0DE65388CC8ADA8 (189) (76);
  mkCached 0x83C7088E1AAB65DB (216) (84); mkCached 0xC45D1DF942711D9A (242) (92); mkCached 0x924D692CA61BE758 (269) (100);
  mkCached 0xDA01EE641A708DEA (295) (108); mkCached 0xA26DA3999AEF774A (322) (116); mkCached 0xF209787BB47D6B85 (348) (124);
  mkCached 0xB454E4A179DD1877 (375) (132); mkCached 0x865B86925B9BC5C2 (402) (140); mkCached 0xC83553C5C8965D3D (428) (148);
  mkCached 0x952AB45CFA97A0B3 (455) (156); mkCached 0xDE469FBD99A05FE3 (481) (164); mkCached 0xA59BC234DB398C25 (508) (172);
  mkCached 0xF6C69A72A3989F5C (534) (180); mkCached 0xB7DCBF5354E9BECE (561) (188); mkCached 0x88FCF317F22241E2 (588) (196);
  mkCached 0xCC20CE9BD35C78A5 (614) (204); mkCached 0x98165AF37B2153DF (641) (212); mkCached 0xE2A0B5DC971F303A (667) (220);
  mkCached 0xA8D9D1535CE3B396 (694) (228); mkCached 0xFB9B7CD9A4A7443C (720) (236); mkCached 0xBB764C4CA7A44410 (747) (244);
  mkCached 0x8BAB8EEFB6409C1A (774) (252); mkCached 0xD01FEF10A657842C (800) (260); mkCached 0x9B10A4E5E9913129 (827) (268);
  mkCached 0xE7109BFBA19C0C9D (853) (276); mkCached 0xAC2820D9623BF429 (880) (284); mkCached 0x80444B5E7AA7CF85 (907) (292);
  mkCached 0xBF21E44003ACDD2D (933) (300); mkCached 0x8E679C2F5E44FF8F (960) (308); mkCached 0xD433179D9C8CB841 (986) (316);
  mkCached 0x9E19DB92B4E31BA9 (1013) (324)
].

Definition get_cached_power_for_binary_exponent (e : Z) : outcome cached_power :=
  _ ← assert_that (-1500 <= e);
  _ ← assert_that (e <= 1500);
  let f := kAlpha - e - 1 in
  let k := Z.quot (f * 78913) (2 ^ 18) + (if decide (0 < f) then 1 else 0) in
  let index := Z.quot (300 + k + (8 - 1)) 8 in
  _ ← assert_that (0 <= index);
  _ ← assert_that (index < 79);
  cached ← vget kCachedPowers index;
  _ ← assert_that (kAlpha <= ce cached + e + 64);
  _ ← assert_that (ce cached + e + 64 <= kGamma);
  Ok cached.

(** [k] and [pow10] with [pow10 = 10^(k-1) <= n < 10^k]. *)
Definition find_largest_pow10 (n : Z) : Z * Z :=
  if decide (1000000000 <= n) then (10, 1000000000)
  else if decide (100000000 <= n) then (9, 100000000)
  else if decide (10000000 <= n) then (8, 10000000)
  else if decide (1000000 <= n) then (7, 1000000)
  else if decide (100000 <= n) then (6, 100000)
  else if decide (10000 <= n) then (5, 10000)
  else if decide (1000 <= n) then (4, 1000)
  else if decide (100 <= n) then (3, 100)
  else if decide (10 <= n) then (2, 10)
  else (1, 1).

(** ** Generating digits *)
(** The buffer as the list of its digits, the last one first. *)
Definition buffer : Type := list Z.

(** The loop of [grisu2_round]: at most one round per unit of the last digit. *)
Fixpoint round_loop (fuel : nat) (buf : buffer) (dist delta rest ten_k : Z) : outcome buffer :=
  match fuel with
  | O => Ok buf
  | S fuel =>
      if decide (rest < dist /\ ten_k <= u64 (delta - rest) /\
                 (u64 (rest + ten_k) < dist \/ u64 (u64 (rest + ten_k) - dist) < dist - rest)) then
        match buf with
        | d :: buf' =>
            _ ← assert_that (d <> 0);
            round_loop fuel ((d - 1) :: buf') dist delta (u64 (rest + ten_k)) ten_k
        | [] => Fault Undefined
        end
      else Ok buf
  end.

Definition grisu2_round (buf : buffer) (dist delta rest ten_k : Z) : outcome buffer :=
  _ ← assert_that (1 <= vsize buf);
  _ ← assert_that (dist <= delta);
  _ ← assert_that (rest <= delta);
  _ ← assert_that (0 < ten_k);
  round_loop 10 buf dist delta rest ten_k.

(** The digits of the integral part [p1], [n] of them; [inl] is the result when
    enough digits have been generated, [inr] the buffer with all of them.  [q] is
    [-one.e]. *)
Fixpoint integral_loop (n : nat) (buf : buffer) (decimal_exponent p1 p2 pow10 q delta dist : Z)
    : outcome ((buffer * Z) + buffer) :=
  match n with
  | O => Ok (inr buf)
  | S n =>
      let d := p1 / pow10 in
      let r := p1 mod pow10 in
      _ ← assert_that (d <= 9);
      let buf := d :: buf in
      let rest := u64 (u64 (Z.shiftl r q) + p2) in
      if decide (rest <= delta) then
        let ten_n := u64 (Z.shiftl pow10 q) in
        buf ← grisu2_round buf dist delta rest ten_n;
        Ok (inl (buf, decimal_exponent + Z.of_nat n))
      else integral_loop n buf decimal_exponent r p2 (pow10 / 10) q delta dist
  end.

(** The digits of the fraction [p2 * 2^-q]; the loop ends within 20 rounds, because
    [delta] is multiplied by ten in each. *)
Fixpoint fraction_loop (fuel : nat) (buf : buffer) (m p2 q delta dist : Z) : outcome (buffer * Z * Z * Z * Z) :=
  match fuel with
  | O => Fault Undefined
  | S fuel =>
      _ ← assert_that (p2 <= (2 ^ 64 - 1) / 10);
      let p2 := u64 (p2 * 10) in
      let d := Z.shiftr p2 q in
      let r := Z.land p2 (Z.shiftl 1 q - 1) in
      _ ← assert_that (d <= 9);
      let buf := d :: buf in
      let delta := u64 (delta * 10) in
      let dist := u64 (dist * 10) in
      if decide (r <= delta) then Ok (buf, m + 1, r, delta, dist)
      else fraction_loop fuel buf (m + 1) r q delta dist
  end.

Definition grisu2_digit_gen (decimal_exponent : Z) (M_minus w M_plus : diyfp) : outcome (buffer * Z) :=
  _ ← assert_that (kAlpha <= de M_plus);
  _ ← assert_that (de M_plus <= kGamma);
  delta ← diyfp_sub M_plus M_minus;
  dist ← diyfp_sub M_plus w;
  let q := - de M_plus in
  let p1 := Z.shiftr (df M_plus) q mod 2 ^ 32 in
  let p2 := Z.land (df M_plus) (Z.shiftl 1 q - 1) in
  _ ← assert_that (0 < p1);
  let '(k, pow10) := find_largest_pow10 p1 in
  r ← integral_loop (Z.to_nat k) [] decimal_exponent p1 p2 pow10 q (df delta) (df dist);
  match r with
  | inl res => Ok res
  | inr buf =>
      _ ← assert_that (df delta < p2);
      '(buf, m, p2, delta, dist) ← fraction_loop 20 buf 0 p2 q (df delta) (df dist);
      buf ← grisu2_round buf dist delta p2 (Z.shiftl 1 q);
      Ok (buf, decimal_exponent - m)
  end.

Definition grisu2_scaled (m_minus v m_plus : diyfp) : outcome (buffer * Z) :=
  _ ← assert_that (de m_plus = de m_minus);
  _ ← assert_that (de m_plus = de v);
  cached ← get_cached_power_for_binary_exponent (de m_plus);
  let c_minus_k := mkDiyfp (cf cached) (ce cached) in
  let w := diyfp_mul v c_minus_k in
  let w_minus := diyfp_mul m_minus c_minus_k in
  let w_plus := diyfp_mul m_plus c_minus_k in
  let M_minus := mkDiyfp (u64 (df w_minus + 1)) (de w_minus) in
  let M_plus := mkDiyfp (u64 (df w_plus - 1)) (de w_plus) in
  grisu2_digit_gen (- ck cached) M_minus w M_plus.

(** The digits and the decimal exponent of the positive double [m * 2^e]. *)
Definition grisu2 (m e : Z) : outcome (buffer * Z) :=
  b ← compute_boundaries m e;
  grisu2_scaled (bminus b) (bw b) (bplus b).

(** ** The text *)
Definition char_of (d : Z) : ascii := Ascii.ascii_of_N (Z.to_N (48 + d)).

Definition append_exponent (e : Z) : outcome (list ascii) :=
  _ ← assert_that (-1000 < e);
  _ ← assert_that (e < 1000);
  let sign := if decide (e < 0) then "-"%char else "+"%char in
  let k := Z.abs e in
  Ok (sign :: (if decide (k < 10) then ["0"%char; char_of k]
               else if decide (k < 100) then [char_of (k / 10); char_of (k mod 10)]
               else [char_of (k / 100); char_of (k mod 100 / 10); char_of (k mod 100 mod 10)])).

(** [format_buffer(buf, len, decimal_exponent, -4, 15)] on the digits in order. *)
Definition format_buffer (digits : list ascii) (decimal_exponent : Z) : outcome (list ascii) :=
  let min_exp := -4 in
  let max_exp := 15 in
  let k := vsize digits in
  let n := k + decimal_exponent in
  if decide (k <= n /\ n <= max_exp) then
    Ok (digits ++ replicate (Z.to_nat (n - k)) "0"%char ++ ["."%char; "0"%char])
  else if decide (0 < n /\ n <= max_exp) then
    Ok (take (Z.to_nat n) digits ++ ["."%char] ++ drop (Z.to_nat n) digits)
  else if decide (min_exp < n /\ n <= 0) then
    Ok (["0"%char; "."%char] ++ replicate (Z.to_nat (- n)) "0"%char ++ digits)
  else
    x ← append_exponent (n - 1);
    if decide (k = 1) then Ok (digits ++ ["e"%char] ++ x)
    else Ok (take 1 digits ++ ["."%char] ++ drop 1 digits ++ ["e"%char] ++ x).

(** [to_chars] of a finite number. *)
Definition to_chars (d : double) : outcome (list ascii) :=
  match d with
  | S754_zero s => Ok ((if s then ["-"%char] else []) ++ ["0"%char; "."%char; "0"%char])
  | S754_finite s m e =>
      '(buf, decimal_exponent) ← grisu2 (Z.pos m) e;
      _ ← assert_that (vsize buf <= 17);
      t ← format_buffer (char_of <$> rev buf) decimal_exponent;
      Ok ((if s then ["-"%char] else []) ++ t)
  | _ => Fault AssertFailed
  end.
