(* ===== verification/GrisuCorrect.v ===== *)
(** * Grisu2 prints numbers that read back

    The decimal number [to_chars] prints for a double lies strictly between the
    boundaries of the double, so that reading the text gives the double again;
    no [assert] of the algorithm fails, and at most 17 digits are printed. *)

From stdpp Require Import base tactics list list_numbers numbers strings gmap.
From Stdlib Require Import ZArith Lia Ascii QArith Qpower Lqa Floats.SpecFloat.
From S2P Require Import Prelude Float32 IniReader Double Grisu.

#[local] Open Scope Z_scope.

Lemma assert_bind {A} (P : Prop) `{!Decision P} (k : outcome A) : P -> (_ ← assert_that P; k) = k.
Proof. intros H. unfold assert_that. by rewrite decide_True. Qed.

(** Discharge an [assert] of the goal. *)
Ltac asserted := rewrite assert_bind.

(** ** Significands *)
Lemma land_low x k : 0 <= k -> Z.land x (2 ^ k - 1) = x mod 2 ^ k.
Proof. intros Hk. rewrite <- Z.land_ones by done. f_equal. rewrite Z.ones_equiv. lia. Qed.

Lemma diyfp_mul_spec x y :
  0 <= df x < 2 ^ 64 -> 0 <= df y < 2 ^ 64 ->
  diyfp_mul x y = mkDiyfp ((df x * df y + 2 ^ 63) / 2 ^ 64) (de x + de y + 64).
Proof.
  intros Hx Hy. unfold diyfp_mul. f_equal.
  change 0xFFFFFFFF with (2 ^ 32 - 1). rewrite !land_low, !Z.shiftr_div_pow2, Z.shiftl_mul_pow2 by lia.
  pose proof (Z.div_mod (df x) (2 ^ 32) ltac:(lia)) as Ex. pose proof (Z.mod_pos_bound (df x) (2 ^ 32) ltac:(lia)).
  pose proof (Z.div_mod (df y) (2 ^ 32) ltac:(lia)) as Ey. pose proof (Z.mod_pos_bound (df y) (2 ^ 32) ltac:(lia)).
  set (xl := df x mod 2 ^ 32) in *. set (xh := df x / 2 ^ 32) in *.
  set (yl := df y mod 2 ^ 32) in *. set (yh := df y / 2 ^ 32) in *.
  assert (0 <= xh < 2 ^ 32) by lia. assert (0 <= yh < 2 ^ 32) by lia.
  assert (Hp : forall a b, 0 <= a < 2 ^ 32 -> 0 <= b < 2 ^ 32 -> 0 <= a * b <= (2 ^ 32 - 1) * (2 ^ 32 - 1)) by (intros; nia).
  assert (Hu : forall a b, 0 <= a < 2 ^ 32 -> 0 <= b < 2 ^ 32 -> u64 (a * b) = a * b).
  { intros a b Ha Hb. specialize (Hp a b Ha Hb). apply u64_small. lia. }
  rewrite !Hu by done.
  pose proof (Hp xl yl ltac:(done) ltac:(done)). pose proof (Hp xl yh ltac:(done) ltac:(done)).
  pose proof (Hp xh yl ltac:(done) ltac:(done)). pose proof (Hp xh yh ltac:(done) ltac:(done)).
  assert (E : df x * df y = xl * yl + 2 ^ 32 * (xl * yh + xh * yl) + 2 ^ 64 * (xh * yh)).
  { rewrite Ex, Ey. change (2 ^ 64) with (2 ^ 32 * 2 ^ 32). ring. }
  rewrite E. clear E Ex Ey Hu Hp. generalize dependent (xl * yl). generalize dependent (xl * yh).
  generalize dependent (xh * yl). generalize dependent (xh * yh). intros p3 Hp3 p2 Hp2 p1 Hp1 p0 Hp0.
  pose proof (Z.div_mod p0 (2 ^ 32) ltac:(lia)). pose proof (Z.mod_pos_bound p0 (2 ^ 32) ltac:(lia)).
  pose proof (Z.div_mod p1 (2 ^ 32) ltac:(lia)). pose proof (Z.mod_pos_bound p1 (2 ^ 32) ltac:(lia)).
  pose proof (Z.div_mod p2 (2 ^ 32) ltac:(lia)). pose proof (Z.mod_pos_bound p2 (2 ^ 32) ltac:(lia)).
  change (1 * 2 ^ (64 - 32 - 1)) with (2 ^ 31).
  set (a0 := p0 / 2 ^ 32) in *. set (b0 := p0 mod 2 ^ 32) in *. set (a1 := p1 / 2 ^ 32) in *.
  set (b1 := p1 mod 2 ^ 32) in *. set (a2 := p2 / 2 ^ 32) in *. set (b2 := p2 mod 2 ^ 32) in *.
  rewrite (u64_small (a0 + b1 + b2)), (u64_small (a0 + b1 + b2 + 2 ^ 31)) by lia.
  pose proof (Z.div_mod (a0 + b1 + b2 + 2 ^ 31) (2 ^ 32) ltac:(lia)).
  pose proof (Z.mod_pos_bound (a0 + b1 + b2 + 2 ^ 31) (2 ^ 32) ltac:(lia)).
  set (c := (a0 + b1 + b2 + 2 ^ 31) / 2 ^ 32) in *. set (r := (a0 + b1 + b2 + 2 ^ 31) mod 2 ^ 32) in *.
  rewrite u64_small by lia. apply (Z.div_unique _ _ _ (b0 + 2 ^ 32 * r)); lia.
Qed.

(** Multiplying by a significand of at least a half keeps the order. *)
Lemma diyfp_mul_bounds x y :
  0 <= df x < 2 ^ 64 -> 2 ^ 63 <= df y < 2 ^ 64 ->
  let f := df (diyfp_mul x y) in 2 ^ 64 * f - 2 ^ 63 <= df x * df y < 2 ^ 64 * f + 2 ^ 63.
Proof.
  intros Hx Hy f. subst f. rewrite diyfp_mul_spec by lia. cbn [df].
  pose proof (Z.div_mod (df x * df y + 2 ^ 63) (2 ^ 64) ltac:(lia)).
  pose proof (Z.mod_pos_bound (df x * df y + 2 ^ 63) (2 ^ 64) ltac:(lia)). lia.
Qed.

(** ** Normalisation *)
Lemma normalize_loop_spec fuel : forall f e, 0 < f -> Z.log2 f + Z.of_nat fuel >= 63 -> Z.log2 f <= 63 ->
  normalize_loop fuel (mkDiyfp f e) = mkDiyfp (f * 2 ^ (63 - Z.log2 f)) (e - (63 - Z.log2 f)).
Proof.
  induction fuel as [|fuel IH]; intros f e Hf Hfuel Hlog; cbn [normalize_loop].
  { replace (Z.log2 f) with 63 by lia. by rewrite Z.mul_1_r, Z.sub_0_r. }
  cbn [df de]. pose proof (Z.log2_spec f Hf) as Hs. rewrite Z.shiftr_div_pow2 by lia.
  destruct (decide (Z.log2 f = 63)) as [E|E].
  - rewrite decide_False; [by rewrite E, Z.mul_1_r, Z.sub_0_r|]. rewrite E in Hs.
    enough (1 <= f / 2 ^ 63) by lia. apply Z.div_le_lower_bound; lia.
  - assert (f < 2 ^ 63).
    { eapply Z.lt_le_trans; [apply Hs|]. apply Z.pow_le_mono_r; lia. }
    rewrite decide_True by (apply Z.div_small; lia).
    rewrite Z.shiftl_mul_pow2, u64_small by lia.
    assert (El : Z.log2 (f * 2 ^ 1) = Z.log2 f + 1).
    { rewrite Z.log2_mul_pow2 by lia. lia. }
    rewrite IH; rewrite ?El; [|lia..].
    replace (63 - Z.log2 f) with (1 + (63 - (Z.log2 f + 1))) by lia.
    rewrite Z.pow_add_r by (pose proof (Z.log2_nonneg f); lia). f_equal; [ring|lia].
Qed.

Lemma diyfp_normalize_spec f e :
  0 < f -> Z.log2 f <= 63 ->
  diyfp_normalize (mkDiyfp f e) = Ok (mkDiyfp (f * 2 ^ (63 - Z.log2 f)) (e - (63 - Z.log2 f))).
Proof.
  intros Hf Hl. unfold diyfp_normalize. asserted; [|cbn [df]; lia].
  rewrite normalize_loop_spec; [done|done| |done]. pose proof (Z.log2_nonneg f). lia.
Qed.

(** ** The boundaries *)
(** Four times the lower boundary, in units of the last place; the upper one is
    [4 * m + 2]. *)
Definition low4 (m e : Z) : Z := if decide (m = 2 ^ 52 /\ -1074 < e) then 4 * m - 1 else 4 * m - 2.

Lemma bits_split m e :
  canonical m e ->
  Z.shiftr (reinterpret_bits m e) 52 = (if decide (2 ^ 52 <= m) then e + 1075 else 0) /\
  Z.land (reinterpret_bits m e) (2 ^ 52 - 1) = (if decide (2 ^ 52 <= m) then m - 2 ^ 52 else m).
Proof.
  intros (Hm & He & Hn). unfold reinterpret_bits. rewrite Z.shiftr_div_pow2, land_low by lia.
  case_decide as H52; split.
  - symmetry. apply (Z.div_unique _ _ _ (m - 2 ^ 52)); lia.
  - symmetry. apply (Z.mod_unique _ _ (e + 1075)); lia.
  - apply Z.div_small. lia.
  - apply Z.mod_small. lia.
Qed.

Lemma compute_boundaries_spec m e :
  canonical m e -> let s := 63 - Z.log2 m in let u := 2 ^ (s - 2) in
  11 <= s <= 63 /\
  compute_boundaries m e =
    Ok (mkBoundaries (mkDiyfp (4 * m * u) (e - s)) (mkDiyfp (low4 m e * u) (e - s)) (mkDiyfp ((4 * m + 2) * u) (e - s))).
Proof.
  intros Hc s u. pose proof Hc as (Hm & He & Hn). destruct (bits_split m e Hc) as [EE EF].
  assert (Hl : 0 <= Z.log2 m <= 52).
  { split; [apply Z.log2_nonneg|]. assert (Z.log2 m < 53); [|lia]. apply Z.log2_lt_pow2; lia. }
  assert (Hs : 11 <= s <= 63) by lia. split; [done|]. unfold compute_boundaries. rewrite EE, EF. clear EE EF.
  assert (Hv : (if decide ((if decide (2 ^ 52 <= m) then e + 1075 else 0) = 0)
                then mkDiyfp (if decide (2 ^ 52 <= m) then m - 2 ^ 52 else m) (-1074)
                else mkDiyfp ((if decide (2 ^ 52 <= m) then m - 2 ^ 52 else m) + 2 ^ 52)
                       ((if decide (2 ^ 52 <= m) then e + 1075 else 0) - 1075)) = mkDiyfp m e).
  { destruct (decide (2 ^ 52 <= m)); [rewrite decide_False by lia|rewrite decide_True by lia]; f_equal; lia. }
  rewrite Hv. clear Hv. cbn [df de].
  assert (Hm2 : (if decide ((if decide (2 ^ 52 <= m) then m - 2 ^ 52 else m) = 0 /\
                            1 < (if decide (2 ^ 52 <= m) then e + 1075 else 0))
                 then mkDiyfp (4 * m - 1) (e - 2) else mkDiyfp (2 * m - 1) (e - 1)) =
                if decide (m = 2 ^ 52 /\ -1074 < e) then mkDiyfp (4 * m - 1) (e - 2) else mkDiyfp (2 * m - 1) (e - 1)).
  { apply decide_ext. destruct (decide (2 ^ 52 <= m)); lia. }
  rewrite Hm2. clear Hm2.
  assert (El : Z.log2 (2 * m + 1) = Z.log2 m + 1).
  { rewrite Z.log2_succ_double by lia. lia. }
  rewrite (diyfp_normalize_spec (2 * m + 1)), El by lia. cbn [mbind outcome_bind df de].
  replace (e - 1 - (63 - (Z.log2 m + 1))) with (e - s) by lia.
  replace ((2 * m + 1) * 2 ^ (63 - (Z.log2 m + 1))) with ((4 * m + 2) * u).
  2: { unfold u. replace (63 - (Z.log2 m + 1)) with (1 + (s - 2)) by lia. rewrite Z.pow_add_r by lia. ring. }
  assert (Hu : 0 < u) by (apply pow2_pos; lia).
  assert (Hmu : 4 * m * u < 2 ^ 64).
  { pose proof (Z.log2_spec m ltac:(lia)) as [_ Hlt]. unfold u. change 4 with (2 ^ 2).
    replace (2 ^ 64) with (2 ^ 2 * 2 ^ Z.succ (Z.log2 m) * 2 ^ (s - 2)); [|rewrite <- !Z.pow_add_r by lia; f_equal; lia].
    apply Z.mul_lt_mono_pos_r; [apply pow2_pos; lia|]. lia. }
  assert (Hto : diyfp_normalize_to (if decide (m = 2 ^ 52 /\ -1074 < e) then mkDiyfp (4 * m - 1) (e - 2) else mkDiyfp (2 * m - 1) (e - 1)) (e - s)
                = Ok (mkDiyfp (low4 m e * u) (e - s))).
  { unfold diyfp_normalize_to, low4. destruct (decide (m = 2 ^ 52 /\ -1074 < e)); cbn [df de].
    - replace (e - 2 - (e - s)) with (s - 2) by lia. asserted; [|lia].
      rewrite Z.shiftl_mul_pow2, Z.shiftr_div_pow2 by lia. fold u. rewrite u64_small by nia.
      asserted; [done|]. by apply Z.div_mul; lia.
    - replace (e - 1 - (e - s)) with (1 + (s - 2)) by lia. asserted; [|lia].
      rewrite Z.shiftl_mul_pow2, Z.shiftr_div_pow2, Z.pow_add_r by lia. fold u.
      replace ((2 * m - 1) * (2 ^ 1 * u)) with ((4 * m - 2) * u) by ring. rewrite u64_small by nia.
      asserted; [done|]. replace ((4 * m - 2) * u) with ((2 * m - 1) * (2 ^ 1 * u)) by ring. apply Z.div_mul. lia. }
  rewrite Hto, diyfp_normalize_spec by lia. cbn [mbind outcome_bind]. fold s.
  assert (m * 2 ^ s = 4 * m * u) as ->; [|done]. unfold u.
  transitivity (m * 2 ^ (2 + (s - 2))); [do 2 f_equal; lia|]. rewrite Z.pow_add_r by lia. ring.
Qed.

(** ** The cached powers *)
(** 10^k is within half a unit of the last place of the cached power. *)
Definition cached_ok (c : cached_power) : bool :=
  (2 ^ 63 <=? cf c) && (cf c <? 2 ^ 64) &&
  Qle_bool ((inject_Z (2 * cf c - 1) * (2 # 1) ^ (ce c))%Q) ((2 * (10 # 1) ^ (ck c))%Q) &&
  Qle_bool ((2 * (10 # 1) ^ (ck c))%Q) ((inject_Z (2 * cf c + 1) * (2 # 1) ^ (ce c))%Q).

Lemma cached_powers_ok : forallb cached_ok kCachedPowers = true.
Proof. vm_compute. reflexivity. Qed.

Definition exponent_ok (e : Z) : bool :=
  match get_cached_power_for_binary_exponent e with
  | Ok c => (-60 <=? ce c + e + 64) && (ce c + e + 64 <=? -32) && (-324 <=? ck c) && (ck c <=? 324)
  | Fault _ => false
  end.

Lemma exponents_ok : forallb exponent_ok (seqZ (-1137) 2100) = true.
Proof. vm_compute. reflexivity. Qed.

(** ** The digits *)
(** The number a buffer spells; its last digit comes first. *)
Definition val (buf : buffer) : Z := foldr (fun d acc => acc * 10 + d) 0 buf.

Record digits_ok (buf : buffer) : Prop := {
  dg_range : Forall (fun d => 0 <= d <= 9) buf;
  dg_lead : 10 ^ (vsize buf - 1) <= val buf
}.

Lemma vsize_cons {A} (x : A) l : vsize (x :: l) = vsize l + 1.
Proof. unfold vsize. cbn. lia. Qed.

Lemma digits_ok_cons d b : 0 <= d <= 9 -> b <> [] -> digits_ok b -> digits_ok (d :: b).
Proof.
  intros Hd Hb [Hr Hl]. split; [by constructor|]. rewrite vsize_cons. cbn [val foldr]. fold (val b).
  assert (1 <= vsize b) by (destruct b; [done|]; rewrite vsize_cons; pose proof (vsize_nonneg b); lia).
  replace (vsize b + 1 - 1) with (1 + (vsize b - 1)) by lia. rewrite Z.pow_add_r by lia. lia.
Qed.

Lemma digits_ok_one d : 1 <= d <= 9 -> digits_ok [d].
Proof. intros Hd. split; [repeat constructor; lia|]. change (vsize [d] - 1) with 0. unfold val. cbn [foldr]. lia. Qed.

Lemma round_loop_ok fuel : forall d b dist delta rest ten_k,
  0 < ten_k -> 0 <= rest <= delta -> delta < 2 ^ 64 -> delta < rest + d * ten_k -> d < Z.of_nat fuel ->
  exists d', round_loop fuel (d :: b) dist delta rest ten_k = Ok (d' :: b) /\
    1 <= d' <= d /\ rest + (d - d') * ten_k <= delta.
Proof.
  induction fuel as [|fuel IH]; intros d b dist delta rest ten_k Ht Hr Hdl Hd Hf; cbn [round_loop]; [nia|].
  assert (1 <= d) by nia. rewrite (u64_small (delta - rest)) by lia.
  destruct (decide _) as [(H1 & H2 & H3)|_]; [|exists d; split; [done|]; lia].
  asserted; [|lia]. rewrite u64_small by lia.
  destruct (IH (d - 1) b dist delta (rest + ten_k) ten_k) as (d' & E & Hd' & Hle); [lia..|].
  exists d'. split; [done|]. lia.
Qed.

Lemma grisu2_round_ok d b dist delta rest ten_k :
  0 < ten_k -> 0 <= rest <= delta -> delta < 2 ^ 64 -> dist <= delta -> delta < rest + d * ten_k -> d <= 9 ->
  exists d', grisu2_round (d :: b) dist delta rest ten_k = Ok (d' :: b) /\
    1 <= d' <= d /\ rest + (d - d') * ten_k <= delta.
Proof.
  intros Ht Hr Hdl Hdist Hd Hd9. unfold grisu2_round.
  asserted; [|rewrite vsize_cons; pose proof (vsize_nonneg b); lia]. asserted; [|lia]. asserted; [|lia].
  asserted; [|lia]. apply round_loop_ok; lia.
Qed.

(** As long as the rest is larger than the distance of the boundaries there are at
    most 16 digits. *)
Lemma few_digits buf Mp delta scale p rest :
  digits_ok buf -> 0 < scale -> 0 < p -> val buf * scale + rest = Mp * p -> 0 <= rest < scale ->
  0 <= delta -> delta * p < rest -> Mp <= 10 ^ 16 * delta -> vsize buf <= 16.
Proof.
  intros [_ Hl] Hs Hp Hv Hr Hd Hdr HM. destruct (Z.le_gt_cases (vsize buf) 16) as [|Hn]; [done|]. exfalso.
  assert (10 ^ 16 <= val buf).
  { eapply Z.le_trans; [|exact Hl]. apply Z.pow_le_mono_r; lia. }
  assert (10 ^ 16 * scale <= val buf * scale) by (apply Z.mul_le_mono_nonneg_r; lia).
  assert (Mp * p <= 10 ^ 16 * (delta * p)) by nia. lia.
Qed.

(** What digit generation delivers: digits whose number, scaled by a power of ten,
    lies between the boundaries. *)
Definition generated (q Mm Mp : Z) (b : buffer) (j : Z) : Prop :=
  digits_ok b /\ vsize b <= 17 /\ -19 <= j <= 10 /\
  Mm * 10 ^ Z.max 0 (- j) <= val b * 10 ^ Z.max 0 j * 2 ^ q <= Mp * 10 ^ Z.max 0 (- j).

Section generation.
Context (q Mm Mp dist : Z).
Context (Hq : 32 <= q <= 60) (HMp : Mp < 2 ^ 64) (HMm : 0 < Mm <= Mp) (Hdist : 0 <= dist <= Mp - Mm)
  (Hwide : Mp <= 10 ^ 16 * (Mp - Mm)).
Notation delta := (Mp - Mm).

(** Before the first digit, or behind some digits. *)
Definition started (n : nat) (p1 : Z) (buf : buffer) : Prop :=
  (buf = [] /\ (0 < n)%nat /\ 10 ^ (Z.of_nat n - 1) <= p1) \/ (buf <> [] /\ digits_ok buf).

Lemma started_room n p1 p2 buf :
  0 <= p1 -> 0 <= p2 -> started (S n) p1 buf -> val buf * 10 ^ Z.of_nat (S n) * 2 ^ q + p1 * 2 ^ q + p2 = Mp ->
  10 ^ Z.of_nat n * 2 ^ q <= Mp.
Proof.
  intros H1 H2 Hs HM. pose proof (pow2_pos q ltac:(lia)).
  assert (0 < 10 ^ Z.of_nat n) by (apply Z.pow_pos_nonneg; lia).
  destruct Hs as [(-> & _ & Hp)|[Hb Hd]].
  - replace (Z.of_nat (S n) - 1) with (Z.of_nat n) in Hp by lia. cbn in HM. nia.
  - assert (1 <= val buf).
    { destruct Hd as [_ Hl]. eapply Z.le_trans; [|exact Hl]. apply (Z.pow_le_mono_r 10 0); [lia|].
      destruct buf; [done|]. rewrite vsize_cons. pose proof (vsize_nonneg buf). lia. }
    rewrite Nat2Z.inj_succ, Z.pow_succ_r in HM by lia. nia.
Qed.

Lemma integral_loop_ok n : forall buf de0 p1 p2 pow10,
  (forall k, n = S k -> pow10 = 10 ^ Z.of_nat k) -> 0 <= p1 < 10 ^ Z.of_nat n -> 0 <= p2 < 2 ^ q -> (n <= 10)%nat ->
  val buf * 10 ^ Z.of_nat n * 2 ^ q + p1 * 2 ^ q + p2 = Mp -> delta < p1 * 2 ^ q + p2 -> started n p1 buf ->
  (exists b j, integral_loop n buf de0 p1 p2 pow10 q delta dist = Ok (inl (b, de0 + j)) /\ 0 <= j /\ generated q Mm Mp b j) \/
  (exists b, integral_loop n buf de0 p1 p2 pow10 q delta dist = Ok (inr b) /\ val b * 2 ^ q + p2 = Mp /\ delta < p2 /\
     b <> [] /\ digits_ok b).
Proof.
  pose proof (pow2_pos q ltac:(lia)) as Hq2.
  induction n as [|n IH]; intros buf de0 p1 p2 pow10 Hpow Hp1 Hp2 Hn HM Hrest Hst; cbn [integral_loop].
  { right. exists buf. cbn in Hp1. assert (p1 = 0) as -> by lia. split; [done|]. split; [lia|]. split; [lia|].
    by destruct Hst as [(-> & ? & Hl)|]; [lia|]. }
  rewrite (Hpow n eq_refl). pose proof (started_room n p1 p2 buf ltac:(lia) ltac:(lia) Hst HM) as Hroom.
  set (t := 10 ^ Z.of_nat n) in *. assert (Ht : 0 < t) by (apply Z.pow_pos_nonneg; lia).
  assert (Et : 10 ^ Z.of_nat (S n) = 10 * t) by (unfold t; rewrite Nat2Z.inj_succ, Z.pow_succ_r; lia).
  rewrite Et in HM, Hp1. pose proof (Z.div_mod p1 t ltac:(lia)) as Edm. pose proof (Z.mod_pos_bound p1 t Ht) as Hr.
  set (d := p1 / t) in *. set (r := p1 mod t) in *.
  assert (Hd : 0 <= d <= 9) by nia. asserted; [|lia].
  assert (HM' : val (d :: buf) * t * 2 ^ q + r * 2 ^ q + p2 = Mp).
  { rewrite <- HM, Edm. cbn [val foldr]. fold (val buf). ring. }
  assert (Hv0 : 0 <= val (d :: buf) * t * 2 ^ q).
  { assert (0 <= val buf); [|cbn [val foldr]; fold (val buf); nia].
    destruct Hst as [(-> & _ & _)|[_ [_ Hl]]]; [done|]. eapply Z.le_trans; [|exact Hl]. apply Z.pow_nonneg. lia. }
  rewrite !Z.shiftl_mul_pow2 by lia. rewrite (u64_small (r * 2 ^ q)), (u64_small (r * 2 ^ q + p2)) by nia.
  assert (Hdig : forall d', 1 <= d' <= d -> digits_ok (d' :: buf)).
  { intros d' Hd'. destruct Hst as [(-> & _ & _)|[Hb Hdg]]; [apply digits_ok_one; lia|apply digits_ok_cons; [lia|done..]]. }
  case_decide as Hstop.
  - left. rewrite u64_small by lia.
    destruct (grisu2_round_ok d buf dist delta (r * 2 ^ q + p2) (t * 2 ^ q)) as (d' & E & Hd' & Hle); [nia|nia|lia|lia|nia|lia|].
    rewrite E. cbn [mbind outcome_bind]. exists (d' :: buf), (Z.of_nat n). split; [done|]. split; [lia|].
    split_and!; [by apply Hdig| |lia..| |].
    + destruct Hst as [(-> & _ & _)|[Hb Hdg]]; [rewrite vsize_cons; unfold vsize; cbn; lia|]. rewrite vsize_cons.
      assert (vsize buf <= 16); [|lia].
      apply (few_digits buf Mp delta (10 * t * 2 ^ q) 1 (p1 * 2 ^ q + p2)); [done|nia|lia|lia|nia|lia|lia|lia].
    + rewrite (Z.max_l 0 (- Z.of_nat n)), (Z.max_r 0 (Z.of_nat n)) by lia. fold t. cbn [val foldr] in *. fold (val buf) in *. nia.
    + rewrite (Z.max_l 0 (- Z.of_nat n)), (Z.max_r 0 (Z.of_nat n)) by lia. fold t. cbn [val foldr] in *. fold (val buf) in *. nia.
  - apply IH; [|done|done|lia|done|lia|].
    + intros k ->. unfold t. rewrite Nat2Z.inj_succ, Z.pow_succ_r by lia. rewrite Z.mul_comm. apply Z.div_mul. lia.
    + right. split; [done|]. destruct Hst as [(-> & _ & Hl)|[Hb Hdg]]; [|by apply digits_ok_cons].
      apply digits_ok_one. replace (Z.of_nat (S n) - 1) with (Z.of_nat n) in Hl by lia. fold t in Hl. nia.
Qed.

Lemma fraction_loop_ok fuel : forall buf m p2,
  0 <= m -> 0 <= p2 < 2 ^ q -> val buf * 2 ^ q + p2 = Mp * 10 ^ m -> delta * 10 ^ m < p2 -> buf <> [] -> digits_ok buf ->
  19 <= m + Z.of_nat fuel ->
  exists d b m' r, fraction_loop fuel buf m p2 q (delta * 10 ^ m) (dist * 10 ^ m) =
      Ok (d :: b, m', r, delta * 10 ^ m', dist * 10 ^ m') /\
    0 <= d <= 9 /\ b <> [] /\ digits_ok b /\ vsize b <= 16 /\ 0 < m' <= 19 /\ 0 <= r <= delta * 10 ^ m' /\
    delta * 10 ^ m' < 2 ^ 64 /\ val (d :: b) * 2 ^ q + r = Mp * 10 ^ m' /\ delta * 10 ^ m' < r + d * 2 ^ q.
Proof.
  assert (Hq2 : 2 ^ 32 <= 2 ^ q <= 2 ^ 60) by (split; apply Z.pow_le_mono_r; lia).
  assert (Hdl : 1 <= delta) by lia.
  induction fuel as [|fuel IH]; intros buf m p2 Hm Hp2 HM Hrest Hb Hdg Hf; cbn [fraction_loop].
  all: assert (Hm18 : m <= 18) by
    (destruct (Z.le_gt_cases m 18) as [|Hgt]; [done|]; exfalso;
     assert (10 ^ 19 <= 10 ^ m) by (apply Z.pow_le_mono_r; lia); nia).
  { lia. }
  assert (H10 : 0 < 10 ^ m) by (apply Z.pow_pos_nonneg; lia).
  assert (E10 : 10 ^ (m + 1) = 10 * 10 ^ m) by (rewrite Z.pow_add_r by lia; lia).
  asserted; [|change ((2 ^ 64 - 1) / 10) with 1844674407370955161; lia].
  rewrite (u64_small (p2 * 10)), Z.shiftr_div_pow2 by lia. rewrite Z.shiftl_mul_pow2, Z.mul_1_l, land_low by lia.
  pose proof (Z.div_mod (p2 * 10) (2 ^ q) ltac:(lia)) as Edm. pose proof (Z.mod_pos_bound (p2 * 10) (2 ^ q) ltac:(lia)) as Hr.
  set (d := p2 * 10 / 2 ^ q) in *. set (r := p2 * 10 mod 2 ^ q) in *.
  assert (Hd : 0 <= d <= 9) by nia. asserted; [|lia].
  assert (Hlen : vsize buf <= 16).
  { apply (few_digits buf Mp delta (2 ^ q) (10 ^ m) p2); [done|lia|lia|lia|lia|lia|lia|lia]. }
  assert (Hdm : dist * 10 ^ m <= delta * 10 ^ m) by (apply Z.mul_le_mono_nonneg_r; lia).
  rewrite (u64_small (delta * 10 ^ m * 10)), (u64_small (dist * 10 ^ m * 10)) by lia.
  replace (delta * 10 ^ m * 10) with (delta * 10 ^ (m + 1)) by lia.
  replace (dist * 10 ^ m * 10) with (dist * 10 ^ (m + 1)) by lia.
  assert (HM' : val (d :: buf) * 2 ^ q + r = Mp * 10 ^ (m + 1)).
  { rewrite E10. cbn [val foldr]. fold (val buf). lia. }
  assert (Hgt : delta * 10 ^ (m + 1) < r + d * 2 ^ q) by lia.
  case_decide as Hstop.
  - exists d, buf, (m + 1), r. split; [done|]. split_and!; try done; lia.
  - apply IH; [lia|done|done|lia|done|by apply digits_ok_cons|lia].
Qed.
End generation.

Lemma find_largest_pow10_spec n :
  0 < n < 2 ^ 32 -> exists k, find_largest_pow10 n = (Z.of_nat (S k), 10 ^ Z.of_nat k) /\
    10 ^ Z.of_nat k <= n < 10 ^ Z.of_nat (S k) /\ (S k <= 10)%nat.
Proof.
  intros Hn. unfold find_largest_pow10.
  repeat case_decide;
    [exists 9%nat|exists 8%nat|exists 7%nat|exists 6%nat|exists 5%nat|exists 4%nat|exists 3%nat|exists 2%nat|
     exists 1%nat|exists 0%nat]; (split; [done|]); (split; [|lia]); cbn; lia.
Qed.

Lemma grisu2_digit_gen_ok de0 Mm w Mp e :
  -60 <= e <= -32 -> 2 ^ 61 <= Mp < 2 ^ 64 -> 0 < Mm <= w -> w <= Mp -> Mp <= 10 ^ 16 * (Mp - Mm) ->
  exists b j, grisu2_digit_gen de0 (mkDiyfp Mm e) (mkDiyfp w e) (mkDiyfp Mp e) = Ok (b, de0 + j) /\
    generated (- e) Mm Mp b j.
Proof.
  intros He HMp HMm Hw Hwide. unfold grisu2_digit_gen, kAlpha, kGamma. cbn [df de].
  asserted; [|lia]. asserted; [|lia]. unfold diyfp_sub. cbn [df de].
  rewrite !assert_bind by lia. cbn [mbind outcome_bind df].
  set (q := - e). assert (Hq : 32 <= q <= 60) by lia.
  assert (Hq2 : 2 ^ 32 <= 2 ^ q <= 2 ^ 60) by (split; apply Z.pow_le_mono_r; lia).
  rewrite Z.shiftr_div_pow2, Z.shiftl_mul_pow2, Z.mul_1_l, land_low by lia.
  pose proof (Z.div_mod Mp (2 ^ q) ltac:(lia)) as Edm. pose proof (Z.mod_pos_bound Mp (2 ^ q) ltac:(lia)) as Hr.
  set (p1 := Mp / 2 ^ q) in *. set (p2 := Mp mod 2 ^ q) in *. assert (Hp1 : 0 < p1 < 2 ^ 32) by nia.
  rewrite (Z.mod_small p1) by lia. asserted; [|lia].
  destruct (find_largest_pow10_spec p1 Hp1) as (k & -> & Hk & Hk10). rewrite Nat2Z.id.
  destruct (integral_loop_ok q Mm Mp (Mp - w) Hq ltac:(lia) ltac:(lia) ltac:(lia) Hwide (S k) [] de0 p1 p2 (10 ^ Z.of_nat k))
    as [(b & j & E & Hj & Hg)|(b & E & HM & Hp2 & Hb & Hdg)].
  - intros k' [= <-]. done.
  - split; [lia|]. apply Hk.
  - lia.
  - lia.
  - cbn. lia.
  - lia.
  - left. split; [done|]. split; [lia|]. replace (Z.of_nat (S k) - 1) with (Z.of_nat k) by lia. lia.
  - rewrite E. cbn [mbind outcome_bind]. by exists b, j.
  - rewrite E. cbn [mbind outcome_bind]. asserted; [|done].
    destruct (fraction_loop_ok q Mm Mp (Mp - w) Hq ltac:(lia) ltac:(lia) Hwide 20 b 0 p2)
      as (d & b' & m & r & E' & Hd & Hb' & Hdg' & Hl & Hm & Hr' & Hdl & HM' & Hgt); [lia|lia|lia|lia|done|done|lia|].
    change (10 ^ 0) with 1 in E'. rewrite !Z.mul_1_r in E'. rewrite E'. cbn [mbind outcome_bind].
    assert (0 < 10 ^ m) by (apply Z.pow_pos_nonneg; lia).
    destruct (grisu2_round_ok d b' ((Mp - w) * 10 ^ m) ((Mp - Mm) * 10 ^ m) r (2 ^ q)) as (d' & E2 & Hd' & Hle);
      [lia|lia|lia|nia|lia|lia|].
    rewrite E2. cbn [mbind outcome_bind]. exists (d' :: b'), (- m). split; [do 3 f_equal; lia|].
    split_and!; [apply digits_ok_cons; [lia|done..]|rewrite vsize_cons; lia|lia..| |];
      rewrite (Z.max_r 0 (- - m)), (Z.max_l 0 (- m)) by lia; rewrite Z.opp_involutive;
      cbn [val foldr] in *; fold (val b') in *; nia.
Qed.

(** ** Powers with signed exponents *)
#[local] Open Scope Q_scope.
Definition pw (b e : Z) : Q := inject_Z b ^ e.

Lemma pw_pos b e : (0 < b)%Z -> 0 < pw b e.
Proof. intros Hb. apply Qpower_0_lt. change 0 with (inject_Z 0). by rewrite <- Zlt_Qlt. Qed.

Lemma pw_add b e f : (0 < b)%Z -> pw b (e + f) == pw b e * pw b f.
Proof.
  intros Hb. apply Qpower_plus. intros H. assert (0 < inject_Z b) by (change 0 with (inject_Z 0); by rewrite <- Zlt_Qlt).
  rewrite H in H0. by apply Qlt_irrefl in H0.
Qed.

Lemma pw_Z b e : (0 <= e)%Z -> pw b e == inject_Z (b ^ e).
Proof. intros He. symmetry. by apply Zpower_Qpower. Qed.

(** [b^e] as a quotient of natural powers. *)
Lemma pw_split b e : (0 < b)%Z -> pw b e * inject_Z (b ^ Z.max 0 (- e)) == inject_Z (b ^ Z.max 0 e).
Proof.
  intros Hb. rewrite <- !pw_Z, <- pw_add by lia. by replace (e + Z.max 0 (- e))%Z with (Z.max 0 e) by lia.
Qed.

Lemma Qmult_lt_r_iff x y z : 0 < z -> x * z < y * z <-> x < y.
Proof. intros Hz. by apply Qmult_lt_r. Qed.

Lemma inject_lt a b : inject_Z a < inject_Z b <-> (a < b)%Z.
Proof. by rewrite <- Zlt_Qlt. Qed.

Lemma inject_le a b : inject_Z a <= inject_Z b <-> (a <= b)%Z.
Proof. by rewrite <- Zle_Qle. Qed.

(** What a cached power gives: the products with it, one unit inwards, lie inside
    the exact ones. *)
Lemma cached_inside c f (t2 := pw 2 (ce c)) (t10 := pw 10 (ck c)) :
  cached_ok c = true -> (0 <= f < 2 ^ 64)%Z ->
  let W := df (diyfp_mul (mkDiyfp f 0) (mkDiyfp (cf c) (ce c))) in
  inject_Z ((W - 1) * 2 ^ 64) * t2 < inject_Z f * t10 /\ inject_Z f * t10 < inject_Z ((W + 1) * 2 ^ 64) * t2.
Proof.
  intros Hc Hf W. unfold cached_ok in Hc. rewrite !andb_true_iff, Z.leb_le, Z.ltb_lt, !Qle_bool_iff in Hc.
  destruct Hc as (((H1 & H2) & H3) & H4). change ((2 # 1) ^ ce c) with t2 in *. change ((10 # 1) ^ ck c) with t10 in *.
  pose proof (diyfp_mul_bounds (mkDiyfp f 0) (mkDiyfp (cf c) (ce c)) Hf ltac:(cbn [df]; lia)) as HW.
  cbn [df] in HW. fold W in HW. clearbody W. pose proof (pw_pos 2 (ce c) ltac:(lia)) as Ht. fold t2 in Ht.
  assert (Hf0 : 0 <= inject_Z f) by (change 0 with (inject_Z 0); apply inject_le; lia).
  pose proof (Qmult_le_compat_r _ _ _ H3 Hf0) as L3. pose proof (Qmult_le_compat_r _ _ _ H4 Hf0) as L4.
  assert (Z1 : (2 * ((W - 1) * 2 ^ 64) < (2 * cf c - 1) * f)%Z) by lia.
  assert (Z2 : ((2 * cf c + 1) * f < 2 * ((W + 1) * 2 ^ 64))%Z) by lia.
  apply inject_lt in Z1, Z2. rewrite !inject_Z_mult in Z1, Z2. change (inject_Z 2) with 2 in *.
  rewrite <- (Qmult_lt_r_iff _ _ t2 Ht) in Z1. rewrite <- (Qmult_lt_r_iff _ _ t2 Ht) in Z2. rewrite inject_Z_mult, (inject_Z_mult (W + 1)).
  split; lra.
Qed.

(** ** The whole algorithm *)
#[local] Open Scope Z_scope.
Definition scaled (c : cached_power) (f : Z) : Z := df (diyfp_mul (mkDiyfp f 0) (mkDiyfp (cf c) (ce c))).

Lemma scaled_mul c f E :
  diyfp_mul (mkDiyfp f E) (mkDiyfp (cf c) (ce c)) = mkDiyfp (scaled c f) (E + ce c + 64).
Proof. done. Qed.

Lemma scaled_bounds c f :
  cached_ok c = true -> 0 <= f < 2 ^ 64 -> 2 ^ 64 * scaled c f - 2 ^ 63 <= f * cf c < 2 ^ 64 * scaled c f + 2 ^ 63.
Proof.
  intros Hc Hf. unfold cached_ok in Hc. rewrite !andb_true_iff, Z.leb_le, Z.ltb_lt in Hc.
  destruct Hc as (((H1 & H2) & _) & _). apply (diyfp_mul_bounds (mkDiyfp f 0) (mkDiyfp (cf c) (ce c))); cbn [df]; lia.
Qed.

Lemma low4_cases m e : (low4 m e = 4 * m - 1 /\ m = 2 ^ 52) \/ low4 m e = 4 * m - 2.
Proof. unfold low4. destruct (decide _); [left|right]; [split; [done|tauto]|done]. Qed.

(** The scaled boundaries, one unit inwards, are far enough apart. *)
Lemma scaled_apart c m e u :
  cached_ok c = true -> canonical m e -> 2 ^ 9 <= u -> 2 ^ 63 <= 4 * m * u -> (4 * m + 2) * u < 2 ^ 64 ->
  let Mp := scaled c ((4 * m + 2) * u) - 1 in
  let Mm := scaled c (low4 m e * u) + 1 in
  let w := scaled c (4 * m * u) in
  2 ^ 61 <= Mp < 2 ^ 64 /\ 0 < Mm <= w /\ w <= Mp /\ Mp <= 10 ^ 16 * (Mp - Mm).
Proof.
  intros Hc (Hm & _ & _) Hu Hlo Hhi Mp Mm w.
  assert (Hl4 : 4 * m - 2 <= low4 m e <= 4 * m - 1) by (destruct (low4_cases m e) as [[-> _]| ->]; lia).
  pose proof (scaled_bounds c ((4 * m + 2) * u) Hc ltac:(lia)) as Bp.
  pose proof (scaled_bounds c (low4 m e * u) Hc ltac:(nia)) as Bm.
  pose proof (scaled_bounds c (4 * m * u) Hc ltac:(nia)) as Bw.
  assert (Hcf : 2 ^ 63 <= cf c < 2 ^ 64).
  { unfold cached_ok in Hc. rewrite !andb_true_iff, Z.leb_le, Z.ltb_lt in Hc. tauto. }
  assert (HX : 2 ^ 72 <= u * cf c) by nia.
  assert (Hlo' : 2 ^ 126 <= 4 * m * (u * cf c)) by nia.
  assert (Hhi' : (4 * m + 2) * (u * cf c) < 2 ^ 128) by nia.
  rewrite <- (Z.mul_assoc _ u (cf c)) in Bp. rewrite <- (Z.mul_assoc _ u (cf c)) in Bm. rewrite <- (Z.mul_assoc _ u (cf c)) in Bw. set (X := u * cf c) in *. clearbody X.
  set (W := scaled c (4 * m * u)) in *. set (Wp := scaled c ((4 * m + 2) * u)) in *.
  set (Wm := scaled c (low4 m e * u)) in *. clearbody W Wp Wm. unfold Mp, Mm, w. clear Mp Mm w Hc Hcf Hlo Hhi Hu.
  split_and!; [lia|lia| | | |].
  - assert (0 <= (low4 m e) * X) by nia. lia.
  - assert ((low4 m e) * X <= 4 * m * X - X) by nia. lia.
  - lia.
  - assert ((4 * m + 2) * X <= (2 ^ 55 - 2) * X) by nia.
    destruct (low4_cases m e) as [[E Em]|E]; rewrite E in Bm; [rewrite Em in Bm, Bp|]; lia.
Qed.

Lemma cached_power_in e c : get_cached_power_for_binary_exponent e = Ok c -> c ∈ kCachedPowers.
Proof.
  unfold get_cached_power_for_binary_exponent. intros H. ok_inv H.
  match goal with Hv : vget kCachedPowers _ = Ok _ |- _ => apply vget_ok in Hv as [_ Hv]; by apply list_elem_of_lookup_2 in Hv end.
Qed.

Lemma cached_power_for e :
  -1137 <= e <= 962 -> exists c, get_cached_power_for_binary_exponent e = Ok c /\ cached_ok c = true /\
    -60 <= ce c + e + 64 <= -32 /\ -324 <= ck c <= 324.
Proof.
  intros He. pose proof exponents_ok as H. rewrite forallb_forall in H. specialize (H e).
  assert (Hin : In e (seqZ (-1137) 2100)) by (apply list_elem_of_In, elem_of_seqZ; lia). specialize (H Hin).
  unfold exponent_ok in H. destruct (get_cached_power_for_binary_exponent e) as [c|] eqn:E; [|done].
  rewrite !andb_true_iff, !Z.leb_le in H. exists c. split; [done|]. split; [|lia].
  pose proof cached_powers_ok as Hall. rewrite forallb_forall in Hall. by apply Hall, list_elem_of_In, (cached_power_in e).
Qed.

(** The boundaries of the digits, as rationals. *)
Lemma generated_Q q Mm Mp b j :
  0 <= q -> generated q Mm Mp b j ->
  (inject_Z Mm <= inject_Z (val b) * pw 10 j * pw 2 q)%Q /\ (inject_Z (val b) * pw 10 j * pw 2 q <= inject_Z Mp)%Q.
Proof.
  intros Hq (_ & _ & _ & H1 & H2). pose proof (pw_split 10 j ltac:(lia)) as Hs.
  assert (Hp : (0 < inject_Z (10 ^ Z.max 0 (- j)))%Q).
  { change 0%Q with (inject_Z 0). apply inject_lt. apply Z.pow_pos_nonneg; lia. }
  apply inject_le in H1, H2. rewrite !inject_Z_mult, <- Hs in H1, H2. rewrite (pw_Z 2 q Hq).
  set (x := inject_Z (10 ^ Z.max 0 (- j))) in *. set (y := inject_Z (2 ^ q)) in *. set (v := inject_Z (val b)) in *.
  set (p := pw 10 j) in *. clearbody x y v p.
  split; apply (Qmult_le_r _ _ x Hp); lra.
Qed.

(** A decimal strictly between the boundaries of [m * 2^e]. *)
Definition inside_boundaries (m e v x : Z) : Prop :=
  (inject_Z (low4 m e) * pw 2 (e - 2) < inject_Z v * pw 10 x)%Q /\
  (inject_Z v * pw 10 x < inject_Z (4 * m + 2) * pw 2 (e - 2))%Q.

Lemma inside_from_scaled m e u s c b j (Mp := scaled c ((4 * m + 2) * u) - 1) (Mm := scaled c (low4 m e * u) + 1) :
  cached_ok c = true -> 2 <= s -> u = 2 ^ (s - 2) -> 0 <= low4 m e -> low4 m e * u < 2 ^ 64 -> 0 <= (4 * m + 2) * u < 2 ^ 64 ->
  0 <= - (e - s + ce c + 64) -> generated (- (e - s + ce c + 64)) Mm Mp b j ->
  inside_boundaries m e (val b) (- ck c + j).
Proof.
  intros Hc Hs Hu Hl0 Hl Hh Hq Hg. apply generated_Q in Hg as [G1 G2]; [|done].
  destruct (cached_inside c ((4 * m + 2) * u) Hc ltac:(lia)) as [Up _].
  destruct (cached_inside c (low4 m e * u) Hc) as [_ Lo]; [assert (0 < u) by (subst u; apply pow2_pos; lia); nia|].
  fold (scaled c ((4 * m + 2) * u)) in Up. fold (scaled c (low4 m e * u)) in Lo. fold Mp in Up. fold Mm in Lo.
  clearbody Mp Mm. set (q := - (e - s + ce c + 64)) in *.
  assert (Eu : (inject_Z u == pw 2 (s - 2))%Q) by (rewrite Hu, pw_Z by lia; reflexivity).
  rewrite (inject_Z_mult Mp), (inject_Z_mult (4 * m + 2)), Eu in Up.
  rewrite (inject_Z_mult Mm), (inject_Z_mult (low4 m e)), Eu in Lo.
  change (inject_Z (2 ^ 64)) with (pw 2 64) in Up, Lo.
  assert (Ht10 : (pw 10 (- ck c + j) * pw 10 (ck c) == pw 10 j)%Q).
  { rewrite <- pw_add by lia. by replace (- ck c + j + ck c) with j by lia. }
  assert (Ht2 : (pw 2 64 * pw 2 (ce c) * pw 2 q * pw 2 (e - 2) == pw 2 (s - 2))%Q).
  { rewrite <- !pw_add by lia. by replace (64 + ce c + q + (e - 2)) with (s - 2) by (unfold q; lia). }
  pose proof (pw_pos 10 (ck c) ltac:(lia)) as P10. pose proof (pw_pos 2 (ce c) ltac:(lia)) as P2.
  pose proof (pw_pos 2 q ltac:(lia)) as Pq. pose proof (pw_pos 2 64 ltac:(lia)) as P64.
  rewrite <- Ht2 in Up, Lo. rewrite <- Ht10 in G1, G2. unfold inside_boundaries.
  set (v := inject_Z (val b)) in *. set (x := pw 10 (- ck c + j)) in *. set (t := pw 10 (ck c)) in *.
  set (k := (pw 2 64 * pw 2 (ce c))%Q) in *. assert (Pk : (0 < k)%Q) by (by apply Qmult_lt_0_compat).
  set (y := pw 2 q) in *. set (z := pw 2 (e - 2)) in *. set (l := inject_Z (low4 m e)) in *. set (h := inject_Z (4 * m + 2)) in *.
  assert (Pkyt : (0 < k * y * t)%Q) by (by repeat apply Qmult_lt_0_compat).
  assert (Ek : forall a, (a * pw 2 64 * pw 2 (ce c) == a * k)%Q) by (intros a; unfold k; ring).
  rewrite Ek in Up, Lo. clearbody k.
  pose proof (proj2 (Qmult_le_r _ _ k Pk) G1) as L1. pose proof (proj2 (Qmult_le_r _ _ k Pk) G2) as L2.
  split; apply (Qmult_lt_r _ _ (k * y * t) Pkyt).
  - eapply Qlt_le_trans; [|eapply Qle_trans; [exact L1|]]; [|lra]. eapply Qle_lt_trans; [|exact Lo]. lra.
  - eapply Qle_lt_trans; [|eapply Qlt_le_trans; [exact Up|]]; [|lra]. eapply Qle_trans; [|exact L2]. lra.
Qed.

Lemma grisu2_spec m e :
  canonical m e -> exists b x, grisu2 m e = Ok (b, x) /\ digits_ok b /\ vsize b <= 17 /\ -400 <= x <= 400 /\
    inside_boundaries m e (val b) x.
Proof.
  intros Hc. destruct (compute_boundaries_spec m e Hc) as [Hs Hb]. pose proof Hc as (Hm & He & _).
  set (s := 63 - Z.log2 m) in *. set (u := 2 ^ (s - 2)) in *. unfold grisu2. rewrite Hb. cbn [mbind outcome_bind].
  unfold grisu2_scaled. cbn [bminus bw bplus df de]. asserted; [|done]. asserted; [|done].
  destruct (cached_power_for (e - s)) as (c & -> & Hok & Hrange & Hck); [lia|]. cbn [mbind outcome_bind].
  rewrite !scaled_mul. cbn [df de].
  assert (Hu9 : 2 ^ 9 <= u) by (apply Z.pow_le_mono_r; lia).
  pose proof (Z.log2_spec m ltac:(lia)) as [Hlo Hhi]. pose proof (Z.log2_nonneg m) as Hl0.
  assert (E63 : 2 ^ Z.log2 m * 4 * u = 2 ^ 63).
  { unfold u. change 4 with (2 ^ 2). rewrite <- !Z.pow_add_r by lia. f_equal. lia. }
  rewrite Z.pow_succ_r in Hhi by lia.
  assert (H63 : 2 ^ 63 <= 4 * m * u) by nia.
  assert (H64 : (4 * m + 2) * u < 2 ^ 64) by (change (2 ^ 64) with (2 * 2 ^ 63); nia).
  destruct (scaled_apart c m e u Hok Hc Hu9 H63 H64) as (HMp & HMm & Hw & Hwide).
  set (Mp := scaled c ((4 * m + 2) * u) - 1) in *. set (Mm := scaled c (low4 m e * u) + 1) in *.
  rewrite (u64_small Mm), (u64_small Mp) by lia.
  destruct (grisu2_digit_gen_ok (- ck c) Mm (scaled c (4 * m * u)) Mp (e - s + ce c + 64)) as (b & j & -> & Hg); [lia..|].
  pose proof Hg as (Hd & Hlen & Hj & _). exists b, (- ck c + j). split; [done|]. split; [done|]. split; [done|]. split; [lia|].
  assert (Hl4 : 4 * m - 2 <= low4 m e <= 4 * m - 1) by (destruct (low4_cases m e) as [[-> _]| ->]; lia).
  apply (inside_from_scaled m e u s); [done|lia|done|lia|nia|nia|lia|done].
Qed.

(** ** Reading it back *)
Lemma decimal_ratio s v x : decimal s v x = round64 s (v * 10 ^ Z.max 0 x) (10 ^ Z.max 0 (- x)).
Proof.
  unfold decimal. destruct (Z.leb_spec 0 x).
  - by rewrite Z.max_r, Z.max_l by lia.
  - rewrite Z.max_l, Z.max_r by lia. by rewrite Z.mul_1_r.
Qed.

Lemma decimal_inside s m e v x :
  canonical m e -> inside_boundaries m e v x -> decimal s v x = S754_finite s (Z.to_pos m) e.
Proof.
  intros Hc [H1 H2]. pose proof Hc as (Hm & _). rewrite decimal_ratio.
  pose proof (pw_split 10 x ltac:(lia)) as S10. pose proof (pw_split 2 e ltac:(lia)) as S2.
  assert (E2 : (pw 2 (e - 2) * 4 == pw 2 e)%Q).
  { change 4%Q with (pw 2 2). rewrite <- pw_add by lia. by replace (e - 2 + 2) with e by lia. }
  assert (Hpos : forall b k, 0 < b -> (0 < inject_Z (b ^ Z.max 0 k))%Q).
  { intros b k Hb. change 0%Q with (inject_Z 0). apply inject_lt. apply Z.pow_pos_nonneg; lia. }
  pose proof (Hpos 10 (- x) ltac:(lia)) as P1. pose proof (Hpos 2 (- e) ltac:(lia)) as P2.
  set (n := v * 10 ^ Z.max 0 x). set (d := 10 ^ Z.max 0 (- x)) in *.
  set (A := 2 ^ Z.max 0 (- e)) in *. set (B := 2 ^ Z.max 0 e) in *.
  assert (En : (inject_Z n == inject_Z v * pw 10 x * inject_Z d)%Q).
  { unfold n. rewrite inject_Z_mult, <- S10. ring. }
  assert (PdA : (0 < inject_Z d * inject_Z A * 4)%Q) by (by repeat apply Qmult_lt_0_compat).
  rewrite <- (Qmult_lt_r _ _ _ PdA) in H1. rewrite <- (Qmult_lt_r _ _ _ PdA) in H2.
  assert (L : low4 m e * (d * B) < 4 * (n * A)).
  { apply inject_lt. rewrite !inject_Z_mult, En, <- S2, <- E2. change (inject_Z 4) with 4%Q. lra. }
  assert (U : 4 * (n * A) < (4 * m + 2) * (d * B)).
  { apply inject_lt. rewrite (inject_Z_mult 4), (inject_Z_mult (4 * m + 2)), !(inject_Z_mult n), !(inject_Z_mult d), En, <- S2, <- E2.
    change (inject_Z 4) with 4%Q. lra. }
  assert (HB : 0 < B) by apply max_pow_pos. assert (HA : 0 < A) by apply max_pow_pos.
  assert (Hd : 0 < d) by (apply Z.pow_pos_nonneg; lia).
  assert (HdB : 0 < d * B) by (by apply Z.mul_pos_pos).
  assert (Hl4 : 4 * m - 2 <= low4 m e <= 4 * m - 1) by (destruct (low4_cases m e) as [[-> _]| ->]; lia).
  apply round64_nearest; [nia|done|done|]. unfold nearest. fold A B. unfold low4 in L.
  set (N := n * A) in *. set (D := d * B) in *. destruct (decide _); split; lia.
Qed.

(** ** The text *)
Notation soa := String.string_of_list_ascii.

Lemma soa_app a b : soa (a ++ b) = (soa a +:+ soa b)%string.
Proof. induction a as [|c a IH]; [done|]. change (String c (soa (a ++ b)) = String c (soa a +:+ soa b)). by rewrite IH. Qed.

Lemma char_of_digit d : 0 <= d <= 9 -> digit_in 10 (char_of d) = Some d.
Proof.
  intros Hd. assert (d = 0 \/ d = 1 \/ d = 2 \/ d = 3 \/ d = 4 \/ d = 5 \/ d = 6 \/ d = 7 \/ d = 8 \/ d = 9) as H by lia.
  destruct_or! H; subst d; vm_compute; reflexivity.
Qed.

(** The number a list of digits spells behind the digits of [n]. *)
Definition spell (l : list Z) (n : Z) : Z := fold_left (fun a d => a * 10 + d) l n.

Lemma spell_app l l' n : spell (l ++ l') n = spell l' (spell l n).
Proof. apply fold_left_app. Qed.

Lemma spell_rev b : spell (rev b) 0 = val b.
Proof. unfold spell, val. by rewrite <- fold_left_rev_right, rev_involutive. Qed.

Lemma spell_zeros k n : spell (replicate k 0) n = n * 10 ^ Z.of_nat k.
Proof.
  revert n. induction k as [|k IH]; intros n; [change (n = n * 1); lia|]. cbn [replicate].
  change (spell (0 :: replicate k 0) n) with (spell (replicate k 0) (n * 10 + 0)).
  rewrite IH, Nat2Z.inj_succ, Z.pow_succ_r by lia. lia.
Qed.

Lemma span_list l t n u :
  Forall (fun d => 0 <= d <= 9) l ->
  span_digits 10 (soa (char_of <$> l) +:+ t) n u = span_digits 10 t (spell l n) (u + length l).
Proof.
  revert n u. induction l as [|d l IH]; intros n u Hl; cbn [fmap list_fmap length].
  { by rewrite Nat.add_0_r. }
  apply Forall_cons in Hl as [Hd Hl].
  change (soa (char_of d :: (char_of <$> l)) +:+ t)%string with (String (char_of d) (soa (char_of <$> l) +:+ t)).
  cbn [span_digits]. rewrite char_of_digit by done. rewrite IH by done. f_equal. lia.
Qed.

Lemma span_end n u : span_digits 10 EmptyString n u = (u, n, EmptyString).
Proof. done. Qed.

Lemma span_stop c t n u : digit_in 10 c = None -> span_digits 10 (String c t) n u = (u, n, String c t).
Proof. intros H. cbn [span_digits]. by rewrite H. Qed.

(** A number without a point: an exponent or the end follows. *)
Lemma span_plain l t n' ex r :
  l <> [] -> Forall (fun d => 0 <= d <= 9) l -> (t = EmptyString \/ exists c t', t = String c t' /\ digit_in 10 c = None /\ c <> "."%char) ->
  n' = spell l 0 -> span_exponent "e" "E" t = (ex, r) ->
  span_number 10 "e" "E" (soa (char_of <$> l) +:+ t) = Some (n', 0, ex, r).
Proof.
  intros Hne Hl Ht -> Hex. unfold span_number. rewrite span_list by done.
  assert (Hlen : (0 + length l)%nat <> 0%nat) by (destruct l; [done|cbn; lia]).
  assert (Hstop : span_digits 10 t (spell l 0) (0 + length l) = ((0 + length l)%nat, spell l 0, t)).
  { destruct Ht as [->|(c & t' & -> & Hc & _)]; [done|by apply span_stop]. }
  rewrite Hstop.
  assert (Hdot : match t with String "." t0 => span_digits 10 t0 (spell l 0) 0 | _ => (0%nat, spell l 0, t) end = (0%nat, spell l 0, t)).
  { destruct Ht as [->|(c & t' & -> & _ & Hc)]; [done|]. destruct c as [[] [] [] [] [] [] [] []]; done. }
  rewrite Hdot. rewrite decide_False by lia. by rewrite Hex.
Qed.

(** A number with a point. *)
Lemma span_pointed l1 l2 t ex r :
  l1 <> [] -> Forall (fun d => 0 <= d <= 9) l1 -> Forall (fun d => 0 <= d <= 9) l2 ->
  (t = EmptyString \/ exists c t', t = String c t' /\ digit_in 10 c = None) -> span_exponent "e" "E" t = (ex, r) ->
  span_number 10 "e" "E" (soa (char_of <$> l1) +:+ String "." (soa (char_of <$> l2) +:+ t)) =
    Some (spell (l1 ++ l2) 0, vsize l2, ex, r).
Proof.
  intros Hne Hl1 Hl2 Ht Hex. unfold span_number. rewrite span_list by done.
  rewrite span_stop by done. rewrite span_list by done.
  assert (Hlen : (0 + length l1)%nat <> 0%nat) by (destruct l1; [done|cbn; lia]).
  assert (Hstop : span_digits 10 t (spell l2 (spell l1 0)) (0 + length l2) = (length l2, spell l2 (spell l1 0), t)).
  { destruct Ht as [->|(c & t' & -> & Hc)]; [done|by apply span_stop]. }
  rewrite Hstop. rewrite decide_False by lia. rewrite Hex. by rewrite spell_app.
Qed.

Lemma inside_shift m e v x a : 0 <= a -> inside_boundaries m e v x -> inside_boundaries m e (v * 10 ^ a) (x - a).
Proof.
  intros Ha. unfold inside_boundaries.
  assert (E : (inject_Z (v * 10 ^ a) * pw 10 (x - a) == inject_Z v * pw 10 x)%Q).
  { rewrite inject_Z_mult, <- pw_Z by lia. rewrite <- Qmult_assoc, <- pw_add by lia. by replace (a + (x - a)) with x by lia. }
  by rewrite E.
Qed.

Lemma span_exponent_text y t :
  append_exponent y = Ok t -> span_exponent "e" "E" (String "e" (soa t)) = (y, EmptyString).
Proof.
  intros H. unfold append_exponent in H. unfold assert_that in H.
  destruct (decide (-1000 < y)) as [H1|]; [|discriminate H]. cbn [mbind outcome_bind] in H.
  destruct (decide (y < 1000)) as [H2|]; [|discriminate H]. cbn [mbind outcome_bind] in H.
  set (k := Z.abs y) in *. assert (Hk : 0 <= k < 1000) by lia.
  assert (exists l, Forall (fun d => 0 <= d <= 9) l /\ l <> [] /\ spell l 0 = k /\
    t = (if decide (y < 0) then "-"%char else "+"%char) :: (char_of <$> l)) as (l & Hl & Hne & Hk' & ->).
  { injection H as <-. destruct (decide (k < 10)) as [K1|K1]; [|destruct (decide (k < 100)) as [K2|K2]].
    - exists [0; k]. split; [repeat constructor; lia|]. split; [done|]. split; [unfold spell; cbn [fold_left]; lia|done].
    - pose proof (Z.div_mod k 10 ltac:(lia)). pose proof (Z.mod_pos_bound k 10 ltac:(lia)).
      exists [k / 10; k mod 10]. split; [repeat constructor; lia|]. split; [done|].
      split; [unfold spell; cbn [fold_left]; lia|done].
    - pose proof (Z.div_mod k 100 ltac:(lia)). pose proof (Z.mod_pos_bound k 100 ltac:(lia)).
      pose proof (Z.div_mod (k mod 100) 10 ltac:(lia)). pose proof (Z.mod_pos_bound (k mod 100) 10 ltac:(lia)).
      exists [k / 100; k mod 100 / 10; k mod 100 mod 10]. split; [repeat constructor; lia|]. split; [done|].
      split; [unfold spell; cbn [fold_left]; lia|done]. }
  clear H. unfold span_exponent. rewrite bool_decide_true by auto.
  assert (Hs : span_sign (soa ((if decide (y < 0) then "-"%char else "+"%char) :: (char_of <$> l))) =
               (bool_decide (y < 0), soa (char_of <$> l))).
  { destruct (decide (y < 0)) as [Hy|Hy]; [rewrite bool_decide_true by done|rewrite bool_decide_false by done]; reflexivity. }
  rewrite Hs. rewrite <- (string_app_nil (soa _)). rewrite span_list by done. rewrite span_end.
  rewrite decide_False by (destruct l; [done|cbn; lia]). rewrite Hk'. f_equal. case_bool_decide; lia.
Qed.

(** The printed digits spell a decimal with the same value. *)
Lemma format_reads m e b x :
  digits_ok b -> vsize b <= 17 -> -400 <= x <= 400 -> b <> [] -> inside_boundaries m e (val b) x ->
  exists t n uf ex, format_buffer (char_of <$> rev b) x = Ok t /\
    span_number 10 "e" "E" (soa t) = Some (n, uf, ex, EmptyString) /\ inside_boundaries m e n (ex - uf) /\
    (exists d t', 0 <= d <= 9 /\ t = char_of d :: t') /\ ("."%char ∈ t \/ "e"%char ∈ t).
Proof.
  intros [Hr _] Hlen Hx Hne Hin. rewrite <- spell_rev in Hin. set (l := rev b) in *.
  assert (Hl : Forall (fun d => 0 <= d <= 9) l) by (unfold l; by apply Forall_rev).
  assert (Hln : l <> []) by (unfold l; intros E; apply Hne; rewrite <- (rev_involutive b), E; done).
  assert (Hlv : vsize (char_of <$> l) = vsize l) by (unfold vsize; by rewrite length_fmap).
  assert (Hl17 : 1 <= vsize l <= 17).
  { assert (vsize l = vsize b) as -> by (unfold l, vsize; by rewrite length_rev).
    split; [|done]. destruct b; [done|]. rewrite vsize_cons. pose proof (vsize_nonneg b). lia. }
  clearbody l. destruct l as [|d0 l0]; [done|]. pose proof (Forall_inv Hl) as Hd0.
  unfold format_buffer. rewrite Hlv. set (k := vsize (d0 :: l0)) in *. set (l := d0 :: l0) in *.
  case_decide as C1; [|case_decide as C2; [|case_decide as C3]].
  - set (z := Z.to_nat (k + x - k)).
    exists ((char_of <$> l) ++ replicate z "0"%char ++ ["."%char; "0"%char]), (spell ((l ++ replicate z 0) ++ [0]) 0), 1, 0.
    split; [done|]. split_and!.
    + assert (Et : soa ((char_of <$> l) ++ replicate z "0"%char ++ ["."%char; "0"%char]) =
        (soa (char_of <$> (l ++ replicate z 0)%list) +:+ String "." (soa (char_of <$> [0]) +:+ EmptyString))%string).
      { rewrite fmap_app, fmap_replicate, !soa_app, string_app_assoc. done. }
      rewrite Et. rewrite (span_pointed (l ++ replicate z 0) [0] EmptyString 0 EmptyString); [done|..].
      * intros [? _]%app_nil. done.
      * apply Forall_app. split; [done|]. apply Forall_replicate. lia.
      * repeat constructor; lia.
      * by left.
      * done.
    + rewrite !spell_app, spell_zeros. change (spell [0] ?n) with (n * 10 + 0).
      replace (spell l 0 * 10 ^ Z.of_nat z * 10 + 0) with (spell l 0 * 10 ^ (Z.of_nat z + 1)) by (rewrite Z.pow_add_r by lia; lia).
      replace (0 - 1) with (x - (Z.of_nat z + 1)) by lia. apply inside_shift; [lia|done].
    + by exists d0, ((char_of <$> l0) ++ replicate z "0"%char ++ ["."%char; "0"%char]).
    + left. set_solver.
  - set (z := Z.to_nat (k + x)).
    exists (take z (char_of <$> l) ++ ["."%char] ++ drop z (char_of <$> l)), (spell l 0), (vsize (drop z l)), 0.
    split; [done|]. assert (Hz : exists z', z = S z') by (exists (pred z); lia). destruct Hz as [z' Hz].
    split_and!.
    + assert (Et : soa (take z (char_of <$> l) ++ ["."%char] ++ drop z (char_of <$> l)) =
        (soa (char_of <$> take z l) +:+ String "." (soa (char_of <$> drop z l) +:+ EmptyString))%string).
      { rewrite <- fmap_take, <- fmap_drop, !soa_app, string_app_nil. done. }
      rewrite Et. rewrite (span_pointed (take z l) (drop z l) EmptyString 0 EmptyString); [by rewrite take_drop|..].
      * rewrite Hz. done.
      * by apply Forall_take.
      * by apply Forall_drop.
      * by left.
      * done.
    + replace (0 - vsize (drop z l)) with x; [done|]. unfold vsize in *. rewrite length_drop. fold k in C1, C2. lia.
    + exists d0, (take z' (char_of <$> l0) ++ ["."%char] ++ drop z' (char_of <$> l0)). split; [done|]. by rewrite Hz.
    + left. set_solver.
  - set (z := Z.to_nat (- (k + x))).
    exists (["0"%char; "."%char] ++ replicate z "0"%char ++ (char_of <$> l)), (spell ([0] ++ replicate z 0 ++ l) 0), (vsize (replicate z 0 ++ l)), 0.
    split; [done|]. split_and!.
    + assert (Et : soa (["0"%char; "."%char] ++ replicate z "0"%char ++ (char_of <$> l)) =
        (soa (char_of <$> [0]) +:+ String "." (soa (char_of <$> (replicate z 0 ++ l)%list) +:+ EmptyString))%string).
      { rewrite fmap_app, fmap_replicate, string_app_nil. done. }
      rewrite Et. rewrite (span_pointed [0] (replicate z 0 ++ l) EmptyString 0 EmptyString); [done|..].
      * done.
      * repeat constructor; lia.
      * apply Forall_app. split; [|done]. apply Forall_replicate. lia.
      * by left.
      * done.
    + rewrite !spell_app, spell_zeros. change (spell [0] 0) with 0. rewrite Z.mul_0_l.
      replace (0 - vsize (replicate z 0 ++ l)) with x; [done|]. rewrite vsize_app.
      unfold vsize at 1. rewrite length_replicate. fold k. lia.
    + exists 0. eexists. split; [lia|reflexivity].
    + left. set_solver.
  - assert (Hy : exists t, append_exponent (k + x - 1) = Ok t).
    { unfold append_exponent. asserted; [|lia]. asserted; [|lia]. eauto. }
    destruct Hy as (t & Ht). pose proof (span_exponent_text _ t Ht) as Hex. rewrite Ht. cbn [mbind outcome_bind].
    case_decide as C4.
    + exists ((char_of <$> l) ++ ["e"%char] ++ t), (spell l 0), 0, (k + x - 1). split; [done|]. split_and!.
      * rewrite soa_app. apply span_plain; [done|done| |done|done]. right. by exists "e"%char, (soa t).
      * by replace (k + x - 1 - 0) with x by lia.
      * by exists d0, ((char_of <$> l0) ++ ["e"%char] ++ t).
      * right. set_solver.
    + exists (take 1 (char_of <$> l) ++ ["."%char] ++ drop 1 (char_of <$> l) ++ ["e"%char] ++ t), (spell l 0), (vsize l0), (k + x - 1).
      split; [done|]. split_and!.
      * assert (Et : soa (take 1 (char_of <$> l) ++ ["."%char] ++ drop 1 (char_of <$> l) ++ ["e"%char] ++ t) =
          (soa (char_of <$> [d0]) +:+ String "." (soa (char_of <$> l0) +:+ String "e" (soa t)))%string).
        { rewrite !soa_app. done. }
        rewrite Et. rewrite (span_pointed [d0] l0 (String "e" (soa t)) (k + x - 1) EmptyString); [done|done| | | |done].
        -- constructor; [exact Hd0|constructor].
        -- exact (Forall_inv_tail Hl).
        -- right. by exists "e"%char, (soa t).
      * replace (k + x - 1 - vsize l0) with x; [done|]. unfold k, l. rewrite vsize_cons. lia.
      * by exists d0, (["."%char] ++ (char_of <$> l0) ++ ["e"%char] ++ t).
      * left. set_solver.
Qed.

(** ** The round trip *)
Lemma span_sign_digit d t : 0 <= d <= 9 -> span_sign (String (char_of d) t) = (false, String (char_of d) t).
Proof.
  intros Hd. assert (d = 0 \/ d = 1 \/ d = 2 \/ d = 3 \/ d = 4 \/ d = 5 \/ d = 6 \/ d = 7 \/ d = 8 \/ d = 9) as H by lia.
  by destruct_or! H; subst d.
Qed.

Definition finite (d : double) : Prop := match d with S754_zero _ | S754_finite _ _ _ => True | _ => False end.

(** The text of a finite double: a sign and a number that reads back. *)
Lemma to_chars_spec d :
  valid d -> finite d -> exists neg t v uf ex, to_chars d = Ok ((if neg : bool then ["-"%char] else []) ++ t) /\
    (exists c t', 0 <= c <= 9 /\ t = char_of c :: t') /\ ("."%char ∈ t \/ "e"%char ∈ t) /\
    span_number 10 "e" "E" (soa t) = Some (v, uf, ex, EmptyString) /\ decimal neg v (ex - uf) = d.
Proof.
  intros Hv Hf. destruct d as [s|s| |s m e]; try done; unfold to_chars.
  - exists s, ["0"%char; "."%char; "0"%char], 0, 1, 0. split; [done|]. split; [by exists 0, ["."%char; "0"%char]|].
    split; [left; set_solver|]. done.
  - destruct (grisu2_spec (Z.pos m) e Hv) as (b & x & -> & Hd & Hlen & Hx & Hin). cbn [mbind outcome_bind].
    asserted; [|done]. assert (Hb : b <> []).
    { intros ->. destruct Hin as [Hlo _]. cbn in Hlo. assert (0 <= low4 (Z.pos m) e).
      { destruct (low4_cases (Z.pos m) e) as [[-> _]| ->]; lia. }
      assert (H0 : (0 <= inject_Z (low4 (Z.pos m) e) * pw 2 (e - 2))%Q).
      { apply Qmult_le_0_compat; [|apply Qlt_le_weak, pw_pos; lia]. change 0%Q with (inject_Z 0). by apply inject_le. }
      change (inject_Z (val [])) with 0%Q in Hlo. rewrite Qmult_0_l in Hlo. by apply Qle_not_lt in H0. }
    destruct (format_reads (Z.pos m) e b x Hd Hlen Hx Hb Hin) as (t & n & uf & ex & -> & Hs & Hin' & Hhd & Hpt).
    cbn [mbind outcome_bind]. exists s, t, n, uf, ex. split; [done|]. split; [done|]. split; [done|]. split; [done|].
    rewrite (decimal_inside s (Z.pos m) e) by done. done.
Qed.

(** What a stream gets from such a text. *)
Lemma stream_text neg t v uf ex :
  (exists c t', 0 <= c <= 9 /\ t = char_of c :: t') -> span_number 10 "e" "E" (soa t) = Some (v, uf, ex, EmptyString) ->
  finite (decimal neg v (ex - uf)) ->
  stream_double (soa ((if neg : bool then ["-"%char] else []) ++ t)) = Some (decimal neg v (ex - uf)).
Proof.
  intros (c & t' & Hc & Ht) Hs Hf. unfold stream_double.
  assert (Hsign : span_sign (soa ((if neg then ["-"%char] else []) ++ t)) = (neg, soa t)).
  { destruct neg; [done|]. rewrite Ht. by apply span_sign_digit. }
  rewrite Hsign. unfold decimal_at. rewrite Hs. by destruct (decimal neg v (ex - uf)).
Qed.

(** C31. A double survives being printed and read.  The library of the statistics
    prints every finite number without a failed assertion, and an input stream
    that reads the text gets the very same number, negative zero and subnormal
    numbers included. *)
Theorem double_roundtrip (d : double) :
  valid d -> finite d -> exists t, to_chars d = Ok t /\ stream_double (soa t) = Some d.
Proof.
  intros Hv Hf. destruct (to_chars_spec d Hv Hf) as (neg & t & v & uf & ex & E & Hhd & _ & Hs & Hd).
  eexists. split; [exact E|]. rewrite (stream_text neg t v uf ex Hhd Hs), Hd; [done|]. by rewrite Hd.
Qed.

Lemma double_roundtrip_witness :
  exists t, to_chars (decimal true 299792458 (-3)) = Ok t /\ soa t = "-299792.458"%string /\
    stream_double (soa t) = Some (decimal true 299792458 (-3)).
Proof.
  destruct (double_roundtrip (decimal true 299792458 (-3))) as (t & E & H).
  - apply decimal_valid. lia.
  - vm_compute. exact I.
  - exists t. split; [exact E|]. split; [|exact H]. vm_compute in E. injection E as <-. reflexivity.
Defined.
