(* ===== verification/JsonReader.v ===== *)
(** * Reading JSON (src/jsoncpp.cc)

    The class [Json::Reader] with which [main] reads the statistics of the memory
    back, and the part of [Json::Value] that is used: construction, access to the
    members of an object and the conversions to numbers.  The document is a list of
    characters, [current_] the part that has not been read.  The features have
    their default values: comments are allowed and skipped, keys are strings.
    Comments kept with a value, offsets into the document and the places of errors
    are not modelled; an error is its message. *)

From stdpp Require Import base tactics list list_numbers numbers strings gmap.
From Stdlib Require Import ZArith Lia Ascii Floats.SpecFloat.
From S2P Require Import Prelude IniReader Double.

Notation soa := String.string_of_list_ascii.

(** ** Values *)
Inductive Value :=
  | nullValue
  | intValue (z : Z)
  | uintValue (z : Z)
  | realValue (d : double)
  | stringValue (s : string)
  | booleanValue (b : bool)
  | arrayValue (l : list Value)
  | objectValue (m : list (string * Value)).

(** [CZString::operator<]: byte by byte, a prefix before the longer string. *)
Definition key_lt (s t : string) : bool := match String.compare s t with Lt => true | _ => false end.

(** The members of an object are kept in the order of their names.
    [resolveReference] finds a member ... *)
Definition member {A} (m : list (string * A)) (key : string) : option A :=
  snd <$> list_find (fun kv => kv.1 = key) m ≫= fun p => Some p.2.

(** ... or inserts one; the value is then assigned. *)
Fixpoint assign {A} (m : list (string * A)) (key : string) (v : A) : list (string * A) :=
  match m with
  | [] => [(key, v)]
  | (k, w) :: m' =>
      if decide (k = key) then (key, v) :: m'
      else if key_lt key k then (key, v) :: m
      else (k, w) :: assign m' key v
  end.

(** [value[key]] where the value is not changed any more: a missing member is null. *)
Definition at_key (v : Value) (key : string) : outcome Value :=
  match v with
  | nullValue => Ok nullValue
  | objectValue m => Ok (default nullValue (member m key))
  | _ => Fault Thrown
  end.

Definition asDouble (v : Value) : outcome double :=
  match v with
  | intValue z | uintValue z => Ok (dof z)
  | realValue d => Ok d
  | nullValue => Ok (S754_zero false)
  | booleanValue b => Ok (if b then dof 1 else S754_zero false)
  | _ => Fault Thrown
  end.

Definition asFloat (v : Value) : outcome spec_float :=
  match v with
  | intValue z | uintValue z => Ok (binary_normalize 24 128 z 0 false)
  | realValue d => Ok (float_of d)
  | nullValue => Ok (S754_zero false)
  | booleanValue b => Ok (if b then binary_normalize 24 128 1 0 false else S754_zero false)
  | _ => Fault Thrown
  end.

(** ** Tokens *)
Inductive TokenType :=
  | tokenEndOfStream | tokenObjectBegin | tokenObjectEnd | tokenArrayBegin | tokenArrayEnd
  | tokenString | tokenNumber | tokenTrue | tokenFalse | tokenNull
  | tokenArraySeparator | tokenMemberSeparator | tokenComment | tokenError.

#[export] Instance TokenType_eq_dec : EqDecision TokenType.
Proof. solve_decision. Defined.

(** A token with the characters from [start_] to [end_]. *)
Record Token := mkToken { type_ : TokenType; text_ : list ascii }.

Definition NUL : ascii := "000".
Definition getNextChar (cur : list ascii) : ascii * list ascii :=
  match cur with [] => (NUL, []) | c :: cur => (c, cur) end.

Definition json_space (c : ascii) : bool := bool_decide (c = " "%char \/ c = "009"%char \/ c = "013"%char \/ c = "010"%char).

Fixpoint skipSpaces (cur : list ascii) : list ascii :=
  match cur with
  | c :: cur' => if json_space c then skipSpaces cur' else cur
  | [] => []
  end.

Definition is_digit (c : ascii) : bool := bool_decide (48 <= Z.of_N (Ascii.N_of_ascii c) <= 57).

(** [match(pattern, length)]: nothing is consumed when it fails. *)
Definition match_pattern (pattern cur : list ascii) : bool * list ascii :=
  if decide (take (length pattern) cur = pattern) then (true, drop (length pattern) cur) else (false, cur).

Fixpoint skip_digits (cur : list ascii) : list ascii :=
  match cur with
  | c :: cur' => if is_digit c then skip_digits cur' else cur
  | [] => []
  end.

(** [readNumber]: digits, a point and digits, an exponent and digits. *)
Definition readNumber (cur : list ascii) : list ascii :=
  let cur := skip_digits cur in
  let cur := match cur with "."%char :: cur => skip_digits cur | _ => cur end in
  match cur with
  | c :: cur' =>
      if bool_decide (c = "e"%char \/ c = "E"%char) then
        match cur' with
        | s :: cur'' => if bool_decide (s = "+"%char \/ s = "-"%char) then skip_digits cur'' else skip_digits cur'
        | [] => []
        end
      else cur
  | [] => []
  end.

(** The loop of [readString]; [c] is the last character read. *)
Fixpoint readString (c : ascii) (cur : list ascii) : bool * list ascii :=
  match cur with
  | [] => (bool_decide (c = "034"%char), [])
  | c :: cur =>
      if decide (c = "\"%char) then
        match cur with [] => (false, []) | _ :: cur => readString "\" cur end
      else if decide (c = "034"%char) then (true, cur)
      else readString c cur
  end.

(** [readCStyleComment]: up to the characters [*/]; the last character is not looked
    at in the loop. *)
Fixpoint readCStyleComment (cur : list ascii) : bool * list ascii :=
  match cur with
  | c :: (d :: _) as cur' =>
      if decide (c = "*"%char /\ d = "/"%char) then (true, tail cur') else readCStyleComment cur'
  | _ => let '(c, cur) := getNextChar cur in (bool_decide (c = "/"%char), cur)
  end.

Fixpoint readCppStyleComment (cur : list ascii) : list ascii :=
  match cur with
  | [] => []
  | c :: cur =>
      if decide (c = "010"%char) then cur
      else if decide (c = "013"%char) then match cur with "010"%char :: cur => cur | _ => cur end
      else readCppStyleComment cur
  end.

Definition readComment (cur : list ascii) : bool * list ascii :=
  let '(c, cur) := getNextChar cur in
  if decide (c = "*"%char) then readCStyleComment cur
  else if decide (c = "/"%char) then (true, readCppStyleComment cur)
  else (false, cur).

(** What follows the first character of a token: its type, whether it is well formed
    and where it ends. *)
Definition token_rest (c : ascii) (cur : list ascii) : TokenType * bool * list ascii :=
  if decide (c = "{"%char) then (tokenObjectBegin, true, cur)
  else if decide (c = "}"%char) then (tokenObjectEnd, true, cur)
  else if decide (c = "["%char) then (tokenArrayBegin, true, cur)
  else if decide (c = "]"%char) then (tokenArrayEnd, true, cur)
  else if decide (c = "034"%char) then let '(ok, cur) := readString NUL cur in (tokenString, ok, cur)
  else if decide (c = "/"%char) then let '(ok, cur) := readComment cur in (tokenComment, ok, cur)
  else if is_digit c || bool_decide (c = "-"%char) then (tokenNumber, true, readNumber cur)
  else if decide (c = "t"%char) then
    let '(ok, cur) := match_pattern ["r"%char; "u"%char; "e"%char] cur in (tokenTrue, ok, cur)
  else if decide (c = "f"%char) then
    let '(ok, cur) := match_pattern ["a"%char; "l"%char; "s"%char; "e"%char] cur in (tokenFalse, ok, cur)
  else if decide (c = "n"%char) then
    let '(ok, cur) := match_pattern ["u"%char; "l"%char; "l"%char] cur in (tokenNull, ok, cur)
  else if decide (c = ","%char) then (tokenArraySeparator, true, cur)
  else if decide (c = ":"%char) then (tokenMemberSeparator, true, cur)
  else if decide (c = NUL) then (tokenEndOfStream, true, cur)
  else (tokenError, false, cur).

Definition readToken (cur : list ascii) : bool * Token * list ascii :=
  let start := skipSpaces cur in
  let '(c, cur) := getNextChar start in
  let '(ty, ok, cur) := token_rest c cur in
  (ok, mkToken (if ok then ty else tokenError) (take (length start - length cur) start), cur).

(** Read on while the token is a comment. *)
Fixpoint skip_comments (fuel : nat) (ok : bool) (tok : Token) (cur : list ascii) : bool * Token * list ascii :=
  match fuel with
  | O => (ok, tok, cur)
  | S fuel =>
      if decide (type_ tok = tokenComment /\ ok = true) then
        let '(ok, tok, cur) := readToken cur in skip_comments fuel ok tok cur
      else (ok, tok, cur)
  end.

(** A token that is not a comment; a comment takes two characters at least. *)
Definition skipCommentTokens (cur : list ascii) : bool * Token * list ascii :=
  let '(ok, tok, cur') := readToken cur in skip_comments (length cur) ok tok cur'.

(** ** Decoding *)
(** A result, or the message of the error. *)
Notation decoded A := (A + string)%type.

Definition decodeDouble (text : list ascii) : decoded Value :=
  match stream_double (soa text) with
  | Some d => inl (realValue d)
  | None => inr ("'" +:+ soa text +:+ "' is not a number.")%string
  end.

(** The digits of an integer, up to [maxIntegerValue]; [None] when another character
    or an overflow shows up and the token is decoded as a double. *)
Fixpoint decode_digits (maxIntegerValue value : Z) (text : list ascii) : option Z :=
  match text with
  | [] => Some value
  | c :: text =>
      if negb (is_digit c) then None
      else
        let digit := Z.of_N (Ascii.N_of_ascii c) - 48 in
        let threshold := maxIntegerValue / 10 in
        if decide (threshold <= value /\ (threshold < value \/ text <> [] \/ maxIntegerValue mod 10 < digit)) then None
        else decode_digits maxIntegerValue (value * 10 + digit) text
  end.

Definition maxInt : Z := 2 ^ 31 - 1.

Definition decodeNumber (text : list ascii) : decoded Value :=
  let '(isNegative, body) := match text with "-"%char :: t => (true, t) | _ => (false, text) end in
  let maxIntegerValue := if (isNegative : bool) then 2 ^ 63 else 2 ^ 64 - 1 in
  match decode_digits maxIntegerValue 0 body with
  | None => decodeDouble text
  | Some value =>
      inl (if isNegative then intValue (- value)
           else if decide (value <= maxInt) then intValue value
           else uintValue value)
  end.

Definition byte (n : Z) : ascii := Ascii.ascii_of_N (Z.to_N (n mod 256)).

Definition codePointToUTF8 (cp : Z) : list ascii :=
  if decide (cp <= 0x7f) then [byte cp]
  else if decide (cp <= 0x7FF) then
    [byte (Z.lor 0xC0 (Z.land 0x1f (Z.shiftr cp 6))); byte (Z.lor 0x80 (Z.land 0x3f cp))]
  else if decide (cp <= 0xFFFF) then
    [byte (Z.lor 0xE0 (Z.land 0xf (Z.shiftr cp 12))); byte (Z.lor 0x80 (Z.land 0x3f (Z.shiftr cp 6)));
     byte (Z.lor 0x80 (Z.land 0x3f cp))]
  else if decide (cp <= 0x10FFFF) then
    [byte (Z.lor 0xF0 (Z.land 0x7 (Z.shiftr cp 18))); byte (Z.lor 0x80 (Z.land 0x3f (Z.shiftr cp 12)));
     byte (Z.lor 0x80 (Z.land 0x3f (Z.shiftr cp 6))); byte (Z.lor 0x80 (Z.land 0x3f cp))]
  else [].

(** Four hexadecimal digits. *)
Definition decodeUnicodeEscapeSequence (cur : list ascii) : decoded (Z * list ascii) :=
  match cur with
  | a :: b :: c :: d :: cur =>
      match digit_in 16 a, digit_in 16 b, digit_in 16 c, digit_in 16 d with
      | Some a, Some b, Some c, Some d => inl (((a * 16 + b) * 16 + c) * 16 + d, cur)
      | _, _, _, _ => inr "Bad unicode escape sequence in string: hexadecimal digit expected."%string
      end
  | _ => inr "Bad unicode escape sequence in string: four digits expected."%string
  end.

Definition decodeUnicodeCodePoint (cur : list ascii) : decoded (Z * list ascii) :=
  match decodeUnicodeEscapeSequence cur with
  | inr e => inr e
  | inl (unicode, cur) =>
      if decide (0xD800 <= unicode <= 0xDBFF) then
        if decide (length cur < 6)%nat then
          inr "additional six characters expected to parse unicode surrogate pair."%string
        else
          match cur with
          | "\"%char :: "u"%char :: cur =>
              match decodeUnicodeEscapeSequence cur with
              | inl (surrogatePair, cur) =>
                  inl (0x10000 + Z.shiftl (Z.land unicode 0x3FF) 10 + Z.land surrogatePair 0x3FF, cur)
              | inr e => inr e
              end
          | _ => inr "expecting another \u token to begin the second half of a unicode surrogate pair"%string
          end
      else inl (unicode, cur)
  end.

Definition simple_escape (c : ascii) : option ascii :=
  if decide (c = "034"%char \/ c = "/"%char \/ c = "\"%char) then Some c
  else if decide (c = "b"%char) then Some "008"%char
  else if decide (c = "f"%char) then Some "012"%char
  else if decide (c = "n"%char) then Some "010"%char
  else if decide (c = "r"%char) then Some "013"%char
  else if decide (c = "t"%char) then Some "009"%char
  else None.

(** The characters between the quotes; every round takes one at least. *)
Fixpoint decode_chars (fuel : nat) (cur : list ascii) : decoded (list ascii) :=
  match fuel with
  | O => inl []
  | S fuel =>
      let next (head : list ascii) (cur : list ascii) :=
        match decode_chars fuel cur with inl l => inl (head ++ l) | inr e => inr e end in
      match cur with
      | [] => inl []
      | c :: cur =>
          if decide (c = "034"%char) then inl []
          else if decide (c = "\"%char) then
            match cur with
            | [] => inr "Empty escape sequence in string"%string
            | escape :: cur =>
                match simple_escape escape with
                | Some x => next [x] cur
                | None =>
                    if decide (escape = "u"%char) then
                      match decodeUnicodeCodePoint cur with
                      | inl (cp, cur) => next (codePointToUTF8 cp) cur
                      | inr e => inr e
                      end
                    else inr "Bad escape sequence in string"%string
                end
            end
          else next [c] cur
      end
  end.

(** [decodeString] of a token with its quotes. *)
Definition decodeString (text : list ascii) : decoded string :=
  let body := take (length text - 2) (tail text) in
  match decode_chars (S (length body)) body with
  | inl l => inl (soa l)
  | inr e => inr e
  end.

(** ** The reader *)
(** [current_] and [errors_] *)
Record Reader := mkReader { current_ : list ascii; errors_ : list string }.

#[export] Instance Reader_fields : Fields Reader := fun r => mkReader (current_ r) (errors_ r).

Definition addError (message : string) (r : Reader) : Reader := r <| errors_ := errors_ r ++ [message] |>.

(** Skip tokens up to the given one or the end. *)
Fixpoint recover (fuel : nat) (skipUntil : TokenType) (cur : list ascii) : list ascii :=
  match fuel with
  | O => cur
  | S fuel =>
      let '(_, tok, cur) := readToken cur in
      if decide (type_ tok = skipUntil \/ type_ tok = tokenEndOfStream) then cur else recover fuel skipUntil cur
  end.

Definition recoverFromError (skipUntil : TokenType) (r : Reader) : Reader :=
  r <| current_ := recover (S (length (current_ r))) skipUntil (current_ r) |>.

Definition addErrorAndRecover (message : string) (skipUntil : TokenType) (r : Reader) : Reader :=
  recoverFromError skipUntil (addError message r).

Definition stackLimit : nat := 1000.

(** The value that was read into [currentValue()], and whether it was read without
    an error. *)
Definition parsed : Type := bool * Value * Reader.

Definition decode_into (v : Value) (d : decoded Value) (r : Reader) : parsed :=
  match d with inl v => (true, v, r) | inr e => (false, v, addError e r) end.

(** [readValue], and the loops of [readObject] and [readArray] over the members [m]
    or the elements [l] read so far; [nodes] is the size of the stack. *)
Fixpoint readValue (fuel : nat) (nodes : nat) (v : Value) (r : Reader) : outcome parsed :=
  match fuel with
  | O => Fault Undefined
  | S fuel =>
      if decide (stackLimit < nodes)%nat then Fault Thrown
      else
        let '(_, tok, cur) := skipCommentTokens (current_ r) in
        let r := r <| current_ := cur |> in
        match type_ tok with
        | tokenObjectBegin => readObject fuel nodes EmptyString [] r
        | tokenArrayBegin =>
            let r := r <| current_ := skipSpaces (current_ r) |> in
            match current_ r with
            | "]"%char :: cur => Ok (true, arrayValue [], r <| current_ := cur |>)
            | _ => readArray fuel nodes [] r
            end
        | tokenNumber => Ok (decode_into v (decodeNumber (text_ tok)) r)
        | tokenString =>
            Ok (decode_into v (match decodeString (text_ tok) with inl s => inl (stringValue s) | inr e => inr e end) r)
        | tokenTrue => Ok (true, booleanValue true, r)
        | tokenFalse => Ok (true, booleanValue false, r)
        | tokenNull => Ok (true, nullValue, r)
        | _ => Ok (false, v, addError "Syntax error: value, object or array expected." r)
        end
  end
with readObject (fuel : nat) (nodes : nat) (name : string) (m : list (string * Value)) (r : Reader) : outcome parsed :=
  match fuel with
  | O => Fault Undefined
  | S fuel =>
      let '(ok, tok, cur) := skipCommentTokens (current_ r) in
      let r := r <| current_ := cur |> in
      let stop := (false, objectValue m, addErrorAndRecover "Missing '}' or object member name" tokenObjectEnd r) in
      if negb ok then Ok stop
      else if decide (type_ tok = tokenObjectEnd /\ name = EmptyString) then Ok (true, objectValue m, r)
      else if decide (type_ tok = tokenString) then
        match decodeString (text_ tok) with
        | inr e => Ok (false, objectValue m, recoverFromError tokenObjectEnd (addError e r))
        | inl name =>
            let '(ok, colon, cur) := readToken (current_ r) in
            let r := r <| current_ := cur |> in
            if negb ok || bool_decide (type_ colon <> tokenMemberSeparator) then
              Ok (false, objectValue m, addErrorAndRecover "Missing ':' after object member name" tokenObjectEnd r)
            else
              '(ok, v, r) ← readValue fuel (S nodes) (default nullValue (member m name)) r;
              let m := assign m name v in
              if negb (ok : bool) then Ok (false, objectValue m, recoverFromError tokenObjectEnd r)
              else
                let '(ok, comma, cur) := readToken (current_ r) in
                let r' := r <| current_ := cur |> in
                if negb ok || bool_decide (type_ comma ∉ [tokenObjectEnd; tokenArraySeparator; tokenComment]) then
                  Ok (false, objectValue m, addErrorAndRecover "Missing ',' or '}' in object declaration" tokenObjectEnd r')
                else
                  let '(ok, comma, cur) := skip_comments (length (current_ r)) ok comma cur in
                  let r := r <| current_ := cur |> in
                  if decide (type_ comma = tokenObjectEnd) then Ok (true, objectValue m, r)
                  else readObject fuel nodes name m r
        end
      else Ok stop
  end
with readArray (fuel : nat) (nodes : nat) (l : list Value) (r : Reader) : outcome parsed :=
  match fuel with
  | O => Fault Undefined
  | S fuel =>
      '(ok, v, r) ← readValue fuel (S nodes) nullValue r;
      let l := l ++ [v] in
      if negb (ok : bool) then Ok (false, arrayValue l, recoverFromError tokenArrayEnd r)
      else
        let '(ok, tok, cur) := skipCommentTokens (current_ r) in
        let r := r <| current_ := cur |> in
        if negb ok || bool_decide (type_ tok ∉ [tokenArraySeparator; tokenArrayEnd]) then
          Ok (false, arrayValue l, addErrorAndRecover "Missing ',' or ']' in array declaration" tokenArrayEnd r)
        else if decide (type_ tok = tokenArrayEnd) then Ok (true, arrayValue l, r)
        else readArray fuel nodes l r
  end.

(** [parse(document, root)]: whether it succeeded, the value, and the messages. *)
Definition parse (document : list ascii) (root : Value) : outcome (bool * Value * list string) :=
  '(ok, v, r) ← readValue (2 * length document + 3) 1 root (mkReader document []);
  Ok (ok, v, errors_ r).

(** ** Reading consumes the document from the front *)
Lemma skipSpaces_suffix cur : skipSpaces cur `suffix_of` cur.
Proof. induction cur as [|c cur IH]; [done|]. cbn. destruct (json_space c); [by apply suffix_cons_r|done]. Qed.

Lemma skip_digits_suffix cur : skip_digits cur `suffix_of` cur.
Proof. induction cur as [|c cur IH]; [done|]. cbn. destruct (is_digit c); [by apply suffix_cons_r|done]. Qed.

Lemma readString_suffix c cur : (readString c cur).2 `suffix_of` cur.
Proof.
  revert c. induction cur as [cur IH] using (induction_ltof1 _ (@length ascii)); unfold ltof in IH. intros c.
  destruct cur as [|x cur]; [done|]. cbn [readString]. case_decide.
  - destruct cur as [|y cur]; [by apply suffix_cons_r|]. apply suffix_cons_r, suffix_cons_r. apply IH. cbn. lia.
  - case_decide; [by apply suffix_cons_r|]. apply suffix_cons_r, IH. cbn. lia.
Qed.

Lemma readCStyleComment_suffix cur : (readCStyleComment cur).2 `suffix_of` cur.
Proof.
  induction cur as [|c cur IH]; [done|]. destruct cur as [|d cur]; [by apply suffix_cons_r|].
  cbn [readCStyleComment]. case_decide; [by apply suffix_cons_r, suffix_cons_r|]. by apply suffix_cons_r.
Qed.

Lemma readCppStyleComment_suffix cur : readCppStyleComment cur `suffix_of` cur.
Proof.
  induction cur as [|c cur IH]; [done|]. cbn [readCppStyleComment]. case_decide; [by apply suffix_cons_r|].
  case_decide; [|by apply suffix_cons_r]. apply suffix_cons_r. destruct cur as [|d cur]; [done|].
  destruct d as [[] [] [] [] [] [] [] []]; done.
Qed.

Lemma readComment_suffix cur : (readComment cur).2 `suffix_of` cur.
Proof.
  unfold readComment. destruct cur as [|c cur]; [done|]. cbn [getNextChar].
  case_decide; [by apply suffix_cons_r, readCStyleComment_suffix|].
  case_decide; [by apply suffix_cons_r, readCppStyleComment_suffix|by apply suffix_cons_r].
Qed.

Lemma readNumber_suffix cur : readNumber cur `suffix_of` cur.
Proof.
  unfold readNumber. set (cur1 := skip_digits cur). assert (H1 : cur1 `suffix_of` cur) by apply skip_digits_suffix.
  set (cur2 := match cur1 with "."%char :: cur0 => skip_digits cur0 | _ => cur1 end).
  assert (H2 : cur2 `suffix_of` cur).
  { etrans; [|exact H1]. unfold cur2. destruct cur1 as [|d l]; [done|]. destruct d as [[] [] [] [] [] [] [] []]; try done.
    apply suffix_cons_r, skip_digits_suffix. }
  clearbody cur2. etrans; [|exact H2]. destruct cur2 as [|c l]; [done|]. case_bool_decide; [|done].
  destruct l as [|s l]; [by apply suffix_cons_r|]. apply suffix_cons_r. case_bool_decide; [|apply skip_digits_suffix].
  apply suffix_cons_r, skip_digits_suffix.
Qed.

Lemma match_pattern_suffix p cur : (match_pattern p cur).2 `suffix_of` cur.
Proof. unfold match_pattern. case_decide; [|done]. apply suffix_drop. Qed.

Lemma token_rest_suffix c cur : (token_rest c cur).2 `suffix_of` cur.
Proof.
  unfold token_rest. destruct (is_digit c || _); repeat case_decide; try done; try apply readNumber_suffix;
    match goal with
    | |- context [readString ?x ?l] => pose proof (readString_suffix x l); by destruct (readString x l)
    | |- context [readComment ?l] => pose proof (readComment_suffix l); by destruct (readComment l)
    | |- context [match_pattern ?p ?l] => pose proof (match_pattern_suffix p l); by destruct (match_pattern p l)
    end.
Qed.

(** A token takes a character, unless the document is at its end. *)
Lemma readToken_spec cur ok tok cur' :
  readToken cur = (ok, tok, cur') ->
  cur' `suffix_of` cur /\
  ((skipSpaces cur = [] /\ ok = true /\ type_ tok = tokenEndOfStream /\ cur' = []) \/
   exists c l, skipSpaces cur = c :: l /\ cur' `suffix_of` l /\ token_rest c l = (if ok then type_ tok else (token_rest c l).1.1, ok, cur')).
Proof.
  unfold readToken. intros H. pose proof (skipSpaces_suffix cur) as Hs.
  destruct (skipSpaces cur) as [|c l]; cbn [getNextChar] in H.
  - vm_compute in H. injection H as <- <- <-. split; [apply suffix_nil|]. by left.
  - pose proof (token_rest_suffix c l) as Hl. destruct (token_rest c l) as [[ty k] l'] eqn:E.
    injection H as <- <- <-. cbn in Hl. split; [etrans; [exact Hl|]; etrans; [|exact Hs]; by apply suffix_cons_r|].
    right. exists c, l. split; [done|]. split; [done|]. rewrite E. by destruct k.
Qed.

(** ** Every document is read to an end *)
Definition opener (c : ascii) : Prop := c = "{"%char \/ c = "["%char.
Definition opens (l : list ascii) : nat := length (filter opener l).

Lemma opens_suffix l l' : l `suffix_of` l' -> (opens l <= opens l')%nat.
Proof. intros [k ->]. unfold opens. rewrite filter_app, length_app. lia. Qed.

Lemma token_rest_open c l ty l' :
  token_rest c l = (ty, true, l') -> ty = tokenObjectBegin \/ ty = tokenArrayBegin -> opener c.
Proof.
  unfold token_rest, opener. intros H Hty. destruct (is_digit c || bool_decide (c = "-"%char)); repeat case_decide;
    try (by auto);
    repeat match goal with H : (let '(_, _) := ?x in _) = _ |- _ => destruct x end;
    simplify_eq; by destruct Hty.
Qed.

(** What reading a token from somewhere in the rest of the document means. *)
Record token_read (cur : list ascii) (ok : bool) (tok : Token) (cur' : list ascii) : Prop := {
  tr_suffix : cur' `suffix_of` cur;
  tr_shorter : type_ tok <> tokenEndOfStream -> (length cur' < length cur)%nat;
  tr_open : type_ tok = tokenObjectBegin \/ type_ tok = tokenArrayBegin -> (opens cur' < opens cur)%nat
}.

Lemma readToken_read cur ok tok cur' : readToken cur = (ok, tok, cur') -> token_read cur ok tok cur'.
Proof.
  intros H. destruct (readToken_spec _ _ _ _ H) as [Hs [(_ & _ & Ht & _)|(c & l & El & Hl & Ec)]].
  - split; [done|by intros []|rewrite Ht; by intros [|]].
  - pose proof (skipSpaces_suffix cur) as Hsp. rewrite El in Hsp. split; [done| |].
    + intros _. apply suffix_length in Hl, Hsp. cbn in Hsp. lia.
    + intros Ht. assert (Ho : opener c).
      { destruct ok; [by apply (token_rest_open c l (type_ tok) cur')|]. exfalso. unfold readToken in H. rewrite El in H.
        cbn [getNextChar] in H. destruct (token_rest c l) as [[ty k] l']. injection H as -> <- _. cbn in Ht. by destruct Ht. }
      apply opens_suffix in Hl, Hsp. unfold opens in *. rewrite filter_cons_True in Hsp by done. cbn in Hsp. lia.
Qed.

Lemma token_read_suffix mid cur ok tok cur' :
  mid `suffix_of` cur -> token_read mid ok tok cur' -> token_read cur ok tok cur'.
Proof.
  intros Hm [H1 H2 H3]. pose proof (suffix_length _ _ Hm). pose proof (opens_suffix _ _ Hm).
  split; [by etrans|intros Ht; specialize (H2 Ht); lia|intros Ht; specialize (H3 Ht); lia].
Qed.

Lemma skip_comments_read fuel : forall cur0 ok tok cur ok' tok' cur',
  token_read cur0 ok tok cur -> skip_comments fuel ok tok cur = (ok', tok', cur') -> token_read cur0 ok' tok' cur'.
Proof.
  induction fuel as [|fuel IH]; intros cur0 ok tok cur ok' tok' cur' Hr H; cbn [skip_comments] in H; [by simplify_eq|].
  case_decide; [|by simplify_eq]. destruct (readToken cur) as [[ok1 tok1] cur1] eqn:E.
  apply (IH cur0 ok1 tok1 cur1); [|done]. apply (token_read_suffix cur); [apply Hr|by apply readToken_read].
Qed.

Lemma skipCommentTokens_read cur ok tok cur' : skipCommentTokens cur = (ok, tok, cur') -> token_read cur ok tok cur'.
Proof.
  unfold skipCommentTokens. destruct (readToken cur) as [[ok1 tok1] cur1] eqn:E. intros H.
  by apply (skip_comments_read (length cur) cur ok1 tok1 cur1); [apply readToken_read|].
Qed.

Lemma recover_suffix fuel : forall ty cur, recover fuel ty cur `suffix_of` cur.
Proof.
  induction fuel as [|fuel IH]; intros ty cur; cbn [recover]; [done|].
  destruct (readToken cur) as [[ok tok] cur'] eqn:E. apply readToken_read in E as [Hs _ _].
  case_decide; [done|]. etrans; [apply IH|done].
Qed.

(** The result of reading a value, the members of an object or the elements of an
    array: a part of the document is consumed, messages are added exactly when it
    failed, and it is left by an exception only if [safe] does not hold. *)
Definition reads (r : Reader) (safe : Prop) (o : outcome parsed) : Prop :=
  match o with
  | Fault f => f = Thrown /\ ~ safe
  | Ok (ok, _, r') =>
      current_ r' `suffix_of` current_ r /\ exists es, errors_ r' = errors_ r ++ es /\ (ok = true <-> es = [])
  end.

Lemma reads_good r safe v r' :
  current_ r' `suffix_of` current_ r -> errors_ r' = errors_ r -> reads r safe (Ok (true, v, r')).
Proof. intros Hs He. split; [done|]. exists []. by rewrite app_nil_r. Qed.

Lemma reads_error r safe v r' e es :
  current_ r' `suffix_of` current_ r -> errors_ r' = errors_ r ++ es ++ [e] -> reads r safe (Ok (false, v, r')).
Proof. intros Hs He. split; [done|]. exists (es ++ [e]). split; [done|]. split; [done|]. intros [_ ?]%app_nil. done. Qed.

(** Recovering keeps the messages. *)
Lemma reads_recover r safe v r' ty es :
  current_ r' `suffix_of` current_ r -> errors_ r' = errors_ r ++ es -> es <> [] ->
  reads r safe (Ok (false, v, recoverFromError ty r')).
Proof.
  intros Hs He Hne. split; [etrans; [apply recover_suffix|done]|]. exists es. simpl. split; [done|]. by split.
Qed.

Lemma reads_suffix r r1 (safe safe1 : Prop) o :
  current_ r1 `suffix_of` current_ r -> errors_ r1 = errors_ r -> (safe -> safe1) -> reads r1 safe1 o -> reads r safe o.
Proof.
  intros Hs He Hsafe. destruct o as [[[ok v] r']|f]; cbn; [|intros [? ?]; split; [done|]; auto].
  intros [H1 (es & H2 & H3)]. split; [by etrans|]. exists es. by rewrite <- He.
Qed.

Definition shallow (nodes : nat) (r : Reader) : Prop := (nodes + opens (current_ r) <= stackLimit)%nat.

Lemma decode_into_reads r safe v d : reads r safe (Ok (decode_into v d r)).
Proof. destruct d as [w|e]; [by apply reads_good|]. by apply (reads_error _ _ _ _ e []). Qed.

(** Enough fuel: two rounds per character that is left. *)
Section reading.
Context (fuel : nat).
Context (IHv : forall nodes v r, (2 * length (current_ r) < fuel)%nat -> reads r (shallow nodes r) (readValue fuel nodes v r)).
Context (IHo : forall nodes name m r, (2 * length (current_ r) + 1 < fuel)%nat ->
  reads r (shallow (S nodes) r) (readObject fuel nodes name m r)).
Context (IHa : forall nodes l r, (2 * length (current_ r) + 1 < fuel)%nat ->
  reads r (shallow (S nodes) r) (readArray fuel nodes l r)).

Lemma readValue_step nodes v r :
  (2 * length (current_ r) < S fuel)%nat -> reads r (shallow nodes r) (readValue (S fuel) nodes v r).
Proof.
  intros Hf. cbn [readValue]. unfold shallow.
  destruct (decide (stackLimit < nodes)%nat) as [Hd|Hd]; [split; [done|lia]|].
  destruct (skipCommentTokens (current_ r)) as [[ok tok] cur] eqn:E. apply skipCommentTokens_read in E as [Hs Hsh Hop].
  assert (Hle := suffix_length _ _ Hs).
  destruct (type_ tok) eqn:Et; try (apply reads_good; [exact Hs|done]);
    try (apply (reads_error _ _ _ _ "Syntax error: value, object or array expected."%string []); [exact Hs|done]).
  - specialize (Hsh ltac:(done)). specialize (Hop ltac:(by left)).
    apply (reads_suffix r (r <| current_ := cur |>) _ (shallow (S nodes) (r <| current_ := cur |>))); [done|done| |].
    + unfold shallow. simpl. lia.
    + apply IHo. simpl. lia.
  - specialize (Hsh ltac:(done)). specialize (Hop ltac:(by right)). simpl.
    pose proof (skipSpaces_suffix cur) as Hsp. pose proof (suffix_length _ _ Hsp) as Hspl.
    pose proof (opens_suffix _ _ Hsp) as Hspo.
    assert (Harr : reads r (shallow nodes r) (readArray fuel nodes [] (r <| current_ := skipSpaces cur |>))).
    { apply (reads_suffix r (r <| current_ := skipSpaces cur |>) _ (shallow (S nodes) (r <| current_ := skipSpaces cur |>)));
        [by etrans|done| |].
      + unfold shallow. simpl. lia.
      + apply IHa. simpl. lia. }
    unfold shallow in Harr. simpl in Harr.
    destruct (skipSpaces cur) as [|c l]; [exact Harr|]. assert (Hl : l `suffix_of` current_ r).
    { etrans; [by apply (suffix_cons_r l l c)|]. by etrans. }
    destruct c as [[] [] [] [] [] [] [] []]; try exact Harr. by apply reads_good.
  - apply (reads_suffix r (r <| current_ := cur |>) _ True); [done|done|done|]. apply decode_into_reads.
  - apply (reads_suffix r (r <| current_ := cur |>) _ True); [done|done|done|]. apply decode_into_reads.
Qed.

Lemma readObject_step nodes name m r :
  (2 * length (current_ r) + 1 < S fuel)%nat -> reads r (shallow (S nodes) r) (readObject (S fuel) nodes name m r).
Proof.
  intros Hf. cbn [readObject].
  destruct (skipCommentTokens (current_ r)) as [[ok tok] cur] eqn:E. apply skipCommentTokens_read in E as [Hs Hsh _].
  assert (Hstop : reads r (shallow (S nodes) r)
    (Ok (false, objectValue m, addErrorAndRecover "Missing '}' or object member name" tokenObjectEnd (r <| current_ := cur |>)))).
  { unfold addErrorAndRecover. by apply (reads_recover _ _ _ _ _ ["Missing '}' or object member name"%string]). }
  destruct ok; cbn [negb]; [|exact Hstop].
  case_decide as Hend; [by apply reads_good|]. case_decide as Hstr; [|exact Hstop].
  rewrite Hstr in Hsh. specialize (Hsh ltac:(done)).
  destruct (decodeString (text_ tok)) as [nm|e]; [|by apply (reads_recover _ _ _ _ _ [e])].
  simpl. destruct (readToken cur) as [[ok1 colon] cur1] eqn:E1. apply readToken_read in E1 as [Hs1 Hsh1 _].
  assert (Hs1r : cur1 `suffix_of` current_ r) by (by etrans).
  destruct (negb ok1 || _).
  { unfold addErrorAndRecover. by apply (reads_recover _ _ _ _ _ ["Missing ':' after object member name"%string]). }
  pose proof (suffix_length _ _ Hs1) as Hl1. pose proof (opens_suffix _ _ Hs1r) as Ho1.
  assert (Hf1 : (2 * length cur1 < fuel)%nat) by lia.
  pose proof (IHv (S nodes) (default nullValue (member m nm)) (r <| current_ := cur1 |>) Hf1) as Hv.
  simpl in Hv. destruct (readValue fuel (S nodes) _ _) as [[[ok2 v] r2]|f]; cbn [mbind outcome_bind].
  2: { destruct Hv as [-> Hns]. split; [done|]. unfold shallow in *. simpl in Hns. lia. }
  destruct Hv as [Hs2 (es & He2 & Hok2)]. simpl in Hs2, He2.
  assert (Hs2r : current_ r2 `suffix_of` current_ r) by (by etrans).
  destruct ok2; cbn [negb]; [|apply (reads_recover _ _ _ _ _ es); [done|done|]; by intros Hes%Hok2].
  assert (es = []) as -> by (by apply Hok2). rewrite app_nil_r in He2.
  destruct (readToken (current_ r2)) as [[ok3 comma] cur3] eqn:E3. pose proof (readToken_read _ _ _ _ E3) as T3.
  assert (Hs3r : cur3 `suffix_of` current_ r) by (etrans; [apply T3|done]).
  destruct (negb ok3 || _).
  { unfold addErrorAndRecover. apply (reads_recover _ _ _ _ _ ["Missing ',' or '}' in object declaration"%string]); [done| |done].
    simpl. by rewrite He2. }
  destruct (skip_comments (length (current_ r2)) ok3 comma cur3) as [[ok4 comma4] cur4] eqn:E4.
  pose proof (skip_comments_read _ _ _ _ _ _ _ _ T3 E4) as [Hs4 _ _].
  assert (Hs4r : cur4 `suffix_of` current_ r) by (by etrans).
  case_decide; [by apply reads_good|].
  apply (reads_suffix r (r2 <| current_ := cur4 |>) _ (shallow (S nodes) (r2 <| current_ := cur4 |>))); [done|done| |].
  - pose proof (opens_suffix _ _ Hs4r). unfold shallow. simpl. lia.
  - apply IHo. simpl. pose proof (suffix_length _ _ Hs4). pose proof (suffix_length _ _ Hs2). lia.
Qed.

Lemma readArray_step nodes l r :
  (2 * length (current_ r) + 1 < S fuel)%nat -> reads r (shallow (S nodes) r) (readArray (S fuel) nodes l r).
Proof.
  intros Hf. cbn [readArray]. pose proof (IHv (S nodes) nullValue r ltac:(lia)) as Hv.
  destruct (readValue fuel (S nodes) nullValue r) as [[[ok v] r2]|f]; cbn [mbind outcome_bind]; [|exact Hv].
  destruct Hv as [Hs2 (es & He2 & Hok2)].
  destruct ok; cbn [negb]; [|apply (reads_recover _ _ _ _ _ es); [done|done|]; by intros Hes%Hok2].
  assert (es = []) as -> by (by apply Hok2). rewrite app_nil_r in He2.
  destruct (skipCommentTokens (current_ r2)) as [[ok tok] cur] eqn:E. apply skipCommentTokens_read in E as [Hs Hsh _].
  assert (Hsr : cur `suffix_of` current_ r) by (by etrans).
  destruct (negb ok || bool_decide _) eqn:Eok.
  { unfold addErrorAndRecover. apply (reads_recover _ _ _ _ _ ["Missing ',' or ']' in array declaration"%string]); [done| |done].
    simpl. by rewrite He2. }
  apply orb_false_iff in Eok as [_ Hty%bool_decide_eq_false]. case_decide as Hend; [by apply reads_good|].
  specialize (Hsh ltac:(intros Ht; apply Hty; rewrite Ht; set_solver)).
  apply (reads_suffix r (r2 <| current_ := cur |>) _ (shallow (S nodes) (r2 <| current_ := cur |>))); [done|done| |].
  - pose proof (opens_suffix _ _ Hsr). unfold shallow. simpl. lia.
  - apply IHa. simpl. pose proof (suffix_length _ _ Hs2). lia.
Qed.
End reading.

Lemma reader_total fuel :
  (forall nodes v r, (2 * length (current_ r) < fuel)%nat -> reads r (shallow nodes r) (readValue fuel nodes v r)) /\
  (forall nodes name m r, (2 * length (current_ r) + 1 < fuel)%nat ->
     reads r (shallow (S nodes) r) (readObject fuel nodes name m r)) /\
  (forall nodes l r, (2 * length (current_ r) + 1 < fuel)%nat -> reads r (shallow (S nodes) r) (readArray fuel nodes l r)).
Proof.
  induction fuel as [|fuel (IHv & IHo & IHa)]; [split_and!; intros; lia|].
  split_and!; intros; [by apply readValue_step|by apply readObject_step|by apply readArray_step].
Qed.

