(* ===== verification/JsonWriter.v ===== *)
(** * Writing JSON (DRAMsim3/ext/headers/json.hpp)

    The values and the serializer of the library that writes the statistics, for
    [out << value] with the default width: no indentation, no escapes for
    characters beyond ASCII, an exception for text that is not UTF-8.  Floating-point
    numbers are printed by [Grisu.to_chars]. *)

From stdpp Require Import base tactics list list_numbers numbers strings gmap.
From Stdlib Require Import ZArith Lia Ascii Floats.SpecFloat.
From S2P Require Import Prelude IniReader Double Grisu JsonReader.

(** ** Values *)
Inductive Json :=
  | JNull
  | JBoolean (b : bool)
  | JInteger (z : Z)
  | JUnsigned (z : Z)
  | JFloat (d : double)
  | JString (s : string)
  | JArray (l : list Json)
  | JObject (m : list (string * Json)).

(** [j[key] = v]: the members are a [std::map]; null becomes an object. *)
Definition json_set (j : Json) (key : string) (v : Json) : outcome Json :=
  match j with
  | JNull => Ok (JObject [(key, v)])
  | JObject m => Ok (JObject (assign m key v))
  | _ => Fault Thrown
  end.

(** ** Numbers *)
Fixpoint count_digits_loop (fuel : nat) (n_digits x : Z) : Z :=
  match fuel with
  | O => n_digits
  | S fuel =>
      if decide (x < 10) then n_digits
      else if decide (x < 100) then n_digits + 1
      else if decide (x < 1000) then n_digits + 2
      else if decide (x < 10000) then n_digits + 3
      else count_digits_loop fuel (n_digits + 4) (x / 10000)
  end.

(** Five rounds are enough for 64 bits. *)
Definition count_digits (x : Z) : Z := count_digits_loop 5 1 x.

(** The digits from the back, two at a time, in front of [acc]. *)
Fixpoint digit_pairs (fuel : nat) (x : Z) (acc : list ascii) : list ascii :=
  match fuel with
  | O => acc
  | S fuel =>
      if decide (100 <= x) then digit_pairs fuel (x / 100) (char_of (x mod 100 / 10) :: char_of (x mod 100 mod 10) :: acc)
      else if decide (10 <= x) then char_of (x / 10) :: char_of (x mod 10) :: acc
      else char_of x :: acc
  end.

(** [dump_integer]: the digits are written from the position [n_chars] of the buffer
    backwards; if they did not end at its start, unwritten characters would be
    printed. *)
Definition dump_integer (x : Z) : outcome (list ascii) :=
  if decide (x = 0) then Ok ["0"%char]
  else
    let abs_value := Z.abs x in
    let n_chars := (if decide (x < 0) then 1 else 0) + count_digits abs_value in
    if decide (63 <= n_chars) then Fault AssertFailed
    else
      let text := (if decide (x < 0) then ["-"%char] else []) ++ digit_pairs 10 abs_value [] in
      if decide (vsize text = n_chars) then Ok text else Fault Undefined.

Definition dump_float (d : double) : outcome (list ascii) :=
  match d with
  | S754_infinity _ | S754_nan => Ok ["n"%char; "u"%char; "l"%char; "l"%char]
  | _ => to_chars d
  end.

(** ** Strings *)
Definition utf8d : list Z := [
  0; 0; 0; 0; 0; 0; 0; 0; 0; 0; 0; 0; 0; 0; 0; 0; 0; 0; 0; 0; 0; 0; 0; 0; 0; 0; 0; 0; 0; 0; 0; 0;
  0; 0; 0; 0; 0; 0; 0; 0; 0; 0; 0; 0; 0; 0; 0; 0; 0; 0; 0; 0; 0; 0; 0; 0; 0; 0; 0; 0; 0; 0; 0; 0;
  0; 0; 0; 0; 0; 0; 0; 0; 0; 0; 0; 0; 0; 0; 0; 0; 0; 0; 0; 0; 0; 0; 0; 0; 0; 0; 0; 0; 0; 0; 0; 0;
  0; 0; 0; 0; 0; 0; 0; 0; 0; 0; 0; 0; 0; 0; 0; 0; 0; 0; 0; 0; 0; 0; 0; 0; 0; 0; 0; 0; 0; 0; 0; 0;
  1; 1; 1; 1; 1; 1; 1; 1; 1; 1; 1; 1; 1; 1; 1; 1; 9; 9; 9; 9; 9; 9; 9; 9; 9; 9; 9; 9; 9; 9; 9; 9;
  7; 7; 7; 7; 7; 7; 7; 7; 7; 7; 7; 7; 7; 7; 7; 7; 7; 7; 7; 7; 7; 7; 7; 7; 7; 7; 7; 7; 7; 7; 7; 7;
  8; 8; 2; 2; 2; 2; 2; 2; 2; 2; 2; 2; 2; 2; 2; 2; 2; 2; 2; 2; 2; 2; 2; 2; 2; 2; 2; 2; 2; 2; 2; 2;
  10; 3; 3; 3; 3; 3; 3; 3; 3; 3; 3; 3; 3; 4; 3; 3; 11; 6; 6; 6; 5; 8; 8; 8; 8; 8; 8; 8; 8; 8; 8; 8;
  0; 1; 2; 3; 5; 8; 7; 1; 1; 1; 4; 6; 1; 1; 1; 1; 1; 1; 1; 1; 1; 1; 1; 1; 1; 1; 1; 1; 1; 1; 1; 1;
  1; 0; 1; 1; 1; 1; 1; 0; 1; 0; 1; 1; 1; 1; 1; 1; 1; 2; 1; 1; 1; 1; 1; 2; 1; 2; 1; 1; 1; 1; 1; 1;
  1; 1; 1; 1; 1; 1; 1; 2; 1; 1; 1; 1; 1; 1; 1; 1; 1; 2; 1; 1; 1; 1; 1; 1; 1; 2; 1; 1; 1; 1; 1; 1;
  1; 1; 1; 1; 1; 1; 1; 3; 1; 3; 1; 1; 1; 1; 1; 1; 1; 3; 1; 1; 1; 1; 1; 3; 1; 3; 1; 1; 1; 1; 1; 1;
  1; 3; 1; 1; 1; 1; 1; 1; 1; 1; 1; 1; 1; 1; 1; 1
].

Definition UTF8_ACCEPT : Z := 0.
Definition UTF8_REJECT : Z := 1.

(** [decode(state, codep, byte)]: the new state and the new code point. *)
Definition decode (state codep byte : Z) : outcome (Z * Z) :=
  type ← vget utf8d byte;
  let codep :=
    if decide (state <> UTF8_ACCEPT) then Z.lor (Z.land byte 0x3f) (Z.shiftl codep 6 mod 2 ^ 32)
    else Z.land (Z.shiftr 0xff type) byte in
  state ← vget utf8d (256 + state * 16 + type);
  Ok (state, codep).

Definition hex_char (n : Z) : ascii := if decide (n < 10) then char_of n else Ascii.ascii_of_N (Z.to_N (87 + n)).

(** The characters written for an accepted code point whose last byte is [c]. *)
Definition escaped (codepoint : Z) (c : ascii) : list ascii :=
  if decide (codepoint = 0x08) then ["\"%char; "b"%char]
  else if decide (codepoint = 0x09) then ["\"%char; "t"%char]
  else if decide (codepoint = 0x0A) then ["\"%char; "n"%char]
  else if decide (codepoint = 0x0C) then ["\"%char; "f"%char]
  else if decide (codepoint = 0x0D) then ["\"%char; "r"%char]
  else if decide (codepoint = 0x22) then ["\"%char; "034"%char]
  else if decide (codepoint = 0x5C) then ["\"%char; "\"%char]
  else if decide (codepoint <= 0x1F) then
    ["\"%char; "u"%char; "0"%char; "0"%char; hex_char (codepoint / 16); hex_char (codepoint mod 16)]
  else [c].

Fixpoint dump_escaped (state codepoint : Z) (s : list ascii) : outcome (list ascii) :=
  match s with
  | [] => if decide (state = UTF8_ACCEPT) then Ok [] else Fault Thrown
  | c :: s =>
      '(state, codepoint) ← decode state codepoint (Z.of_N (Ascii.N_of_ascii c));
      if decide (state = UTF8_REJECT) then Fault Thrown
      else
        rest ← dump_escaped state codepoint s;
        Ok ((if decide (state = UTF8_ACCEPT) then escaped codepoint c else [c]) ++ rest)
  end.

Definition quoted (s : string) : outcome (list ascii) :=
  t ← dump_escaped UTF8_ACCEPT 0 (String.list_ascii_of_string s);
  Ok (["034"%char] ++ t ++ ["034"%char]).

(** ** Values *)
Section separated.
Context {A : Type} (f : A -> outcome (list ascii)).

(** The texts of the elements, with a comma behind all but the last. *)
Fixpoint separated (l : list A) : outcome (list ascii) :=
  match l with
  | [] => Ok []
  | [x] => f x
  | x :: l => t ← f x; rest ← separated l; Ok (t ++ ","%char :: rest)
  end.
End separated.

Fixpoint dump (j : Json) : outcome (list ascii) :=
  match j with
  | JNull => Ok ["n"%char; "u"%char; "l"%char; "l"%char]
  | JBoolean true => Ok ["t"%char; "r"%char; "u"%char; "e"%char]
  | JBoolean false => Ok ["f"%char; "a"%char; "l"%char; "s"%char; "e"%char]
  | JInteger z | JUnsigned z => dump_integer z
  | JFloat d => dump_float d
  | JString s => quoted s
  | JArray l => t ← separated dump l; Ok (["["%char] ++ t ++ ["]"%char])
  | JObject m =>
      t ← separated (fun kv => k ← quoted kv.1; v ← dump kv.2; Ok (k ++ ":"%char :: v)) m;
      Ok (["{"%char] ++ t ++ ["}"%char])
  end.
