(* ===== verification/JsonRoundTrip.v ===== *)
(** * JSON that is written can be read

    What json.hpp (DRAMsim3/ext/headers) writes, jsoncpp (src/jsoncpp.cc) reads:
    the texts of numbers and strings are single tokens that decode to what was
    written, and objects and arrays are read back member by member. *)

From stdpp Require Import base tactics list list_numbers numbers strings gmap.
From Stdlib Require Import ZArith Lia Ascii Sorted Floats.SpecFloat.
From S2P Require Import Prelude IniReader Double Grisu GrisuCorrect JsonReader JsonWriter.

(** What may follow a value. *)
Definition ends (rest : list ascii) : Prop :=
  match rest with [] => True | c :: _ => c ∈ [","%char; "}"%char; "]"%char; "010"%char] end.

(** ** Numbers are tokens *)
Lemma is_digit_in c : is_digit c = bool_decide (is_Some (digit_in 10 c)).
Proof. destruct c as [[] [] [] [] [] [] [] []]; vm_compute; reflexivity. Qed.

Lemma ends_not rest c l : ends rest -> rest = c :: l -> is_digit c = false /\ c <> "."%char /\ c <> "e"%char /\ c <> "E"%char.
Proof. intros He ->. cbn in He. rewrite !elem_of_cons, elem_of_nil in He. by destruct_or! He; subst c. Qed.

Lemma skip_digits_ends rest : ends rest -> skip_digits rest = rest.
Proof. destruct rest as [|c l]; [done|]. intros He. cbn. by destruct (ends_not _ c l He eq_refl) as [-> _]. Qed.

Notation los := String.list_ascii_of_string.

(** Skipping digits and spanning them stop at the same place. *)
Lemma skip_digits_span s n u u' n' r rest :
  ends rest -> span_digits 10 s n u = (u', n', r) -> skip_digits (los s ++ rest) = los r ++ rest.
Proof.
  intros He. revert n u. induction s as [|c s IH]; intros n u H; cbn [span_digits] in H.
  - injection H as _ _ <-. by apply skip_digits_ends.
  - change (los (String c s)) with (c :: los s). cbn [app skip_digits]. rewrite is_digit_in.
    destruct (digit_in 10 c) as [d|] eqn:Ed.
    + rewrite bool_decide_true by done. by apply (IH (n * 10 + d) (S u)).
    + rewrite bool_decide_false by (by intros [? ?]). by injection H as _ _ <-.
Qed.

Lemma span_sign_cases s : span_sign s = (false, s) \/
  exists c t, s = String c t /\ (c = "+"%char \/ c = "-"%char) /\ (span_sign s).2 = t.
Proof.
  destruct s as [|c t]; [by left|]. destruct c as [[] [] [] [] [] [] [] []]; try (by left); right; eauto 6.
Qed.

(** A text that is a number and nothing else is consumed as one. *)
Lemma readNumber_span s v uf ex rest :
  ends rest -> span_number 10 "e" "E" s = Some (v, uf, ex, EmptyString) -> readNumber (los s ++ rest) = rest.
Proof.
  intros He H. unfold span_number in H. destruct (span_digits 10 s 0 0) as [[ui n] r1] eqn:E1.
  unfold readNumber. rewrite (skip_digits_span s 0 0 ui n r1 rest He E1).
  set (cur2 := match los r1 ++ rest with "."%char :: cur => skip_digits cur | _ => los r1 ++ rest end).
  assert (H2 : exists n' uf' r2, cur2 = los r2 ++ rest /\
    (if decide (ui = 0%nat /\ uf' = 0%nat) then None
     else let '(e, r) := span_exponent "e" "E" r2 in Some (n', Z.of_nat uf', e, r)) = Some (v, uf, ex, EmptyString)).
  { destruct r1 as [|c r1].
    - exists n, 0%nat, EmptyString. split; [|done]. unfold cur2. cbn [los app]. destruct rest as [|c l]; [done|].
      destruct (ends_not _ c l He eq_refl) as (_ & Hc & _). destruct c as [[] [] [] [] [] [] [] []]; done.
    - destruct (decide (c = "."%char)) as [->|Hc].
      + destruct (span_digits 10 r1 n 0) as [[uf' n'] r2] eqn:E2. exists n', uf', r2. split; [|done].
        unfold cur2. change (los (String "." r1)) with ("."%char :: los r1). cbn [app]. by apply (skip_digits_span r1 n 0 uf' n').
      + exists n, 0%nat, (String c r1). split.
        * unfold cur2. change (los (String c r1)) with (c :: los r1). cbn [app].
          destruct c as [[] [] [] [] [] [] [] []]; done.
        * clear -H Hc. destruct c as [[] [] [] [] [] [] [] []]; try exact H. by destruct Hc. }
  destruct H2 as (n' & uf' & r2 & -> & H2). clear H. destruct (decide _); [done|].
  destruct r2 as [|c r2].
  - cbn [los app]. destruct rest as [|c l]; [done|]. destruct (ends_not _ c l He eq_refl) as (_ & _ & H3 & H4).
    by rewrite bool_decide_false by tauto.
  - change (los (String c r2)) with (c :: los r2). cbn [app]. unfold span_exponent in H2.
    destruct (decide (c = "e"%char \/ c = "E"%char)) as [Ec|Ec]; [|by rewrite bool_decide_false in H2].
    rewrite bool_decide_true in H2 by done. rewrite bool_decide_true by done.
    destruct (span_sign_cases r2) as [Es|(x & t & Er & Hx & Es)].
    + rewrite Es in H2. destruct (span_digits 10 r2 0 0) as [[ue ne] r3] eqn:E3.
      assert (Hr3 : skip_digits (los r2 ++ rest) = los r3 ++ rest) by (by apply (skip_digits_span r2 0 0 ue ne)).
      destruct (decide (ue = 0%nat)); [done|]. injection H2 as _ _ _ ->.
      destruct (los r2 ++ rest) as [|y l] eqn:El; [exact Hr3|]. case_bool_decide as Hy; [|exact Hr3].
      exfalso. destruct r2 as [|y' r2]; [cbn in E3; by simplify_eq|].
      change (los (String y' r2)) with (y' :: los r2) in El. injection El as -> _.
      by destruct Hy as [->| ->].
    + rewrite Er in *. destruct (span_sign (String x t)) as [neg t'] eqn:Ess. cbn in Es. subst t'.
      destruct (span_digits 10 t 0 0) as [[ue ne] r3] eqn:E3.
      destruct (decide (ue = 0%nat)); [done|]. injection H2 as _ _ _ ->.
      change (los (String x t)) with (x :: los t). cbn [app]. rewrite bool_decide_true by tauto.
      exact (skip_digits_span t 0 0 ue ne EmptyString rest He E3).
Qed.

(** ** Reading a token of known text *)
Lemma readToken_text c l t rest ty :
  json_space c = false -> t = c :: l -> token_rest c (l ++ rest) = (ty, true, rest) ->
  readToken (t ++ rest) = (true, mkToken ty t, rest).
Proof.
  intros Hc -> Ht. unfold readToken. cbn [app skipSpaces]. rewrite Hc. cbn [getNextChar]. rewrite Ht.
  cbn [length]. rewrite length_app. replace (S (length l + length rest) - length rest)%nat with (length (c :: l)) by (cbn; lia).
  change (c :: l ++ rest) with ((c :: l) ++ rest). by rewrite take_app_length.
Qed.

Lemma char_of_cases d : 0 <= d <= 9 -> json_space (char_of d) = false /\ is_digit (char_of d) = true /\
  (forall l, token_rest (char_of d) l = (tokenNumber, true, readNumber l)) /\ char_of d <> "-"%char.
Proof.
  intros Hd. assert (d = 0 \/ d = 1 \/ d = 2 \/ d = 3 \/ d = 4 \/ d = 5 \/ d = 6 \/ d = 7 \/ d = 8 \/ d = 9) as H by lia.
  by destruct_or! H; subst d.
Qed.

Lemma readNumber_digit c l : is_digit c = true -> readNumber (c :: l) = readNumber l.
Proof. intros Hc. unfold readNumber. cbn [skip_digits]. by rewrite Hc. Qed.

Definition signed_text (neg : bool) (t : list ascii) : list ascii := (if neg then ["-"%char] else []) ++ t.

Lemma number_token neg t v uf ex rest :
  ends rest -> (exists c t', 0 <= c <= 9 /\ t = char_of c :: t') ->
  span_number 10 "e" "E" (soa t) = Some (v, uf, ex, EmptyString) ->
  readToken (signed_text neg t ++ rest) = (true, mkToken tokenNumber (signed_text neg t), rest).
Proof.
  intros He (c & t' & Hc & Ht) Hs. destruct (char_of_cases c Hc) as (H1 & H2 & H3 & _).
  assert (Hr : readNumber (t ++ rest) = rest).
  { rewrite <- (String.list_ascii_of_string_of_list_ascii t) at 1. by eapply readNumber_span. }
  destruct neg.
  - by apply (readToken_text "-"%char t); [done|done|]; rewrite <- Hr at 2.
  - apply (readToken_text (char_of c) t'); [done|done|]. rewrite H3. rewrite <- Hr at 2. rewrite Ht. cbn [app].
    by rewrite readNumber_digit.
Qed.

(** ** Integers *)
(** [x] has [k] decimal digits. *)
Definition has_digits (x k : Z) : Prop := 1 <= k /\ 10 ^ (k - 1) <= x < 10 ^ k.

Lemma has_digits_unique x k j : has_digits x k -> has_digits x j -> k = j.
Proof.
  intros (Hk & Hk1 & Hk2) (Hj & Hj1 & Hj2). destruct (Z.lt_trichotomy k j) as [H|[H|H]]; [|done|]; exfalso.
  - assert (10 ^ k <= 10 ^ (j - 1)) by (apply Z.pow_le_mono_r; lia). lia.
  - assert (10 ^ j <= 10 ^ (k - 1)) by (apply Z.pow_le_mono_r; lia). lia.
Qed.

Lemma has_digits_scale x y k i :
  0 <= i -> has_digits x k -> 0 <= y < 10 ^ i -> has_digits (x * 10 ^ i + y) (k + i).
Proof.
  intros Hi (Hk & H1 & H2) Hy. split; [lia|]. assert (0 < 10 ^ i) by (apply Z.pow_pos_nonneg; lia).
  replace (k + i - 1) with ((k - 1) + i) by lia. rewrite !Z.pow_add_r by lia. nia.
Qed.

Lemma has_digits_div x k i : 0 <= i -> has_digits (x / 10 ^ i) k -> has_digits x (k + i).
Proof.
  intros Hi H. assert (0 < 10 ^ i) by (apply Z.pow_pos_nonneg; lia).
  pose proof (Z.div_mod x (10 ^ i) ltac:(lia)) as E. pose proof (Z.mod_pos_bound x (10 ^ i) ltac:(lia)).
  replace x with (x / 10 ^ i * 10 ^ i + x mod 10 ^ i) by lia. by apply has_digits_scale.
Qed.

Lemma count_digits_loop_spec fuel : forall n x, 0 < x < 10000 ^ Z.of_nat fuel ->
  has_digits x (count_digits_loop fuel n x - n + 1).
Proof.
  induction fuel as [|fuel IH]; intros n x Hx; [cbn in Hx; lia|]. cbn [count_digits_loop].
  repeat case_decide; try (unfold has_digits;
    match goal with |- context [?a - n + 1] => ring_simplify (a - n + 1) end; cbn; lia).
  assert (Hd : 0 < x / 10000 < 10000 ^ Z.of_nat fuel).
  { split; [apply Z.div_str_pos; lia|]. apply Z.div_lt_upper_bound; [lia|].
    rewrite Nat2Z.inj_succ, Z.pow_succ_r in Hx by lia. lia. }
  specialize (IH (n + 4) (x / 10000) Hd). change 10000 with (10 ^ 4) in IH at 1.
  apply has_digits_div in IH; [|lia].
  by replace (count_digits_loop fuel (n + 4) (x / 10000) - n + 1)
    with (count_digits_loop fuel (n + 4) (x / 10 ^ 4) - (n + 4) + 1 + 4) by (change (10 ^ 4) with 10000; lia).
Qed.

Lemma digit_pairs_spec fuel : forall x acc, 0 < x < 100 ^ Z.of_nat fuel ->
  exists l, digit_pairs fuel x acc = (char_of <$> l) ++ acc /\ Forall (fun d => 0 <= d <= 9) l /\ spell l 0 = x /\
    has_digits x (vsize l).
Proof.
  induction fuel as [|fuel IH]; intros x acc Hx; [cbn in Hx; lia|]. cbn [digit_pairs].
  case_decide as H100; [|case_decide as H10].
  - assert (Hd : 0 < x / 100 < 100 ^ Z.of_nat fuel).
    { split; [apply Z.div_str_pos; lia|]. apply Z.div_lt_upper_bound; [lia|].
      rewrite Nat2Z.inj_succ, Z.pow_succ_r in Hx by lia. lia. }
    pose proof (Z.div_mod x 100 ltac:(lia)). pose proof (Z.mod_pos_bound x 100 ltac:(lia)).
    pose proof (Z.div_mod (x mod 100) 10 ltac:(lia)). pose proof (Z.mod_pos_bound (x mod 100) 10 ltac:(lia)).
    destruct (IH (x / 100) (char_of (x mod 100 / 10) :: char_of (x mod 100 mod 10) :: acc) Hd) as (l & E & Hl & Hs & Hk).
    exists (l ++ [x mod 100 / 10; x mod 100 mod 10]). split_and!.
    + rewrite E, fmap_app, <- app_assoc. done.
    + apply Forall_app. split; [done|]. repeat constructor; lia.
    + rewrite spell_app, Hs. unfold spell. cbn [fold_left]. lia.
    + rewrite vsize_app. change 100 with (10 ^ 2) in Hk at 1. by apply has_digits_div in Hk.
  - pose proof (Z.div_mod x 10 ltac:(lia)). pose proof (Z.mod_pos_bound x 10 ltac:(lia)).
    exists [x / 10; x mod 10]. split_and!; [done|repeat constructor; lia|unfold spell; cbn [fold_left]; lia|].
    unfold has_digits, vsize. cbn. lia.
  - exists [x]. split_and!; [done|repeat constructor; lia|unfold spell; cbn [fold_left]; lia|].
    unfold has_digits, vsize. cbn. lia.
Qed.

(** An integer is written as its sign and digits that spell it. *)
Lemma dump_integer_spec z :
  - 2 ^ 63 <= z < 2 ^ 64 -> exists l, l <> [] /\ Forall (fun d => 0 <= d <= 9) l /\ spell l 0 = Z.abs z /\
    dump_integer z = Ok (signed_text (bool_decide (z < 0)) (char_of <$> l)).
Proof.
  intros Hz. unfold dump_integer. case_decide as H0.
  { subst z. exists [0]. split_and!; [done|repeat constructor; lia|done|done]. }
  destruct (digit_pairs_spec 10 (Z.abs z) []) as (l & E & Hl & Hs & Hk); [cbn; lia|].
  pose proof (count_digits_loop_spec 5 1 (Z.abs z) ltac:(cbn; lia)) as Hc.
  replace (count_digits_loop 5 1 (Z.abs z) - 1 + 1) with (count_digits (Z.abs z)) in Hc by (unfold count_digits; lia).
  rewrite (has_digits_unique _ _ _ Hc Hk). rewrite E, app_nil_r.
  assert (Hlen : vsize l <= 20).
  { destruct Hk as (_ & Hk & _). destruct (Z.le_gt_cases (vsize l) 20) as [|Hgt]; [done|]. exfalso.
    assert (10 ^ 20 <= 10 ^ (vsize l - 1)) by (apply Z.pow_le_mono_r; lia). lia. }
  rewrite decide_False by (case_decide; lia).
  exists l. split_and!; [|done|done|].
  - intros ->. destruct Hk as [Hk _]. unfold vsize in Hk. cbn in Hk. lia.
  - rewrite decide_True; [|rewrite vsize_app; unfold vsize; rewrite length_fmap; destruct (decide (z < 0)); cbn; lia].
    unfold signed_text. destruct (decide (z < 0)); [by rewrite bool_decide_true|by rewrite bool_decide_false].
Qed.

(** The value jsoncpp makes of an integer. *)
Definition number_value (z : Z) : Value :=
  if decide (z < 0) then intValue z else if decide (z <= maxInt) then intValue z else uintValue z.

Lemma decode_digits_spec l : forall max v, 10 <= max -> Forall (fun d => 0 <= d <= 9) l -> 0 <= v -> spell l v <= max ->
  decode_digits max v (char_of <$> l) = Some (spell l v).
Proof.
  assert (Hgrow : forall l v, Forall (fun d => 0 <= d <= 9) l -> 0 <= v -> v <= spell l v).
  { induction l0 as [|d l0 IH]; intros v Hl Hv; [unfold spell; cbn; lia|]. apply Forall_cons in Hl as [Hd Hl].
    specialize (IH (v * 10 + d) Hl ltac:(lia)). unfold spell in *. cbn [fold_left]. lia. }
  induction l as [|d l IH]; intros max v Hm Hl Hv Hs; [done|]. apply Forall_cons in Hl as [Hd Hl].
  cbn [fmap list_fmap decode_digits]. destruct (char_of_cases d Hd) as (_ & -> & _ & _). cbn [negb].
  assert (Ed : Z.of_N (Ascii.N_of_ascii (char_of d)) - 48 = d).
  { unfold char_of. rewrite Ascii.N_ascii_embedding by lia. lia. }
  rewrite Ed. change (spell (d :: l) v) with (spell l (v * 10 + d)) in *.
  pose proof (Z.div_mod max 10 ltac:(lia)). pose proof (Z.mod_pos_bound max 10 ltac:(lia)).
  rewrite decide_False; [by apply IH; [done|done|lia|]|].
  pose proof (Hgrow l (v * 10 + d) Hl ltac:(lia)) as Hg.
  intros [Ht [H1|[H1|H1]]]; [lia| |lia]. destruct l as [|d2 l]; [done|]. apply Forall_cons in Hl as [Hd2 Hl].
  change (spell (d2 :: l) (v * 10 + d)) with (spell l ((v * 10 + d) * 10 + d2)) in Hs.
  pose proof (Hgrow l ((v * 10 + d) * 10 + d2) Hl ltac:(lia)). lia.
Qed.

Lemma decodeNumber_integer z l :
  - 2 ^ 63 <= z < 2 ^ 64 -> l <> [] -> Forall (fun d => 0 <= d <= 9) l -> spell l 0 = Z.abs z ->
  decodeNumber (signed_text (bool_decide (z < 0)) (char_of <$> l)) = inl (number_value z).
Proof.
  intros Hz Hne Hl Hs. unfold decodeNumber, number_value, signed_text. case_bool_decide as Hn.
  - cbn [app]. rewrite decode_digits_spec; [|lia|done|lia|lia]. rewrite Hs, decide_True by done. do 2 f_equal. lia.
  - cbn [app]. destruct l as [|d l]; [done|]. pose proof (Forall_inv Hl) as Hd. cbn beta in Hd.
    destruct (char_of_cases d Hd) as (_ & _ & _ & Hm).
    assert (E : match char_of <$> (d :: l) with "-"%char :: t => (true, t) | _ => (false, char_of <$> (d :: l)) end =
                (false, char_of <$> (d :: l))).
    { cbn [fmap list_fmap]. destruct (char_of d) as [[] [] [] [] [] [] [] []]; try done. }
    rewrite E, decode_digits_spec; [|lia|done|lia|lia]. rewrite Hs, Z.abs_eq by lia. rewrite (decide_False (P := z < 0)) by done.
    done.
Qed.

(** ** Floating-point numbers *)
Lemma decode_digits_none t : forall max v, Exists (fun c => is_digit c = false) t -> decode_digits max v t = None.
Proof.
  induction t as [|c t IH]; intros max v Ht; [by apply Exists_nil in Ht|]. cbn [decode_digits].
  destruct (is_digit c) eqn:Ec; cbn [negb]; [|done]. case_decide; [done|]. apply IH.
  apply Exists_cons in Ht as [Ht|Ht]; [congruence|done].
Qed.

Lemma decodeNumber_double neg t :
  (exists c t', 0 <= c <= 9 /\ t = char_of c :: t') -> "."%char ∈ t \/ "e"%char ∈ t ->
  decodeNumber (signed_text neg t) = decodeDouble (signed_text neg t).
Proof.
  intros (c & t' & Hc & Ht) Hpt. unfold decodeNumber.
  assert (Hnone : forall max, decode_digits max 0 t = None).
  { intros max. apply decode_digits_none, Exists_exists. destruct Hpt; eauto. }
  assert (E : match signed_text neg t with "-"%char :: u => (true, u) | _ => (false, signed_text neg t) end = (neg, t)).
  { destruct neg; [done|]. rewrite Ht. cbn [signed_text app]. destruct (char_of_cases c Hc) as (_ & _ & _ & Hm).
    destruct (char_of c) as [[] [] [] [] [] [] [] []]; try done. }
  rewrite E. by rewrite Hnone.
Qed.

(** ** Strings *)
Definition is_ascii (c : ascii) : Prop := (Ascii.N_of_ascii c < 128)%N.
Definition ascii_string (s : string) : Prop := Forall is_ascii (los s).

#[export] Instance ascii_string_dec s : Decision (ascii_string s).
Proof. unfold ascii_string, is_ascii. apply _. Defined.

Lemma decode_table :
  forallb (fun n => match decode 0 0 n with Ok (s, c) => (s =? 0) && (c =? n) | Fault _ => false end) (seqZ 0 128) = true.
Proof. vm_compute. reflexivity. Qed.

Lemma decode_ascii cp c : is_ascii c -> decode 0 cp (Z.of_N (Ascii.N_of_ascii c)) = Ok (0, Z.of_N (Ascii.N_of_ascii c)).
Proof.
  intros Hc. unfold is_ascii in Hc. pose proof decode_table as H. rewrite forallb_forall in H.
  specialize (H (Z.of_N (Ascii.N_of_ascii c)) ltac:(apply list_elem_of_In, elem_of_seqZ; lia)).
  change (decode 0 cp ?n) with (decode 0 0 n). destruct (decode 0 0 _) as [[s x]|]; [|done].
  apply andb_true_iff in H as [->%Z.eqb_eq ->%Z.eqb_eq]. done.
Qed.

Definition escape_of (c : ascii) : list ascii := escaped (Z.of_N (Ascii.N_of_ascii c)) c.

Lemma dump_escaped_ascii s cp : Forall is_ascii s -> dump_escaped 0 cp s = Ok (concat (escape_of <$> s)).
Proof.
  revert cp. induction s as [|c s IH]; intros cp Hs; [done|]. apply Forall_cons in Hs as [Hc Hs]. cbn [dump_escaped].
  rewrite decode_ascii by done. cbn [mbind outcome_bind]. rewrite decide_False by done. rewrite IH by done. done.
Qed.

(** Each escaped character is passed over inside a string, and decoded. *)
Lemma escape_read c : is_ascii c ->
  (forall x l, exists y, readString x (escape_of c ++ l) = readString y l) /\
  (forall fuel l, decode_chars (S fuel) (escape_of c ++ l) =
     match decode_chars fuel l with inl r => inl (c :: r) | inr e => inr e end) /\
  escape_of c <> [].
Proof.
  intros Hc. unfold is_ascii in Hc. split_and!.
  - intros x l. destruct c as [[] [] [] [] [] [] [] []]; try (vm_compute in Hc; discriminate Hc); eexists; reflexivity.
  - intros fuel l. destruct c as [[] [] [] [] [] [] [] []]; try (vm_compute in Hc; discriminate Hc); reflexivity.
  - destruct c as [[] [] [] [] [] [] [] []]; try (vm_compute in Hc; discriminate Hc); vm_compute; discriminate.
Qed.

Lemma readString_escaped s : forall x rest, Forall is_ascii s ->
  readString x (concat (escape_of <$> s) ++ "034"%char :: rest) = (true, rest).
Proof.
  induction s as [|c s IH]; intros x rest Hs; [done|]. apply Forall_cons in Hs as [Hc Hs].
  cbn [fmap list_fmap concat]. rewrite <- app_assoc. destruct (escape_read c Hc) as (H & _).
  destruct (H x (concat (escape_of <$> s) ++ "034"%char :: rest)) as (y & ->). by apply IH.
Qed.

Lemma decode_chars_escaped s : forall fuel, Forall is_ascii s -> (length s < fuel)%nat ->
  decode_chars fuel (concat (escape_of <$> s)) = inl s.
Proof.
  induction s as [|c s IH]; intros fuel Hs Hf; (destruct fuel as [|fuel]; [cbn in Hf; lia|]); [done|].
  apply Forall_cons in Hs as [Hc Hs]. cbn [fmap list_fmap concat]. destruct (escape_read c Hc) as (_ & -> & _).
  by rewrite IH by (done || (cbn in Hf; lia)).
Qed.

Lemma escaped_length s : Forall is_ascii s -> (length s <= length (concat (escape_of <$> s)))%nat.
Proof.
  induction 1 as [|c s Hc _ IH]; [done|]. cbn [fmap list_fmap concat length]. rewrite length_app.
  destruct (escape_read c Hc) as (_ & _ & Hne). destruct (escape_of c); [done|]. cbn [length]. lia.
Qed.

(** A string is one token and decodes to itself. *)
Lemma quoted_spec s :
  ascii_string s -> exists q, quoted s = Ok q /\ decodeString q = inl s /\
    (forall rest, readToken (q ++ rest) = (true, mkToken tokenString q, rest)) /\ exists q', q = "034"%char :: q'.
Proof.
  intros Hs. unfold quoted. rewrite dump_escaped_ascii by done. cbn [mbind outcome_bind].
  set (t := concat (escape_of <$> los s)). eexists. split; [reflexivity|]. split_and!.
  - unfold decodeString. cbn [app tail length]. rewrite length_app. cbn [length].
    replace (S (length t + 1) - 2)%nat with (length t) by lia. rewrite take_app_length.
    unfold t. rewrite decode_chars_escaped by (done || (pose proof (escaped_length (los s) Hs); lia)).
    by rewrite String.string_of_list_ascii_of_string.
  - intros rest. apply (readToken_text "034"%char (t ++ ["034"%char])); [done|done|].
    rewrite <- app_assoc. cbn [app]. unfold token_rest. cbn. unfold t. by rewrite readString_escaped.
  - by eexists.
Qed.

(** ** Values *)
(** The value jsoncpp holds for what json.hpp wrote. *)
Fixpoint to_value (j : Json) : Value :=
  match j with
  | JNull => nullValue
  | JBoolean b => booleanValue b
  | JInteger z | JUnsigned z => number_value z
  | JFloat d => match d with S754_zero _ | S754_finite _ _ _ => realValue d | _ => nullValue end
  | JString s => stringValue s
  | JArray l => arrayValue (to_value <$> l)
  | JObject m => objectValue ((fun kv => (kv.1, to_value kv.2)) <$> m)
  end.

Definition sorted_keys {A} (m : list (string * A)) : Prop := StronglySorted (fun a b => key_lt a b = true) m.*1.

(** Integers in range, numbers in normal form, ASCII text, members in order; nested
    at most [depth] levels deep. *)
Inductive writable : nat -> Json -> Prop :=
  | writable_null n : writable (S n) JNull
  | writable_boolean n b : writable (S n) (JBoolean b)
  | writable_integer n z : - 2 ^ 63 <= z < 2 ^ 63 -> writable (S n) (JInteger z)
  | writable_unsigned n z : 0 <= z < 2 ^ 64 -> writable (S n) (JUnsigned z)
  | writable_float n d : valid d -> writable (S n) (JFloat d)
  | writable_string n s : ascii_string s -> writable (S n) (JString s)
  | writable_array n l : Forall (writable n) l -> writable (S n) (JArray l)
  | writable_object n m :
      Forall (fun kv => ascii_string kv.1 /\ writable n kv.2) m -> sorted_keys m -> writable (S n) (JObject m).

(** The first character of a value's text. *)
Definition starts (t : list ascii) : Prop := match t with [] => False | c :: _ => json_space c = false /\ c <> "]"%char end.

(** Blanks are skipped in front of a token. *)
Definition space (ws : list ascii) : Prop := Forall (fun c => json_space c = true) ws.

Lemma skipSpaces_space ws l : space ws -> skipSpaces (ws ++ l) = skipSpaces l.
Proof. induction 1 as [|c ws Hc _ IH]; [done|]. cbn [app skipSpaces]. by rewrite Hc. Qed.

Lemma readToken_space ws l : space ws -> readToken (ws ++ l) = readToken l.
Proof. intros Hw. unfold readToken. by rewrite skipSpaces_space. Qed.

(** The text [t] is read as the value [x], which is nested [depth] levels deep,
    after any blanks. *)
Definition reads_as (depth : nat) (x : Value) (t : list ascii) : Prop :=
  starts t /\ forall lead fuel nodes v rest errs, space lead -> ends rest -> (2 * length (lead ++ t) < fuel)%nat ->
    (nodes + depth <= S stackLimit)%nat ->
    readValue fuel nodes v (mkReader (lead ++ t ++ rest) errs) = Ok (true, x, mkReader rest errs).

Lemma skipCommentTokens_token cur ok tok cur' :
  readToken cur = (ok, tok, cur') -> type_ tok <> tokenComment -> skipCommentTokens cur = (ok, tok, cur').
Proof.
  intros H Ht. unfold skipCommentTokens. rewrite H. destruct (length cur); cbn [skip_comments]; [done|].
  by rewrite decide_False by tauto.
Qed.

Lemma skip_comments_token fuel ok tok cur : type_ tok <> tokenComment -> skip_comments fuel ok tok cur = (ok, tok, cur).
Proof. intros Ht. destruct fuel; cbn [skip_comments]; [done|]. by rewrite decide_False by tauto. Qed.

(** A value that is a single token. *)
Lemma leaf_reads depth x t ty :
  starts t -> (forall rest, ends rest -> readToken (t ++ rest) = (true, mkToken ty t, rest)) ->
  (forall v r, match ty with
    | tokenNumber => decode_into v (decodeNumber t) r
    | tokenString => decode_into v (match decodeString t with inl s => inl (stringValue s) | inr e => inr e end) r
    | tokenTrue => (true, booleanValue true, r)
    | tokenFalse => (true, booleanValue false, r)
    | tokenNull => (true, nullValue, r)
    | _ => (false, v, r)
    end = (true, x, r)) ->
  reads_as (S depth) x t.
Proof.
  intros Hne Ht Hx. split; [done|]. intros lead fuel nodes v rest errs Hl He Hf Hd. destruct fuel as [|fuel]; [lia|]. cbn [readValue].
  rewrite decide_False by lia. cbn [current_].
  assert (Hty : ty <> tokenComment) by (intros ->; specialize (Hx nullValue (mkReader [] [])); done).
  rewrite (skipCommentTokens_token (lead ++ t ++ rest) true (mkToken ty t) rest)
    by (done || (rewrite readToken_space by done; by apply Ht)). cbn [type_ text_].
  specialize (Hx v (mkReader rest errs)). destruct ty; simplify_eq; simpl; try done; by rewrite Hx.
Qed.

Lemma punct_token c ty rest :
  json_space c = false -> token_rest c rest = (ty, true, rest) -> readToken (c :: rest) = (true, mkToken ty [c], rest).
Proof. intros Hc Ht. by apply (readToken_text c [] [c] rest ty). Qed.

(** Texts with a comma and blanks between them. *)
Fixpoint join (ws : list ascii) (ts : list (list ascii)) : list ascii :=
  match ts with
  | [] => []
  | [t] => t
  | t :: ts => t ++ ","%char :: ws ++ join ws ts
  end.

Lemma separated_join {A} (f : A -> outcome (list ascii)) l ts :
  Forall2 (fun x t => f x = Ok t) l ts -> separated f l = Ok (join [] ts).
Proof.
  induction 1 as [|x t l ts Hx Hl IH]; [done|]. destruct Hl as [|y u l ts Hy Hl]; [done|].
  cbn [separated] in *. rewrite Hx. cbn [mbind outcome_bind]. rewrite IH. done.
Qed.

(** A comma and the texts behind the first. *)
Lemma join_cons ws t u ts : join ws (t :: u :: ts) = t ++ ","%char :: ws ++ join ws (u :: ts).
Proof. done. Qed.

Lemma readArray_join d ws xs ts :
  Forall2 (reads_as d) xs ts -> ts <> [] -> space ws ->
  forall lead fuel nodes acc rest errs, space lead -> (2 * length (lead ++ join ws ts) + 1 < fuel)%nat ->
    (S nodes + d <= S stackLimit)%nat ->
    readArray fuel nodes acc (mkReader (lead ++ join ws ts ++ "]"%char :: rest) errs) =
      Ok (true, arrayValue (acc ++ xs), mkReader rest errs).
Proof.
  intros H. induction H as [|x t xs ts Hx Hxs IH]; [done|]. intros _ Hws lead fuel nodes acc rest errs Hl Hf Hd.
  destruct fuel as [|fuel]; [lia|]. cbn [readArray]. destruct Hx as [Hne Hx]. destruct ts as [|t2 ts].
  - cbn [join] in *. rewrite Hx; [|done|cbn; set_solver|lia|lia]. cbn [mbind outcome_bind negb current_].
    rewrite (skipCommentTokens_token _ _ _ _ (punct_token "]" tokenArrayEnd rest eq_refl eq_refl)) by done.
    apply Forall2_nil_inv_r in Hxs as ->. done.
  - rewrite join_cons in *. rewrite !length_app in Hf. cbn [length] in Hf. rewrite length_app in Hf.
    rewrite <- app_assoc. cbn [app]. rewrite <- app_assoc.
    rewrite Hx; [|done|cbn; set_solver|rewrite length_app; lia|lia]. cbn [mbind outcome_bind negb current_].
    rewrite (skipCommentTokens_token _ _ _ _ (punct_token "," tokenArraySeparator _ eq_refl eq_refl)) by done.
    cbn [type_ negb orb]. rewrite bool_decide_false by set_solver. rewrite decide_False by done.
    match goal with |- context [readArray fuel nodes _ ?r] =>
      change r with (mkReader (ws ++ join ws (t2 :: ts) ++ "]"%char :: rest) errs) end.
    rewrite IH; [by rewrite <- app_assoc|done|done|done|rewrite length_app; lia|done].
Qed.

(** ** Members in order *)
Lemma key_lt_asym a b : key_lt a b = true -> a <> b /\ key_lt b a = false.
Proof.
  unfold key_lt. intros H. pose proof (String.compare_antisym a b) as Ha.
  destruct (String.compare a b) eqn:E; try done. split.
  - intros ->. rewrite E in Ha. done.
  - rewrite Ha in E. by destruct (String.compare b a).
Qed.

Lemma assign_last {A} (m : list (string * A)) key v :
  Forall (fun k => key_lt k key = true) m.*1 -> assign m key v = m ++ [(key, v)].
Proof.
  induction m as [|[k w] m IH]; intros Hm; [done|]. cbn [fmap list_fmap] in Hm. apply Forall_cons in Hm as [Hk Hm].
  cbn [fst] in Hk. cbn [assign]. destruct (key_lt_asym _ _ Hk) as [Hne Hlt]. rewrite decide_False by done.
  rewrite Hlt. cbn [app]. by rewrite IH.
Qed.

(** Members read one after the other. *)
Definition assign_all {A} (m kxs : list (string * A)) : list (string * A) := foldl (fun m kx => assign m kx.1 kx.2) m kxs.

Lemma assign_all_sorted {A} (kxs : list (string * A)) : forall m0, sorted_keys (m0 ++ kxs) -> assign_all m0 kxs = m0 ++ kxs.
Proof.
  induction kxs as [|[k x] kxs IH]; intros m0 Hs; [by rewrite app_nil_r|]. cbn [assign_all foldl fst snd].
  rewrite assign_last.
  - change (foldl _ ?m kxs) with (assign_all m kxs). rewrite IH; by rewrite <- app_assoc.
  - unfold sorted_keys in Hs. rewrite fmap_app in Hs. cbn [fmap list_fmap fst] in Hs.
    clear -Hs. induction m0 as [|[k0 w] m0 IHm]; [constructor|]. cbn [fmap list_fmap app] in *.
    apply StronglySorted_inv in Hs as [Hs Hall]. constructor; [|by apply IHm].
    rewrite Forall_app in Hall. destruct Hall as [_ Hall]. by apply Forall_cons in Hall as [? _].
Qed.

(** The text of a member: the quoted name, a colon, the text of the value. *)
Definition member_text (k : string) (t u : list ascii) : Prop := exists q, quoted k = Ok q /\ u = q ++ ":"%char :: t.

(** Members whose names are ASCII and whose texts are read as their values. *)
Definition member_reads (d : nat) (kx : string * Value) (u : list ascii) : Prop :=
  ascii_string kx.1 /\ exists t, member_text kx.1 t u /\ reads_as d kx.2 t.

Lemma readObject_join d ws kxs us :
  Forall2 (member_reads d) kxs us -> us <> [] -> space ws ->
  forall fuel nodes name m0 lead rest errs, space lead -> (2 * length (lead ++ join ws us) + 1 < fuel)%nat ->
    (S nodes + d <= S stackLimit)%nat ->
    readObject fuel nodes name m0 (mkReader (lead ++ join ws us ++ "}"%char :: rest) errs) =
      Ok (true, objectValue (assign_all m0 kxs), mkReader rest errs).
Proof.
  intros H. induction H as [|[k x] u kxs us Hx Hxs IH]; [done|]. intros _ Hws fuel nodes name m0 lead rest errs Hlead Hf Hd.
  destruct fuel as [|fuel]; [lia|]. cbn [readObject current_].
  destruct Hx as (Hk & t & (q & Hq & Hu) & Hne & Hx). cbn [fst snd] in *. destruct (quoted_spec k Hk) as (q' & Hq' & Hdec & Htok & Hlen).
  rewrite Hq in Hq'. injection Hq' as <-.
  assert (Hall : exists more, join ws (u :: us) ++ "}"%char :: rest = q ++ ":"%char :: t ++ more /\
    more = match us with [] => "}"%char :: rest | _ => ","%char :: ws ++ join ws us ++ "}"%char :: rest end /\
    (length (join ws (u :: us)) = length q + 1 + length t + match us with [] => 0 | _ => 1 + length ws + length (join ws us) end)%nat).
  { eexists. split; [|split; [reflexivity|]].
    - rewrite Hu. destruct us as [|u2 us]; [cbn [join]|rewrite join_cons]; rewrite <- ?app_assoc; cbn [app];
        rewrite <- ?app_assoc; cbn [app]; rewrite <- ?app_assoc; done.
    - rewrite Hu. destruct us as [|u2 us]; [cbn [join]|rewrite join_cons]; rewrite !length_app; cbn [length]; rewrite ?length_app; lia. }
  destruct Hall as (more & -> & Hmore & Hsize). rewrite length_app, Hsize in Hf.
  assert (Etok : readToken (lead ++ q ++ ":"%char :: t ++ more) = (true, mkToken tokenString q, ":"%char :: t ++ more)).
  { rewrite readToken_space by done. apply Htok. }
  rewrite (skipCommentTokens_token _ _ _ _ Etok) by done. cbn [negb type_ text_].
  rewrite decide_False by (intros [? _]; done). rewrite decide_True by done. rewrite Hdec.
  change (current_ (_ <| current_ := ":"%char :: t ++ more |>)) with (":"%char :: t ++ more).
  rewrite (punct_token ":" tokenMemberSeparator) by done. cbn [negb type_ orb]. rewrite bool_decide_false by (by intros []).
  assert (Hends : ends more) by (rewrite Hmore; destruct us; cbn; set_solver).
  match goal with |- context [readValue fuel (S nodes) _ ?r] => change r with (mkReader ([] ++ t ++ more) errs) end.
  rewrite Hx; [|constructor|done|cbn [app]; lia|lia]. cbn [mbind outcome_bind negb current_].
  destruct us as [|u2 us]; rewrite Hmore.
  - rewrite (punct_token "}" tokenObjectEnd) by done. cbn [negb type_ orb]. rewrite bool_decide_false by set_solver.
    rewrite skip_comments_token by done. cbn [type_]. rewrite decide_True by done.
    apply Forall2_nil_inv_r in Hxs as ->. done.
  - rewrite (punct_token "," tokenArraySeparator) by done. cbn [negb type_ orb]. rewrite bool_decide_false by set_solver.
    rewrite skip_comments_token by done. cbn [type_]. rewrite decide_False by done. simpl.
    rewrite IH; [done|done|done|done|rewrite length_app; lia|done].
Qed.

(** ** Whole values *)
Lemma digits_head l : l <> [] -> Forall (fun d => 0 <= d <= 9) l -> exists c t', 0 <= c <= 9 /\ char_of <$> l = char_of c :: t'.
Proof. intros Hne Hl. destruct l as [|d l]; [done|]. exists d, (char_of <$> l). split; [exact (Forall_inv Hl)|done]. Qed.

Lemma spell_token l neg rest :
  l <> [] -> Forall (fun d => 0 <= d <= 9) l -> ends rest ->
  readToken (signed_text neg (char_of <$> l) ++ rest) = (true, mkToken tokenNumber (signed_text neg (char_of <$> l)), rest).
Proof.
  intros Hne Hl He. eapply (number_token neg (char_of <$> l) (spell l 0) 0 0); [done| |].
  - by apply digits_head.
  - pose proof (span_plain l EmptyString (spell l 0) 0 EmptyString Hne Hl (or_introl eq_refl) eq_refl eq_refl) as H.
    by rewrite string_app_nil in H.
Qed.

Lemma signed_text_starts neg t : (exists c t', 0 <= c <= 9 /\ t = char_of c :: t') -> starts (signed_text neg t).
Proof.
  intros (c & t' & Hc & ->). destruct neg; [done|]. cbn. destruct (char_of_cases c Hc) as (Hs & Hd & _).
  split; [done|]. intros E. by rewrite E in Hd.
Qed.

Lemma integer_reads n z :
  - 2 ^ 63 <= z < 2 ^ 64 -> exists t, dump_integer z = Ok t /\ reads_as (S n) (number_value z) t.
Proof.
  intros Hz. destruct (dump_integer_spec z Hz) as (l & Hne & Hl & Hs & ->). eexists. split; [reflexivity|].
  apply (leaf_reads n _ _ tokenNumber).
  - by apply signed_text_starts, digits_head.
  - intros rest He. by apply spell_token.
  - intros v r. cbn. by rewrite decodeNumber_integer.
Qed.

Lemma match_pattern_app p rest : match_pattern p (p ++ rest) = (true, rest).
Proof. unfold match_pattern. rewrite take_app_length, drop_app_length. by rewrite decide_True. Qed.

(** The values that are words. *)
Lemma word_reads n c p x ty :
  json_space c = false -> c <> "]"%char ->
  (forall l, token_rest c l = let '(ok, cur) := match_pattern p l in (ty, ok, cur)) ->
  (ty, x) ∈ [(tokenTrue, booleanValue true); (tokenFalse, booleanValue false); (tokenNull, nullValue)] ->
  reads_as (S n) x (c :: p).
Proof.
  intros Hc Hb Hp Hx. apply (leaf_reads n _ _ ty); [done| |].
  - intros rest _. apply (readToken_text c p); [done|done|]. by rewrite Hp, match_pattern_app.
  - intros v r. rewrite !elem_of_cons, elem_of_nil in Hx. by destruct_or! Hx; simplify_eq.
Qed.

Lemma null_reads n : reads_as (S n) nullValue ["n"%char; "u"%char; "l"%char; "l"%char].
Proof. apply (word_reads n "n" _ _ tokenNull); [done|done|done|set_solver]. Qed.

Lemma boolean_reads n b : exists t, dump (JBoolean b) = Ok t /\ reads_as (S n) (booleanValue b) t.
Proof.
  destruct b; eexists; (split; [reflexivity|]).
  - apply (word_reads n "t" _ _ tokenTrue); [done|done|done|set_solver].
  - apply (word_reads n "f" _ _ tokenFalse); [done|done|done|set_solver].
Qed.

Lemma float_reads n d :
  valid d -> exists t, dump_float d = Ok t /\ reads_as (S n) (to_value (JFloat d)) t.
Proof.
  intros Hv. assert (Hc : finite d \/ dump_float d = Ok ["n"%char; "u"%char; "l"%char; "l"%char] /\ to_value (JFloat d) = nullValue)
    by (destruct d; cbn; tauto).
  destruct Hc as [Hf|[-> ->]]; [|eexists; split; [done|apply null_reads]].
  destruct (to_chars_spec d Hv Hf) as (neg & t & v & uf & ex & E & Hhd & Hpt & Hs & Hd).
  exists (signed_text neg t). split; [by destruct d|]. apply (leaf_reads n _ _ tokenNumber).
  - by apply signed_text_starts.
  - intros rest He. by eapply number_token.
  - intros w r. rewrite decodeNumber_double by done. unfold decodeDouble, signed_text.
    change (String.string_of_list_ascii ?l) with (soa l). rewrite (stream_text neg t v uf ex Hhd Hs), Hd; [|by rewrite Hd].
    by destruct d.
Qed.

Lemma string_reads n s : ascii_string s -> exists t, quoted s = Ok t /\ reads_as (S n) (stringValue s) t.
Proof.
  intros Hs. destruct (quoted_spec s Hs) as (q & Hq & Hdec & Htok & Hlen). exists q. split; [done|].
  apply (leaf_reads n _ _ tokenString); [by destruct Hlen as (q' & ->)|by intros rest _|].
  intros v r. cbn. by rewrite Hdec.
Qed.

(** An opening bracket is read, and then what it opens. *)
Lemma open_reads n x t c ty :
  json_space c = false -> c <> "]"%char -> (forall l, token_rest c l = (ty, true, l)) -> ty <> tokenComment ->
  (forall fuel nodes v rest errs, ends rest -> (2 * length t + 1 < fuel)%nat -> (nodes + n <= stackLimit)%nat ->
    match ty with
    | tokenObjectBegin => readObject fuel nodes EmptyString [] (mkReader (t ++ rest) errs)
    | tokenArrayBegin =>
        match skipSpaces (t ++ rest) with
        | "]"%char :: cur => Ok (true, arrayValue [], mkReader cur errs)
        | _ => readArray fuel nodes [] (mkReader (skipSpaces (t ++ rest)) errs)
        end
    | _ => Ok (false, v, mkReader rest errs)
    end = Ok (true, x, mkReader rest errs)) ->
  reads_as (S n) x (c :: t).
Proof.
  intros Hc Hb Ht Hty H. split; [done|]. intros lead fuel nodes v rest errs Hl He Hf Hd. rewrite length_app in Hf. cbn [length] in Hf.
  destruct fuel as [|fuel]; [lia|]. specialize (H fuel nodes v rest errs He ltac:(lia) ltac:(lia)).
  cbn [readValue]. rewrite decide_False by lia. cbn [current_ app].
  rewrite (skipCommentTokens_token (lead ++ c :: t ++ rest) true (mkToken ty [c]) (t ++ rest))
    by (done || (rewrite readToken_space by done; by apply punct_token)). cbn [type_ text_].
  destruct ty; try discriminate H; exact H.
Qed.

Lemma starts_rest t l : starts t -> exists c t', t ++ l = c :: t' /\ json_space c = false /\ c <> "]"%char.
Proof. destruct t as [|c t]; [done|]. intros [? ?]. by exists c, (t ++ l). Qed.

Lemma array_reads n ws xs ts :
  Forall2 (reads_as n) xs ts -> space ws -> reads_as (S n) (arrayValue xs) ("["%char :: join ws ts ++ ["]"%char]).
Proof.
  intros H Hws. apply (open_reads n _ _ _ tokenArrayBegin); [done|done|done|done|]. intros fuel nodes v rest errs He Hf Hd.
  rewrite <- app_assoc. cbn [app]. destruct (decide (ts = [])) as [->|Hne]; [by apply Forall2_nil_inv_r in H as ->|].
  pose proof (readArray_join n ws xs ts H Hne Hws [] fuel nodes [] rest errs ltac:(constructor)) as Hr. rewrite length_app in Hf. cbn [length] in Hf.
  specialize (Hr ltac:(cbn [app]; lia) ltac:(lia)).
  assert (Hs : exists c t', join ws ts ++ "]"%char :: rest = c :: t' /\ json_space c = false /\ c <> "]"%char).
  { destruct H as [|x t xs ts [Hst _] H]; [done|]. destruct ts as [|t2 ts]; [by apply starts_rest|].
    rewrite join_cons, <- app_assoc. by apply starts_rest. }
  cbn [app] in Hr. destruct Hs as (c & t' & E & Hc & Hb). rewrite E in *. cbn [skipSpaces]. rewrite Hc.
  rewrite <- Hr. destruct c as [[] [] [] [] [] [] [] []]; try reflexivity. by destruct Hb.
Qed.

Lemma object_reads n ws kxs us :
  Forall2 (member_reads n) kxs us -> space ws ->
  reads_as (S n) (objectValue (assign_all [] kxs)) ("{"%char :: join ws us ++ ["}"%char]).
Proof.
  intros H Hws. apply (open_reads n _ _ _ tokenObjectBegin); [done|done|done|done|]. intros fuel nodes v rest errs He Hf Hd.
  rewrite <- app_assoc. cbn [app]. rewrite length_app in Hf. cbn [length] in Hf.
  destruct (decide (us = [])) as [->|Hne].
  - apply Forall2_nil_inv_r in H as ->. destruct fuel as [|fuel]; [lia|]. cbn [readObject join app current_].
    rewrite (skipCommentTokens_token _ _ _ _ (punct_token "}" tokenObjectEnd rest eq_refl eq_refl)) by done. done.
  - by apply (readObject_join n ws kxs us H Hne Hws fuel nodes EmptyString [] [] rest errs
      ltac:(constructor) ltac:(cbn [app]; lia) ltac:(lia)).
Qed.

Lemma Forall_choice {A B} (P : A -> B -> Prop) l : Forall (fun x => exists y, P x y) l -> exists l', Forall2 P l l'.
Proof. induction 1 as [|x l [y Hy] _ [l' IH]]; eauto. Qed.

Lemma sorted_keys_fmap {A B} (f : A -> B) (m : list (string * A)) : sorted_keys m -> sorted_keys ((fun kv => (kv.1, f kv.2)) <$> m).
Proof. unfold sorted_keys. rewrite <- list_fmap_compose. done. Qed.

Lemma reads_parse d x t root tail :
  reads_as d x t -> (d <= stackLimit)%nat -> ends tail -> parse (t ++ tail) root = Ok (true, x, []).
Proof.
  intros [_ Hr] Hd Ht. unfold parse. pose proof (Hr [] (2 * length (t ++ tail) + 3)%nat 1%nat root tail [] ltac:(constructor) Ht
    ltac:(cbn [app]; rewrite length_app; lia) ltac:(lia)) as H. cbn [app] in H. by rewrite H.
Qed.

(** What is written is read back. *)
Lemma written n : forall j, writable n j -> exists t, dump j = Ok t /\ reads_as n (to_value j) t.
Proof.
  induction n as [|n IH]; intros j Hj; inversion Hj; subst.
  - eexists. split; [reflexivity|apply null_reads].
  - apply boolean_reads.
  - apply integer_reads. lia.
  - apply integer_reads. lia.
  - by apply float_reads.
  - by apply string_reads.
  - destruct (Forall_choice (fun x t => dump x = Ok t /\ reads_as n (to_value x) t) l) as (ts & Hts).
    { eapply Forall_impl; [done|]. exact IH. }
    eexists. split.
    + cbn [dump]. rewrite (separated_join dump l ts); [reflexivity|]. eapply Forall2_impl; [done|]. by intros x t [? _].
    + cbn [to_value app]. apply array_reads; [|constructor]. apply Forall2_fmap_l. eapply Forall2_impl; [done|]. by intros x t [_ ?].
  - set (f := fun kv : string * Json => k ← quoted kv.1; v ← dump kv.2; Ok (k ++ ":"%char :: v)).
    destruct (Forall_choice (fun kv u => f kv = Ok u /\ member_reads n (kv.1, to_value kv.2) u) m) as (us & Hus).
    { eapply Forall_impl; [done|]. intros [k x] [Hk Hx]. cbn [fst snd] in *. destruct (IH x Hx) as (t & Ht & Hr).
      destruct (quoted_spec k Hk) as (q & Hq & _). exists (q ++ ":"%char :: t). split.
      - unfold f. cbn [fst snd]. rewrite Hq. cbn [mbind outcome_bind]. by rewrite Ht.
      - split; [done|]. exists t. split; [by exists q|done]. }
    eexists. split.
    + cbn [dump]. fold f. rewrite (separated_join f m us); [reflexivity|]. eapply Forall2_impl; [done|]. by intros x t [? _].
    + cbn [to_value app]. change (objectValue ?k) with (objectValue ([] ++ k)).
      rewrite <- assign_all_sorted by (by apply sorted_keys_fmap). apply object_reads; [|constructor].
      apply Forall2_fmap_l. eapply Forall2_impl; [done|]. by intros x t [_ ?].
Qed.

(** ** Objects built member by member *)
Lemma compare_lt_trans a : forall b c, String.compare a b = Lt -> String.compare b c = Lt -> String.compare a c = Lt.
Proof.
  induction a as [|x a IH]; intros [|y b] [|z c]; cbn; try done. unfold Ascii.compare.
  destruct (N.compare_spec (Ascii.N_of_ascii x) (Ascii.N_of_ascii y)) as [E1|E1|E1],
    (N.compare_spec (Ascii.N_of_ascii y) (Ascii.N_of_ascii z)) as [E2|E2|E2]; intros H1 H2; try done;
    destruct (N.compare_spec (Ascii.N_of_ascii x) (Ascii.N_of_ascii z)) as [E3|E3|E3]; try lia; try done.
  by apply (IH b).
Qed.

Lemma key_lt_trans a b c : key_lt a b = true -> key_lt b c = true -> key_lt a c = true.
Proof.
  unfold key_lt. intros H1 H2. destruct (String.compare a b) eqn:E1, (String.compare b c) eqn:E2; try done.
  by rewrite (compare_lt_trans a b c).
Qed.

Lemma key_lt_total a b : a <> b -> key_lt b a = false -> key_lt a b = true.
Proof.
  unfold key_lt. intros Hne H. pose proof (String.compare_antisym a b) as Ha.
  destruct (String.compare a b) eqn:E; [by apply String.compare_eq_iff in E|done|].
  by destruct (String.compare b a).
Qed.

Lemma assign_Forall {A} (P : string * A -> Prop) m key v : Forall P m -> P (key, v) -> Forall P (assign m key v).
Proof.
  intros Hm Hp. induction Hm as [|[k w] m Hk Hm IH]; cbn [assign]; [by constructor|].
  case_decide; [by constructor|]. case_match; by repeat constructor.
Qed.

Lemma assign_sorted {A} (m : list (string * A)) key v : sorted_keys m -> sorted_keys (assign m key v).
Proof.
  unfold sorted_keys. induction m as [|[k w] m IH]; intros Hs; cbn [assign]; [repeat constructor|].
  cbn [fmap list_fmap fst] in Hs. apply StronglySorted_inv in Hs as [Hs Hk]. case_decide as E.
  { subst k. by constructor. }
  destruct (key_lt key k) eqn:Hlt; cbn [fmap list_fmap fst].
  - constructor; [by constructor|]. constructor; [done|]. eapply Forall_impl; [done|]. intros k' Hk'. by eapply key_lt_trans.
  - constructor; [by apply IH|].
    assert (Hall : Forall (fun kv => key_lt k kv.1 = true) (assign m key v)).
    { apply assign_Forall; [exact (proj1 (Forall_fmap fst (fun b => key_lt k b = true) m) Hk)|]. by apply key_lt_total. }
    exact (proj2 (Forall_fmap fst (fun b => key_lt k b = true) _) Hall).
Qed.

Lemma member_cons {A} (k : string) (w : A) m key : member ((k, w) :: m) key = if decide (k = key) then Some w else member m key.
Proof.
  unfold member. cbn [list_find fst]. destruct (decide (k = key)); [done|].
  by destruct (list_find _ m) as [[i x]|].
Qed.

Lemma member_assign {A} (m : list (string * A)) key v k :
  member (assign m key v) k = if decide (k = key) then Some v else member m k.
Proof.
  induction m as [|[k0 w] m IH]; cbn [assign].
  { rewrite member_cons. repeat case_decide; congruence. }
  destruct (decide (k0 = key)); [|destruct (key_lt key k0)]; rewrite !member_cons, ?IH; repeat case_decide; congruence.
Qed.

(** The members of an object, or of null. *)
Definition members (j : Json) : list (string * Json) := match j with JObject m => m | _ => [] end.

(** An object under construction. *)
Definition building (n : nat) (j : Json) : Prop := writable (S n) j /\ (j = JNull \/ exists m, j = JObject m).

Lemma building_null n : building n JNull.
Proof. split; [constructor|by left]. Qed.

Lemma json_set_building n j key v :
  building n j -> ascii_string key -> writable n v ->
  exists j', json_set j key v = Ok j' /\ building n j' /\
    forall k, member (members j') k = if decide (k = key) then Some v else member (members j) k.
Proof.
  intros [Hj [->|[m ->]]] Hk Hv; eexists; (split; [reflexivity|]).
  - split; [|intros k; cbn [members]; rewrite member_cons; repeat case_decide; congruence].
    split; [|by eauto]. constructor; repeat constructor; done.
  - split; [|intros k; apply member_assign]. split; [|by eauto]. inversion Hj; subst. constructor; [|by apply assign_sorted].
    by apply assign_Forall.
Qed.

Lemma member_to_value m k :
  member ((fun kv : string * Json => (kv.1, to_value kv.2)) <$> m) k = to_value <$> member m k.
Proof.
  induction m as [|[k0 x] m IH]; [done|]. cbn [fmap list_fmap fst snd]. rewrite !member_cons. by case_decide.
Qed.

(** Access by name to the value that was read. *)
Lemma at_key_object j k : (j = JNull \/ exists m, j = JObject m) ->
  at_key (to_value j) k = Ok (default nullValue (to_value <$> member (members j) k)).
Proof. intros [->|[m ->]]; [done|]. cbn [to_value at_key members]. by rewrite member_to_value. Qed.

(** C30. Whatever json.hpp writes for a value with ASCII text, integers of 64 bits and
    numbers in normal form, nested at most a thousand levels deep, jsoncpp reads
    without an error, and it holds the same value: the same members in the same
    order, the same integers, and bit for bit the same floating-point numbers (an
    infinity or a NaN is written as null). *)
Theorem json_roundtrip (j : Json) (root : Value) :
  writable stackLimit j -> exists t, dump j = Ok t /\ parse t root = Ok (true, to_value j, []).
Proof.
  intros Hj. destruct (written stackLimit j Hj) as (t & Ht & Hr). exists t. split; [done|].
  rewrite <- (app_nil_r t). by apply (reads_parse stackLimit).
Qed.

Lemma json_roundtrip_witness :
  let j := JObject [("average_bandwidth"%string, JFloat (decimal false 17066667 (-6)));
                    ("hits"%string, JArray [JUnsigned 18446744073709551615; JInteger (-7); JNull])] in
  exists t, dump j = Ok t /\
    soa t = "{" +:+ String "034" ("average_bandwidth" +:+ String "034" (":17.066667," +:+ String "034" ("hits" +:+
      String "034" ":[18446744073709551615,-7,null]}"))) /\
    parse t nullValue = Ok (true, to_value j, []).
Proof.
  intros j. destruct (json_roundtrip j nullValue) as (t & Ht & Hr).
  - apply (writable_object 999).
    + repeat constructor; try (vm_compute; done); cbn; try lia; try (apply decimal_valid).
    + repeat constructor.
  - exists t. split_and!; [done| |done]. assert (E : dump j = Ok t) by done. vm_compute in E. injection E as <-. reflexivity.
Defined.
