(* ===== verification/Inputs.v ===== *)
(** * The inputs of a run (src/preprocessor.cc, src/main.cc)

    The text side of the program: [std::getline] over a stream, [stoi], the
    parameter file ([ReadIni], [ParseIni]), the graph and feature files
    ([ReadData]), the list of pinned vertices ([ReadDAVC]) and the command-line
    options ([GetOption]).  The file system is a function from paths to contents;
    [None] is a file that cannot be opened. *)

From stdpp Require Import base tactics list list_numbers numbers strings gmap.
From Stdlib Require Import ZArith Lia Ascii.
From S2P Require Import Prelude Common Float32 IniReader Preprocess.

Definition newline : ascii := "010".

(** ** Streams *)
Record istream := mkIstream { rest : string; eofbit : bool }.

Definition open_stream (s : string) : istream := mkIstream s false.

(** The characters before the delimiter and, if it was found, those behind it. *)
Fixpoint take_until (delim : ascii) (s : string) : string * option string :=
  match s with
  | EmptyString => (EmptyString, None)
  | String c s' =>
      if decide (c = delim) then (EmptyString, Some s')
      else let '(l, r) := take_until delim s' in (String c l, r)
  end.

(** [getline(is, line, delim)]: whether it succeeded, the new [line], the stream.
    At the end of the file [line] keeps its value; a line that ends with the file
    counts only if it is not empty. *)
Definition getline (delim : ascii) (line : string) (st : istream) : bool * string * istream :=
  if eofbit st then (false, line, st)
  else
    match take_until delim (rest st) with
    | (l, Some r) => (true, l, mkIstream r false)
    | (l, None) => (bool_decide (l <> EmptyString), l, mkIstream EmptyString true)
    end.

(** [while (getline(is, line, delim))]: the lines in order.  Every round removes a
    character or ends the stream, so the length of the text bounds them. *)
Fixpoint getline_all (fuel : nat) (delim : ascii) (st : istream) : list string :=
  match fuel with
  | O => []
  | S fuel =>
      let '(ok, line, st) := getline delim EmptyString st in
      if (ok : bool) then line :: getline_all fuel delim st else []
  end.

Definition lines_of (delim : ascii) (s : string) : list string :=
  getline_all (S (String.length s)) delim (open_stream s).

(** ** Numbers *)

(** The optional sign behind leading white space. *)
Definition sign_of (s : string) : bool * string :=
  match skip_space s with
  | String "-" t => (true, t)
  | String "+" t => (false, t)
  | t => (false, t)
  end.

(** [stoi(s)]: a decimal number; what follows it is ignored. *)
Definition stoi (s : string) : outcome Z :=
  let '(neg, t) := sign_of s in
  let '(used, n) := digits 10 t 0 0 in
  if decide (used = 0%nat) then Fault InvalidArgument
  else
    let n := if (neg : bool) then - n else n in
    if decide (- 2 ^ 31 <= n < 2 ^ 31) then Ok n else Fault OutOfRange.

(** [stoull(s, NULL, 0)]: the base is read from the prefix, a negative number
    wraps around. *)
Definition stoull (s : string) : outcome Z :=
  let '(neg, t) := sign_of s in
  let '(used, n) := strtol_digits t in
  if decide (used = 0%nat) then Fault InvalidArgument
  else if decide (n < 2 ^ 64) then Ok (if (neg : bool) then u64 (- n) else n) else Fault OutOfRange.

Fixpoint stoi_all (l : list string) : outcome (list Z) :=
  match l with
  | [] => Ok []
  | s :: l => n ← stoi s; ns ← stoi_all l; Ok (n :: ns)
  end.

(** [while (getline(ss, temp, ' ')) v.push_back(stoi(temp))] *)
Definition read_ints (line : string) : outcome (list Z) := stoi_all (lines_of " " line).

(** ** The parameter file *)

(** A line of the file as a key and a value.  Without a delimiter [find] returns
    [npos], [npos + 1] is 0 and both are the whole line. *)
Definition ini_entry (line : string) : string * string :=
  let delimiter := match String.index 0 " = " line with Some _ => " = "%string | None => "="%string end in
  match String.index 0 delimiter line with
  | Some i => (String.substring 0 i line,
               String.substring (i + String.length delimiter) (String.length line) line)
  | None => (line, line)
  end.

Definition ReadIni (file : option string) (m_table : gmap string string) : outcome (gmap string string) :=
  match file with
  | None => Fault InvalidArgument
  | Some s => Ok (fold_left (fun t l => let '(k, v) := ini_entry l in <[k := v]> t) (lines_of newline s) m_table)
  end.

Definition Contain (m_table : gmap string string) (name : string) : bool := bool_decide (is_Some (m_table !! name)).

(** A value with a quote anywhere loses its first and its last character. *)
Definition GetString (m_table : gmap string string) (name : string) : outcome string :=
  match m_table !! name with
  | None => Fault InvalidArgument
  | Some v =>
      Ok (match String.index 0 (String (ascii_of_nat 34) EmptyString) v with
          | None => v
          | Some _ => String.substring 1 (String.length v - 2) v
          end)
  end.

Definition GetInt (m_table : gmap string string) (name : string) : outcome Z :=
  match m_table !! name with None => Fault InvalidArgument | Some v => stoi v end.

Definition GetUint64 (m_table : gmap string string) (name : string) : outcome Z :=
  match m_table !! name with None => Fault InvalidArgument | Some v => stoull v end.

(** [split]: the non-empty pieces of [str] between occurrences of [delim].  Every
    round moves [prev] forward, so the length of the string bounds them. *)
Fixpoint split_from (fuel : nat) (str delim : string) (prev : nat) : list string :=
  match fuel with
  | O => []
  | S fuel =>
      let pos := match String.index prev delim str with Some p => p | None => String.length str end in
      let token := String.substring prev (pos - prev) str in
      let next := (pos + String.length delim)%nat in
      let more := if decide (pos < String.length str /\ next < String.length str)%nat
                  then split_from fuel str delim next else [] in
      match token with EmptyString => more | _ => token :: more end
  end.

Definition split (str delim : string) : list string := split_from (S (String.length str)) str delim 0.

(** [back()] and [front()] of a vector of strings *)
Definition vback (l : list string) : outcome string :=
  match last l with Some s => Ok s | None => Fault Undefined end.
Definition vfront (l : list string) : outcome string :=
  match head l with Some s => Ok s | None => Fault Undefined end.

(** [to_string(n)], also what [operator<<] prints for an integer. *)
Definition digit_char (d : Z) : ascii := ascii_of_nat (48 + Z.to_nat d).

Fixpoint show_digits (fuel : nat) (n : Z) : string :=
  match fuel with
  | O => EmptyString
  | S fuel =>
      if n <? 10 then String (digit_char n) EmptyString
      else show_digits fuel (n / 10) +:+ String (digit_char (n mod 10)) EmptyString
  end.

Definition show_int (n : Z) : string :=
  if n <? 0 then String "-" (show_digits (S (Z.to_nat (Z.log2 (- n)))) (- n))
  else show_digits (S (Z.to_nat (Z.log2 n))) n.

Record LogInfo := mkLogInfo {
  l_mode : Z;
  l_x_unit : Z;
  l_engine_n : Z;
  l_mem_type : string;
  l_cache_size : Z;
  l_dataset : string;
  l_lac_width : Z;
  l_feature_length : Z;
  l_urb : Z;
  l_bf : Z;
  l_tiling_info : string;
  l_cycle : Z;
  l_f_frag_access : Z;
  l_f_ele_access : Z;
  l_o_access : Z;
  l_g_access : Z;
  l_bandwidth : string;   (* the printed form of a float *)
  l_energy : string       (* the printed form of a double *)
}.

#[export] Instance LogInfo_fields : Fields LogInfo := fun l =>
  mkLogInfo (l_mode l) (l_x_unit l) (l_engine_n l) (l_mem_type l) (l_cache_size l) (l_dataset l)
    (l_lac_width l) (l_feature_length l) (l_urb l) (l_bf l) (l_tiling_info l) (l_cycle l)
    (l_f_frag_access l) (l_f_ele_access l) (l_o_access l) (l_g_access l) (l_bandwidth l) (l_energy l).

(** An [int] computation: overflow is undefined. *)
Definition int_op (n : Z) : outcome Z := if decide (- 2 ^ 31 <= n < 2 ^ 31) then Ok n else Fault Undefined.

(** [int] division *)
Definition int_div (a b : Z) : outcome Z := if decide (b = 0) then Fault Undefined else int_op (Z.quot a b).

Definition ParseIni (m_table : gmap string string) (a : ArchInfo) (log : LogInfo) : outcome (ArchInfo * LogInfo) :=
  size ← GetInt m_table "CacheSize";
  unit ← GetString m_table "UnitSize";
  size ← int_op (if decide (unit = "KB"%string) then size * 1024 else size * (1024 * 1024));
  way ← GetInt m_table "CacheWay";
  sets ← int_div size way;
  sets ← int_div sets CACHE_LINE_BYTE;
  engines ← GetInt m_table "NumberOfEngine";
  n_bf ← GetInt m_table "BF";
  mem ← GetString m_table "MemoryType";
  ini_name ← vback (split mem "/");
  short ← vfront (split ini_name "_");
  Ok (a <| cache_size := size |> <| cache_way := way |> <| cache_set := sets |> <| n_of_engine := engines |>
        <| bf := n_bf |> <| d_value_addr_start := 0 |> <| mem_type := mem |>,
      log <| l_engine_n := engines |> <| l_mem_type := short |>
          <| l_cache_size := Z.quot size (1024 * 1024) |> <| l_bf := n_bf |>).

(** ** The data files *)

(** The first two lines of the graph file.  When the file ends with the first line
    the second [getline] leaves it in [line]. *)
Definition read_graph (s : string) : outcome (list Z * list Z) :=
  let '(_, line, st) := getline newline EmptyString (open_stream s) in
  rows ← read_ints line;
  let '(_, line, _) := getline newline line st in
  cols ← read_ints line;
  Ok (rows, cols).

Fixpoint read_matrix (l : list string) : outcome (list (list Z)) :=
  match l with
  | [] => Ok []
  | line :: l => r ← read_ints line; rs ← read_matrix l; Ok (r :: rs)
  end.

(** [ReadData]; [size() - 1] of an empty vector converts to -1, [xw[0]] of an
    empty matrix is undefined. *)
Definition ReadData (a_data xw_data : option string) (p : Pre) (log : LogInfo) : outcome (Pre * LogInfo) :=
  a_file ← match a_data with None => Fault InvalidArgument | Some s => Ok s end;
  '(rows, cols) ← read_graph a_file;
  let vertices := vsize rows - 1 in
  let d := (p_data p) <| num_v := vertices |> <| num_e := vsize cols |> <| a_h := vertices |>
             <| a_w := vertices |> <| x_h := vertices |> in
  xw_file ← match xw_data with None => Fault InvalidArgument | Some s => Ok s end;
  new ← read_matrix (lines_of newline xw_file);
  let xw := p_xw p ++ new in
  first ← vget xw 0;
  let width := vsize first in
  turb ← ceil_div width CACHE_LINE_COUNT;
  u ← ceil_div2 width (bf (p_arch p)) CACHE_LINE_COUNT;
  Ok (p <| p_row_ptr := p_row_ptr p ++ [rows] |> <| p_col_idx := p_col_idx p ++ [cols] |> <| p_xw := xw |>
        <| p_data := d <| w_w := width |> <| w_h := width |> <| x_w := width |> <| total_urb := turb |> |>
        <| p_arch := (p_arch p) <| urb := u |> |>,
      log <| l_feature_length := width |> <| l_urb := u |>).

(** [ReadDAVC]: a missing file is no error. *)
Definition ReadDAVC (fs : string -> option string) (davc_path : string) (davc_list : gset Z) : outcome (gset Z) :=
  if decide (davc_path = EmptyString) then Ok davc_list
  else
    match fs davc_path with
    | None => Ok davc_list
    | Some s =>
        let '(_, line, _) := getline newline EmptyString (open_stream s) in
        for_each (fun temp l => v ← stoi temp; Ok ({[ v ]} ∪ l)) (lines_of " " line) davc_list
    end.

(** ** The command line *)
Record F_PATH := mkF_PATH {
  f_ini : string;
  f_a_data : string;
  f_xw_data : string;
  f_csv_path : string;
  f_davc_path : string
}.

#[export] Instance F_PATH_fields : Fields F_PATH := fun f =>
  mkF_PATH (f_ini f) (f_a_data f) (f_xw_data f) (f_csv_path f) (f_davc_path f).

(** The globals and the paths of a run. *)
Record Run := mkRun {
  r_path : F_PATH;
  r_pre : Pre;
  r_log : LogInfo;
  r_davc : gset Z
}.

#[export] Instance Run_fields : Fields Run := fun r => mkRun (r_path r) (r_pre r) (r_log r) (r_davc r).

(** What [getopt] reports: an option with its argument, or ['?'] with [optopt]. *)
Inductive opt_event := Opt (opt : ascii) (optarg : string) | BadOpt (optopt : ascii).

(** The conversion of an [int] to an enumeration: other values are undefined. *)
Definition to_F_MODE (n : Z) : outcome F_MODE :=
  match n with 0 => Ok X_CMP | 1 => Ok MAT | 2 => Ok CSR | 3 => Ok X_FULL_CMP | _ => Fault Undefined end.
Definition to_GNN_MODE (n : Z) : outcome GNN_MODE :=
  match n with 0 => Ok GCN | 1 => Ok OTHER | _ => Fault Undefined end.

(** The base name of a path up to its first dot. *)
Definition dataset_of (path : string) : outcome string :=
  file_name ← vback (split path "/");
  vfront (split file_name ".").

Definition set_arch (f : ArchInfo -> ArchInfo) (r : Run) : Run := r <| r_pre := (r_pre r) <| p_arch := f (p_arch (r_pre r)) |> |>.
Definition set_data (f : DataInfo -> DataInfo) (r : Run) : Run := r <| r_pre := (r_pre r) <| p_data := f (p_data (r_pre r)) |> |>.

Definition GetOption (e : opt_event) (r : Run) : outcome Run :=
  match e with
  | Opt "i" arg => Ok (r <| r_path := (r_path r) <| f_ini := arg |> |>)
  | Opt "x" arg => Ok (r <| r_path := (r_path r) <| f_xw_data := arg |> |>)
  | Opt "a" arg =>
      name ← dataset_of arg;
      Ok (r <| r_path := (r_path r) <| f_a_data := arg |> |> <| r_log := (r_log r) <| l_dataset := name |> |>)
  | Opt "t" arg => n ← stoi arg; Ok (set_data (fun d => d <| n_tiles := n |>) r)
  | Opt "c" arg => Ok (r <| r_path := (r_path r) <| f_csv_path := arg |> |>)
  | Opt "m" arg =>
      n ← stoi arg;
      m ← to_F_MODE n;
      Ok (set_arch (fun a => a <| mode := m |>) r <| r_log := (r_log r) <| l_mode := n |> |>)
  | Opt "l" arg => n ← stoi arg; Ok (set_arch (fun a => a <| lac_width := n |>) r)
  | Opt "u" arg =>
      n ← stoi arg;
      Ok (set_arch (fun a => a <| x_unit := n |>) r <| r_log := (r_log r) <| l_x_unit := n |> |>)
  | Opt "g" arg => n ← stoi arg; m ← to_GNN_MODE n; Ok (set_arch (fun a => a <| gnn_mode := m |>) r)
  | Opt "d" arg => Ok (r <| r_path := (r_path r) <| f_davc_path := arg |> |>)
  | Opt _ _ => Ok r
  | BadOpt c =>
      if decide (c ∈ ["t"; "c"; "m"; "l"; "u"; "g"; "d"]%char) then Ok r else Fault ExitFailure
  end.

(** The globals before [main] reads its options. *)
Definition main_defaults : Run :=
  mkRun (mkF_PATH EmptyString EmptyString EmptyString EmptyString EmptyString)
    (mkPre (mkArchInfo 0 0 0 0 0 0 32 32 X_CMP GCN 0 0 0 0 0 EmptyString EmptyString)
           (mkDataInfo 0 0 0 0 0 0 1 0 0 0) [] [] [] [] [] 0)
    (mkLogInfo 0 0 0 EmptyString 0 EmptyString 0 0 0 0 EmptyString 0 0 0 0 0 EmptyString EmptyString) ∅.

(** The files of the constructor of [Preprocessor], then its phases; [oob] is what
    an element behind the end of a feature row reads as. *)
Definition Preprocessor_new (oob : Z -> Z -> Z) (fs : string -> option string) (r : Run) : outcome Run :=
  m_table ← ReadIni (fs (f_ini (r_path r))) ∅;
  '(a, log) ← ParseIni m_table (p_arch (r_pre r)) (r_log r);
  '(p, log) ← ReadData (fs (f_a_data (r_path r))) (fs (f_xw_data (r_path r))) ((r_pre r) <| p_arch := a |>) log;
  davc ← ReadDAVC fs (f_davc_path (r_path r)) (r_davc r);
  p ← Preprocess oob p;
  Ok (r <| r_pre := p |> <| r_log := log <| l_tiling_info := show_int (n_tiles (p_data p)) |> |> <| r_davc := davc |>).

(** [main] up to the construction of the controller. *)
Definition load_run (oob : Z -> Z -> Z) (fs : string -> option string) (opts : list opt_event) : outcome Run :=
  r ← for_each GetOption opts main_defaults;
  Preprocessor_new oob fs r.

(** ** Writing what the program reads *)

Fixpoint spaced (l : list string) : string :=
  match l with
  | [] => EmptyString
  | [s] => s
  | s :: l => s +:+ String " " (spaced l)
  end.

Fixpoint ended (l : list string) : string :=
  match l with
  | [] => EmptyString
  | s :: l => s +:+ String newline (ended l)
  end.

Definition show_ints (l : list Z) : string := spaced (show_int <$> l).

Definition graph_file (rows cols : list Z) : string := ended [show_ints rows; show_ints cols].
Definition matrix_file (m : list (list Z)) : string := ended (show_ints <$> m).

(** ** Lemmas on text *)

(** The character does not occur in the string. *)
Fixpoint free (c : ascii) (s : string) : Prop :=
  match s with EmptyString => True | String x s => x <> c /\ free c s end.

Lemma free_app c s t : free c s -> free c t -> free c (s +:+ t).
Proof. induction s as [|x s IH]; [done|]. rewrite string_app_cons. intros [? ?] ?. split; auto. Qed.

Lemma take_until_app c s t : free c s -> take_until c (s +:+ String c t) = (s, Some t).
Proof.
  induction s as [|x s IH]; intros Hf.
  { change (EmptyString +:+ String c t) with (String c t). cbn [take_until]. by rewrite decide_True. }
  destruct Hf as [Hx Hs].
  rewrite string_app_cons. cbn [take_until]. by rewrite decide_False, (IH Hs) by done.
Qed.

Lemma take_until_free c s : free c s -> take_until c s = (s, None).
Proof.
  induction s as [|x s IH]; cbn; [done|]. intros [Hx Hs]. by rewrite decide_False, (IH Hs) by done.
Qed.

(** Lines that end with a newline, empty ones included. *)
Lemma lines_of_ended l : Forall (free newline) l -> lines_of newline (ended l) = l.
Proof.
  intros Hl. unfold lines_of, open_stream.
  assert (H : forall fuel, (String.length (ended l) < fuel)%nat ->
    getline_all fuel newline (mkIstream (ended l) false) = l).
  { induction Hl as [|s l Hs _ IH]; intros [|fuel] Hf; [lia|done|lia|].
    cbn [getline_all ended] in *. unfold getline. cbn [eofbit rest]. rewrite take_until_app by done.
    f_equal. apply IH. rewrite string_length_app in Hf. cbn [String.length] in Hf. lia. }
  apply H. lia.
Qed.

(** Tokens between spaces. *)
Lemma lines_of_spaced l :
  Forall (fun s => free " " s /\ s <> EmptyString) l -> lines_of " " (spaced l) = l.
Proof.
  intros Hl. unfold lines_of, open_stream.
  assert (H : forall fuel, (String.length (spaced l) < fuel)%nat ->
    getline_all fuel " " (mkIstream (spaced l) false) = l).
  { induction Hl as [|s l [Hs Hne] _ IH]; intros [|fuel] Hf; [lia|done|lia|].
    cbn [getline_all] in *. unfold getline. cbn [eofbit rest]. destruct l as [|t l].
    - cbn [spaced] in *. rewrite take_until_free by done. rewrite bool_decide_eq_true_2 by done.
      by destruct fuel.
    - cbn [spaced] in *. rewrite take_until_app by done. f_equal. apply IH.
      rewrite string_length_app in Hf. cbn [String.length] in Hf. lia. }
  apply H. lia.
Qed.

(** ** Lemmas on numbers *)
Lemma digit_char_spec d : 0 <= d < 10 -> digit (digit_char d) = Some d /\ is_space (digit_char d) = false /\
  digit_char d <> " "%char /\ digit_char d <> newline /\ digit_char d <> "-"%char /\ digit_char d <> "+"%char.
Proof.
  intros Hd. assert (Hc : d ∈ seqZ 0 10) by (apply elem_of_seqZ; lia).
  repeat (apply elem_of_cons in Hc as [->|Hc]; [split_and!; (reflexivity || discriminate)|]). by apply elem_of_nil in Hc.
Qed.

Lemma digits_char d t n u : 0 <= d < 10 -> digits 10 (String (digit_char d) t) n u = digits 10 t (n * 10 + d) (S u).
Proof.
  intros Hd. cbn [digits]. unfold digit_in. destruct (digit_char_spec d Hd) as [-> _]. by rewrite decide_True by lia.
Qed.

Lemma show_digits_read fuel : forall n t, (0 < fuel)%nat -> 0 <= n -> n < 2 ^ Z.of_nat fuel ->
  exists k, digits 10 (show_digits fuel n +:+ t) 0 0 = digits 10 t n (S k).
Proof.
  induction fuel as [|fuel IH]; intros n t Hf H0 Hn; [lia|].
  rewrite Nat2Z.inj_succ, Z.pow_succ_r in Hn by lia.
  cbn [show_digits]. destruct (Z.ltb_spec n 10).
  - exists 0%nat. rewrite string_app_cons, digits_char by lia. by rewrite Z.add_0_l.
  - destruct (IH (n / 10) (String (digit_char (n mod 10)) t)) as (k & E).
    { destruct fuel; [simpl in Hn; lia|lia]. }
    { apply Z.div_pos; lia. }
    { apply Z.div_lt_upper_bound; lia. }
    exists (S k). rewrite string_app_assoc, string_app_cons. change (EmptyString +:+ t) with t. rewrite E, digits_char by (apply Z.mod_pos_bound; lia).
    f_equal. pose proof (Z.div_mod n 10). lia.
Qed.

Lemma show_digits_free c fuel : forall n, 0 <= n -> (forall d, 0 <= d < 10 -> digit_char d <> c) ->
  free c (show_digits fuel n).
Proof.
  induction fuel as [|fuel IH]; intros n Hn Hc; [done|]. cbn [show_digits]. destruct (Z.ltb_spec n 10).
  - split; [apply Hc; lia|done].
  - apply free_app; [apply IH; [apply Z.div_pos; lia|done]|]. split; [apply Hc, Z.mod_pos_bound; lia|done].
Qed.

Lemma show_digits_head fuel : forall n, 0 <= n -> (0 < fuel)%nat ->
  n < 2 ^ Z.of_nat fuel -> exists d t, 0 <= d < 10 /\ show_digits fuel n = String (digit_char d) t.
Proof.
  induction fuel as [|fuel IH]; intros n Hn Hf Hl; [lia|]. cbn [show_digits].
  rewrite Nat2Z.inj_succ, Z.pow_succ_r in Hl by lia. destruct (Z.ltb_spec n 10).
  - exists n, EmptyString. split; [lia|done].
  - destruct (IH (n / 10)) as (d & t & Hd & ->).
    { apply Z.div_pos; lia. }
    { destruct fuel; [simpl in Hl; lia|lia]. }
    { apply Z.div_lt_upper_bound; lia. }
    exists d. eexists. split; [done|]. by rewrite string_app_cons.
Qed.

(** The fuel of [show_int] is enough. *)
Lemma log_fuel n : 0 <= n -> n < 2 ^ Z.of_nat (S (Z.to_nat (Z.log2 n))).
Proof.
  intros Hn. rewrite Nat2Z.inj_succ, Z2Nat.id by apply Z.log2_nonneg. destruct (decide (n = 0)) as [->|]; [done|].
  apply Z.log2_spec. lia.
Qed.

Lemma sign_of_digit d t : 0 <= d < 10 -> sign_of (String (digit_char d) t) = (false, String (digit_char d) t).
Proof.
  intros Hd. assert (Hc : d ∈ seqZ 0 10) by (apply elem_of_seqZ; lia).
  repeat (apply elem_of_cons in Hc as [->|Hc]; [reflexivity|]). by apply elem_of_nil in Hc.
Qed.

(** [stoi] reads back every [int]. *)
Lemma stoi_show n : - 2 ^ 31 <= n < 2 ^ 31 -> stoi (show_int n) = Ok n.
Proof.
  intros Hn. unfold stoi, show_int.
  assert (Hread : forall m, 0 <= m -> exists k, digits 10 (show_digits (S (Z.to_nat (Z.log2 m))) m) 0 0 = (S k, m)).
  { intros m Hm. destruct (show_digits_read (S (Z.to_nat (Z.log2 m))) m EmptyString) as (k & E);
      [lia|done|by apply log_fuel|]. exists k. by rewrite string_app_nil in E. }
  destruct (Z.ltb_spec n 0).
  - change (sign_of (String "-" ?t)) with (true, t). destruct (Hread (- n)) as (k & ->); [lia|].
    rewrite decide_False by done. cbv zeta. rewrite Z.opp_involutive. by rewrite decide_True by lia.
  - destruct (show_digits_head (S (Z.to_nat (Z.log2 n))) n) as (d & t & Hd & E); [lia|lia|by apply log_fuel|].
    destruct (Hread n) as (k & Hk); [lia|]. rewrite E in *. rewrite sign_of_digit by done. rewrite Hk.
    rewrite decide_False by done. by rewrite decide_True by lia.
Qed.

Lemma show_int_token n : free " " (show_int n) /\ free newline (show_int n) /\ show_int n <> EmptyString.
Proof.
  unfold show_int.
  assert (Hs : forall m, 0 <= m -> free " " (show_digits (S (Z.to_nat (Z.log2 m))) m) /\
    free newline (show_digits (S (Z.to_nat (Z.log2 m))) m)).
  { intros m Hm. split; apply show_digits_free; try done; intros d Hd; apply (digit_char_spec d Hd). }
  destruct (Z.ltb_spec n 0) as [Hn|Hn].
  - destruct (Hs (- n)) as [H1 H2]; [lia|]. split_and!; [split..|]; done.
  - destruct (Hs n) as [H1 H2]; [lia|]. split_and!; [done..|].
    destruct (show_digits_head (S (Z.to_nat (Z.log2 n))) n) as (d & t & _ & ->); [lia|lia|by apply log_fuel|done].
Qed.

Lemma spaced_free l : Forall (free newline) l -> free newline (spaced l).
Proof.
  induction 1 as [|s [|t l] Hs _ IH]; [done|done|]. change (spaced (s :: t :: l)) with (s +:+ String " " (spaced (t :: l))).
  apply free_app; [done|]. split; [done|exact IH].
Qed.

Definition int_range (n : Z) : Prop := - 2 ^ 31 <= n < 2 ^ 31.

Lemma read_show_ints l : Forall int_range l -> read_ints (show_ints l) = Ok l.
Proof.
  intros Hl. unfold read_ints, show_ints. rewrite lines_of_spaced.
  - induction Hl as [|n l Hn _ IH]; [done|]. rewrite fmap_cons. cbn [stoi_all]. rewrite stoi_show by done.
    cbn [mbind outcome_bind]. by rewrite IH.
  - apply Forall_fmap, Forall_true. intros n. destruct (show_int_token n) as (? & _ & ?). done.
Qed.

Lemma show_ints_line l : free newline (show_ints l).
Proof. apply spaced_free, Forall_fmap, Forall_true. intros n. apply show_int_token. Qed.

(** ** Lemmas on searching *)
Lemma substring_all s n : (String.length s <= n)%nat -> String.substring 0 n s = s.
Proof.
  revert n; induction s as [|x s IH]; intros [|n] Hn; cbn [String.length] in *; try done; [lia|].
  cbn [String.substring]. f_equal. apply IH. lia.
Qed.

Lemma substring_head k t : String.substring 0 (String.length k) (k +:+ t) = k.
Proof.
  induction k as [|x k IH]; [by destruct t|]. rewrite string_app_cons. cbn [String.length String.substring].
  by f_equal.
Qed.

Lemma substring_tail k t n : (String.length t <= n)%nat -> String.substring (String.length k) n (k +:+ t) = t.
Proof.
  intros Hn. induction k as [|x k IH]; [by apply substring_all|]. rewrite string_app_cons. exact IH.
Qed.

(** The delimiter with spaces is found behind a key without an equals sign. *)
Lemma index_spaced k v : free "=" k -> String.index 0 " = " (k +:+ " = " +:+ v) = Some (String.length k).
Proof.
  induction k as [|x k IH]; intros Hk; [by destruct v|]. destruct Hk as [Hx Hk]. specialize (IH Hk).
  rewrite string_app_cons. cbn [String.index]. rewrite IH.
  assert (Hp : String.prefix " = " (String x (k +:+ " = " +:+ v)) = false).
  { cbn [String.prefix]. destruct (ascii_dec " " x); [|done]. destruct k as [|y k]; [done|].
    rewrite string_app_cons. cbn [String.prefix]. destruct (ascii_dec "=" y) as [<-|]; [|done]. by destruct Hk. }
  by rewrite Hp.
Qed.

Lemma index_plain k v : free "=" k -> String.index 0 "=" (k +:+ "=" +:+ v) = Some (String.length k).
Proof.
  induction k as [|x k IH]; intros Hk; [by destruct v|]. destruct Hk as [Hx Hk]. specialize (IH Hk).
  rewrite string_app_cons. cbn [String.index]. rewrite IH.
  assert (Hp : String.prefix "=" (String x (k +:+ "=" +:+ v)) = false).
  { cbn [String.prefix]. by destruct (ascii_dec "=" x) as [<-|]. }
  by rewrite Hp.
Qed.

Lemma index_no_space v : free " " v -> String.index 0 " = " v = None.
Proof.
  induction v as [|x v IH]; intros Hv; [done|]. destruct Hv as [Hx Hv]. cbn [String.index].
  assert (Hp : String.prefix " = " (String x v) = false).
  { cbn [String.prefix]. by destruct (ascii_dec " " x) as [<-|]. }
  by rewrite Hp, IH.
Qed.

Lemma index_not_spaced k v : free "=" k -> free " " v -> String.index 0 " = " (k +:+ "=" +:+ v) = None.
Proof.
  intros Hk Hv. induction k as [|x k IH].
  - change (EmptyString +:+ "=" +:+ v) with (String "=" v). cbn [String.index].
    assert (Hp : String.prefix " = " (String "=" v) = false) by done. rewrite Hp. by rewrite index_no_space.
  - destruct Hk as [Hx Hk]. rewrite string_app_cons. cbn [String.index]. rewrite (IH Hk).
    assert (Hp : String.prefix " = " (String x (k +:+ "=" +:+ v)) = false).
    { cbn [String.prefix]. destruct (ascii_dec " " x); [|done]. destruct k as [|y k].
      - change (EmptyString +:+ "=" +:+ v) with (String "=" v). cbn [String.prefix].
        destruct (ascii_dec "=" "="); [|done]. destruct v as [|z v]; [done|]. destruct Hv as [Hz _]. cbn [String.prefix].
        by destruct (ascii_dec " " z) as [<-|].
      - rewrite string_app_cons. cbn [String.prefix]. destruct (ascii_dec "=" y) as [<-|]; [|done]. by destruct Hk. }
    by rewrite Hp.
Qed.

(** A parameter, written as [key = value] or as [key=value]. *)
Definition ini_line (e : bool * string * string) : string :=
  let '(b, k, v) := e in if b then k +:+ " = " +:+ v else k +:+ "=" +:+ v.

Definition ini_ok (e : bool * string * string) : Prop :=
  let '(b, k, v) := e in
  free "=" k /\ free newline k /\ free newline v /\ (b = false -> free " " v).

Lemma ini_entry_line b k v : ini_ok (b, k, v) -> ini_entry (ini_line (b, k, v)) = (k, v).
Proof.
  intros (Hk & _ & _ & Hv). unfold ini_entry, ini_line. destruct b.
  - rewrite index_spaced by done. rewrite index_spaced by done. rewrite substring_head. f_equal.
    rewrite <- string_app_assoc. change (String.length " = ") with 3%nat.
    replace (String.length k + 3)%nat with (String.length (k +:+ " = ")) by (by rewrite string_length_app).
    apply substring_tail. rewrite string_length_app. lia.
  - specialize (Hv eq_refl). rewrite index_not_spaced by done. rewrite index_plain by done. rewrite substring_head. f_equal.
    rewrite <- string_app_assoc. change (String.length "=") with 1%nat.
    replace (String.length k + 1)%nat with (String.length (k +:+ "=")) by (by rewrite string_length_app).
    apply substring_tail. rewrite string_length_app. lia.
Qed.

Lemma ini_line_free e : ini_ok e -> free newline (ini_line e).
Proof.
  destruct e as [[b k] v]. intros (_ & Hk & Hv & _). unfold ini_line.
  destruct b; (apply free_app; [done|]); (apply free_app; [by repeat split|done]).
Qed.

Definition ini_file (l : list (bool * string * string)) : string := ended (ini_line <$> l).

Definition ini_table (l : list (bool * string * string)) (t : gmap string string) : gmap string string :=
  fold_left (fun t e => <[e.1.2 := e.2]> t) l t.

Lemma ReadIni_file l t0 : Forall ini_ok l ->
  ReadIni (Some (ini_file l)) t0 = Ok (ini_table l t0).
Proof.
  intros Hl. unfold ReadIni, ini_file. rewrite lines_of_ended by (by apply Forall_fmap; eapply Forall_impl; [exact Hl|]; apply ini_line_free).
  f_equal. revert t0. induction Hl as [|[[b k] v] l He _ IH]; intros t0; [done|].
  rewrite fmap_cons. cbn [fold_left]. rewrite ini_entry_line by done. apply IH.
Qed.

(** Later lines do not touch other keys, and a key that comes once keeps its value. *)
Lemma ini_table_other l : forall t k, k ∉ l.*1.*2 -> ini_table l t !! k = t !! k.
Proof.
  unfold ini_table. induction l as [|[[b k1] v1] l IH]; intros t k Hk; [done|].
  rewrite !fmap_cons, not_elem_of_cons in Hk. destruct Hk as [Hne Hk]. cbn [fold_left]. rewrite (IH _ _ Hk).
  cbn [fst snd] in *. by rewrite lookup_insert_ne by done.
Qed.

Lemma ini_table_in l : forall t b k v, NoDup (l.*1.*2) -> (b, k, v) ∈ l -> ini_table l t !! k = Some v.
Proof.
  induction l as [|[[b0 k0] v0] l IH]; intros t b k v Hnd Hin; [by apply elem_of_nil in Hin|].
  rewrite !fmap_cons in Hnd. apply NoDup_cons in Hnd as [Hk0 Hnd]. cbn [fst snd] in Hk0.
  change (ini_table ((b0, k0, v0) :: l) t) with (ini_table l (<[k0 := v0]> t)).
  apply elem_of_cons in Hin as [[= -> -> ->]|Hin]; [|by apply (IH _ b)].
  rewrite ini_table_other by done. apply lookup_insert_eq.
Qed.

(** ** The properties *)

(** The parameter file is read back: a file of distinct keys, each line written
    as [key = value] or [key=value], gives a table with exactly these values,
    whatever was in it under other keys, and an integer value is the integer
    [GetInt] returns. *)
Theorem parameters_roundtrip l t0 :
  Forall ini_ok l -> NoDup (l.*1.*2) ->
  exists t, ReadIni (Some (ini_file l)) t0 = Ok t /\
    (forall b k v, (b, k, v) ∈ l -> t !! k = Some v) /\
    (forall k, k ∉ l.*1.*2 -> t !! k = t0 !! k) /\
    (forall b k n, (b, k, show_int n) ∈ l -> int_range n -> GetInt t k = Ok n).
Proof.
  intros Hl Hnd. eexists. split; [by apply ReadIni_file|]. split; [intros b k v; by apply ini_table_in|].
  split; [intros k; apply ini_table_other|].
  intros b k n Hk Hn. unfold GetInt. rewrite (ini_table_in l t0 b k (show_int n) Hnd Hk). by apply stoi_show.
Qed.

Lemma read_show_matrix m : Forall (Forall int_range) m -> read_matrix (show_ints <$> m) = Ok m.
Proof.
  induction 1 as [|r m Hr _ IH]; [done|]. rewrite fmap_cons. cbn [read_matrix]. rewrite read_show_ints by done.
  cbn [mbind outcome_bind]. by rewrite IH.
Qed.

Lemma read_graph_file rows cols :
  Forall int_range rows -> Forall int_range cols -> read_graph (graph_file rows cols) = Ok (rows, cols).
Proof.
  intros Hr Hc. unfold read_graph, graph_file, open_stream, getline. cbn [ended eofbit rest].
  rewrite take_until_app by apply show_ints_line. rewrite read_show_ints by done. cbn [mbind outcome_bind eofbit rest].
  rewrite take_until_app by apply show_ints_line. rewrite read_show_ints by done. done.
Qed.

(** What [ReadData] makes of its two files. *)
Definition read_pre (rows cols : list Z) (xw : list (list Z)) (width : Z) (p : Pre) : Pre :=
  p <| p_row_ptr := p_row_ptr p ++ [rows] |> <| p_col_idx := p_col_idx p ++ [cols] |> <| p_xw := xw |>
    <| p_data := (p_data p) <| num_v := vsize rows - 1 |> <| num_e := vsize cols |> <| a_h := vsize rows - 1 |>
         <| a_w := vsize rows - 1 |> <| x_h := vsize rows - 1 |> <| w_w := width |> <| w_h := width |> <| x_w := width |>
         <| total_urb := cdiv width CACHE_LINE_COUNT |> |>
    <| p_arch := (p_arch p) <| urb := cdiv width (bf (p_arch p) * CACHE_LINE_COUNT) |> |>.

Lemma ReadData_files rows cols first m p log :
  Forall int_range rows -> Forall int_range cols -> Forall (Forall int_range) (first :: m) -> p_xw p = [] ->
  0 < vsize first <= 2 ^ 24 -> 0 < bf (p_arch p) <= 2 ^ 24 ->
  exists log', ReadData (Some (graph_file rows cols)) (Some (matrix_file (first :: m))) p log =
    Ok (read_pre rows cols (first :: m) (vsize first) p, log').
Proof.
  intros Hr Hc Hm Hx Hw Hb. unfold ReadData. cbn [mbind outcome_bind]. rewrite read_graph_file by done.
  cbn [mbind outcome_bind]. unfold matrix_file.
  rewrite lines_of_ended by (apply Forall_fmap, Forall_true; intros r; apply show_ints_line).
  rewrite read_show_matrix by done. cbn [mbind outcome_bind]. rewrite Hx. cbn [app].
  change (vget (first :: m) 0) with (Ok first). cbn [mbind outcome_bind].
  rewrite ceil_div_exact by (unfold CACHE_LINE_COUNT; lia). cbn [mbind outcome_bind].
  unfold CACHE_LINE_COUNT at 2. rewrite ceil_div2_16 by done. cbn [mbind outcome_bind].
  eexists. reflexivity.
Qed.


(** ** Witnesses: the files of a run on four vertices *)
Definition demo_params : list (bool * string * string) :=
  [(true, "CacheSize", "1"); (true, "UnitSize", "MB"); (false, "CacheWay", "4");
   (true, "NumberOfEngine", "2"); (false, "BF", "1"); (true, "MemoryType", "configs/HBM2_8Gb_x128.ini")]%string.

Lemma parameters_roundtrip_witness :
  exists t, ReadIni (Some (ini_file demo_params)) ∅ = Ok t /\
    t !! "UnitSize"%string = Some "MB"%string /\ GetInt t "CacheWay" = Ok 4.
Proof.
  destruct (parameters_roundtrip demo_params ∅) as (t & E & H1 & _ & H2).
  - repeat (apply Forall_cons; split; [repeat split; discriminate|]). apply Forall_nil. exact I.
  - apply (bool_decide_unpack _). vm_compute. exact I.
  - exists t. split; [exact E|]. split.
    + apply (H1 true). right. left.
    + apply (H2 false _ 4); [right; right; left|split; vm_compute; congruence].
Defined.


(** Corners of the text format: an empty token and a stray word end the run, a
    graph file of one line without its newline is read twice. *)
Example text_corners :
  read_ints "1  2" = Fault InvalidArgument /\ read_ints "1 x" = Fault InvalidArgument /\
  read_ints "1 2 " = Ok [1; 2] /\ read_ints "2147483648" = Fault OutOfRange /\
  read_graph "0 2" = Ok ([0; 2], [0; 2]) /\ ini_entry "no delimiter" = ("no delimiter", "no delimiter")%string.
Proof. by vm_compute. Qed.

(** A whole run from its files, in MAT mode: the engines get two rows each. *)
Definition demo_fs (path : string) : option string :=
  if decide (path = "g.ini"%string) then Some (ini_file demo_params)
  else if decide (path = "data/g.txt"%string) then Some (graph_file [0; 2; 2; 3; 5] [1; 2; 0; 3; 0])
  else if decide (path = "x.txt"%string) then Some (matrix_file (replicate 4 (replicate 16 1)))
  else None.

Definition demo_options : list opt_event :=
  [Opt "i" "g.ini"; Opt "x" "x.txt"; Opt "a" "data/g.txt"; Opt "m" "1"; Opt "l" "2"].

Example demo_load :
  (r ← load_run (fun _ _ => 0) demo_fs demo_options;
   Ok (p_row_ptr (r_pre r), p_col_idx (r_pre r), l_dataset (r_log r), l_mem_type (r_log r))) =
  Ok ([[0; 2; 2]; [0; 1; 3]], [[1; 2]; [0; 3; 0]], "g"%string, "HBM2"%string).
Proof. vm_compute. reflexivity. Qed.
