(* ===== verification/IniParser.v ===== *)
(** * DRAMsim3: the INI parser (DRAMsim3/ext/headers/INIReader.h)

    [ini_parse] reads a configuration file line by line: sections, [name = value]
    pairs with inline comments, comment lines and continuation lines, and hands
    the pairs to [INIReader::ValueHandler].  The file ends with the round trip: a
    file written from sections and pairs is read as those pairs. *)

From stdpp Require Import base tactics list list_numbers numbers strings gmap.
From Stdlib Require Import ZArith Lia Ascii.
From S2P Require Import Prelude IniReader Inputs.

Definition INI_MAX_LINE : nat := 200.
Definition MAX_SECTION : nat := 50.
Definition MAX_NAME : nat := 50.

Definition nul : ascii := "000".

(** [fgets(line, n + 1, file)]: at most [n] characters, through the first newline. *)
Fixpoint fgets (n : nat) (s : string) : string * string :=
  match n, s with
  | O, _ => (EmptyString, s)
  | _, EmptyString => (EmptyString, EmptyString)
  | S n, String c t =>
      if decide (c = newline) then (String c EmptyString, t)
      else let '(l, r) := fgets n t in (String c l, r)
  end.

(** The buffer as a C string. *)
Definition cstr (s : string) : string := (take_until nul s).1.

Fixpoint rstrip (s : string) : string :=
  match s with
  | EmptyString => EmptyString
  | String c t =>
      match rstrip t with
      | EmptyString => if is_space c then EmptyString else String c EmptyString
      | t => String c t
      end
  end.

Definition lskip (s : string) : string := skip_space s.

(** [find_chars_or_comment(s, chars)]: the text before the place it points to and
    the text from there on. *)
Fixpoint find_from (was_space : bool) (chars : list ascii) (s : string) : string * string :=
  match s with
  | EmptyString => (EmptyString, EmptyString)
  | String c t =>
      if bool_decide (c ∈ chars) || (was_space && bool_decide (c = ";"%char)) then (EmptyString, s)
      else let '(l, r) := find_from (is_space c) chars t in (String c l, r)
  end.

Definition find_chars_or_comment (s : string) (chars : list ascii) : string * string := find_from false chars s.

(** [strncpy0(dest, src, size)] *)
Definition strncpy0 (src : string) (size : nat) : string := String.substring 0 (size - 1) src.

Record Ini := mkIni {
  i_lineno : Z;
  i_error : Z;
  i_section : string;
  i_prev_name : string;
  i_reader : INIReader
}.

#[export] Instance Ini_fields : Fields Ini := fun i =>
  mkIni (i_lineno i) (i_error i) (i_section i) (i_prev_name i) (i_reader i).

(** The first error is kept. *)
Definition ini_fail (i : Ini) : Ini := if decide (i_error i = 0) then i <| i_error := i_lineno i |> else i.

(** The handler never reports an error. *)
Definition handle (name value : string) (i : Ini) : Ini :=
  i <| i_reader := ValueHandler (i_reader i) (i_section i) name value |>.

(** The byte order mark of a first line. *)
Definition strip_bom (lineno : Z) (s : string) : bool * string :=
  match s with
  | String b0 (String b1 (String b2 t)) =>
      if decide (lineno = 1 /\ b0 = "239"%char /\ b1 = "187"%char /\ b2 = "191"%char) then (true, t) else (false, s)
  | _ => (false, s)
  end.

(** The body of the loop for one line. *)
Definition ini_line_step (line : string) (i : Ini) : Ini :=
  let i := i <| i_lineno := i_lineno i + 1 |> in
  let '(bom, start) := strip_bom (i_lineno i) (cstr line) in
  let stripped := rstrip start in
  let start := lskip stripped in
  let indented := bom || (String.length start <? String.length stripped)%nat in
  match start with
  | EmptyString => i
  | String c t =>
      if bool_decide (c = ";"%char \/ c = "#"%char) then i
      else if bool_decide (i_prev_name i <> EmptyString) && indented then
        handle (i_prev_name i) (rstrip (find_chars_or_comment start []).1) i
      else if bool_decide (c = "["%char) then
        match find_chars_or_comment t ["]"%char] with
        | (name, String "]" _) => i <| i_section := strncpy0 name MAX_SECTION |> <| i_prev_name := EmptyString |>
        | _ => ini_fail i
        end
      else
        match find_chars_or_comment start ["="; ":"]%char with
        | (name, String e t) =>
            if bool_decide (e = "="%char \/ e = ":"%char) then
              let name := rstrip name in
              let value := rstrip (find_chars_or_comment (lskip t) []).1 in
              handle name value (i <| i_prev_name := strncpy0 name MAX_NAME |>)
            else ini_fail i
        | _ => ini_fail i
        end
  end.

(** The loop; every round takes a character from the stream. *)
Fixpoint ini_parse_stream (fuel : nat) (stream : string) (i : Ini) : Ini :=
  match fuel, stream with
  | S fuel, String _ _ =>
      let '(line, stream) := fgets (INI_MAX_LINE - 1) stream in
      ini_parse_stream fuel stream (ini_line_step line i)
  | _, _ => i
  end.

Definition ini_parse_text (s : string) : Ini :=
  ini_parse_stream (String.length s) s (mkIni 0 0 EmptyString EmptyString (mkINIReader ∅)).

(** [INIReader::INIReader]: [_error] and the reader; a file that cannot be opened is
    error -1. *)
Definition INIReader_new (file : option string) : Z * INIReader :=
  match file with
  | None => (-1, mkINIReader ∅)
  | Some s => let i := ini_parse_text s in (i_error i, i_reader i)
  end.

(** ** The round trip *)
Inductive ini_item :=
  | ISection (name : string)
  | IEntry (name value : string)
  | IComment (mark : ascii) (text : string)
  | IBlank.

Definition item_line (x : ini_item) : string :=
  match x with
  | ISection s => String "[" (s +:+ "]")
  | IEntry n v => n +:+ " = " +:+ v
  | IComment c t => String c t
  | IBlank => EmptyString
  end.

Fixpoint ini_text (l : list ini_item) : string :=
  match l with
  | [] => EmptyString
  | x :: l => item_line x +:+ String newline (ini_text l)
  end.

(** Neither the first nor the last character is white space. *)
Definition trimmed (s : string) : Prop := lskip s = s /\ rstrip s = s.

Definition item_ok (x : ini_item) : Prop :=
  free newline (item_line x) /\ free nul (item_line x) /\ (String.length (item_line x) < 199)%nat /\
  match x with
  | ISection s => free "]" s /\ free ";" s /\ (String.length s < MAX_SECTION)%nat
  | IEntry n v =>
      trimmed n /\ trimmed v /\ v <> EmptyString /\ free ";" n /\ free "=" n /\ free ":" n /\ free ";" v /\ (String.length n < MAX_NAME)%nat /\
      match n with String c _ => c <> "#"%char /\ c <> "["%char /\ c <> "239"%char | EmptyString => False end
  | IComment c t => (c = "#"%char \/ c = ";"%char) /\ rstrip (String c t) = String c t
  | IBlank => True
  end.

(** What the items mean: the current section and the reader. *)
Definition run_item (st : string * INIReader) (x : ini_item) : string * INIReader :=
  match x with
  | ISection s => (s, st.2)
  | IEntry n v => (st.1, ValueHandler st.2 st.1 n v)
  | IComment _ _ | IBlank => st
  end.

Lemma fgets_line n l r : free newline l -> (String.length l < n)%nat ->
  fgets n (l +:+ String newline r) = (l +:+ String newline EmptyString, r).
Proof.
  revert n. induction l as [|c l IH]; intros n Hf Hn; (destruct n as [|n]; [simpl in Hn; lia|]); rewrite ?string_app_cons.
  - change (EmptyString +:+ String newline r) with (String newline r). done.
  - destruct Hf as [Hc Hf]. cbn [fgets]. rewrite decide_False by done. rewrite IH by (done || (simpl in Hn; lia)). done.
Qed.

Lemma cstr_free s : free nul s -> cstr s = s.
Proof. intros H. unfold cstr. by rewrite take_until_free. Qed.

Lemma rstrip_app s t : rstrip t <> EmptyString -> rstrip (s +:+ t) = s +:+ rstrip t.
Proof.
  intros Ht. induction s as [|c s IH]; [done|]. rewrite !string_app_cons. simpl. rewrite IH.
  destruct s as [|c' s]; [|by rewrite string_app_cons]. change (EmptyString +:+ rstrip t) with (rstrip t). by destruct (rstrip t).
Qed.

Lemma rstrip_space s c : is_space c = true -> rstrip (s +:+ String c EmptyString) = rstrip s.
Proof.
  intros Hc. induction s as [|d s IH]; [simpl; by rewrite Hc|]. rewrite string_app_cons. simpl. by rewrite IH.
Qed.

Lemma find_stop b chars p e t : Forall (fun c => free c p) (";"%char :: chars) -> e ∈ chars ->
  find_from b chars (p +:+ String e t) = (p, String e t).
Proof.
  revert b. induction p as [|c p IH]; intros b Hf He.
  - change (EmptyString +:+ String e t) with (String e t). simpl. by rewrite bool_decide_eq_true_2 by done.
  - rewrite string_app_cons. simpl. rewrite Forall_cons in Hf. destruct Hf as [[Hc Hp] Hf].
    assert (Hc' : c ∉ chars) by (intros Hin; rewrite Forall_forall in Hf; by destruct (Hf c Hin)).
    rewrite (bool_decide_eq_false_2 (c ∈ chars)) by done. rewrite (bool_decide_eq_false_2 (c = _)) by done. rewrite andb_false_r. simpl.
    rewrite IH; [done| |done]. apply Forall_cons. split; [done|]. eapply Forall_impl; [exact Hf|]. by intros x [_ Hx].
Qed.

Lemma find_end b p : free ";" p -> find_from b [] p = (p, EmptyString).
Proof.
  revert b. induction p as [|c p IH]; intros b Hf; [done|]. destruct Hf as [Hc Hf]. cbn [find_from].
  rewrite (bool_decide_eq_false_2 (c ∈ [])) by (by intros ?%elem_of_nil). rewrite (bool_decide_eq_false_2 (c = _)) by done.
  rewrite andb_false_r. simpl. by rewrite IH.
Qed.

Lemma strncpy0_short s n : (String.length s < n)%nat -> strncpy0 s n = s.
Proof. intros. unfold strncpy0. apply substring_all. lia. Qed.

(** The lines of the items are not changed by the stripping, except for the newline. *)
Lemma item_line_stripped x : item_ok x -> rstrip (item_line x) = item_line x /\ lskip (item_line x) = item_line x.
Proof.
  intros (_ & _ & _ & H). destruct x as [s|n v|c t|]; simpl in *; [..|done].
  - assert (E : rstrip (s +:+ "]") = s +:+ "]") by (by rewrite rstrip_app). split; [|done].
    rewrite E. destruct s; by rewrite ?string_app_cons.
  - destruct H as ((H1 & H2) & (H3 & H4) & Hv & _ & _ & _ & _ & _ & Hn). split.
    + rewrite rstrip_app; rewrite (rstrip_app " = "); rewrite H4; try done.
    + destruct n as [|c n]; [done|]. rewrite string_app_cons. unfold lskip in *. simpl in *. destruct (is_space c) eqn:E; [|done].
      exfalso. assert (Hl : forall s, (String.length (skip_space s) <= String.length s)%nat).
      { induction s as [|d s IH]; simpl; [done|]. destruct (is_space d); simpl; lia. }
      specialize (Hl n). rewrite H1 in Hl. simpl in Hl. lia.
  - destruct H as [[-> | ->] Hr]; by split.
Qed.

Lemma line_step x i : item_ok x ->
  let i' := ini_line_step (item_line x +:+ String newline EmptyString) i in
  i_error i' = i_error i /\ (i_section i', i_reader i') = run_item (i_section i, i_reader i) x.
Proof.
  intros Hx. destruct (item_line_stripped x Hx) as [Hr Hl]. destruct Hx as (_ & Hnul & _ & H).
  unfold ini_line_step. rewrite cstr_free by (apply free_app; [done|by split]).
  assert (Hb : forall k, strip_bom k (item_line x +:+ String newline EmptyString) = (false, item_line x +:+ String newline EmptyString)).
  { intros k. destruct x as [s|n v|c t|]; simpl in *; rewrite ?string_app_cons.
    - unfold strip_bom. repeat case_match; try done; naive_solver.
    - destruct n as [|c n]; [by destruct H as (_ & _ & _ & _ & _ & _ & _ & _ & [])|]. rewrite !string_app_cons. unfold strip_bom.
      repeat case_match; try done; naive_solver.
    - unfold strip_bom. repeat case_match; try done; naive_solver.
    - done. }
  rewrite Hb, rstrip_space, Hr, Hl, Nat.ltb_irrefl by done. cbn [orb].
  destruct x as [s|n v|c t|]; cbn [item_line] in *.
  - simpl. rewrite andb_false_r.
    unfold find_chars_or_comment. destruct H as (H1 & H2 & H3).
    rewrite (find_stop false ["]"%char] s "]" EmptyString); [|by repeat (apply Forall_cons; split)|left].
    cbn. by rewrite strncpy0_short.
  - destruct H as ((H1 & H2) & (H3 & H4) & Hv & F1 & F2 & F3 & F4 & Hlen & Hn). destruct n as [|c n]; [done|]. destruct Hn as (N1 & N2 & N3).
    rewrite string_app_cons. rewrite (bool_decide_eq_false_2 (c = _ \/ c = _)) by (destruct F1; naive_solver).
    rewrite andb_false_r. rewrite (bool_decide_eq_false_2 (c = "["%char)) by done. rewrite <- string_app_cons.
    unfold find_chars_or_comment.
    replace (String c n +:+ " = " +:+ v) with ((String c n +:+ " ") +:+ String "=" (String " " v)) by (by rewrite string_app_assoc).
    rewrite (find_stop false ["="; ":"]%char); [| |left].
    + rewrite bool_decide_eq_true_2 by (by left). rewrite rstrip_space, H2 by done.
      change (lskip (String " " v)) with (lskip v). rewrite H3, find_end by done. cbn [fst]. rewrite H4. done.
    + repeat (apply Forall_cons; split); try by apply free_app. by apply Forall_nil.
  - destruct H as [[-> | ->] _]; by simpl.
  - done.
Qed.

Lemma parse_items l : forall fuel i, Forall item_ok l -> (String.length (ini_text l) <= fuel)%nat ->
  let i' := ini_parse_stream fuel (ini_text l) i in
  i_error i' = i_error i /\ (i_section i', i_reader i') = foldl run_item (i_section i, i_reader i) l.
Proof.
  induction l as [|x l IH]; intros fuel i Hl Hf; [by destruct fuel|]. apply Forall_cons in Hl as [Hx Hl].
  pose proof (line_step x i Hx) as [S1 S2]. destruct Hx as (Hn & _ & Hlen & _).
  pose proof (fgets_line (INI_MAX_LINE - 1) (item_line x) (ini_text l) Hn Hlen) as Hg. simpl in Hf.
  rewrite string_length_app in Hf. simpl in Hf. cbn [ini_text]. destruct fuel as [|fuel]; [lia|]. cbn [ini_parse_stream].
  destruct (item_line x +:+ String newline (ini_text l)) as [|c t] eqn:E.
  { exfalso. apply (f_equal String.length) in E. rewrite string_length_app in E. simpl in E. lia. }
  rewrite Hg. destruct (IH fuel (ini_line_step (item_line x +:+ String newline EmptyString) i) Hl ltac:(lia)) as [I1 I2].
  split; [by rewrite I1|]. rewrite I2, S2. done.
Qed.

(** The pairs of a file with their sections. *)
Fixpoint entries (section : string) (l : list ini_item) : list (string * string * string) :=
  match l with
  | [] => []
  | ISection s :: l => entries s l
  | IEntry n v :: l => (section, n, v) :: entries section l
  | _ :: l => entries section l
  end.

Definition add_entry (r : INIReader) (e : string * string * string) : INIReader := ValueHandler r e.1.1 e.1.2 e.2.
Definition entry_key (e : string * string * string) : string := MakeKey e.1.1 e.1.2.

Lemma run_items_entries l : forall s r, (foldl run_item (s, r) l).2 = foldl add_entry r (entries s l).
Proof. induction l as [|x l IH]; intros s r; [done|]. destruct x; simpl; by rewrite IH. Qed.

Lemma entries_other l : forall r k, k ∉ entry_key <$> l -> _values (foldl add_entry r l) !! k = _values r !! k.
Proof.
  induction l as [|e l IH]; intros r k Hk; [done|]. rewrite fmap_cons, not_elem_of_cons in Hk. destruct Hk as [Hk1 Hk2]. simpl.
  rewrite IH by done. unfold add_entry, ValueHandler. cbn [_values]. by apply lookup_insert_ne.
Qed.

Lemma entries_in l : forall r e, NoDup (entry_key <$> l) -> e ∈ l -> _values r !! entry_key e = None ->
  _values (foldl add_entry r l) !! entry_key e = Some e.2.
Proof.
  induction l as [|e' l IH]; intros r e Hnd He Hr; [by apply elem_of_nil in He|].
  rewrite fmap_cons, NoDup_cons in Hnd. destruct Hnd as [Hn Hnd]. simpl. apply elem_of_cons in He as [->|He].
  - rewrite entries_other by done. unfold add_entry, ValueHandler. cbn [_values]. fold (entry_key e'). by rewrite lookup_insert_eq, Hr.
  - apply IH; [done..|]. unfold add_entry, ValueHandler. cbn [_values]. rewrite lookup_insert_ne; [done|].
    fold (entry_key e'). intros E. apply Hn. rewrite E. by apply list_elem_of_fmap_2.
Qed.

(** C35. A configuration file is read as it was written: sections, pairs, comment lines
    and empty lines in any order give no parse error, the reader holds exactly the
    pairs in their sections, and when no key is repeated every lookup of a pair,
    whatever the case of its letters, returns its value. *)
Theorem ini_file_roundtrip l :
  Forall item_ok l ->
  exists r, INIReader_new (Some (ini_text l)) = (0, r) /\ r = foldl add_entry (mkINIReader ∅) (entries EmptyString l) /\
    (NoDup (entry_key <$> entries EmptyString l) ->
     forall s n v s' n' d, (s, n, v) ∈ entries EmptyString l -> MakeKey s' n' = MakeKey s n -> Get r s' n' d = v).
Proof.
  intros Hl. destruct (parse_items l (String.length (ini_text l)) (mkIni 0 0 EmptyString EmptyString (mkINIReader ∅)) Hl (le_n _)) as [E1 E2].
  apply (f_equal snd) in E2. rewrite run_items_entries in E2. cbn [snd i_section i_reader] in E2.
  eexists. split; [unfold INIReader_new, ini_parse_text; by rewrite E1|]. split; [exact E2|].
  intros Hnd s n v s' n' d He Ek. rewrite E2. unfold Get. rewrite Ek.
  by rewrite (entries_in _ (mkINIReader ∅) (s, n, v) Hnd He).
Qed.

Definition demo_ini : list ini_item :=
  [IComment ";" " a memory"; ISection "dram_structure"; IEntry "protocol" "HBM"; IEntry "BL" "4"; IBlank;
   ISection "system"; IEntry "channels" "8"]%string.

Lemma ini_file_roundtrip_witness :
  exists r, INIReader_new (Some (ini_text demo_ini)) = (0, r) /\ Get r "SYSTEM" "Channels" "1" = "8"%string.
Proof.
  destruct (ini_file_roundtrip demo_ini) as (r & E & _ & H).
  - unfold demo_ini. repeat (apply Forall_cons; split; [vm_compute; intuition (congruence || lia)|]). apply Forall_nil. exact I.
  - exists r. split; [exact E|]. apply (H ltac:(apply (bool_decide_unpack _); vm_compute; exact I) "system"%string "channels"%string).
    + right. right. left.
    + reflexivity.
Defined.

(** Inline comments, continuation lines and lines without a value. *)
Example ini_forms :
  let nl := String newline EmptyString in
  let '(e, r) := INIReader_new (Some ("[timing]" +:+ nl +:+ "tREFI = 9364; average" +:+ nl +:+ "CL = 17 ; latency" +:+ nl +:+
      "  more" +:+ nl +:+ "junk" +:+ nl +:+ "tRP: 14")) in
  (e, Get r "timing" "tREFI" "", Get r "timing" "CL" "", Get r "timing" "trp" "") =
  (5, "9364; average", "17" +:+ nl +:+ "more", "14")%string.
Proof. vm_compute. reflexivity. Qed.
