(* ===== verification/DramConfig.v ===== *)
(** * DRAMsim3: the configuration (DRAMsim3/src/configuration.cc, configuration.h)

    The integer parameters of a memory system, computed from the INI file in the
    order of [Config::Config], and the address mapping they define.  The
    parameters each initialiser computes are a record of their own; a [Config]
    is the tuple of them.  The floating-point parameters (clock period, power)
    and the names of the output files take no part in the simulation.

    The last section shows that the mapping is a bijection between the request
    addresses of the memory and its (channel, rank, bank group, bank, row,
    column) coordinates. *)

From stdpp Require Import base tactics list list_numbers numbers strings gmap.
From Stdlib Require Import ZArith Lia.
From S2P Require Import Prelude DramCommon IniReader.

Inductive DRAMProtocol :=
  | DDR3 | DDR4 | GDDR5 | GDDR5X | GDDR6 | LPDDR | LPDDR3 | LPDDR4 | HBM | HBM2 | HMC
  | PROTOCOL_SIZE.

#[export] Instance DRAMProtocol_eq_dec : EqDecision DRAMProtocol.
Proof. solve_decision. Defined.

Inductive RefreshPolicy :=
  | RANK_LEVEL_SIMULTANEOUS | RANK_LEVEL_STAGGERED | BANK_LEVEL_STAGGERED | POLICY_SIZE.

#[export] Instance RefreshPolicy_eq_dec : EqDecision RefreshPolicy.
Proof. solve_decision. Defined.

(** ** Arithmetic on [int]: overflow and division by zero are undefined *)
Definition int_ (x : Z) : outcome Z :=
  if decide (- 2 ^ 31 <= x < 2 ^ 31) then Ok x else Fault Undefined.
Definition imul (a b : Z) : outcome Z := int_ (a * b).
Definition iadd (a b : Z) : outcome Z := int_ (a + b).
Definition idiv (a b : Z) : outcome Z :=
  if decide (b = 0) then Fault Undefined else int_ (Z.quot a b).
(** [1 << w] *)
Definition ishl1 (w : Z) : outcome Z :=
  if decide (0 <= w < 31) then Ok (Z.shiftl 1 w) else Fault Undefined.

(** ** The parameters *)

(** From [InitSystemParams]. *)
Record SystemParams := mkSystemParams {
  channel_size_req : Z;
  channels : Z;
  bus_width : Z;
  address_mapping : string;
  queue_structure : string;
  row_buf_policy : string;
  cmd_queue_size : Z;
  trans_queue_size : Z;
  unified_queue : bool;
  write_buf_size : Z;
  refresh_policy : RefreshPolicy;
  enable_self_refresh : bool;
  sref_threshold : Z;
  aggressive_precharging_enabled : bool
}.

(** From [InitDRAMParams]. *)
Record DRAMParams := mkDRAMParams {
  protocol : DRAMProtocol;
  bankgroups : Z;
  banks_per_group : Z;
  banks : Z;
  rows : Z;
  columns : Z;
  device_width : Z;
  BL : Z;
  num_dies : Z;
  enable_hbm_dual_cmd : bool;
  num_links : Z;
  link_width : Z;
  link_speed : Z;
  block_size : Z;
  xbar_queue_depth : Z;
  burst_cycle : Z
}.

(** From [CalculateSize]; [channel_size] replaces the requested size. *)
Record SizeParams := mkSizeParams {
  devices_per_rank : Z;
  ranks : Z;
  channel_size : Z
}.

(** From [SetAddressMapping]. *)
Record MappingParams := mkMappingParams {
  request_size_bytes : Z;
  shift_bits : Z;
  ch_pos : Z; ra_pos : Z; bg_pos : Z; ba_pos : Z; ro_pos : Z; co_pos : Z;
  ch_mask : Z; ra_mask : Z; bg_mask : Z; ba_mask : Z; ro_mask : Z; co_mask : Z
}.

(** From [InitTimingParams]. *)
Record TimingParams := mkTimingParams {
  AL : Z; CL : Z; CWL : Z; tCCD_L : Z; tCCD_S : Z; tRTRS : Z; tRTP : Z; tWTR_L : Z; tWTR_S : Z;
  tWR : Z; tRP : Z; tRRD_L : Z; tRRD_S : Z; tRAS : Z; tRCD : Z; tRFC : Z; tRC : Z; tCKE : Z;
  tCKESR : Z; tXS : Z; tXP : Z; tRFCb : Z; tREFI : Z; tREFIb : Z; tFAW : Z; tRPRE : Z; tWPRE : Z;
  tPPD : Z; t32AW : Z; tRCDRD : Z; tRCDWR : Z; ideal_memory_latency : Z;
  RL : Z; WL : Z; read_delay : Z; write_delay : Z
}.

Record Config := mkConfig {
  sys_params :> SystemParams;
  dram_params :> DRAMParams;
  size_params :> SizeParams;
  map_params :> MappingParams;
  timing_params :> TimingParams;
  epoch_period : Z
}.

(** ** The protocol *)
Definition IsGDDR (p : DRAMProtocol) : bool :=
  match p with GDDR5 | GDDR5X | GDDR6 => true | _ => false end.
Definition IsHBM (p : DRAMProtocol) : bool := match p with HBM | HBM2 => true | _ => false end.
Definition IsHMC (p : DRAMProtocol) : bool := match p with HMC => true | _ => false end.

Definition protocol_pairs : gmap string DRAMProtocol :=
  list_to_map [("DDR3", DDR3); ("DDR4", DDR4); ("GDDR5", GDDR5); ("GDDR5X", GDDR5X);
               ("GDDR6", GDDR6); ("LPDDR", LPDDR); ("LPDDR3", LPDDR3); ("LPDDR4", LPDDR4);
               ("HBM", HBM); ("HBM2", HBM2); ("HMC", HMC)]%string.

Definition GetDRAMProtocol (protocol_str : string) : outcome DRAMProtocol :=
  match protocol_pairs !! protocol_str with Some p => Ok p | None => Fault AbruptExit end.

(** ** The initialisers *)
Definition GetInteger (reader : INIReader) (sec opt : string) (default_val : Z) : Z :=
  i32 (GetLong reader sec opt default_val).

Definition InitSystemParams (reader : INIReader) : outcome SystemParams :=
  let ref_policy := Get reader "system" "refresh_policy" "RANK_LEVEL_STAGGERED" in
  policy ←
    (if decide (ref_policy = "RANK_LEVEL_SIMULTANEOUS"%string) then Ok RANK_LEVEL_SIMULTANEOUS
     else if decide (ref_policy = "RANK_LEVEL_STAGGERED"%string) then Ok RANK_LEVEL_STAGGERED
     else if decide (ref_policy = "BANK_LEVEL_STAGGERED"%string) then Ok BANK_LEVEL_STAGGERED
     else Fault AbruptExit);
  Ok {| channel_size_req := GetInteger reader "system" "channel_size" 1024;
        channels := GetInteger reader "system" "channels" 1;
        bus_width := GetInteger reader "system" "bus_width" 64;
        address_mapping := Get reader "system" "address_mapping" "chrobabgraco";
        queue_structure := Get reader "system" "queue_structure" "PER_BANK";
        row_buf_policy := Get reader "system" "row_buf_policy" "OPEN_PAGE";
        cmd_queue_size := GetInteger reader "system" "cmd_queue_size" 16;
        trans_queue_size := GetInteger reader "system" "trans_queue_size" 32;
        unified_queue := GetBoolean reader "system" "unified_queue" false;
        write_buf_size := GetInteger reader "system" "write_buf_size" 16;
        refresh_policy := policy;
        enable_self_refresh := GetBoolean reader "system" "enable_self_refresh" false;
        sref_threshold := GetInteger reader "system" "sref_threshold" 1000;
        aggressive_precharging_enabled :=
          GetBoolean reader "system" "aggressive_precharging_enabled" false |}.

(** Burst cycles and burst length of a protocol; [BL = 0] stands for perfect
    bandwidth. *)
Definition burst_of (p : DRAMProtocol) (bl : Z) : Z * Z :=
  match p with
  | GDDR5 => (if decide (bl = 0) then 0 else Z.quot bl 4, if decide (bl = 0) then 8 else bl)
  | GDDR5X => (if decide (bl = 0) then 0 else Z.quot bl 8, if decide (bl = 0) then 8 else bl)
  | GDDR6 => (if decide (bl = 0) then 0 else Z.quot bl 16, if decide (bl = 0) then 8 else bl)
  | _ => (if decide (bl = 0) then 0 else Z.quot bl 2,
          if decide (bl = 0) then (if IsHBM p then 4 else 8) else bl)
  end.

Definition InitDRAMParams (reader : INIReader) : outcome DRAMParams :=
  proto ← GetDRAMProtocol (Get reader "dram_structure" "protocol" "DDR3");
  let bgs := GetInteger reader "dram_structure" "bankgroups" 2 in
  let bpg := GetInteger reader "dram_structure" "banks_per_group" 2 in
  let bankgroup_enable := GetBoolean reader "dram_structure" "bankgroup_enable" true in
  groups ← (if bankgroup_enable then Ok (bgs, bpg) else bpg ← imul bpg bgs; Ok (1, bpg));
  let '(bgs, bpg) := groups in
  bks ← imul bgs bpg;
  let cols := GetInteger reader "dram_structure" "columns" (Z.shiftl 1 10) in
  let dw := GetInteger reader "dram_structure" "device_width" 8 in
  let bl := GetInteger reader "dram_structure" "BL" 8 in
  let dual := GetBoolean reader "dram_structure" "hbm_dual_cmd" true && IsHBM proto in
  let blk := GetInteger reader "hmc" "block_size" 64 in
  bl ← (if IsHMC proto then bits ← imul blk 8; idiv bits dw else Ok bl);
  let '(burst, bl) := burst_of proto bl in
  cols ← (if IsGDDR proto then imul cols bl else if IsHBM proto then imul cols 2 else Ok cols);
  Ok {| protocol := proto; bankgroups := bgs; banks_per_group := bpg; banks := bks;
        rows := GetInteger reader "dram_structure" "rows" (Z.shiftl 1 16);
        columns := cols; device_width := dw; BL := bl;
        num_dies := GetInteger reader "dram_structure" "num_dies" 1;
        enable_hbm_dual_cmd := dual;
        num_links := GetInteger reader "hmc" "num_links" 4;
        link_width := GetInteger reader "hmc" "link_width" 16;
        link_speed := GetInteger reader "hmc" "link_speed" 15000;
        block_size := blk;
        xbar_queue_depth := GetInteger reader "hmc" "xbar_queue_depth" 16;
        burst_cycle := burst |}.

Definition CalculateSize (s : SystemParams) (d : DRAMParams) : outcome SizeParams :=
  devices ← idiv (bus_width s) (device_width d);
  page_bits ← imul (columns d) (device_width d);
  let page_size := Z.quot page_bits 8 in
  megs ← imul page_size (Z.quot (rows d) 1024);
  let megs_per_bank := Z.quot megs 1024 in
  per_bank ← imul megs_per_bank (banks d);
  megs_per_rank ← imul per_bank devices;
  if decide (megs_per_rank > channel_size_req s) then Ok (mkSizeParams devices 1 megs_per_rank)
  else
    rks ← idiv (channel_size_req s) megs_per_rank;
    size ← imul rks megs_per_rank;
    Ok (mkSizeParams devices rks size).

(** [address_mapping.substr(i, 2)] for [i = 0, 2, ...] *)
Fixpoint tokens (s : string) : list string :=
  match s with
  | EmptyString => []
  | String a EmptyString => [String a EmptyString]
  | String a (String b s') => String a (String b EmptyString) :: tokens s'
  end.

(** One round of the [while (!fields.empty())] loop, on the last field. *)
Definition place_field (widths : gmap string Z) (token : string) (st : gmap string Z * Z)
    : outcome (gmap string Z * Z) :=
  match widths !! token with
  | None => Fault AbruptExit
  | Some w => Ok (<[token := st.2]> st.1, st.2 + w)
  end.

(** [m.at(k)] *)
Definition map_at (m : gmap string Z) (k : string) : outcome Z :=
  match m !! k with Some v => Ok v | None => Fault OutOfRange end.

Definition field_widths (s : SystemParams) (d : DRAMParams) (z : SizeParams) : gmap string Z :=
  <["co" := LogBase2 (columns d) - LogBase2 (BL d)]>
  (<["ro" := LogBase2 (rows d)]>
  (<["ba" := LogBase2 (banks_per_group d)]>
  (<["bg" := LogBase2 (bankgroups d)]>
  (<["ra" := LogBase2 (ranks z)]>
  (<["ch" := LogBase2 (channels s)]> ∅)))))%string.

(** [(1 << field_widths.at(k)) - 1] *)
Definition field_mask (widths : gmap string Z) (k : string) : outcome Z :=
  w ← map_at widths k; m ← ishl1 w; Ok (m - 1).

Definition SetAddressMapping (s : SystemParams) (d : DRAMParams) (z : SizeParams)
    : outcome MappingParams :=
  req ← imul (Z.quot (bus_width s) 8) (BL d);
  let widths := field_widths s d z in
  if decide (String.length (address_mapping s) <> 12%nat) then Fault AbruptExit
  else
    st ← for_each (place_field widths) (rev (tokens (address_mapping s))) (∅, 0);
    let field_pos := st.1 in
    ch ← map_at field_pos "ch"; ra ← map_at field_pos "ra"; bg ← map_at field_pos "bg";
    ba ← map_at field_pos "ba"; ro ← map_at field_pos "ro"; co ← map_at field_pos "co";
    chm ← field_mask widths "ch"; ram ← field_mask widths "ra"; bgm ← field_mask widths "bg";
    bam ← field_mask widths "ba"; rom ← field_mask widths "ro"; com ← field_mask widths "co";
    Ok {| request_size_bytes := req; shift_bits := LogBase2 req;
          ch_pos := ch; ra_pos := ra; bg_pos := bg; ba_pos := ba; ro_pos := ro; co_pos := co;
          ch_mask := chm; ra_mask := ram; bg_mask := bgm; ba_mask := bam; ro_mask := rom;
          co_mask := com |}.

Definition InitTimingParams (reader : INIReader) (d : DRAMParams) : outcome TimingParams :=
  let get := GetInteger reader "timing" in
  let al := get "AL" 0 in
  tRC ← iadd (get "tRAS"%string 24) (get "tRP"%string 10);
  rl ← iadd al (get "CL"%string 12);
  wl ← iadd al (get "CWL"%string 12);
  rdelay ← iadd rl (burst_cycle d);
  wdelay ← iadd wl (burst_cycle d);
  Ok {| AL := al; CL := get "CL" 12; CWL := get "CWL" 12; tCCD_L := get "tCCD_L" 6;
        tCCD_S := get "tCCD_S" 4; tRTRS := get "tRTRS" 2; tRTP := get "tRTP" 5;
        tWTR_L := get "tWTR_L" 5; tWTR_S := get "tWTR_S" 5; tWR := get "tWR" 10;
        tRP := get "tRP" 10; tRRD_L := get "tRRD_L" 4; tRRD_S := get "tRRD_S" 4;
        tRAS := get "tRAS" 24; tRCD := get "tRCD" 10; tRFC := get "tRFC" 74; tRC := tRC;
        tCKE := get "tCKE" 6; tCKESR := get "tCKESR" 12; tXS := get "tXS" 432; tXP := get "tXP" 8;
        tRFCb := get "tRFCb" 20; tREFI := get "tREFI" 7800; tREFIb := get "tREFIb" 1950;
        tFAW := get "tFAW" 50; tRPRE := get "tRPRE" 1; tWPRE := get "tWPRE" 1;
        tPPD := get "tPPD" 0; t32AW := get "t32AW" 330; tRCDRD := get "tRCDRD" 24;
        tRCDWR := get "tRCDWR" 20; ideal_memory_latency := get "ideal_memory_latency" 10;
        RL := rl; WL := wl; read_delay := rdelay; write_delay := wdelay |}%string.

(** [Config::Config], the parameters in the order of their dependencies. *)
Definition Config_new (reader : INIReader) : outcome Config :=
  s ← InitSystemParams reader;
  d ← InitDRAMParams reader;
  z ← CalculateSize s d;
  m ← SetAddressMapping s d z;
  t ← InitTimingParams reader d;
  Ok (mkConfig s d z m t (GetInteger reader "other" "epoch_period" 100000)).

(** ** The address mapping *)

(** [(hex_addr >> pos) & mask], converted to [int]. *)
Definition field_of (a pos mask : Z) : Z := i32 (Z.land (Z.shiftr a pos) mask).

Definition AddressMapping (m : MappingParams) (hex_addr : Z) : Address :=
  let a := Z.shiftr hex_addr (shift_bits m) in
  mkAddress (field_of a (ch_pos m) (ch_mask m)) (field_of a (ra_pos m) (ra_mask m))
            (field_of a (bg_pos m) (bg_mask m)) (field_of a (ba_pos m) (ba_mask m))
            (field_of a (ro_pos m) (ro_mask m)) (field_of a (co_pos m) (co_mask m)).

(** [BaseDRAMSystem::GetChannel] *)
Definition GetChannel (m : MappingParams) (hex_addr : Z) : Z :=
  let a := Z.shiftr hex_addr (shift_bits m) in
  field_of a (ch_pos m) (ch_mask m).

(** ** Fields packed from the low bits up *)
Section fields.
Context (w : string -> Z).

Definition wsum (l : list string) : Z := foldr (fun t acc => w t + acc) 0 l.

(** The number whose fields, from the low end, are [v t] for [t] in [l]. *)
Definition pack (v : string -> Z) (l : list string) : Z :=
  foldr (fun t acc => v t + 2 ^ w t * acc) 0 l.

Context (Hw : forall t, 0 <= w t).

Lemma wsum_nonneg l : 0 <= wsum l.
Proof. induction l as [|t l IH]; simpl; [done|]. pose proof (Hw t). lia. Qed.

Lemma pack_bound v l : (forall t, t ∈ l -> 0 <= v t < 2 ^ w t) -> 0 <= pack v l < 2 ^ wsum l.
Proof.
  induction l as [|t l IH]; simpl; intros Hv; [lia|].
  pose proof (Hv t ltac:(set_solver)). specialize (IH ltac:(set_solver)). pose proof (Hw t).
  pose proof (wsum_nonneg l). rewrite Z.pow_add_r by done. nia.
Qed.

Lemma pack_field v l1 t l2 :
  (forall u, u ∈ l1 ++ t :: l2 -> 0 <= v u < 2 ^ w u) ->
  (pack v (l1 ++ t :: l2) / 2 ^ wsum l1) mod 2 ^ w t = v t.
Proof.
  induction l1 as [|u l1 IH]; simpl; intros Hv.
  - rewrite Z.div_1_r, Z.mul_comm, Z.mod_add by (pose proof (Hw t); lia).
    apply Z.mod_small. apply Hv. set_solver.
  - pose proof (wsum_nonneg l1). pose proof (Hw u) as Hu. pose proof (Hv u ltac:(set_solver)).
    rewrite Z.pow_add_r, <- Z.div_div by lia.
    rewrite (Z.mul_comm (2 ^ w u)), Z.div_add, (Z.div_small (v u)), Z.add_0_l by lia.
    apply IH. set_solver.
Qed.

(** Two numbers with the same fields agree on the bits the fields cover. *)
Lemma fields_determine l a b :
  (forall l1 t l2, l = l1 ++ t :: l2 ->
     (a / 2 ^ wsum l1) mod 2 ^ w t = (b / 2 ^ wsum l1) mod 2 ^ w t) ->
  a mod 2 ^ wsum l = b mod 2 ^ wsum l.
Proof.
  revert a b; induction l as [|t l IH]; simpl; intros a b H; [by rewrite !Z.mod_1_r|].
  pose proof (wsum_nonneg l). pose proof (Hw t). rewrite Z.pow_add_r, !Z.rem_mul_r by lia.
  pose proof (H [] t l eq_refl) as Ht. simpl in Ht. rewrite !Z.div_1_r in Ht.
  rewrite Ht, (IH (a / 2 ^ w t) (b / 2 ^ w t)); [done|].
  intros l1 u l2 ->. pose proof (wsum_nonneg l1). pose proof (H (t :: l1) u l2 eq_refl) as Hu.
  simpl in Hu. by rewrite Z.pow_add_r, <- !Z.div_div in Hu by lia.
Qed.
End fields.

(** What the placement loop computes: the fields, from the last token, at the
    prefix sums of their widths. *)
Lemma place_fields_ok widths l m p m' p' :
  for_each (place_field widths) l (m, p) = Ok (m', p') ->
  (forall t, t ∈ l -> is_Some (widths !! t)) /\
  (forall t, t ∉ l -> m' !! t = m !! t) /\
  (forall l1 t l2, NoDup l -> l = l1 ++ t :: l2 ->
     m' !! t = Some (p + wsum (fun k => default 0 (widths !! k)) l1)).
Proof.
  revert m p; induction l as [|u l IH]; intros m p H; cbn [for_each] in H.
  { injection H as <- <-. split; [set_solver|]. split; [done|]. intros [] ??; done. }
  apply bind_ok in H as ([m1 p1] & E & H). unfold place_field in E.
  destruct (widths !! u) as [wu|] eqn:Eu; [|discriminate]. injection E as <- <-.
  destruct (IH _ _ H) as (Hs & Hn & Hp). cbn [fst snd] in *. split_and!.
  - intros t [->|Ht]%elem_of_cons; [by rewrite Eu|auto].
  - intros t Ht. rewrite Hn by set_solver. by rewrite lookup_insert_ne by set_solver.
  - intros l1 t l2 [Hnu Hnd]%NoDup_cons E. destruct l1 as [|v l1]; simplify_eq/=.
    + rewrite Hn by done. rewrite lookup_insert_eq. f_equal. lia.
    + rewrite (Hp l1 t l2 Hnd eq_refl), Eu. simpl. f_equal. lia.
Qed.

Definition field_names : list string := ["ch"; "ra"; "bg"; "ba"; "ro"; "co"]%string.

Lemma tokens_length s : String.length s = 12%nat -> length (tokens s) = 6%nat.
Proof.
  intros H. do 12 (destruct s as [|? s]; [discriminate H|simpl in H]). destruct s; [done|discriminate H].
Qed.

(** The width of a field in a configured memory. *)
Definition width (c : Config) (k : string) : Z := default 0 (field_widths c c c !! k).
(** One value per field, selected by the name of the field. *)
Definition by_field (ch ra bg ba ro co : Z) (k : string) : Z :=
  if String.eqb k "ch" then ch else if String.eqb k "ra" then ra
  else if String.eqb k "bg" then bg else if String.eqb k "ba" then ba
  else if String.eqb k "ro" then ro else if String.eqb k "co" then co else 0.
Definition position (c : Config) : string -> Z :=
  by_field (ch_pos c) (ra_pos c) (bg_pos c) (ba_pos c) (ro_pos c) (co_pos c).
Definition mask (c : Config) : string -> Z :=
  by_field (ch_mask c) (ra_mask c) (bg_mask c) (ba_mask c) (ro_mask c) (co_mask c).
Definition coord (a : Address) : string -> Z :=
  by_field (channel a) (rank a) (bankgroup a) (bank a) (arow a) (column a).

(** The bits of a request address: those of the fields. *)
Definition address_bits (c : Config) : Z := wsum (width c) field_names.

(** The mapping of the configuration comes from [SetAddressMapping]. *)
Definition mapped (c : Config) : Prop := SetAddressMapping c c c = Ok (map_params c).

Lemma field_mask_ok widths k m :
  field_mask widths k = Ok m ->
  0 <= default 0 (widths !! k) < 31 /\ m = 2 ^ default 0 (widths !! k) - 1.
Proof.
  unfold field_mask, map_at, ishl1. intros H. ok_inv H.
  destruct (widths !! k); [|discriminate]. injection E as <-. simpl in *.
  destruct (decide _) in E0; [|discriminate]. injection E0 as <-. split; [done|].
  rewrite Z.shiftl_mul_pow2 by lia. lia.
Qed.

Lemma elem_of_field_names (P : string -> Prop) :
  P "ch"%string -> P "ra"%string -> P "bg"%string -> P "ba"%string -> P "ro"%string ->
  P "co"%string -> forall t, t ∈ field_names -> P t.
Proof. intros ?????? t Ht. unfold field_names in Ht. set_unfold. naive_solver. Qed.

Lemma width_other c t : t ∉ field_names -> width c t = 0.
Proof.
  intros Ht. unfold width, field_widths.
  assert (forall u, u ∈ field_names -> t <> u) as Hne by (intros u Hu ->; done).
  rewrite !lookup_insert_ne by (apply not_eq_sym, Hne; vm_compute; repeat constructor; set_solver).
  by rewrite lookup_empty.
Qed.

Lemma mapped_masks c : mapped c ->
  forall t, 0 <= width c t < 31 /\ (t ∈ field_names -> mask c t = 2 ^ width c t - 1).
Proof.
  intros H t. destruct (decide (t ∈ field_names)) as [Ht|Ht];
    [|by rewrite width_other by done].
  unfold mapped, SetAddressMapping in H. ok_inv H. destruct (decide _) in H; [discriminate|].
  ok_inv H. unfold mask, width. rewrite <- H; clear H.
  revert t Ht. apply elem_of_field_names; (split; [by eapply field_mask_ok|intros _; by eapply field_mask_ok]).
Qed.

(** A successful mapping names every field exactly once, and the fields lie one
    above the other. *)
Lemma mapped_positions c : mapped c ->
  exists l, l ≡ₚ field_names /\
    forall l1 t l2, l = l1 ++ t :: l2 -> position c t = wsum (width c) l1.
Proof.
  intros H. unfold mapped, SetAddressMapping in H. ok_inv H.
  destruct (decide _) as [|Hlen] in H; [discriminate|]. ok_inv H.
  apply dec_stable in Hlen. destruct r0 as [m' p']. cbn [fst] in *.
  apply place_fields_ok in E0 as (_ & Hn & Hp). set (l := rev (tokens _)) in *.
  assert (Hin : forall t, t ∈ field_names -> exists q, m' !! t = Some q /\ position c t = q).
  { assert (Hat : forall k q, map_at m' k = Ok q -> m' !! k = Some q).
    { unfold map_at. intros k q Hk. destruct (m' !! k); by simplify_eq. }
    unfold position. rewrite <- H. clear -Hat E1 E2 E3 E4 E5 E6.
    apply elem_of_field_names; (eexists; split; [by apply Hat; eassumption|reflexivity]). }
  assert (Hl : field_names ≡ₚ l).
  { apply submseteq_length_Permutation.
    - apply NoDup_submseteq; [by apply (bool_decide_unpack _); vm_compute|].
      intros t Ht. destruct (decide (t ∈ l)) as [|Hnt]; [done|].
      destruct (Hin t Ht) as (q & Hq & _). rewrite (Hn t Hnt) in Hq. by rewrite lookup_empty in Hq.
    - unfold l. rewrite length_rev, tokens_length by done. done. }
  exists l. split; [done|]. intros l1 t l2 Hsp.
  destruct (Hin t) as (q & Hq & ->); [rewrite Hl, Hsp; set_solver|].
  assert (NoDup l) as Hnd by (rewrite <- Hl; by apply (bool_decide_unpack _); vm_compute).
  rewrite (Hp l1 t l2 Hnd Hsp) in Hq. injection Hq as <-. done.
Qed.

Lemma position_nonneg c t : mapped c -> t ∈ field_names -> 0 <= position c t.
Proof.
  intros Hm Ht. destruct (mapped_positions c Hm) as (l & Hl & Hp).
  rewrite <- Hl in Ht. apply list_elem_of_split in Ht as (l1 & l2 & E). rewrite (Hp l1 t l2 E).
  apply wsum_nonneg. intros. apply (mapped_masks c Hm).
Qed.

Lemma shift_bits_nonneg c : mapped c -> 0 <= shift_bits c.
Proof.
  intros Hm. unfold mapped, SetAddressMapping in Hm. ok_inv Hm.
  destruct (decide _) in Hm; [discriminate|]. ok_inv Hm. rewrite <- Hm. cbn.
  apply LogBase2_nonneg. unfold imul, int_ in E. case_decide; [|discriminate]. injection E as <-. lia.
Qed.

Lemma coord_AddressMapping c a t :
  mapped c -> 0 <= a -> t ∈ field_names ->
  coord (AddressMapping c a) t = (a / 2 ^ shift_bits c / 2 ^ position c t) mod 2 ^ width c t.
Proof.
  intros Hm Ha Ht. pose proof (position_nonneg c t Hm Ht).
  pose proof (shift_bits_nonneg c Hm).
  assert (Hf : coord (AddressMapping c a) t = field_of (Z.shiftr a (shift_bits c)) (position c t) (mask c t))
    by (clear H; revert t Ht; apply elem_of_field_names; done).
  destruct (mapped_masks c Hm t) as [Hw Hmk]. rewrite Hf, (Hmk Ht). unfold field_of.
  replace (2 ^ width c t - 1) with (Z.ones (width c t)) by (rewrite Z.ones_equiv; lia).
  rewrite Z.land_ones, !Z.shiftr_div_pow2 by lia.
  apply i32_small. pose proof (Z.mod_pos_bound (a / 2 ^ shift_bits c / 2 ^ position c t) (2 ^ width c t)).
  assert (2 ^ width c t <= 2 ^ 30) by (apply Z.pow_le_mono_r; lia). lia.
Qed.

Lemma coord_ext a b : (forall t, t ∈ field_names -> coord a t = coord b t) -> a = b.
Proof.
  intros H. destruct a, b. unfold coord in H. cbn in H.
  pose proof (H "ch"%string); pose proof (H "ra"%string); pose proof (H "bg"%string);
  pose proof (H "ba"%string); pose proof (H "ro"%string); pose proof (H "co"%string).
  cbn in *. unfold field_names in *. f_equal; set_solver.
Qed.

(** A coordinate in the ranges the mapping can produce. *)
Definition in_fields (c : Config) (a : Address) : Prop :=
  forall t, t ∈ field_names -> 0 <= coord a t < 2 ^ width c t.

Lemma AddressMapping_in_fields c a : mapped c -> 0 <= a -> in_fields c (AddressMapping c a).
Proof.
  intros Hm Ha t Ht. rewrite coord_AddressMapping by done.
  apply Z.mod_pos_bound. pose proof (mapped_masks c Hm t). lia.
Qed.

Lemma LogBase2_pow_le n : 1 <= n < 2 ^ 31 -> 2 ^ LogBase2 n <= n.
Proof. intros Hn. rewrite LogBase2_log2 by done. apply Z.log2_spec. lia. Qed.

(** The geometry of a memory that can be addressed at all. *)
Record geometry (c : Config) : Prop := {
  geo_channels : 1 <= channels c < 2 ^ 31;
  geo_ranks : 1 <= ranks c < 2 ^ 31;
  geo_bankgroups : 1 <= bankgroups c < 2 ^ 31;
  geo_banks_per_group : 1 <= banks_per_group c < 2 ^ 31;
  geo_banks : banks c = bankgroups c * banks_per_group c;
  geo_rows : 1 <= rows c < 2 ^ 31
}.

(** A coordinate that indexes the vectors of the simulator. *)
Record in_geometry (c : Config) (a : Address) : Prop := {
  ig_channel : 0 <= channel a < channels c;
  ig_rank : 0 <= rank a < ranks c;
  ig_bankgroup : 0 <= bankgroup a < bankgroups c;
  ig_bank : 0 <= bank a < banks_per_group c;
  ig_row : 0 <= arow a < rows c
}.

Lemma in_fields_geometry c a : geometry c -> in_fields c a -> in_geometry c a.
Proof.
  intros [] H. pose proof (fun k Hk => H k Hk) as Hf. unfold in_fields in H.
  assert (Hc : forall k n, k ∈ field_names -> width c k = LogBase2 n -> 1 <= n < 2 ^ 31 -> 0 <= coord a k < n).
  { intros k n Hk Ek Hn. specialize (H k Hk). rewrite Ek in H. pose proof (LogBase2_pow_le n Hn). lia. }
  constructor.
  - by apply (Hc "ch"%string (channels c)); [set_solver| |].
  - by apply (Hc "ra"%string (ranks c)); [set_solver| |].
  - by apply (Hc "bg"%string (bankgroups c)); [set_solver| |].
  - by apply (Hc "ba"%string (banks_per_group c)); [set_solver| |].
  - by apply (Hc "ro"%string (rows c)); [set_solver| |].
Qed.

Lemma Config_new_mapped reader c : Config_new reader = Ok c -> mapped c.
Proof. unfold Config_new. intros H. ok_inv H. exact E2. Qed.

Lemma wsum_perm w l l' : l ≡ₚ l' -> wsum w l = wsum w l'.
Proof. induction 1; simpl; lia. Qed.

Section mapping.
Context (c : Config) (Hm : mapped c).

Let Hw t : 0 <= width c t.
Proof. apply (mapped_masks c Hm). Qed.

Lemma address_bits_nonneg : 0 <= address_bits c.
Proof. by apply wsum_nonneg. Qed.

Lemma AddressMapping_inj a b :
  0 <= a < 2 ^ (shift_bits c + address_bits c) -> 0 <= b < 2 ^ (shift_bits c + address_bits c) ->
  AddressMapping c a = AddressMapping c b -> a / 2 ^ shift_bits c = b / 2 ^ shift_bits c.
Proof.
  intros Ha Hb E. destruct (mapped_positions c Hm) as (l & Hl & Hp).
  pose proof (shift_bits_nonneg c Hm). pose proof address_bits_nonneg.
  rewrite Z.pow_add_r in Ha, Hb by done.
  assert (Hd : a / 2 ^ shift_bits c mod 2 ^ wsum (width c) l = b / 2 ^ shift_bits c mod 2 ^ wsum (width c) l).
  { apply fields_determine; [done|]. intros l1 t l2 Es. rewrite <- (Hp l1 t l2 Es).
    assert (Ht : t ∈ field_names) by (rewrite <- Hl, Es; set_solver).
    rewrite <- !coord_AddressMapping by (done || lia). by rewrite E. }
  rewrite (wsum_perm _ _ _ Hl) in Hd. fold (address_bits c) in Hd.
  rewrite !Z.mod_small in Hd; [done|..];
    (split; [apply Z.div_pos; lia|apply Z.div_lt_upper_bound; lia]).
Qed.

Lemma AddressMapping_surj x :
  in_fields c x ->
  exists a, 0 <= a < 2 ^ (shift_bits c + address_bits c) /\ a mod 2 ^ shift_bits c = 0 /\
    AddressMapping c a = x.
Proof.
  intros Hx. destruct (mapped_positions c Hm) as (l & Hl & Hp).
  pose proof (shift_bits_nonneg c Hm). pose proof address_bits_nonneg.
  assert (Hv : forall t, t ∈ l -> 0 <= coord x t < 2 ^ width c t)
    by (intros t Ht; apply Hx; by rewrite <- Hl).
  pose proof (pack_bound (width c) Hw (coord x) l Hv) as Hb.
  rewrite (wsum_perm _ _ _ Hl) in Hb. fold (address_bits c) in Hb.
  exists (pack (width c) (coord x) l * 2 ^ shift_bits c).
  rewrite Z.pow_add_r, Z.mod_mul by lia. split; [nia|]. split; [done|].
  apply coord_ext. intros t Ht. rewrite coord_AddressMapping by (done || nia).
  rewrite Z.div_mul by lia. rewrite <- Hl in Ht.
  apply list_elem_of_split in Ht as (l1 & l2 & Es). rewrite (Hp l1 t l2 Es), Es.
  rewrite Es in Hv. by apply pack_field.
Qed.
End mapping.

(** C25. The address mapping of every configuration that loads: each request
    address has coordinates inside the fields, hence inside the vectors the
    simulator indexes by them; two addresses of the memory with the same
    coordinates are in the same request; and every coordinate tuple is the image
    of a request-aligned address.  The mapping string may order the six fields in
    any way. *)
Theorem address_mapping_bijective reader c :
  Config_new reader = Ok c ->
  (forall a, 0 <= a -> in_fields c (AddressMapping c a)) /\
  (forall x, geometry c -> in_fields c x -> in_geometry c x) /\
  (forall a b,
     0 <= a < 2 ^ (shift_bits c + address_bits c) -> 0 <= b < 2 ^ (shift_bits c + address_bits c) ->
     AddressMapping c a = AddressMapping c b -> a / 2 ^ shift_bits c = b / 2 ^ shift_bits c) /\
  (forall x, in_fields c x ->
     exists a, 0 <= a < 2 ^ (shift_bits c + address_bits c) /\ a mod 2 ^ shift_bits c = 0 /\
       AddressMapping c a = x).
Proof.
  intros Hc. pose proof (Config_new_mapped _ _ Hc) as Hm.
  split_and!; [by intros; apply AddressMapping_in_fields|by intros; apply in_fields_geometry|..].
  - by apply AddressMapping_inj.
  - by apply AddressMapping_surj.
Qed.

(** The integer parameters of configs/HBM2_8Gb_x128.ini. *)
Definition hbm2_values : list (string * string * string) :=
  [("dram_structure", "protocol", "HBM"); ("dram_structure", "bankgroups", "4");
   ("dram_structure", "banks_per_group", "4"); ("dram_structure", "rows", "32768");
   ("dram_structure", "columns", "64"); ("dram_structure", "device_width", "128");
   ("dram_structure", "BL", "4"); ("dram_structure", "num_dies", "4");
   ("timing", "CL", "14"); ("timing", "CWL", "4"); ("timing", "tRCDRD", "14");
   ("timing", "tRCDWR", "14"); ("timing", "tRP", "14"); ("timing", "tRAS", "34");
   ("timing", "tRFC", "260"); ("timing", "tREFI", "3900"); ("timing", "tREFIb", "128");
   ("timing", "tRPRE", "1"); ("timing", "tWPRE", "1"); ("timing", "tCKSRE", "10");
   ("timing", "tRTP_L", "6"); ("timing", "tRTP_S", "4");
   ("timing", "tRRD_S", "4"); ("timing", "tRRD_L", "6"); ("timing", "tWTR_S", "6");
   ("timing", "tWTR_L", "8"); ("timing", "tFAW", "30"); ("timing", "tWR", "16");
   ("timing", "tCCD_S", "1"); ("timing", "tCCD_L", "2"); ("timing", "tXS", "268");
   ("timing", "tCKE", "8"); ("timing", "tXP", "8");
   ("system", "channel_size", "1024"); ("system", "channels", "8"); ("system", "bus_width", "128");
   ("system", "address_mapping", "rorabgbachco"); ("system", "queue_structure", "PER_BANK");
   ("system", "row_buf_policy", "OPEN_PAGE"); ("system", "cmd_queue_size", "8");
   ("system", "trans_queue_size", "32"); ("system", "unified_queue", "False");
   ("other", "epoch_period", "1000000")]%string.

Definition hbm2_reader : INIReader :=
  foldl (fun r kv => ValueHandler r kv.1.1 kv.1.2 kv.2) (mkINIReader ∅) hbm2_values.

Definition hbm2_config : Config :=
  Eval vm_compute in
    (match Config_new hbm2_reader as o return match o with Ok _ => Config | Fault _ => unit end with
     | Ok c => c | Fault _ => tt end).

Lemma hbm2_loads : Config_new hbm2_reader = Ok hbm2_config.
Proof. vm_compute. reflexivity. Qed.

Lemma hbm2_geometry : geometry hbm2_config.
Proof. split; cbn; lia. Qed.

Lemma address_mapping_bijective_witness :
  shift_bits hbm2_config = 6 /\ address_bits hbm2_config = 27 /\
  AddressMapping hbm2_config 0x12345680 = mkAddress 2 0 0 1 1165 26 /\
  exists a, 0 <= a < 2 ^ (6 + 27) /\ AddressMapping hbm2_config a = AddressMapping hbm2_config 0x12345680.
Proof.
  destruct (address_mapping_bijective hbm2_reader hbm2_config hbm2_loads) as (Hr & _ & _ & Hs).
  destruct (Hs _ (Hr 0x12345680 ltac:(lia))) as (a & Ha & _ & Hx).
  split; [by vm_compute|]. split; [by vm_compute|].
  split; [by vm_compute|]. exists a. split; [exact Ha|exact Hx].
Defined.
