(* ===== verification/DramTiming.v ===== *)
(** * DRAMsim3: the timing tables (DRAMsim3/src/timing.cc, timing.h)

    For each command, the delays after which other commands may be issued to the
    same bank, the other banks of the bank group, the other bank groups of the
    rank, the other ranks, or the whole rank. *)

From stdpp Require Import base tactics list list_numbers numbers strings gmap.
From Stdlib Require Import ZArith Lia.
From S2P Require Import Prelude DramCommon DramConfig.

(** [std::vector<std::pair<CommandType, int>>] *)
Notation delays := (list (CommandType * Z)).

(** The five tables; the entry of a command the constructor does not assign is
    the empty vector. *)
Record Timing := mkTiming {
  same_bank : CommandType -> delays;
  other_banks_same_bankgroup : CommandType -> delays;
  other_bankgroups_same_rank : CommandType -> delays;
  other_ranks : CommandType -> delays;
  same_rank : CommandType -> delays
}.

Section tables.
Context (config : Config).

(** The delays after a column command; the long delays give way to the short
    ones when the bank groups are disabled. *)
Definition read_to_read_s : Z := Z.max (burst_cycle config) (tCCD_S config).
Definition read_to_read_l : Z :=
  if decide (bankgroups config = 1) then Z.max (burst_cycle config) (tCCD_S config)
  else Z.max (burst_cycle config) (tCCD_L config).
Definition read_to_read_o : Z := burst_cycle config + tRTRS config.
Definition read_to_write : Z := RL config + burst_cycle config - WL config + tRTRS config.
Definition read_to_write_o : Z :=
  read_delay config + burst_cycle config + tRTRS config - write_delay config.
Definition read_to_precharge : Z := AL config + tRTP config.
Definition readp_to_act : Z := AL config + burst_cycle config + tRTP config + tRP config.
Definition write_to_read_s : Z := write_delay config + tWTR_S config.
Definition write_to_read_l : Z :=
  if decide (bankgroups config = 1) then write_delay config + tWTR_S config
  else write_delay config + tWTR_L config.
Definition write_to_read_o : Z :=
  write_delay config + burst_cycle config + tRTRS config - read_delay config.
Definition write_to_write_s : Z := Z.max (burst_cycle config) (tCCD_S config).
Definition write_to_write_l : Z :=
  if decide (bankgroups config = 1) then Z.max (burst_cycle config) (tCCD_S config)
  else Z.max (burst_cycle config) (tCCD_L config).
Definition write_to_write_o : Z := burst_cycle config.
Definition write_to_precharge : Z := WL config + burst_cycle config + tWR config.

(** The delays after the row commands. *)
Definition precharge_to_activate : Z := tRP config.
Definition precharge_to_precharge : Z := tPPD config.
Definition read_to_activate : Z := read_to_precharge + precharge_to_activate.
Definition write_to_activate : Z := write_to_precharge + precharge_to_activate.
Definition activate_to_activate : Z := tRC config.
Definition activate_to_activate_l : Z :=
  if decide (bankgroups config = 1) then tRRD_S config else tRRD_L config.
Definition activate_to_activate_s : Z := tRRD_S config.
Definition activate_to_precharge : Z := tRAS config.
Definition activate_to_read : Z :=
  if IsGDDR (protocol config) || IsHBM (protocol config) then tRCDRD config
  else tRCD config - AL config.
Definition activate_to_write : Z :=
  if IsGDDR (protocol config) || IsHBM (protocol config) then tRCDWR config
  else tRCD config - AL config.
Definition activate_to_refresh : Z := tRC config.
Definition refresh_to_refresh : Z := tREFI config.
Definition refresh_to_activate : Z := tRFC config.
Definition refresh_to_activate_bank : Z := tRFCb config.
Definition self_refresh_entry_to_exit : Z := tCKESR config.
Definition self_refresh_exit : Z := tXS config.

(** READ, WRITE and their precharging forms after a column command. *)
Definition columns_after (rd wr : Z) : delays :=
  [(C_READ, rd); (C_WRITE, wr); (C_READ_PRECHARGE, rd); (C_WRITE_PRECHARGE, wr)].

Definition same_bank_table (c : CommandType) : delays :=
  match c with
  | C_READ => columns_after read_to_read_l read_to_write ++ [(PRECHARGE, read_to_precharge)]
  | C_WRITE => columns_after write_to_read_l write_to_write_l ++ [(PRECHARGE, write_to_precharge)]
  | C_READ_PRECHARGE =>
      [(ACTIVATE, readp_to_act); (REFRESH, read_to_activate); (REFRESH_BANK, read_to_activate);
       (SREF_ENTER, read_to_activate)]
  | C_WRITE_PRECHARGE =>
      [(ACTIVATE, write_to_activate); (REFRESH, write_to_activate);
       (REFRESH_BANK, write_to_activate); (SREF_ENTER, write_to_activate)]
  | ACTIVATE =>
      [(ACTIVATE, activate_to_activate); (C_READ, activate_to_read); (C_WRITE, activate_to_write);
       (C_READ_PRECHARGE, activate_to_read); (C_WRITE_PRECHARGE, activate_to_write);
       (PRECHARGE, activate_to_precharge)]
  | PRECHARGE =>
      [(ACTIVATE, precharge_to_activate); (REFRESH, precharge_to_activate);
       (REFRESH_BANK, precharge_to_activate); (SREF_ENTER, precharge_to_activate)]
  | _ => []
  end.

(** [tPPD] is for these protocols only. *)
Definition needs_tPPD : bool :=
  IsGDDR (protocol config) || bool_decide (protocol config = LPDDR4).

Definition other_banks_table (c : CommandType) : delays :=
  match c with
  | C_READ | C_READ_PRECHARGE => columns_after read_to_read_l read_to_write
  | C_WRITE | C_WRITE_PRECHARGE => columns_after write_to_read_l write_to_write_l
  | ACTIVATE => [(ACTIVATE, activate_to_activate_l); (REFRESH_BANK, activate_to_refresh)]
  | PRECHARGE => if needs_tPPD then [(PRECHARGE, precharge_to_precharge)] else []
  | REFRESH_BANK => [(ACTIVATE, refresh_to_activate); (REFRESH_BANK, refresh_to_refresh)]
  | _ => []
  end.

Definition other_bankgroups_table (c : CommandType) : delays :=
  match c with
  | C_READ | C_READ_PRECHARGE => columns_after read_to_read_s read_to_write
  | C_WRITE | C_WRITE_PRECHARGE => columns_after write_to_read_s write_to_write_s
  | ACTIVATE => [(ACTIVATE, activate_to_activate_s); (REFRESH_BANK, activate_to_refresh)]
  | PRECHARGE => if needs_tPPD then [(PRECHARGE, precharge_to_precharge)] else []
  | REFRESH_BANK => [(ACTIVATE, refresh_to_activate); (REFRESH_BANK, refresh_to_refresh)]
  | _ => []
  end.

Definition other_ranks_table (c : CommandType) : delays :=
  match c with
  | C_READ | C_READ_PRECHARGE => columns_after read_to_read_o read_to_write_o
  | C_WRITE | C_WRITE_PRECHARGE => columns_after write_to_read_o write_to_write_o
  | _ => []
  end.

Definition same_rank_table (c : CommandType) : delays :=
  match c with
  | REFRESH_BANK =>
      [(ACTIVATE, refresh_to_activate_bank); (REFRESH, refresh_to_activate_bank);
       (REFRESH_BANK, refresh_to_activate_bank); (SREF_ENTER, refresh_to_activate_bank)]
  | REFRESH =>
      [(ACTIVATE, refresh_to_activate); (REFRESH, refresh_to_activate);
       (SREF_ENTER, refresh_to_activate)]
  | SREF_ENTER => [(SREF_EXIT, self_refresh_entry_to_exit)]
  | SREF_EXIT =>
      [(ACTIVATE, self_refresh_exit); (REFRESH, self_refresh_exit);
       (REFRESH_BANK, self_refresh_exit); (SREF_ENTER, self_refresh_exit)]
  | _ => []
  end.

Definition Timing_new : Timing :=
  {| same_bank := same_bank_table;
     other_banks_same_bankgroup := other_banks_table;
     other_bankgroups_same_rank := other_bankgroups_table;
     other_ranks := other_ranks_table;
     same_rank := same_rank_table |}.
End tables.
