(* ===== verification/BankState.v ===== *)
(** * DRAMsim3: one bank (DRAMsim3/src/bankstate.cc, bankstate.h)

    The row-buffer state machine of a bank and the earliest cycle of each
    command.  A command [GetReadyCommand] returns is legal in the state the bank
    is in and not earlier than its constraint. *)

From stdpp Require Import base tactics list list_numbers numbers strings gmap.
From Stdlib Require Import ZArith Lia.
From S2P Require Import Prelude DramCommon.

Inductive State := OPEN | CLOSED | SREF | PD | STATE_SIZE.

#[export] Instance State_eq_dec : EqDecision State.
Proof. solve_decision. Defined.

Record BankState := mkBankState {
  state_ : State;
  cmd_timing_ : list Z;
  open_row_ : Z;
  row_hit_count_ : Z
}.

#[export] Instance BankState_fields : Fields BankState := fun b =>
  mkBankState (state_ b) (cmd_timing_ b) (open_row_ b) (row_hit_count_ b).

(** [CommandType::SIZE] as an index *)
Definition num_commands : nat := 10.

Definition BankState_new : BankState := mkBankState CLOSED (replicate num_commands 0) (-1) 0.

(** The command the bank needs next for [cmd] to make progress. *)
Definition required_type (b : BankState) (cmd : Command) : outcome CommandType :=
  match state_ b with
  | CLOSED =>
      match cmd_type cmd with
      | C_READ | C_READ_PRECHARGE | C_WRITE | C_WRITE_PRECHARGE => Ok ACTIVATE
      | REFRESH | REFRESH_BANK | SREF_ENTER => Ok (cmd_type cmd)
      | _ => Fault AbruptExit
      end
  | OPEN =>
      match cmd_type cmd with
      | C_READ | C_READ_PRECHARGE | C_WRITE | C_WRITE_PRECHARGE =>
          if decide (Row cmd = open_row_ b) then Ok (cmd_type cmd) else Ok PRECHARGE
      | REFRESH | REFRESH_BANK | SREF_ENTER => Ok PRECHARGE
      | _ => Fault AbruptExit
      end
  | SREF =>
      match cmd_type cmd with
      | C_READ | C_READ_PRECHARGE | C_WRITE | C_WRITE_PRECHARGE => Ok SREF_EXIT
      | _ => Fault AbruptExit
      end
  | PD | STATE_SIZE => Fault AbruptExit
  end.

Definition GetReadyCommand (b : BankState) (cmd : Command) (clk : Z) : outcome Command :=
  t ← required_type b cmd;
  if decide (t <> C_SIZE) then
    earliest ← vget (cmd_timing_ b) (Z.of_nat (cmd_index t));
    if decide (clk >= earliest) then Ok (mkCommand t (addr cmd) (hex_addr cmd)) else Ok Command_default
  else Ok Command_default.

Definition UpdateState (b : BankState) (cmd : Command) : outcome BankState :=
  match state_ b with
  | OPEN =>
      match cmd_type cmd with
      | C_READ | C_WRITE => Ok (b <| row_hit_count_ := row_hit_count_ b + 1 |>)
      | C_READ_PRECHARGE | C_WRITE_PRECHARGE | PRECHARGE =>
          Ok (b <| state_ := CLOSED |> <| open_row_ := -1 |> <| row_hit_count_ := 0 |>)
      | _ => Fault AbruptExit
      end
  | CLOSED =>
      match cmd_type cmd with
      | REFRESH | REFRESH_BANK => Ok b
      | ACTIVATE => Ok (b <| state_ := OPEN |> <| open_row_ := Row cmd |>)
      | SREF_ENTER => Ok (b <| state_ := SREF |>)
      | _ => Fault AbruptExit
      end
  | SREF =>
      match cmd_type cmd with
      | SREF_EXIT => Ok (b <| state_ := CLOSED |>)
      | _ => Fault AbruptExit
      end
  | _ => Fault AbruptExit
  end.

Definition UpdateTiming (b : BankState) (t : CommandType) (time : Z) : outcome BankState :=
  v ← vupd (cmd_timing_ b) (Z.of_nat (cmd_index t)) (fun old => Z.max old time);
  Ok (b <| cmd_timing_ := v |>).

Definition IsRowOpen (b : BankState) : bool := bool_decide (state_ b = OPEN).
Definition OpenRow (b : BankState) : Z := open_row_ b.
Definition RowHitCount (b : BankState) : Z := row_hit_count_ b.

(** ** What a bank promises *)
(** The bank keeps ten constraints and is never powered down; the row fields are
    those of an open row. *)
Record bank_ok (b : BankState) : Prop := {
  bank_timings : length (cmd_timing_ b) = num_commands;
  bank_powered : state_ b = OPEN \/ state_ b = CLOSED \/ state_ b = SREF;
  bank_rows : state_ b <> OPEN -> open_row_ b = -1 /\ row_hit_count_ b = 0
}.

Lemma BankState_new_ok : bank_ok BankState_new.
Proof. split; simpl; auto. Qed.

Lemma cmd_index_bound t : t <> C_SIZE -> (cmd_index t < num_commands)%nat.
Proof. destruct t; simpl; unfold num_commands; (lia || done). Qed.

(** The earliest cycle of a command. *)
Definition earliest (b : BankState) (t : CommandType) : Z := nth (cmd_index t) (cmd_timing_ b) 0.

Lemma vget_earliest b t :
  bank_ok b -> t <> C_SIZE -> vget (cmd_timing_ b) (Z.of_nat (cmd_index t)) = Ok (earliest b t).
Proof.
  intros [Hl _ _] Ht. apply vget_ok. split; [lia|]. rewrite Nat2Z.id. unfold earliest.
  destruct (nth_lookup_or_length (cmd_timing_ b) (cmd_index t) 0) as [|H]; [done|].
  pose proof (cmd_index_bound t Ht). lia.
Qed.

(** A command that is ready is the one the bank requires, not before its time. *)
Lemma GetReadyCommand_spec b cmd clk c :
  bank_ok b -> GetReadyCommand b cmd clk = Ok c ->
  c = Command_default \/
  exists t, required_type b cmd = Ok t /\ t <> C_SIZE /\ c = mkCommand t (addr cmd) (hex_addr cmd) /\
    earliest b t <= clk.
Proof.
  intros Hb H. unfold GetReadyCommand in H. ok_inv H. case_decide as Ht; [|by left; injection H as <-].
  rewrite vget_earliest in H by done. cbn [mbind outcome_bind] in H.
  case_decide; injection H as <-; [right|by left]. eexists. split_and!; eauto. lia.
Qed.

Lemma GetReadyCommand_valid b cmd clk c :
  bank_ok b -> GetReadyCommand b cmd clk = Ok c -> IsValid c = true ->
  required_type b cmd = Ok (cmd_type c) /\ cmd_type c <> C_SIZE /\ addr c = addr cmd /\
  hex_addr c = hex_addr cmd /\ earliest b (cmd_type c) <= clk.
Proof.
  intros Hb H Hv. destruct (GetReadyCommand_spec b cmd clk c Hb H) as [->|(t & ? & ? & -> & ?)];
    [discriminate Hv|]. done.
Qed.

(** The requests the queues and the refresh generator make. *)
Definition is_request (c : Command) : Prop := IsReadWrite c = true \/ IsRefresh c = true.

Lemma GetReadyCommand_total b cmd clk :
  bank_ok b -> state_ b <> SREF -> is_request cmd -> exists c, GetReadyCommand b cmd clk = Ok c.
Proof.
  intros Hb Hs Hr. unfold GetReadyCommand.
  assert (exists t, required_type b cmd = Ok t) as (t & ->).
  { unfold required_type. destruct (bank_powered b Hb) as [->|[->|E]]; [| |done];
      destruct Hr as [Hr|Hr]; destruct (cmd_type cmd) eqn:Et; unfold IsReadWrite, IsRead, IsWrite, IsRefresh in Hr;
      rewrite Et in Hr; try discriminate Hr; try case_decide; eauto. }
  cbn [mbind outcome_bind]. case_decide; [|eauto]. rewrite vget_earliest by done.
  cbn [mbind outcome_bind]. case_decide; eauto.
Qed.

(** The state machine accepts what it requires. *)
Lemma required_legal b cmd t a h :
  bank_ok b -> required_type b cmd = Ok t -> exists b', UpdateState b (mkCommand t a h) = Ok b'.
Proof.
  intros Hb Ht. unfold required_type in Ht. unfold UpdateState.
  destruct (state_ b), (cmd_type cmd); try discriminate Ht; try case_decide; simplify_eq; simpl; eauto.
Qed.

Lemma UpdateState_ok b cmd b' :
  bank_ok b -> UpdateState b cmd = Ok b' -> bank_ok b' /\ cmd_timing_ b' = cmd_timing_ b.
Proof.
  intros [H1 H2 H3] H. unfold UpdateState in H.
  destruct (state_ b) eqn:Es; try discriminate; destruct (cmd_type cmd); try discriminate;
    injection H as <-; (split; [split; simpl; auto; rewrite ?Es; try naive_solver|done]).
Qed.

(** Only the entry and the exit of self refresh touch the state [SREF]. *)
Lemma UpdateState_awake b cmd b' :
  state_ b <> SREF -> cmd_type cmd <> SREF_ENTER -> UpdateState b cmd = Ok b' -> state_ b' <> SREF.
Proof.
  intros Hs Hc H. unfold UpdateState in H. destruct (state_ b) eqn:Es; try discriminate; try done;
    destruct (cmd_type cmd); try discriminate; try done; injection H as <-; simpl; rewrite ?Es; done.
Qed.

Lemma UpdateTiming_ok b t time :
  bank_ok b -> t <> C_SIZE ->
  exists b', UpdateTiming b t time = Ok b' /\ bank_ok b' /\ state_ b' = state_ b /\
    open_row_ b' = open_row_ b /\ row_hit_count_ b' = row_hit_count_ b /\
    forall t', earliest b' t' = if decide (t' = t) then Z.max (earliest b t) time else earliest b t'.
Proof.
  intros Hb Ht. unfold UpdateTiming, vupd. rewrite vget_earliest by done. cbn [mbind outcome_bind].
  pose proof (cmd_index_bound t Ht) as Hi. pose proof (bank_timings b Hb) as Hl.
  unfold vset. rewrite decide_True by (rewrite Hl; lia). cbn [mbind outcome_bind].
  eexists. split; [reflexivity|]. simpl. rewrite Nat2Z.id. destruct Hb. split_and!; try done.
  - split; simpl; auto. by rewrite length_insert.
  - intros t'. unfold earliest. simpl. rewrite !nth_lookup. case_decide as E.
    + subst t'. rewrite list_lookup_insert_eq by lia. done.
    + rewrite list_lookup_insert_ne; [done|]. intros Heq. apply E. destruct t, t'; done || discriminate Heq.
Qed.

(** ** Serving a request

    The commands a bank asks for, one after the other, until it executes the
    request itself. *)
Fixpoint serve (fuel : nat) (b : BankState) (cmd : Command) : outcome (list CommandType * BankState) :=
  match fuel with
  | O => Fault Undefined
  | S fuel =>
      t ← required_type b cmd;
      b' ← UpdateState b (mkCommand t (addr cmd) (hex_addr cmd));
      if decide (t = cmd_type cmd) then Ok ([t], b')
      else r ← serve fuel b' cmd; Ok (t :: r.1, r.2)
  end.

(** What has to precede a column access to [row]. *)
Definition preamble (b : BankState) (row : Z) : list CommandType :=
  match state_ b with
  | OPEN => if decide (open_row_ b = row) then [] else [PRECHARGE; ACTIVATE]
  | CLOSED => [ACTIVATE]
  | _ => [SREF_EXIT; ACTIVATE]
  end.

(** The bank after a column command on its open row. *)
Definition accessed (b : BankState) (t : CommandType) : BankState :=
  match t with
  | C_READ_PRECHARGE | C_WRITE_PRECHARGE =>
      b <| state_ := CLOSED |> <| open_row_ := -1 |> <| row_hit_count_ := 0 |>
  | _ => b <| row_hit_count_ := row_hit_count_ b + 1 |>
  end.

Lemma serve_hit n b cmd :
  IsReadWrite cmd = true -> state_ b = OPEN -> open_row_ b = Row cmd ->
  serve (S n) b cmd = Ok ([cmd_type cmd], accessed b (cmd_type cmd)).
Proof.
  intros Hrw Hs Ho. cbn [serve]. unfold required_type, UpdateState. rewrite Hs, Ho.
  unfold IsReadWrite, IsRead, IsWrite in Hrw.
  destruct (cmd_type cmd) eqn:Et; try discriminate Hrw; rewrite decide_True by done;
    cbn [mbind outcome_bind cmd_type accessed]; by rewrite ?decide_True.
Qed.

(** A command [t] other than the request comes first. *)
Lemma serve_step n b cmd t b' l b'' :
  required_type b cmd = Ok t -> t <> cmd_type cmd ->
  UpdateState b (mkCommand t (addr cmd) (hex_addr cmd)) = Ok b' -> serve n b' cmd = Ok (l, b'') ->
  serve (S n) b cmd = Ok (t :: l, b'').
Proof.
  intros Ht Hne Hu Hs. cbn [serve]. rewrite Ht. cbn [mbind outcome_bind]. rewrite Hu.
  cbn [mbind outcome_bind]. rewrite decide_False, Hs by done. done.
Qed.

Ltac by_column cmd Hrw :=
  unfold required_type, UpdateState; unfold IsReadWrite, IsRead, IsWrite in Hrw;
  destruct (cmd_type cmd) eqn:?; try discriminate Hrw.

Lemma serve_closed n b cmd :
  IsReadWrite cmd = true -> state_ b = CLOSED ->
  serve (S (S n)) b cmd =
    Ok ([ACTIVATE; cmd_type cmd], accessed (b <| state_ := OPEN |> <| open_row_ := Row cmd |>) (cmd_type cmd)).
Proof.
  intros Hrw Hs. eapply (serve_step _ _ _ ACTIVATE); [..|by apply serve_hit]; by_column cmd Hrw; rewrite ?Hs; done.
Qed.

Lemma serve_conflict n b cmd :
  IsReadWrite cmd = true -> state_ b = OPEN -> open_row_ b <> Row cmd ->
  serve (S (S (S n))) b cmd =
    Ok ([PRECHARGE; ACTIVATE; cmd_type cmd],
        accessed (mkBankState OPEN (cmd_timing_ b) (Row cmd) 0) (cmd_type cmd)).
Proof.
  intros Hrw Hs Ho. eapply (serve_step _ _ _ PRECHARGE (mkBankState CLOSED (cmd_timing_ b) (-1) 0));
    [..|by rewrite serve_closed];
    by_column cmd Hrw; rewrite ?Hs, ?decide_False by congruence; done.
Qed.

Lemma serve_sref n b cmd :
  IsReadWrite cmd = true -> state_ b = SREF ->
  serve (S (S (S n))) b cmd =
    Ok ([SREF_EXIT; ACTIVATE; cmd_type cmd],
        accessed (b <| state_ := OPEN |> <| open_row_ := Row cmd |>) (cmd_type cmd)).
Proof.
  intros Hrw Hs. eapply (serve_step _ _ _ SREF_EXIT (b <| state_ := CLOSED |>));
    [..|by rewrite serve_closed];
    by_column cmd Hrw; rewrite ?Hs; done.
Qed.

(** A column access to a bank is executed after at most two commands, which
    close the row or leave self refresh, and open the requested row: the access
    never aborts, reaches exactly the row of its address, and leaves the bank
    with this row open and the access counted, or closed for the precharging
    forms. *)
Theorem column_access_served b cmd :
  bank_ok b -> IsReadWrite cmd = true ->
  exists b', serve 3 b cmd = Ok (preamble b (Row cmd) ++ [cmd_type cmd], b') /\ bank_ok b' /\
    match cmd_type cmd with
    | C_READ_PRECHARGE | C_WRITE_PRECHARGE => state_ b' = CLOSED
    | _ => state_ b' = OPEN /\ open_row_ b' = Row cmd /\
        row_hit_count_ b' = (if decide (state_ b = OPEN /\ open_row_ b = Row cmd)
                             then row_hit_count_ b else 0) + 1
    end.
Proof.
  intros [Hl Hp Hr] Hrw. unfold preamble. destruct Hp as [E|[E|E]]; rewrite E in *.
  - destruct (decide (open_row_ b = Row cmd)) as [Ho|Ho].
    + rewrite (serve_hit 2) by done. eexists. split; [reflexivity|]. rewrite decide_True by done.
      by_column cmd Hrw; (split; [split; simpl; auto; rewrite ?E; naive_solver|done]).
    + rewrite (serve_conflict 0) by done. eexists. split; [reflexivity|].
      rewrite decide_False by naive_solver.
      by_column cmd Hrw; (split; [split; simpl; auto; naive_solver|done]).
  - rewrite (serve_closed 1) by done. eexists. split; [reflexivity|].
    rewrite decide_False by naive_solver. destruct (Hr ltac:(done)) as [_ Hh].
    by_column cmd Hrw; (split; [split; simpl; auto; naive_solver|simpl; rewrite ?Hh; done]).
  - rewrite (serve_sref 0) by done. eexists. split; [reflexivity|].
    rewrite decide_False by naive_solver. destruct (Hr ltac:(done)) as [_ Hh].
    by_column cmd Hrw; (split; [split; simpl; auto; naive_solver|simpl; rewrite ?Hh; done]).
Qed.

Lemma column_access_served_witness :
  exists b', serve 3 (mkBankState OPEN (replicate 10 0) 7 2) (mkCommand C_WRITE (mkAddress 0 0 1 2 9 4) 64) =
    Ok ([PRECHARGE; ACTIVATE; C_WRITE], b') /\ open_row_ b' = 9 /\ row_hit_count_ b' = 1.
Proof.
  destruct (column_access_served (mkBankState OPEN (replicate 10 0) 7 2)
              (mkCommand C_WRITE (mkAddress 0 0 1 2 9 4) 64)) as (b' & Hs & _ & _ & Ho & Hh);
    [by split; simpl; auto; naive_solver|reflexivity|].
  exists b'. split; [exact Hs|]. split; [exact Ho|exact Hh].
Defined.
