(* ===== verification/ChannelState.v ===== *)
(** * DRAMsim3: the banks of a channel (DRAMsim3/src/channel_state.cc, channel_state.h)

    The states of all banks, the activation windows of the ranks and the pending
    refreshes of a channel.  The theorems: a command that is ready is legal in
    every bank it changes; the constraints of the timing tables hold between any
    two commands of a run; at most four activations of a rank fall in a window of
    [tFAW] cycles. *)

From stdpp Require Import base tactics list list_numbers numbers strings gmap.
From Stdlib Require Import ZArith Lia.
From S2P Require Import Prelude DramCommon DramConfig DramTiming BankState.

Notation banks3 := (list (list (list BankState))).

Record ChannelState := mkChannelState {
  rank_idle_cycles : list Z;
  rank_is_sref_ : list bool;
  bank_states_ : banks3;
  refresh_q_ : list Command;
  four_aw_ : list (list Z);
  thirty_two_aw_ : list (list Z)
}.

#[export] Instance ChannelState_fields : Fields ChannelState := fun c =>
  mkChannelState (rank_idle_cycles c) (rank_is_sref_ c) (bank_states_ c) (refresh_q_ c)
    (four_aw_ c) (thirty_two_aw_ c).

(** ** One bank of the three-dimensional vector *)
Definition bank_at (bs : banks3) (r g k : Z) : outcome BankState :=
  x ← vget bs r; y ← vget x g; vget y k.

(** [bank_states_[r][g][k] = f(bank_states_[r][g][k])] *)
Definition bank_mod (bs : banks3) (r g k : Z) (f : BankState -> outcome BankState)
    : outcome banks3 :=
  x ← vget bs r; y ← vget x g; b ← vget y k;
  b' ← f b;
  y' ← vset y k b'; x' ← vset x g y'; vset bs r x'.

(** [it = begin(); ...; erase(it); break]: the first element with the property goes. *)
Fixpoint erase_first {A} (p : A -> bool) (l : list A) : list A :=
  match l with
  | [] => []
  | x :: l => if p x then l else x :: erase_first p l
  end.

Section channel.
Context (config : Config) (timing : Timing).

Definition ChannelState_new : ChannelState :=
  {| rank_idle_cycles := replicate (Z.to_nat (ranks config)) 0;
     rank_is_sref_ := replicate (Z.to_nat (ranks config)) false;
     bank_states_ :=
       replicate (Z.to_nat (ranks config))
         (replicate (Z.to_nat (bankgroups config))
           (replicate (Z.to_nat (banks_per_group config)) BankState_new));
     refresh_q_ := [];
     four_aw_ := replicate (Z.to_nat (ranks config)) [];
     thirty_two_aw_ := replicate (Z.to_nat (ranks config)) [] |}.

(** The pairs (bank group, bank) of [for j ... for k ...]. *)
Definition bank_pairs : list (Z * Z) :=
  seqZ 0 (bankgroups config) ≫= (fun j => pair j <$> seqZ 0 (banks_per_group config)).

Fixpoint all_idle (bs : banks3) (rk : Z) (l : list (Z * Z)) : outcome bool :=
  match l with
  | [] => Ok true
  | (j, k) :: l =>
      b ← bank_at bs rk j k;
      if IsRowOpen b then Ok false else all_idle bs rk l
  end.

Definition IsAllBankIdleInRank (cs : ChannelState) (rk : Z) : outcome bool :=
  all_idle (bank_states_ cs) rk bank_pairs.

Definition IsRankSelfRefreshing (cs : ChannelState) (rk : Z) : outcome bool :=
  vget (rank_is_sref_ cs) rk.

Definition IsRefreshWaiting (cs : ChannelState) : bool :=
  match refresh_q_ cs with [] => false | _ => true end.

Definition PendingRefCommand (cs : ChannelState) : outcome Command :=
  match refresh_q_ cs with [] => Fault Undefined | c :: _ => Ok c end.

Definition IsRWPendingOnRef (cs : ChannelState) (cmd : Command) : outcome bool :=
  b ← bank_at (bank_states_ cs) (Rank cmd) (Bankgroup cmd) (Bank cmd);
  Ok (IsRowOpen b && bool_decide (RowHitCount b = 0) && bool_decide (OpenRow b = Row cmd)).

(** [hex_addr = -1] as [uint64_t]. *)
Definition no_hex : Z := u64_max.

Definition BankNeedRefresh (cs : ChannelState) (rk g k : Z) (need : bool) : ChannelState :=
  if need then
    cs <| refresh_q_ := refresh_q_ cs ++ [mkCommand REFRESH_BANK (mkAddress (-1) rk g k (-1) (-1)) no_hex] |>
  else
    cs <| refresh_q_ :=
      erase_first (fun c => bool_decide (Rank c = rk) && bool_decide (Bankgroup c = g) &&
                            bool_decide (Bank c = k)) (refresh_q_ cs) |>.

Definition RankNeedRefresh (cs : ChannelState) (rk : Z) (need : bool) : ChannelState :=
  if need then
    cs <| refresh_q_ := refresh_q_ cs ++ [mkCommand REFRESH (mkAddress (-1) rk (-1) (-1) (-1) (-1)) no_hex] |>
  else
    cs <| refresh_q_ := erase_first (fun c => bool_decide (Rank c = rk)) (refresh_q_ cs) |>.

(** ** Activation windows *)
(** [!q.empty() && curr_time < q[0] && q.size() >= n] *)
Definition window_full (n : nat) (q : list Z) (curr_time : Z) : bool :=
  match q with
  | [] => false
  | t :: _ => bool_decide (curr_time < t) && bool_decide (n <= length q)%nat
  end.

Definition IsFAWReady (cs : ChannelState) (rk curr_time : Z) : outcome bool :=
  q ← vget (four_aw_ cs) rk; Ok (negb (window_full 4 q curr_time)).

Definition Is32AWReady (cs : ChannelState) (rk curr_time : Z) : outcome bool :=
  q ← vget (thirty_two_aw_ cs) rk; Ok (negb (window_full 32 q curr_time)).

Definition ActivationWindowOk (cs : ChannelState) (rk curr_time : Z) : outcome bool :=
  tfaw_ok ← IsFAWReady cs rk curr_time;
  if IsGDDR (protocol config) then
    if negb tfaw_ok then Ok false else Is32AWReady cs rk curr_time
  else Ok tfaw_ok.

(** Drop the oldest activation when its window is over, then record this one. *)
Definition window_push (q : list Z) (curr_time deadline : Z) : list Z :=
  match q with
  | t :: q' => (if decide (curr_time >= t) then q' else q) ++ [deadline]
  | [] => [deadline]
  end.

Definition UpdateActivationTimes (cs : ChannelState) (rk curr_time : Z) : outcome ChannelState :=
  faw ← vupd (four_aw_ cs) rk (fun q => window_push q curr_time (u64 (curr_time + tFAW config)));
  if IsGDDR (protocol config) then
    w32 ← vupd (thirty_two_aw_ cs) rk (fun q => window_push q curr_time (u64 (curr_time + t32AW config)));
    Ok (cs <| four_aw_ := faw |> <| thirty_two_aw_ := w32 |>)
  else Ok (cs <| four_aw_ := faw |>).

(** ** The command that is ready *)
(** The loop over the banks of the rank for a rank-level command. *)
Fixpoint rank_scan (bs : banks3) (cmd : Command) (clk : Z) (l : list (Z * Z)) (ready_cmd : Command)
    (num_ready : Z) : outcome Command :=
  match l with
  | [] => if decide (num_ready = banks config) then Ok ready_cmd else Ok Command_default
  | (j, k) :: l =>
      b ← bank_at bs (Rank cmd) j k;
      ready_cmd ← BankState.GetReadyCommand b cmd clk;
      if negb (IsValid ready_cmd) then rank_scan bs cmd clk l ready_cmd num_ready
      else if decide (cmd_type ready_cmd <> cmd_type cmd) then
        Ok (ready_cmd <| addr := mkAddress (-1) (Rank cmd) j k (-1) (-1) |>)
      else rank_scan bs cmd clk l ready_cmd (num_ready + 1)
  end.

Definition GetReadyCommand (cs : ChannelState) (cmd : Command) (clk : Z) : outcome Command :=
  if IsRankCMD cmd then rank_scan (bank_states_ cs) cmd clk bank_pairs Command_default 0
  else
    b ← bank_at (bank_states_ cs) (Rank cmd) (Bankgroup cmd) (Bank cmd);
    ready_cmd ← BankState.GetReadyCommand b cmd clk;
    if negb (IsValid ready_cmd) then Ok Command_default
    else if decide (cmd_type ready_cmd = ACTIVATE) then
      ok ← ActivationWindowOk cs (Rank ready_cmd) clk;
      if (ok : bool) then Ok ready_cmd else Ok Command_default
    else Ok ready_cmd.

(** ** The effect of a command *)
Definition UpdateState (cs : ChannelState) (cmd : Command) : outcome ChannelState :=
  if IsRankCMD cmd then
    bs ← for_each (fun jk bs => bank_mod bs (Rank cmd) jk.1 jk.2
                                  (fun b => BankState.UpdateState b cmd))
                  bank_pairs (bank_states_ cs);
    let cs := cs <| bank_states_ := bs |> in
    if IsRefresh cmd then Ok (RankNeedRefresh cs (Rank cmd) false)
    else if decide (cmd_type cmd = SREF_ENTER) then
      v ← vset (rank_is_sref_ cs) (Rank cmd) true; Ok (cs <| rank_is_sref_ := v |>)
    else if decide (cmd_type cmd = SREF_EXIT) then
      v ← vset (rank_is_sref_ cs) (Rank cmd) false; Ok (cs <| rank_is_sref_ := v |>)
    else Ok cs
  else
    bs ← bank_mod (bank_states_ cs) (Rank cmd) (Bankgroup cmd) (Bank cmd)
           (fun b => BankState.UpdateState b cmd);
    let cs := cs <| bank_states_ := bs |> in
    if IsRefresh cmd then Ok (BankNeedRefresh cs (Rank cmd) (Bankgroup cmd) (Bank cmd) false)
    else Ok cs.

(** [for (auto cmd_timing : cmd_timing_list) bank_states_[..].UpdateTiming(...)]
    for each bank of a list of coordinates (rank, bank group, bank). *)
Definition update_banks (coords : list (Z * Z * Z)) (cmd_timing_list : delays) (clk : Z)
    (bs : banks3) : outcome banks3 :=
  for_each (fun c bs =>
    for_each (fun td bs => bank_mod bs c.1.1 c.1.2 c.2
                (fun b => BankState.UpdateTiming b td.1 (u64 (clk + td.2))))
      cmd_timing_list bs) coords bs.

Definition UpdateSameBankTiming (a : Address) (l : delays) (clk : Z) (bs : banks3) : outcome banks3 :=
  update_banks [(rank a, bankgroup a, bank a)] l clk bs.

Definition UpdateOtherBanksSameBankgroupTiming (a : Address) (l : delays) (clk : Z) (bs : banks3)
    : outcome banks3 :=
  update_banks (pair (rank a, bankgroup a) <$>
                  filter (fun k => k <> bank a) (seqZ 0 (banks_per_group config))) l clk bs.

Definition UpdateOtherBankgroupsSameRankTiming (a : Address) (l : delays) (clk : Z) (bs : banks3)
    : outcome banks3 :=
  update_banks (filter (fun j => j <> bankgroup a) (seqZ 0 (bankgroups config)) ≫=
                  (fun j => pair (rank a, j) <$> seqZ 0 (banks_per_group config))) l clk bs.

Definition UpdateOtherRanksTiming (a : Address) (l : delays) (clk : Z) (bs : banks3)
    : outcome banks3 :=
  update_banks (filter (fun i => i <> rank a) (seqZ 0 (ranks config)) ≫=
                  (fun i => (fun jk => (i, jk.1, jk.2)) <$> bank_pairs)) l clk bs.

Definition UpdateSameRankTiming (a : Address) (l : delays) (clk : Z) (bs : banks3) : outcome banks3 :=
  update_banks ((fun jk => (rank a, jk.1, jk.2)) <$> bank_pairs) l clk bs.

Definition UpdateTiming (cs : ChannelState) (cmd : Command) (clk : Z) : outcome ChannelState :=
  let bank_level (cs : ChannelState) : outcome ChannelState :=
    bs ← UpdateSameBankTiming (addr cmd) (same_bank timing (cmd_type cmd)) clk (bank_states_ cs);
    bs ← UpdateOtherBanksSameBankgroupTiming (addr cmd)
           (other_banks_same_bankgroup timing (cmd_type cmd)) clk bs;
    bs ← UpdateOtherBankgroupsSameRankTiming (addr cmd)
           (other_bankgroups_same_rank timing (cmd_type cmd)) clk bs;
    bs ← UpdateOtherRanksTiming (addr cmd) (other_ranks timing (cmd_type cmd)) clk bs;
    Ok (cs <| bank_states_ := bs |>) in
  match cmd_type cmd with
  | ACTIVATE => cs ← UpdateActivationTimes cs (Rank cmd) clk; bank_level cs
  | C_READ | C_READ_PRECHARGE | C_WRITE | C_WRITE_PRECHARGE | PRECHARGE | REFRESH_BANK => bank_level cs
  | REFRESH | SREF_ENTER | SREF_EXIT =>
      bs ← UpdateSameRankTiming (addr cmd) (same_rank timing (cmd_type cmd)) clk (bank_states_ cs);
      Ok (cs <| bank_states_ := bs |>)
  | C_SIZE => Fault AbruptExit
  end.

Definition UpdateTimingAndStates (cs : ChannelState) (cmd : Command) (clk : Z)
    : outcome ChannelState :=
  cs ← UpdateState cs cmd; UpdateTiming cs cmd clk.
End channel.

(** ** Banks by coordinate *)
(** The bank at (rank, bank group, bank). *)
Definition bk (bs : banks3) (c : Z * Z * Z) : outcome BankState := bank_at bs c.1.1 c.1.2 c.2.

Lemma bk_mod bs c f b b' :
  bk bs c = Ok b -> f b = Ok b' ->
  exists bs', bank_mod bs c.1.1 c.1.2 c.2 f = Ok bs' /\ bk bs' c = Ok b' /\
    forall c', c' <> c -> bk bs' c' = bk bs c'.
Proof.
  destruct c as [[r g] k]. unfold bk, bank_at, bank_mod. cbn [fst snd]. intros Hb Hf.
  apply bind_ok in Hb as (x & Hx & Hb). apply bind_ok in Hb as (y & Hy & Hb).
  rewrite Hx. cbn [mbind outcome_bind]. rewrite Hy. cbn [mbind outcome_bind]. rewrite Hb.
  cbn [mbind outcome_bind]. rewrite Hf. cbn [mbind outcome_bind].
  assert (Hset : forall A (v : list A) i a a', vget v i = Ok a -> exists v', vset v i a' = Ok v').
  { intros A v i a a' [Hi Ha]%vget_ok. apply lookup_lt_Some in Ha. unfold vset.
    rewrite decide_True by lia. eauto. }
  destruct (Hset _ y k b b' Hb) as [y' Ey]. rewrite Ey. cbn [mbind outcome_bind].
  destruct (Hset _ x g y y' Hy) as [x' Ex]. rewrite Ex. cbn [mbind outcome_bind].
  destruct (Hset _ bs r x x' Hx) as [bs' Eb]. rewrite Eb.
  exists bs'. split; [done|]. split.
  - rewrite (vget_vset_eq _ _ _ _ Eb). cbn [mbind outcome_bind].
    rewrite (vget_vset_eq _ _ _ _ Ex). cbn [mbind outcome_bind]. apply (vget_vset_eq _ _ _ _ Ey).
  - intros [[r' g'] k'] Hne. cbn [fst snd]. destruct (decide (r' = r)) as [->|Hr].
    2: { by rewrite (vget_vset_ne _ _ _ _ _ (not_eq_sym Hr) Eb). }
    rewrite (vget_vset_eq _ _ _ _ Eb), Hx. cbn [mbind outcome_bind].
    destruct (decide (g' = g)) as [->|Hg].
    2: { by rewrite (vget_vset_ne _ _ _ _ _ (not_eq_sym Hg) Ex). }
    rewrite (vget_vset_eq _ _ _ _ Ex), Hy. cbn [mbind outcome_bind].
    apply (vget_vset_ne _ _ _ _ _) with (2 := Ey). congruence.
Qed.

(** A loop over distinct coordinates applies its body to each of their banks. *)
Lemma bk_for_each {A} (pos : A -> Z * Z * Z) (f : A -> BankState -> outcome BankState) l bs :
  NoDup (pos <$> l) ->
  (forall a, a ∈ l -> exists b b', bk bs (pos a) = Ok b /\ f a b = Ok b') ->
  exists bs',
    for_each (fun a bs => bank_mod bs (pos a).1.1 (pos a).1.2 (pos a).2 (f a)) l bs = Ok bs' /\
    (forall a, a ∈ l -> bk bs' (pos a) = (bk bs (pos a) ≫= f a)) /\
    forall c, c ∉ pos <$> l -> bk bs' c = bk bs c.
Proof.
  revert bs; induction l as [|a l IH]; intros bs Hnd Hf; cbn [for_each].
  { exists bs. split_and!; set_solver. }
  rewrite fmap_cons in Hnd. apply NoDup_cons in Hnd as [Hn Hnd].
  destruct (Hf a ltac:(set_solver)) as (b & b' & Hb & Hb').
  destruct (bk_mod bs (pos a) (f a) b b' Hb Hb') as (bs1 & E1 & Hat & Hoth). rewrite E1.
  cbn [mbind outcome_bind].
  destruct (IH bs1 Hnd) as (bs' & E & Hin & Hout).
  { intros x Hx. destruct (Hf x ltac:(set_solver)) as (u & u' & ? & ?). exists u, u'.
    rewrite Hoth; [done|]. intros Heq. apply Hn. rewrite <- Heq. by apply list_elem_of_fmap_2. }
  exists bs'. split; [done|]. split.
  - intros x [->|Hx]%elem_of_cons.
    + rewrite Hout, Hat, Hb by done. done.
    + rewrite Hin by done. rewrite Hoth; [done|]. intros Heq. apply Hn. rewrite <- Heq.
      by apply list_elem_of_fmap_2.
  - intros c Hc. rewrite fmap_cons in Hc. apply not_elem_of_cons in Hc as [Hc1 Hc2].
    rewrite Hout by done. by apply Hoth.
Qed.

Lemma bk_mod_inv bs c f bs' :
  bank_mod bs c.1.1 c.1.2 c.2 f = Ok bs' -> exists b b', bk bs c = Ok b /\ f b = Ok b'.
Proof.
  unfold bank_mod, bk, bank_at. intros H. ok_inv H. rewrite E. cbn [mbind outcome_bind]. rewrite E0.
  cbn [mbind outcome_bind]. eauto.
Qed.

Lemma bk_for_each_inv {A} (pos : A -> Z * Z * Z) (f : A -> BankState -> outcome BankState) l bs bs' :
  NoDup (pos <$> l) ->
  for_each (fun a bs => bank_mod bs (pos a).1.1 (pos a).1.2 (pos a).2 (f a)) l bs = Ok bs' ->
  forall a, a ∈ l -> exists b b', bk bs (pos a) = Ok b /\ f a b = Ok b'.
Proof.
  revert bs; induction l as [|x l IH]; intros bs Hnd H a Ha; [set_solver|].
  rewrite fmap_cons in Hnd. apply NoDup_cons in Hnd as [Hn Hnd]. cbn [for_each] in H.
  apply bind_ok in H as (bs1 & E & H). destruct (bk_mod_inv _ _ _ _ E) as (b & b' & Hb & Hb').
  apply elem_of_cons in Ha as [->|Ha]; [eauto|].
  destruct (IH bs1 Hnd H a Ha) as (u & u' & Hu & ?). exists u, u'. split; [|done]. rewrite <- Hu.
  destruct (bk_mod bs (pos x) (f x) b b' Hb Hb') as (bs2 & E2 & _ & Hoth).
  assert (bs2 = bs1) as -> by congruence. symmetry. apply Hoth. intros Heq. apply Hn.
  rewrite <- Heq. by apply list_elem_of_fmap_2.
Qed.

(** ** Tightened constraints *)
(** [b'] is [b] with the delays [l] after a command at [clk]. *)
Record tightened (l : delays) (clk : Z) (b b' : BankState) : Prop := {
  ti_ok : bank_ok b';
  ti_state : state_ b' = state_ b;
  ti_row : open_row_ b' = open_row_ b;
  ti_hits : row_hit_count_ b' = row_hit_count_ b;
  ti_mono : forall t, earliest b t <= earliest b' t;
  ti_lower : forall t d, (t, d) ∈ l -> u64 (clk + d) <= earliest b' t;
  ti_exact : forall t, earliest b' t = earliest b t \/ exists d, (t, d) ∈ l /\ earliest b' t = u64 (clk + d)
}.

Lemma tightened_refl clk b : bank_ok b -> tightened [] clk b b.
Proof. intros Hb. split; try done; [intros ?? H; by apply not_elem_of_nil in H|by left]. Qed.

Lemma tightened_trans l l1 l2 clk b b1 b2 :
  (forall x, x ∈ l <-> x ∈ l1 \/ x ∈ l2) ->
  tightened l1 clk b b1 -> tightened l2 clk b1 b2 -> tightened l clk b b2.
Proof.
  intros Hl [] []. split; try done; try congruence.
  - intros t. etrans; eauto.
  - intros t d [H|H]%Hl; [|auto]. etrans; [by apply ti_lower0|done].
  - intros t. destruct (ti_exact1 t) as [->|(d & Hd & ->)].
    + destruct (ti_exact0 t) as [->|(d & Hd & ->)]; [by left|right].
      exists d. split; [apply Hl; by left|done].
    + right. exists d. split; [apply Hl; by right|done].
Qed.

(** The delays of a table are for real commands. *)
Definition delays_ok (l : delays) : Prop := forall t d, (t, d) ∈ l -> t <> C_SIZE.

Lemma bank_delays l clk bs c b :
  delays_ok l -> bk bs c = Ok b -> bank_ok b ->
  exists bs' b',
    for_each (fun td bs => bank_mod bs c.1.1 c.1.2 c.2
                (fun b => BankState.UpdateTiming b td.1 (u64 (clk + td.2)))) l bs = Ok bs' /\
    bk bs' c = Ok b' /\ tightened l clk b b' /\ forall c', c' <> c -> bk bs' c' = bk bs c'.
Proof.
  revert bs b; induction l as [|[t d] l IH]; intros bs b Hl Hb Hok; cbn [for_each].
  { exists bs, b. split_and!; try done. by apply tightened_refl. }
  destruct (UpdateTiming_ok b t (u64 (clk + d)) Hok) as (b1 & E1 & Hok1 & Hs & Hr & Hh & He);
    [apply (Hl t d); set_solver|].
  destruct (bk_mod bs c (fun b => BankState.UpdateTiming b t (u64 (clk + d))) b b1 Hb E1) as (bs1 & Em & Hat & Hoth). cbn [fst snd]. rewrite Em.
  cbn [mbind outcome_bind].
  destruct (IH bs1 b1) as (bs' & b' & E & Hat' & Ht & Hoth'); [|done|done|].
  { intros t' d' H. apply (Hl t' d'). set_solver. }
  exists bs', b'. split; [done|]. split; [done|]. split.
  - apply (tightened_trans _ [(t, d)] l clk b b1 b'); [set_solver| |done].
    split; try done.
    + intros t'. rewrite He. case_decide; subst; lia.
    + intros t' d' [= -> ->]%list_elem_of_singleton. rewrite He, decide_True by done. lia.
    + intros t'. rewrite He. case_decide; subst; [|by left].
      destruct (Z.max_spec (earliest b t) (u64 (clk + d))) as [[_ ->]|[_ ->]]; [right|by left].
      exists d. set_solver.
  - intros c' Hc. rewrite Hoth' by done. by apply Hoth.
Qed.

Lemma update_banks_ok coords l clk bs :
  delays_ok l -> (forall c, c ∈ coords -> exists b, bk bs c = Ok b /\ bank_ok b) ->
  exists bs', update_banks coords l clk bs = Ok bs' /\
    (forall c b, c ∈ coords -> bk bs c = Ok b -> exists b', bk bs' c = Ok b' /\ tightened l clk b b') /\
    forall c, c ∉ coords -> bk bs' c = bk bs c.
Proof.
  intros Hl. unfold update_banks. revert bs; induction coords as [|c coords IH]; intros bs Hc; cbn [for_each].
  { exists bs. split_and!; set_solver. }
  destruct (Hc c ltac:(set_solver)) as (b & Hb & Hok).
  destruct (bank_delays l clk bs c b Hl Hb Hok) as (bs1 & b1 & E1 & Hat & Ht & Hoth).
  rewrite E1. cbn [mbind outcome_bind].
  destruct (IH bs1) as (bs' & E & Hin & Hout).
  { intros c' Hc'. destruct (decide (c' = c)) as [->|Hne]; [exists b1; split; [done|apply Ht]|].
    rewrite Hoth by done. apply Hc. set_solver. }
  exists bs'. split; [done|]. split.
  - intros c' b0 Hc' Hb0. destruct (decide (c' = c)) as [->|Hne].
    + assert (b0 = b) as -> by congruence. destruct (decide (c ∈ coords)) as [Hi|Hi].
      * destruct (Hin c b1 Hi Hat) as (b2 & ? & ?). exists b2. split; [done|].
        by eapply tightened_trans; [|done|done]; naive_solver.
      * rewrite Hout by done. eauto.
    + apply Hin; [set_solver|]. by rewrite Hoth.
  - intros c' Hc'. apply not_elem_of_cons in Hc' as [? ?]. rewrite Hout by done. by apply Hoth.
Qed.

Section laws.
Context (config : Config) (timing : Timing).

Definition in_range (c : Z * Z * Z) : Prop :=
  0 <= c.1.1 < ranks config /\ 0 <= c.1.2 < bankgroups config /\ 0 <= c.2 < banks_per_group config.

(** The coordinate of a bank-level command. *)
Definition at_cmd (cmd : Command) : Z * Z * Z := (Rank cmd, Bankgroup cmd, Bank cmd).

Lemma elem_of_bank_pairs jk :
  jk ∈ bank_pairs config <-> 0 <= jk.1 < bankgroups config /\ 0 <= jk.2 < banks_per_group config.
Proof.
  unfold bank_pairs. rewrite list_elem_of_bind. split.
  - intros (j & (k & -> & ?%elem_of_seqZ)%list_elem_of_fmap & ?%elem_of_seqZ). simpl. lia.
  - intros [? ?]. exists jk.1. split; [|apply elem_of_seqZ; lia]. apply list_elem_of_fmap.
    exists jk.2. split; [by destruct jk|apply elem_of_seqZ; lia].
Qed.

Lemma NoDup_bank_pairs : NoDup (bank_pairs config).
Proof.
  unfold bank_pairs. apply NoDup_bind.
  - intros j1 j2 y _ _ (?&->&_)%list_elem_of_fmap (?&[=]&_)%list_elem_of_fmap. done.
  - intros j _. apply NoDup_fmap_2; [intros ?? [=]; done|apply NoDup_seqZ].
  - apply NoDup_seqZ.
Qed.

(** The vectors of the channel have the sizes of the configuration. *)
Record chan_ok (cs : ChannelState) : Prop := {
  co_banks : forall c, in_range c -> exists b, bk (bank_states_ cs) c = Ok b /\ bank_ok b;
  co_sref : vsize (rank_is_sref_ cs) = ranks config;
  co_idle : vsize (rank_idle_cycles cs) = ranks config;
  co_faw : vsize (four_aw_ cs) = ranks config;
  co_32aw : vsize (thirty_two_aw_ cs) = ranks config
}.

(** A command whose coordinates index the channel. *)
Definition cmd_ok (cmd : Command) : Prop :=
  cmd_type cmd <> C_SIZE /\
  if IsRankCMD cmd then 0 <= Rank cmd < ranks config else in_range (at_cmd cmd).

(** A pending refresh of a rank or of a bank. *)
Definition refresh_ok (ref : Command) : Prop :=
  (cmd_type ref = REFRESH /\ 0 <= Rank ref < ranks config) \/
  (cmd_type ref = REFRESH_BANK /\ in_range (at_cmd ref)).

(** The delays a command imposes on the bank at [c]. *)
Definition delays_at (cmd : Command) (c : Z * Z * Z) : delays :=
  if IsRankCMD cmd then
    if decide (c.1.1 = Rank cmd) then same_rank timing (cmd_type cmd) else []
  else if decide (c.1.1 <> Rank cmd) then other_ranks timing (cmd_type cmd)
  else if decide (c.1.2 <> Bankgroup cmd) then other_bankgroups_same_rank timing (cmd_type cmd)
  else if decide (c.2 <> Bank cmd) then other_banks_same_bankgroup timing (cmd_type cmd)
  else same_bank timing (cmd_type cmd).

Record timing_ok : Prop := {
  to_same_bank : forall t, delays_ok (same_bank timing t);
  to_other_banks : forall t, delays_ok (other_banks_same_bankgroup timing t);
  to_other_bankgroups : forall t, delays_ok (other_bankgroups_same_rank timing t);
  to_other_ranks : forall t, delays_ok (other_ranks timing t);
  to_same_rank : forall t, delays_ok (same_rank timing t)
}.

(** [bs'] is [bs] with the delays [D c] in every bank [c]. *)
Definition banks_tightened (D : Z * Z * Z -> delays) (clk : Z) (bs bs' : banks3) : Prop :=
  forall c b, in_range c -> bk bs c = Ok b -> exists b', bk bs' c = Ok b' /\ tightened (D c) clk b b'.

Definition all_banks_ok (bs : banks3) : Prop :=
  forall c, in_range c -> exists b, bk bs c = Ok b /\ bank_ok b.

Lemma banks_tightened_ok D clk bs bs' :
  all_banks_ok bs -> banks_tightened D clk bs bs' -> all_banks_ok bs'.
Proof.
  intros Hb H c Hc. destruct (Hb c Hc) as (b & Eb & _). destruct (H c b Hc Eb) as (b' & ? & []).
  eauto.
Qed.

Lemma update_banks_in coords l clk bs :
  delays_ok l -> all_banks_ok bs -> (forall c, c ∈ coords -> in_range c) ->
  exists bs', update_banks coords l clk bs = Ok bs' /\ all_banks_ok bs' /\
    (forall c b, c ∈ coords -> bk bs c = Ok b -> exists b', bk bs' c = Ok b' /\ tightened l clk b b') /\
    forall c, c ∉ coords -> bk bs' c = bk bs c.
Proof.
  intros Hl Hok Hc. destruct (update_banks_ok coords l clk bs Hl) as (bs' & E & Hin & Hout); [auto|].
  exists bs'. split_and!; try done. intros c Hr. destruct (Hok c Hr) as (b & Hb & Hbok).
  destruct (decide (c ∈ coords)) as [Hi|Hi].
  - destruct (Hin c b Hi Hb) as (b' & ? & []). eauto.
  - rewrite Hout by done. eauto.
Qed.

(** The coordinates of the four loops of a bank-level command. *)
Lemma elem_other_banks (a : Address) (c : Z * Z * Z) :
  c ∈ (pair (rank a, bankgroup a) <$> filter (fun k => k <> bank a) (seqZ 0 (banks_per_group config))) <->
  c.1 = (rank a, bankgroup a) /\ c.2 <> bank a /\ 0 <= c.2 < banks_per_group config.
Proof.
  rewrite list_elem_of_fmap. split.
  - intros (k & -> & [? ?%elem_of_seqZ]%list_elem_of_filter). simpl. split_and!; done || lia.
  - intros (? & ? & ?). exists c.2. split; [destruct c; simpl in *; congruence|].
    apply list_elem_of_filter. split; [done|]. apply elem_of_seqZ. lia.
Qed.

Lemma elem_other_bankgroups (a : Address) (c : Z * Z * Z) :
  c ∈ (filter (fun j => j <> bankgroup a) (seqZ 0 (bankgroups config)) ≫=
         (fun j => pair (rank a, j) <$> seqZ 0 (banks_per_group config))) <->
  c.1.1 = rank a /\ c.1.2 <> bankgroup a /\ 0 <= c.1.2 < bankgroups config /\
  0 <= c.2 < banks_per_group config.
Proof.
  rewrite list_elem_of_bind. split.
  - intros (j & (k & -> & ?%elem_of_seqZ)%list_elem_of_fmap & [? ?%elem_of_seqZ]%list_elem_of_filter).
    simpl. split_and!; done || lia.
  - intros (? & ? & ? & ?). exists c.1.2. split.
    + apply list_elem_of_fmap. exists c.2. split; [destruct c as [[]]; simpl in *; congruence|].
      apply elem_of_seqZ. lia.
    + apply list_elem_of_filter. split; [done|]. apply elem_of_seqZ. lia.
Qed.

Lemma elem_rank_banks (i : Z) (c : Z * Z * Z) :
  c ∈ ((fun jk : Z * Z => (i, jk.1, jk.2)) <$> bank_pairs config) <->
  c.1.1 = i /\ 0 <= c.1.2 < bankgroups config /\ 0 <= c.2 < banks_per_group config.
Proof.
  rewrite list_elem_of_fmap. split.
  - intros (jk & -> & ?%elem_of_bank_pairs). simpl. done.
  - intros (? & ? & ?). exists (c.1.2, c.2). split; [destruct c as [[]]; simpl in *; congruence|].
    by apply elem_of_bank_pairs.
Qed.

Lemma elem_other_ranks (a : Address) (c : Z * Z * Z) :
  c ∈ (filter (fun i => i <> rank a) (seqZ 0 (ranks config)) ≫=
         (fun i => (fun jk => (i, jk.1, jk.2)) <$> bank_pairs config)) <->
  c.1.1 <> rank a /\ in_range c.
Proof.
  rewrite list_elem_of_bind. unfold in_range. split.
  - intros (i & (-> & ? & ?)%elem_rank_banks & [? ?%elem_of_seqZ]%list_elem_of_filter).
    split_and!; done || lia.
  - intros (? & ? & ?). exists c.1.1. split; [by apply elem_rank_banks|].
    apply list_elem_of_filter. split; [done|]. apply elem_of_seqZ. lia.
Qed.

(** The four loops together. *)
Lemma bank_level_ok cmd clk bs :
  timing_ok -> all_banks_ok bs -> IsRankCMD cmd = false -> in_range (at_cmd cmd) ->
  exists bs',
    (bs ← UpdateSameBankTiming (addr cmd) (same_bank timing (cmd_type cmd)) clk bs;
     bs ← UpdateOtherBanksSameBankgroupTiming config (addr cmd)
            (other_banks_same_bankgroup timing (cmd_type cmd)) clk bs;
     bs ← UpdateOtherBankgroupsSameRankTiming config (addr cmd)
            (other_bankgroups_same_rank timing (cmd_type cmd)) clk bs;
     UpdateOtherRanksTiming config (addr cmd) (other_ranks timing (cmd_type cmd)) clk bs) = Ok bs' /\
    banks_tightened (delays_at cmd) clk bs bs'.
Proof.
  intros [] Hok Hnr Hr. destruct Hr as (Hr1 & Hr2 & Hr3). cbn in Hr1, Hr2, Hr3.
  unfold UpdateSameBankTiming, UpdateOtherBanksSameBankgroupTiming,
    UpdateOtherBankgroupsSameRankTiming, UpdateOtherRanksTiming.
  edestruct (update_banks_in [(rank (addr cmd), bankgroup (addr cmd), bank (addr cmd))])
    as (bs1 & -> & Hok1 & Hi1 & Ho1); [apply to_same_bank0|exact Hok|by intros c ->%list_elem_of_singleton|].
  cbn [mbind outcome_bind].
  edestruct (update_banks_in (pair (rank (addr cmd), bankgroup (addr cmd)) <$>
    filter (fun k => k <> bank (addr cmd)) (seqZ 0 (banks_per_group config))))
    as (bs2 & -> & Hok2 & Hi2 & Ho2); [apply to_other_banks0|exact Hok1| |].
  { intros c (E & _ & ?)%elem_other_banks. unfold in_range. by rewrite E. }
  cbn [mbind outcome_bind].
  edestruct (update_banks_in (filter (fun j => j <> bankgroup (addr cmd)) (seqZ 0 (bankgroups config)) ≫=
    (fun j => pair (rank (addr cmd), j) <$> seqZ 0 (banks_per_group config))))
    as (bs3 & -> & Hok3 & Hi3 & Ho3); [apply to_other_bankgroups0|exact Hok2| |].
  { intros c (E & _ & ? & ?)%elem_other_bankgroups. unfold in_range. by rewrite E. }
  cbn [mbind outcome_bind].
  edestruct (update_banks_in (filter (fun i => i <> rank (addr cmd)) (seqZ 0 (ranks config)) ≫=
    (fun i => (fun jk => (i, jk.1, jk.2)) <$> bank_pairs config)))
    as (bs4 & -> & Hok4 & Hi4 & Ho4); [apply to_other_ranks0|exact Hok3| |].
  { by intros c [_ ?]%elem_other_ranks. }
  exists bs4. split; [done|]. intros c b Hc Hb. unfold delays_at. rewrite Hnr.
  setoid_rewrite elem_other_banks in Hi2. setoid_rewrite elem_other_banks in Ho2.
  setoid_rewrite elem_other_bankgroups in Hi3. setoid_rewrite elem_other_bankgroups in Ho3.
  setoid_rewrite elem_other_ranks in Hi4. setoid_rewrite elem_other_ranks in Ho4.
  setoid_rewrite list_elem_of_singleton in Hi1. setoid_rewrite list_elem_of_singleton in Ho1.
  destruct c as [[r g] k]. destruct Hc as (Hc1 & Hc2 & Hc3). cbn [fst snd] in *.
  change (Rank cmd) with (rank (addr cmd)). change (Bankgroup cmd) with (bankgroup (addr cmd)).
  change (Bank cmd) with (bank (addr cmd)).
  case_decide as D1; [|case_decide as D2; [|case_decide as D3]];
    repeat match goal with H : ~ (_ <> _) |- _ => apply dec_stable in H; subst end.
  - apply Hi4; [done|]. rewrite Ho3, Ho2, Ho1 by (simpl; naive_solver). done.
  - rewrite Ho4 by (simpl; naive_solver). apply Hi3; [simpl; naive_solver|]. rewrite Ho2, Ho1 by (simpl; naive_solver). done.
  - rewrite Ho4, Ho3 by (simpl; naive_solver). apply Hi2; [simpl; naive_solver|]. rewrite Ho1 by (simpl; naive_solver). done.
  - rewrite Ho4, Ho3, Ho2 by (simpl; tauto). apply Hi1; [congruence|done].
Qed.

(** ** The activation windows *)
Lemma vupd_ok {A} (v : list A) i f :
  0 <= i < vsize v -> exists v', vupd v i f = Ok v' /\ vsize v' = vsize v /\
    forall j a, vget v j = Ok a -> vget v' j = Ok (if decide (j = i) then f a else a).
Proof.
  intros Hi. unfold vupd. destruct (vget_total v i Hi) as (a & Ha). rewrite Ha. cbn [mbind outcome_bind].
  destruct (vset v i (f a)) as [v'|] eqn:E.
  2: { unfold vset in E. rewrite decide_True in E by done. discriminate E. }
  exists v'. split; [done|]. split; [by eapply vset_vsize|]. intros j b Hb. case_decide as Hj.
  - subst j. rewrite (vget_vset_eq _ _ _ _ E). congruence.
  - by rewrite (vget_vset_ne _ _ _ _ _ (not_eq_sym Hj) E).
Qed.

(** The windows of the ranks after a command. *)
Definition windows_step (cmd : Command) (clk : Z) (cs cs' : ChannelState) : Prop :=
  (forall rk q, vget (four_aw_ cs) rk = Ok q ->
     vget (four_aw_ cs') rk =
       Ok (if decide (cmd_type cmd = ACTIVATE /\ rk = Rank cmd)
           then window_push q clk (u64 (clk + tFAW config)) else q)) /\
  (forall rk q, vget (thirty_two_aw_ cs) rk = Ok q ->
     vget (thirty_two_aw_ cs') rk =
       Ok (if decide (IsGDDR (protocol config) = true /\ cmd_type cmd = ACTIVATE /\ rk = Rank cmd)
           then window_push q clk (u64 (clk + t32AW config)) else q)).

Lemma UpdateActivationTimes_ok cs rk clk :
  chan_ok cs -> 0 <= rk < ranks config ->
  exists cs', UpdateActivationTimes config cs rk clk = Ok cs' /\ chan_ok cs' /\
    bank_states_ cs' = bank_states_ cs /\ rank_is_sref_ cs' = rank_is_sref_ cs /\
    refresh_q_ cs' = refresh_q_ cs /\
    (forall r q, vget (four_aw_ cs) r = Ok q -> vget (four_aw_ cs') r =
       Ok (if decide (r = rk) then window_push q clk (u64 (clk + tFAW config)) else q)) /\
    (forall r q, vget (thirty_two_aw_ cs) r = Ok q -> vget (thirty_two_aw_ cs') r =
       Ok (if decide (IsGDDR (protocol config) = true /\ r = rk)
           then window_push q clk (u64 (clk + t32AW config)) else q)).
Proof.
  intros [] Hr. unfold UpdateActivationTimes.
  destruct (vupd_ok (four_aw_ cs) rk (fun q => window_push q clk (u64 (clk + tFAW config))))
    as (v & -> & Hs & Hv); [lia|]. cbn [mbind outcome_bind].
  destruct (IsGDDR (protocol config)).
  - destruct (vupd_ok (thirty_two_aw_ cs) rk (fun q => window_push q clk (u64 (clk + t32AW config))))
      as (v2 & -> & Hs2 & Hv2); [lia|]. cbn [mbind outcome_bind].
    eexists. split; [reflexivity|]. split_and!; try done; try (split; simpl; first [done|congruence]).
    intros r q Hq. simpl. rewrite (Hv2 r q Hq). f_equal. repeat case_decide; tauto.
  - eexists. split; [reflexivity|]. split_and!; try done; try (split; simpl; first [done|congruence]).
Qed.

(** ** The effect of a command on the channel *)
Lemma UpdateTiming_channel cs cmd clk :
  timing_ok -> chan_ok cs -> cmd_ok cmd ->
  exists cs', UpdateTiming config timing cs cmd clk = Ok cs' /\ chan_ok cs' /\
    banks_tightened (delays_at cmd) clk (bank_states_ cs) (bank_states_ cs') /\
    rank_is_sref_ cs' = rank_is_sref_ cs /\ refresh_q_ cs' = refresh_q_ cs /\
    windows_step cmd clk cs cs'.
Proof.
  intros Ht Hcs [Hty Hcmd]. unfold UpdateTiming.
  assert (Hbank : forall cs1, chan_ok cs1 -> IsRankCMD cmd = false -> exists cs',
    (bs ← UpdateSameBankTiming (addr cmd) (same_bank timing (cmd_type cmd)) clk (bank_states_ cs1);
     bs ← UpdateOtherBanksSameBankgroupTiming config (addr cmd)
            (other_banks_same_bankgroup timing (cmd_type cmd)) clk bs;
     bs ← UpdateOtherBankgroupsSameRankTiming config (addr cmd)
            (other_bankgroups_same_rank timing (cmd_type cmd)) clk bs;
     bs ← UpdateOtherRanksTiming config (addr cmd) (other_ranks timing (cmd_type cmd)) clk bs;
     Ok (cs1 <| bank_states_ := bs |>)) = Ok cs' /\ chan_ok cs' /\
    banks_tightened (delays_at cmd) clk (bank_states_ cs1) (bank_states_ cs') /\
    cs' = cs1 <| bank_states_ := bank_states_ cs' |>).
  { intros cs1 Hcs1 Hnr. rewrite Hnr in Hcmd.
    destruct (bank_level_ok cmd clk (bank_states_ cs1)) as (bs' & E & Hti);
      [done|by destruct Hcs1|done|done|].
    ok_inv E. rewrite E0. cbn [mbind outcome_bind]. rewrite E1. cbn [mbind outcome_bind]. rewrite E2.
    cbn [mbind outcome_bind]. rewrite E. cbn [mbind outcome_bind].
    eexists. split; [reflexivity|]. split_and!; [|done|by destruct cs1].
    destruct Hcs1. split; simpl; auto. by eapply (banks_tightened_ok _ _ (bank_states_ cs1)). }
  assert (Hrank : IsRankCMD cmd = true -> exists cs',
    (bs ← UpdateSameRankTiming config (addr cmd) (same_rank timing (cmd_type cmd)) clk (bank_states_ cs);
     Ok (cs <| bank_states_ := bs |>)) = Ok cs' /\ chan_ok cs' /\
    banks_tightened (delays_at cmd) clk (bank_states_ cs) (bank_states_ cs') /\
    cs' = cs <| bank_states_ := bank_states_ cs' |>).
  { intros Hrk. rewrite Hrk in Hcmd. unfold UpdateSameRankTiming.
    edestruct (update_banks_in ((fun jk : Z * Z => (rank (addr cmd), jk.1, jk.2)) <$> bank_pairs config))
      as (bs1 & -> & Hok1 & Hi1 & Ho1); [apply (to_same_rank Ht)|exact (co_banks cs Hcs)| |].
    { intros c (E & ? & ?)%elem_rank_banks. unfold in_range. rewrite E. done. }
    cbn [mbind outcome_bind]. eexists. split; [reflexivity|]. split_and!; [..|by destruct cs].
    - destruct Hcs. split; simpl; auto.
    - intros c b Hc Hb. simpl. unfold delays_at. rewrite Hrk. case_decide as E.
      + apply Hi1; [|done]. apply elem_rank_banks. destruct Hc as (? & ? & ?). done.
      + rewrite Ho1 by (intros (? & _)%elem_rank_banks; done). exists b. split; [done|].
        apply tightened_refl. destruct (co_banks cs Hcs c Hc) as (b0 & ? & ?). congruence. }
  assert (Hkeep : forall cs', cs' = cs <| bank_states_ := bank_states_ cs' |> ->
    cmd_type cmd <> ACTIVATE ->
    rank_is_sref_ cs' = rank_is_sref_ cs /\ refresh_q_ cs' = refresh_q_ cs /\ windows_step cmd clk cs cs').
  { intros cs' -> Hna. split_and!; try done. split; intros rk q Hq; simpl; rewrite Hq; f_equal;
      rewrite decide_False; tauto. }
  destruct (cmd_type cmd) eqn:Ec; try done;
    try (destruct (Hbank cs Hcs) as (cs' & -> & ? & ? & ?); [by unfold IsRankCMD; rewrite Ec|];
         exists cs'; split_and!; try done; by apply Hkeep; rewrite ?Ec);
    try (destruct Hrank as (cs' & -> & ? & ? & ?); [by unfold IsRankCMD; rewrite Ec|];
         exists cs'; split_and!; try done; by apply Hkeep; rewrite ?Ec).
  assert (Hrg : 0 <= Rank cmd < ranks config).
  { unfold IsRankCMD in Hcmd. rewrite Ec in Hcmd. apply Hcmd. }
  destruct (UpdateActivationTimes_ok cs (Rank cmd) clk Hcs Hrg) as (cs1 & -> & Hcs1 & Hb & Hsr & Hrf & Hf & H32).
  cbn [mbind outcome_bind].
  destruct (Hbank cs1 Hcs1) as (cs' & -> & ? & Hti & Heq); [by unfold IsRankCMD; rewrite Ec|].
  assert (E1 : rank_is_sref_ cs' = rank_is_sref_ cs1) by (rewrite Heq; done).
  assert (E2 : refresh_q_ cs' = refresh_q_ cs1) by (rewrite Heq; done).
  assert (E3 : four_aw_ cs' = four_aw_ cs1) by (rewrite Heq; done).
  assert (E4 : thirty_two_aw_ cs' = thirty_two_aw_ cs1) by (rewrite Heq; done).
  exists cs'. rewrite Hb in Hti. split_and!; try done; try congruence.
  split; intros rk q Hq; rewrite ?E3, ?E4.
  - rewrite (Hf rk q Hq). f_equal. rewrite Ec. repeat case_decide; tauto.
  - rewrite (H32 rk q Hq). f_equal. rewrite Ec. repeat case_decide; tauto.
Qed.

(** The banks a command changes the state of. *)
Definition affected (cmd : Command) (c : Z * Z * Z) : Prop :=
  if IsRankCMD cmd then c.1.1 = Rank cmd else c = at_cmd cmd.

#[local] Instance affected_dec cmd c : Decision (affected cmd c).
Proof. unfold affected. destruct (IsRankCMD cmd); apply _. Defined.

(** The command is legal in every bank it changes. *)
Definition legal (cs : ChannelState) (cmd : Command) : Prop :=
  forall c b, in_range c -> affected cmd c -> bk (bank_states_ cs) c = Ok b ->
    exists b', BankState.UpdateState b cmd = Ok b'.

(** [bs'] is [bs] with the command executed in the banks it affects. *)
Definition banks_executed (cmd : Command) (bs bs' : banks3) : Prop :=
  forall c b, in_range c -> bk bs c = Ok b ->
    exists b', bk bs' c = Ok b' /\
      if decide (affected cmd c) then BankState.UpdateState b cmd = Ok b' else b' = b.

(** The pending refreshes after a command. *)
Definition refresh_after (cmd : Command) (l : list Command) : list Command :=
  match cmd_type cmd with
  | REFRESH => erase_first (fun c => bool_decide (Rank c = Rank cmd)) l
  | REFRESH_BANK =>
      erase_first (fun c => bool_decide (Rank c = Rank cmd) && bool_decide (Bankgroup c = Bankgroup cmd) &&
                            bool_decide (Bank c = Bank cmd)) l
  | _ => l
  end.

Lemma banks_executed_ok cmd bs bs' :
  all_banks_ok bs -> banks_executed cmd bs bs' -> all_banks_ok bs'.
Proof.
  intros Hb H c Hc. destruct (Hb c Hc) as (b & Eb & Hok). destruct (H c b Hc Eb) as (b' & E & Hx).
  exists b'. split; [done|]. case_decide; [by eapply UpdateState_ok|by subst].
Qed.

Lemma rank_execute cs cmd :
  chan_ok cs -> cmd_ok cmd -> legal cs cmd -> IsRankCMD cmd = true ->
  exists bs', for_each (fun jk bs => bank_mod bs (Rank cmd) jk.1 jk.2
                                       (fun b => BankState.UpdateState b cmd))
                (bank_pairs config) (bank_states_ cs) = Ok bs' /\
    banks_executed cmd (bank_states_ cs) bs'.
Proof.
  intros Hcs [_ Hcmd] Hleg Hrk. rewrite Hrk in Hcmd.
  assert (Hin : forall jk, jk ∈ bank_pairs config -> in_range (Rank cmd, jk.1, jk.2)).
  { intros jk Hjk%elem_of_bank_pairs. unfold in_range. simpl. tauto. }
  destruct (bk_for_each (fun jk : Z * Z => (Rank cmd, jk.1, jk.2)) (fun _ b => BankState.UpdateState b cmd)
              (bank_pairs config) (bank_states_ cs)) as (bs' & E & Hi & Ho).
  - apply NoDup_fmap_2; [|apply NoDup_bank_pairs]. intros [] [] [=]. simpl in *. congruence.
  - intros jk Hjk. destruct (co_banks cs Hcs _ (Hin jk Hjk)) as (b & Hb & _).
    destruct (Hleg _ b (Hin jk Hjk)) as (b' & Hb'); [by unfold affected; rewrite Hrk|done|]. eauto.
  - exists bs'. split; [done|]. intros c b Hc Hb. case_decide as Hr; unfold affected in Hr; rewrite Hrk in Hr.
    + assert (c.1.2 = (c.1.2, c.2).1) as Ec by done.
      assert (Hjk : (c.1.2, c.2) ∈ bank_pairs config) by (apply elem_of_bank_pairs; apply Hc).
      pose proof (Hi _ Hjk) as Hat. cbn [fst snd] in Hat. rewrite <- Hr in Hat.
      replace (c.1.1, c.1.2, c.2) with c in Hat by (by destruct c as [[]]).
      rewrite Hat, Hb. cbn [mbind outcome_bind].
      destruct (Hleg c b Hc) as (b' & ->); [by unfold affected; rewrite Hrk|done|]. eauto.
    + rewrite Ho; [by eauto|]. intros (? & ?)%elem_rank_banks. done.
Qed.

Lemma UpdateState_channel cs cmd :
  chan_ok cs -> cmd_ok cmd -> legal cs cmd ->
  exists cs', UpdateState config cs cmd = Ok cs' /\ chan_ok cs' /\
    banks_executed cmd (bank_states_ cs) (bank_states_ cs') /\
    refresh_q_ cs' = refresh_after cmd (refresh_q_ cs) /\
    (cmd_type cmd <> SREF_ENTER -> cmd_type cmd <> SREF_EXIT -> rank_is_sref_ cs' = rank_is_sref_ cs) /\
    four_aw_ cs' = four_aw_ cs /\ thirty_two_aw_ cs' = thirty_two_aw_ cs.
Proof.
  intros Hcs Hcmd Hleg. unfold UpdateState. pose proof Hcmd as [_ Hrg].
  destruct (IsRankCMD cmd) eqn:Hrk.
  - destruct (rank_execute cs cmd Hcs Hcmd Hleg Hrk) as (bs' & E & Hx). rewrite E. cbn [mbind outcome_bind].
    pose proof (banks_executed_ok _ _ _ (co_banks cs Hcs) Hx) as Hok. destruct Hcs.
    assert (Hset : forall x, exists v, vset (rank_is_sref_ cs) (Rank cmd) x = Ok v /\ vsize v = ranks config).
    { intros x. unfold vset. rewrite decide_True by (unfold vsize in *; lia). eexists. split; [done|].
      unfold vsize. rewrite length_insert. done. }
    unfold IsRankCMD in Hrk. unfold IsRefresh, refresh_after. simpl.
    destruct (Hset true) as (v1 & E1 & Hs1), (Hset false) as (v2 & E2 & Hs2).
    destruct (cmd_type cmd) eqn:Ec; try discriminate Hrk; cbn [decide_rel CommandType_eq_dec];
      rewrite ?decide_True, ?decide_False by done; rewrite ?E1, ?E2; cbn [mbind outcome_bind];
      (eexists; split; [reflexivity|]; split_and!; try done; split; simpl; done).
  - destruct (co_banks cs Hcs (at_cmd cmd) Hrg) as (b & Hb & _).
    assert (Haff : affected cmd (at_cmd cmd)) by (unfold affected; by rewrite Hrk).
    destruct (Hleg _ b Hrg Haff Hb) as (b' & Hb').
    destruct (bk_mod (bank_states_ cs) (at_cmd cmd) (fun b => BankState.UpdateState b cmd) b b' Hb Hb')
      as (bs' & E & Hat & Hoth). cbn [fst snd at_cmd] in E. rewrite E. cbn [mbind outcome_bind].
    assert (Hx : banks_executed cmd (bank_states_ cs) bs').
    { intros c b0 Hc Hb0. case_decide as Ec; unfold affected in Ec; rewrite Hrk in Ec.
      - subst c. exists b'. split; [done|]. congruence.
      - rewrite Hoth by done. eauto. }
    pose proof (banks_executed_ok _ _ _ (co_banks cs Hcs) Hx) as Hok. destruct Hcs.
    unfold IsRankCMD in Hrk. unfold IsRefresh, refresh_after.
    destruct (cmd_type cmd) eqn:Ec; try discriminate Hrk;
      (eexists; split; [reflexivity|]; split_and!; try done; split; simpl; done).
Qed.

(** A command that could be executed was legal. *)
Lemma executed_legal cs cmd cs' : UpdateState config cs cmd = Ok cs' -> legal cs cmd.
Proof.
  intros H c b Hc Haff Hb. unfold UpdateState in H. unfold affected in Haff.
  destruct (IsRankCMD cmd) eqn:Hrk; apply bind_ok in H as (bs' & E & _).
  - assert (Hnd : NoDup ((fun jk : Z * Z => (Rank cmd, jk.1, jk.2)) <$> bank_pairs config)).
    { apply NoDup_fmap_2; [|apply NoDup_bank_pairs]. intros [] [] [=]. simpl in *. congruence. }
    assert (Hjk : (c.1.2, c.2) ∈ bank_pairs config) by (apply elem_of_bank_pairs; apply Hc).
    destruct (bk_for_each_inv (fun jk : Z * Z => (Rank cmd, jk.1, jk.2))
                (fun _ b => BankState.UpdateState b cmd) _ _ _ Hnd E _ Hjk) as (b0 & b' & Hb0 & ?).
    cbn [fst snd] in Hb0. rewrite <- Haff in Hb0.
    replace (c.1.1, c.1.2, c.2) with c in Hb0 by (by destruct c as [[]]).
    assert (b0 = b) as -> by congruence. eauto.
  - destruct (bk_mod_inv _ (at_cmd cmd) _ _ E) as (b0 & b' & Hb0 & ?). rewrite <- Haff in Hb0.
    assert (b0 = b) as -> by congruence. eauto.
Qed.

(** ** The effect of a legal command *)
(** A bank after the command: executed, then tightened. *)
Definition banks_issued (cmd : Command) (clk : Z) (bs bs' : banks3) : Prop :=
  forall c b, in_range c -> bk bs c = Ok b ->
    exists b1 b', bk bs' c = Ok b' /\ tightened (delays_at cmd c) clk b1 b' /\
      if decide (affected cmd c) then BankState.UpdateState b cmd = Ok b1 else b1 = b.

Lemma UpdateTimingAndStates_ok cs cmd clk :
  timing_ok -> chan_ok cs -> cmd_ok cmd -> legal cs cmd ->
  exists cs', UpdateTimingAndStates config timing cs cmd clk = Ok cs' /\ chan_ok cs' /\
    banks_issued cmd clk (bank_states_ cs) (bank_states_ cs') /\
    refresh_q_ cs' = refresh_after cmd (refresh_q_ cs) /\
    (cmd_type cmd <> SREF_ENTER -> cmd_type cmd <> SREF_EXIT -> rank_is_sref_ cs' = rank_is_sref_ cs) /\
    windows_step cmd clk cs cs'.
Proof.
  intros Ht Hcs Hcmd Hleg. unfold UpdateTimingAndStates.
  destruct (UpdateState_channel cs cmd Hcs Hcmd Hleg) as (cs1 & -> & Hcs1 & Hx & Hrf & Hsr & Hf & H32).
  cbn [mbind outcome_bind].
  destruct (UpdateTiming_channel cs1 cmd clk Ht Hcs1 Hcmd) as (cs' & -> & Hcs' & Hti & Hsr' & Hrf' & Hw).
  exists cs'. split_and!; try done.
  - intros c b Hc Hb. destruct (Hx c b Hc Hb) as (b1 & Hb1 & Hd).
    destruct (Hti c b1 Hc Hb1) as (b' & Hb' & Htt). eauto.
  - congruence.
  - intros. rewrite Hsr'. auto.
  - destruct Hw as [Hw1 Hw2]. rewrite Hf in Hw1. rewrite H32 in Hw2. done.
Qed.

(** ** A command that is ready *)
(** The banks whose constraints were checked for [cmd] when [want] was asked. *)
Definition checked (want cmd : Command) (c : Z * Z * Z) : Prop :=
  if IsRankCMD want && bool_decide (cmd_type cmd = cmd_type want)
  then c.1.1 = Rank cmd else c = at_cmd cmd.

(** The bank requires [t] for [want], and its time has come. *)
Definition bank_ready (want : Command) (t : CommandType) (clk : Z) (b : BankState) : Prop :=
  required_type b want = Ok t /\ earliest b t <= clk.

Record is_ready (cs : ChannelState) (want : Command) (clk : Z) (cmd : Command) : Prop := {
  ir_banks : forall c b, in_range c -> checked want cmd c -> bk (bank_states_ cs) c = Ok b ->
    bank_ready want (cmd_type cmd) clk b;
  ir_ok : cmd_ok cmd;
  ir_place : IsRankCMD want && bool_decide (cmd_type cmd = cmd_type want) = false -> in_range (at_cmd cmd);
  ir_rank : Rank cmd = Rank want;
  ir_hex : hex_addr cmd = hex_addr want;
  ir_addr : IsRankCMD want = false -> addr cmd = addr want;
  ir_window : cmd_type cmd = ACTIVATE -> ActivationWindowOk config cs (Rank cmd) clk = Ok true
}.

Lemma length_bank_pairs :
  0 <= banks_per_group config -> 0 <= bankgroups config ->
  Z.of_nat (length (bank_pairs config)) = bankgroups config * banks_per_group config.
Proof.
  intros Hk Hg. unfold bank_pairs.
  assert (Hl : forall l : list Z, length (l ≫= (fun j => pair j <$> seqZ 0 (banks_per_group config)))
    = (length l * Z.to_nat (banks_per_group config))%nat).
  { induction l as [|j l IH]; [done|]. rewrite bind_cons.
    rewrite length_app, length_fmap, length_seqZ, IH. simpl. lia. }
  rewrite Hl, length_seqZ. lia.
Qed.

Lemma rank_scan_ready bs want clk l rdy n cmd :
  all_banks_ok bs -> 0 <= Rank want < ranks config -> (forall jk, jk ∈ l -> jk ∈ bank_pairs config) ->
  n + Z.of_nat (length l) <= banks config ->
  rank_scan config bs want clk l rdy n = Ok cmd -> IsValid cmd = true ->
  (exists j k b, (j, k) ∈ l /\ bk bs (Rank want, j, k) = Ok b /\ bank_ready want (cmd_type cmd) clk b /\
     cmd_type cmd <> cmd_type want /\ addr cmd = mkAddress (-1) (Rank want) j k (-1) (-1) /\
     hex_addr cmd = hex_addr want) \/
  (n + Z.of_nat (length l) = banks config /\ (l = [] -> cmd = rdy) /\ (l <> [] -> cmd = want) /\
   forall jk, jk ∈ l -> exists b, bk bs (Rank want, jk.1, jk.2) = Ok b /\ bank_ready want (cmd_type want) clk b).
Proof.
  intros Hok Hr. revert rdy n; induction l as [|[j k] l IH]; intros rdy n Hl Hn H Hv; cbn [rank_scan] in H.
  { case_decide; [|injection H as <-; discriminate Hv]. injection H as <-. right. split_and!; try done.
    - simpl. lia.
    - intros jk Hjk. set_solver. }
  cbn [length] in Hn. ok_inv H.
  assert (Hrange : in_range (Rank want, j, k)).
  { assert (Hjk : (j, k) ∈ bank_pairs config) by (apply Hl; set_solver).
    apply elem_of_bank_pairs in Hjk. unfold in_range. simpl in *. tauto. }
  destruct (Hok _ Hrange) as (b & Hb & Hbok). unfold bk in Hb. cbn [fst snd] in Hb.
  rewrite E in Hb. injection Hb as ->.
  assert (Hl' : forall jk, jk ∈ l -> jk ∈ bank_pairs config) by (intros; apply Hl; set_solver).
  destruct (IsValid r0) eqn:Hv0; cbn [negb] in H.
  2: { destruct (IH r0 n Hl' ltac:(lia) H Hv) as [(j' & k' & b' & ? & ?)|(Hc & _)]; [left|lia].
       exists j', k', b'. split; [set_solver|done]. }
  destruct (GetReadyCommand_valid b want clk r0 Hbok E0 Hv0) as (Hreq & Hne & Ha & Hh & He).
  case_decide as Hty.
  - injection H as <-. left. exists j, k, b. split_and!; try done. set_solver.
  -
    destruct (IH r0 (n + 1) Hl' ltac:(lia) H Hv) as [(j' & k' & b' & ? & ?)|(Hc & Hnil & Hcons & Hall)];
      [left; exists j', k', b'; split; [set_solver|done]|right].
    assert (Hw : r0 = want) by (destruct r0, want; simpl in *; congruence).
    split_and!; try done; [cbn [length]; lia| |].
    + intros _. destruct l; [rewrite Hnil; done|by apply Hcons].
    + intros jk [->|Hjk]%elem_of_cons; [|auto]. exists b. split; [done|].
      split; [by rewrite <- Hty|by rewrite <- Hty].
Qed.

(** A rank-level request is never answered by an activation. *)
Lemma required_not_activate b want :
  IsRankCMD want = true -> required_type b want <> Ok ACTIVATE.
Proof.
  unfold IsRankCMD, required_type. destruct (cmd_type want), (state_ b); done.
Qed.

Lemma GetReadyCommand_ready cs want clk cmd :
  geometry config -> chan_ok cs -> cmd_ok want ->
  GetReadyCommand config cs want clk = Ok cmd -> IsValid cmd = true -> is_ready cs want clk cmd.
Proof.
  intros Hg Hcs [Hty Hw] H Hv. pose proof (co_banks cs Hcs) as Hok. unfold GetReadyCommand in H.
  destruct (IsRankCMD want) eqn:Hrk.
  - assert (Hlen : Z.of_nat (length (bank_pairs config)) = banks config).
    { destruct Hg. rewrite length_bank_pairs by lia. done. }
    assert (0 < banks config) by (destruct Hg; nia).
    destruct (rank_scan_ready (bank_states_ cs) want clk (bank_pairs config) Command_default 0 cmd
                Hok Hw (fun jk Hjk => Hjk) ltac:(lia) H Hv)
      as [(j & k & b & Hjk & Hb & Hrd & Hne & Ha & Hh)|(_ & _ & Hcons & Hall)].
    + apply elem_of_bank_pairs in Hjk.
      assert (Hat : at_cmd cmd = (Rank want, j, k))
        by (unfold at_cmd, Rank, Bankgroup, Bank; rewrite Ha; done).
      assert (Hin : in_range (at_cmd cmd)) by (rewrite Hat; unfold in_range; simpl in *; tauto).
      assert (Hch : forall c, checked want cmd c -> c = at_cmd cmd).
      { unfold checked. rewrite Hrk, bool_decide_eq_false_2 by done. done. }
      split; try done; try congruence.
      * intros c b0 Hc ->%Hch Hb0. rewrite Hat in Hb0. assert (b0 = b) as -> by congruence. done.
      * split; [intros E; unfold IsValid in Hv; by rewrite E in Hv|].
        destruct (IsRankCMD cmd); [|done]. unfold Rank at 1 2. rewrite Ha. done.
      * unfold Rank at 1. by rewrite Ha.
      * intros E. destruct Hrd as [Hreq _]. rewrite E in Hreq. by apply required_not_activate in Hreq.
    + assert (cmd = want) as ->.
      { apply Hcons. intros E. rewrite E in Hlen. simpl in Hlen. lia. }
      split; try done; try congruence.
      * intros c b Hc Hch Hb. unfold checked in Hch. rewrite Hrk, bool_decide_eq_true_2 in Hch by done.
        simpl in Hch. destruct (Hall (c.1.2, c.2)) as (b' & Hb' & Hr').
        { apply elem_of_bank_pairs. apply Hc. }
        cbn [fst snd] in Hb'. rewrite <- Hch in Hb'.
        replace (c.1.1, c.1.2, c.2) with c in Hb' by (by destruct c as [[]]). congruence.
      * split; [done|]. by rewrite Hrk.
      * rewrite Hrk, bool_decide_eq_true_2 by done. done.
      * intros E. unfold IsRankCMD in Hrk. by rewrite E in Hrk.
  - ok_inv H. destruct (Hok (at_cmd want) Hw) as (b & Hb & Hbok).
    unfold bk, at_cmd in Hb. cbn [fst snd] in Hb. rewrite E in Hb. injection Hb as ->.
    destruct (IsValid r0) eqn:Hv0; cbn [negb] in H; [|injection H as <-; discriminate Hv].
    destruct (GetReadyCommand_valid b want clk r0 Hbok E0 Hv0) as (Hreq & Hne & Ha & Hh & He).
    assert (Hr0 : cmd = r0 /\ (cmd_type cmd = ACTIVATE -> ActivationWindowOk config cs (Rank cmd) clk = Ok true)).
    { case_decide as Et; [|by injection H as <-]. ok_inv H.
      destruct r as [|]; [|injection H as <-; discriminate Hv]. injection H as <-. done. }
    destruct Hr0 as [-> Hwin].
    assert (Hat : at_cmd r0 = at_cmd want) by (unfold at_cmd, Rank, Bankgroup, Bank; by rewrite Ha).
    split; try done.
    + intros c b0 Hc Hch Hb0. unfold checked in Hch. rewrite Hrk in Hch. simpl in Hch. subst c.
      rewrite Hat in Hb0. unfold bk, at_cmd in Hb0. cbn [fst snd] in Hb0.
      assert (b0 = b) as -> by congruence. done.
    + split; [done|]. destruct (IsRankCMD r0); [unfold Rank; rewrite Ha; apply Hw|by rewrite Hat].
    + intros _. by rewrite Hat.
    + unfold Rank. by rewrite Ha.
Qed.

(** ** Channels without self refresh *)
Definition awake (cs : ChannelState) : Prop :=
  forall c b, in_range c -> bk (bank_states_ cs) c = Ok b -> state_ b <> SREF.

Lemma rank_scan_total bs want clk l rdy n :
  all_banks_ok bs -> (forall c b, in_range c -> bk bs c = Ok b -> state_ b <> SREF) ->
  0 <= Rank want < ranks config -> is_request want -> (forall jk, jk ∈ l -> jk ∈ bank_pairs config) ->
  exists cmd, rank_scan config bs want clk l rdy n = Ok cmd.
Proof.
  intros Hok Haw Hr Hreq. revert rdy n; induction l as [|[j k] l IH]; intros rdy n Hl; cbn [rank_scan].
  { case_decide; eauto. }
  assert (Hrange : in_range (Rank want, j, k)).
  { assert (Hjk : (j, k) ∈ bank_pairs config) by (apply Hl; set_solver).
    apply elem_of_bank_pairs in Hjk. unfold in_range. simpl in *. tauto. }
  destruct (Hok _ Hrange) as (b & Hb & Hbok). pose proof (Haw _ _ Hrange Hb) as Hns.
  unfold bk in Hb. cbn [fst snd] in Hb. rewrite Hb. cbn [mbind outcome_bind].
  destruct (GetReadyCommand_total b want clk Hbok Hns Hreq) as (c & ->). cbn [mbind outcome_bind].
  destruct (negb (IsValid c)); [apply IH; set_solver|]. case_decide; [eauto|apply IH; set_solver].
Qed.

Lemma ActivationWindowOk_total cs rk clk :
  chan_ok cs -> 0 <= rk < ranks config -> exists ok, ActivationWindowOk config cs rk clk = Ok ok.
Proof.
  intros [] Hr. unfold ActivationWindowOk, IsFAWReady, Is32AWReady.
  destruct (vget_total (four_aw_ cs) rk) as (q & ->); [lia|].
  destruct (vget_total (thirty_two_aw_ cs) rk) as (q2 & ->); [lia|]. cbn [mbind outcome_bind].
  destruct (IsGDDR (protocol config)); [|eauto]. destruct (negb (negb _)); eauto.
Qed.

Lemma GetReadyCommand_channel_total cs want clk :
  chan_ok cs -> awake cs -> cmd_ok want -> is_request want ->
  exists cmd, GetReadyCommand config cs want clk = Ok cmd.
Proof.
  intros Hcs Haw [Hty Hw] Hreq. unfold GetReadyCommand. pose proof (co_banks cs Hcs) as Hok.
  destruct (IsRankCMD want) eqn:Hrk; [by apply rank_scan_total|].
  destruct (Hok _ Hw) as (b & Hb & Hbok). pose proof (Haw _ _ Hw Hb) as Hns.
  unfold bk, at_cmd in Hb. cbn [fst snd] in Hb. rewrite Hb. cbn [mbind outcome_bind].
  destruct (GetReadyCommand_total b want clk Hbok Hns Hreq) as (c & Ec). rewrite Ec. cbn [mbind outcome_bind].
  destruct (IsValid c) eqn:Hv; cbn [negb]; [|eauto]. case_decide; [|eauto].
  destruct (GetReadyCommand_valid b want clk c Hbok Ec Hv) as (_ & _ & Ha & _).
  destruct (ActivationWindowOk_total cs (Rank c) clk Hcs) as (ok & ->).
  { unfold Rank. rewrite Ha. apply Hw. }
  cbn [mbind outcome_bind]. destruct ok; eauto.
Qed.

(** What an awake bank requires for a request. *)
Lemma required_awake b want t :
  state_ b <> SREF -> is_request want -> required_type b want = Ok t ->
  t = cmd_type want \/ t = ACTIVATE \/ t = PRECHARGE.
Proof.
  unfold required_type, is_request, IsReadWrite, IsRead, IsWrite, IsRefresh. intros Hs Hr H.
  destruct (state_ b); try discriminate; try done; destruct (cmd_type want); try discriminate;
    try case_decide; injection H as <-; auto.
Qed.

(** The banks a ready command changes are among those that were checked. *)
Lemma ready_type cs want clk cmd :
  geometry config -> chan_ok cs -> awake cs -> is_request want -> is_ready cs want clk cmd ->
  cmd_type cmd = cmd_type want \/ cmd_type cmd = ACTIVATE \/ cmd_type cmd = PRECHARGE.
Proof.
  intros Hg Hcs Haw Hreq [Hb Hok Hpl Hrk _ _ _].
  assert (exists c, in_range c /\ checked want cmd c) as (c & Hc & Hch).
  { unfold checked. destruct (IsRankCMD want && bool_decide (cmd_type cmd = cmd_type want)) eqn:E.
    - exists (Rank cmd, 0, 0). split; [|done]. destruct Hg. unfold in_range. simpl.
      split; [|lia]. destruct Hok as [_ Hok]. apply andb_prop in E as [E1 E2%bool_decide_eq_true].
      assert (IsRankCMD cmd = true) as Hcr by (unfold IsRankCMD in *; by rewrite E2).
      by rewrite Hcr in Hok.
    - exists (at_cmd cmd). split; [by apply Hpl|done]. }
  destruct (co_banks cs Hcs c Hc) as (b & Hbk & _). destruct (Hb c b Hc Hch Hbk) as [Hr _].
  by eapply required_awake; [eapply Haw| |].
Qed.

Lemma ready_legal cs want clk cmd :
  geometry config -> chan_ok cs -> awake cs -> is_request want -> is_ready cs want clk cmd ->
  legal cs cmd.
Proof.
  intros Hg Hcs Haw Hreq Hir. pose proof (ready_type _ _ _ _ Hg Hcs Haw Hreq Hir) as Hty.
  intros c b Hc Haff Hb. destruct Hir as [Hbk Hok Hpl Hrk _ _ _].
  destruct (Hbk c b Hc) as [Hr _]; [|done|].
  - unfold affected in Haff. unfold checked. destruct (IsRankCMD want && _) eqn:E.
    + apply andb_prop in E as [E1 E2%bool_decide_eq_true].
      assert (IsRankCMD cmd = true) as Hcr by (unfold IsRankCMD in *; by rewrite E2).
      by rewrite Hcr in Haff.
    + destruct (IsRankCMD cmd) eqn:Hcr; [|done]. exfalso.
      apply andb_false_iff in E. destruct Hty as [Ety|Ety].
      * destruct E as [E|E%bool_decide_eq_false]; [|done]. unfold IsRankCMD in *. rewrite Ety in Hcr. congruence.
      * unfold IsRankCMD in Hcr. by destruct Ety as [Ety|Ety]; rewrite Ety in Hcr.
  - destruct (co_banks cs Hcs c Hc) as (b' & ? & Hbok). assert (b' = b) as -> by congruence.
    destruct cmd as [t a h]. cbn [cmd_type] in *. by eapply required_legal.
Qed.

Lemma issued_awake cmd clk bs bs' :
  all_banks_ok bs -> (forall c b, in_range c -> bk bs c = Ok b -> state_ b <> SREF) ->
  cmd_type cmd <> SREF_ENTER -> banks_issued cmd clk bs bs' ->
  forall c b, in_range c -> bk bs' c = Ok b -> state_ b <> SREF.
Proof.
  intros Hok Haw Hne Hi c b' Hc Hb'. destruct (Hok c Hc) as (b & Hb & _).
  destruct (Hi c b Hc Hb) as (b1 & b2 & E & Hti & Hx). assert (b2 = b') as -> by congruence.
  rewrite (ti_state _ _ _ _ Hti). case_decide; [|subst; by eapply Haw].
  by eapply UpdateState_awake; [eapply Haw| |].
Qed.
End laws.

(** ** The initial channel and the tables of a configuration *)
Lemma vget_replicate {A} n (x : A) i : 0 <= i < n -> vget (replicate (Z.to_nat n) x) i = Ok x.
Proof. intros Hi. rewrite tab_replicate. by rewrite vget_tab. Qed.

Lemma bk_new config c : in_range config c -> bk (bank_states_ (ChannelState_new config)) c = Ok BankState_new.
Proof.
  intros (H1 & H2 & H3). unfold bk, bank_at. cbn [bank_states_ ChannelState_new].
  rewrite vget_replicate by done. cbn [mbind outcome_bind]. rewrite vget_replicate by done.
  cbn [mbind outcome_bind]. by rewrite vget_replicate.
Qed.

Lemma ChannelState_new_ok config : geometry config -> chan_ok config (ChannelState_new config).
Proof.
  intros []. split; cbn [rank_is_sref_ rank_idle_cycles four_aw_ thirty_two_aw_ ChannelState_new];
    try (rewrite vsize_replicate; lia).
  intros c Hc. exists BankState_new. split; [by apply bk_new|apply BankState_new_ok].
Qed.

Lemma Timing_new_ok config : timing_ok (Timing_new config).
Proof.
  assert (Hc : forall rd wr t d, (t, d) ∈ columns_after rd wr -> t <> C_SIZE).
  { intros rd wr t d H. unfold columns_after in H. set_unfold. naive_solver. }
  split; intros t t' d H; destruct t; cbn in H; try (by apply not_elem_of_nil in H);
    try (by eapply Hc); try destruct (needs_tPPD config); set_unfold; naive_solver.
Qed.
