(* ===== verification/ChannelTiming.v ===== *)
(** * DRAMsim3: runs of a channel respect the timing tables

    A run is a sequence of commands, each ready when it is issued, with the
    operations that leave the banks alone in between.  The theorems relate any
    two commands of a run, however far apart. *)

From stdpp Require Import base tactics list list_numbers numbers strings gmap.
From Stdlib Require Import ZArith Lia Sorted.
From S2P Require Import Prelude DramCommon IniReader DramConfig DramTiming BankState ChannelState.

(** A command of a run: the request it serves, the command, its cycle. *)
Record event := mkEvent { ev_want : Command; ev_cmd : Command; ev_clk : Z }.

Section runs.
Context (config : Config) (timing : Timing).

(** The banks and the windows of the channel. *)
Definition same_banks (cs cs' : ChannelState) : Prop :=
  bank_states_ cs' = bank_states_ cs /\ four_aw_ cs' = four_aw_ cs /\
  thirty_two_aw_ cs' = thirty_two_aw_ cs /\ vsize (rank_is_sref_ cs') = vsize (rank_is_sref_ cs) /\
  vsize (rank_idle_cycles cs') = vsize (rank_idle_cycles cs).

Inductive run : ChannelState -> list event -> ChannelState -> Prop :=
  | run_nil cs : run cs [] cs
  | run_other cs cs1 tr cs2 : same_banks cs cs1 -> run cs1 tr cs2 -> run cs tr cs2
  | run_issue cs want cmd clk cs1 tr cs2 :
      cmd_ok config want ->
      ChannelState.GetReadyCommand config cs want clk = Ok cmd -> IsValid cmd = true ->
      UpdateTimingAndStates config timing cs cmd clk = Ok cs1 ->
      run cs1 tr cs2 -> run cs (mkEvent want cmd clk :: tr) cs2.

Context (Hgeo : geometry config) (Htim : timing_ok timing).

Lemma same_banks_ok cs cs' : chan_ok config cs -> same_banks cs cs' -> chan_ok config cs'.
Proof.
  intros [Hb H1 H2 H3 H4] (E1 & E2 & E3 & E4 & E5). split; [rewrite E1; exact Hb|congruence..].
Qed.

(** The constraints of a bank never become weaker. *)
Definition later (cs cs' : ChannelState) : Prop :=
  forall c b, in_range config c -> bk (bank_states_ cs) c = Ok b ->
    exists b', bk (bank_states_ cs') c = Ok b' /\ forall t, earliest b t <= earliest b' t.

Lemma later_refl cs : later cs cs.
Proof. intros c b _ Hb. exists b. split; [done|]. intros; lia. Qed.

Lemma later_trans cs1 cs2 cs3 : later cs1 cs2 -> later cs2 cs3 -> later cs1 cs3.
Proof.
  intros H1 H2 c b Hc Hb. destruct (H1 c b Hc Hb) as (b1 & Hb1 & ?).
  destruct (H2 c b1 Hc Hb1) as (b2 & ? & ?). exists b2. split; [done|]. intros t. etrans; eauto.
Qed.

Lemma executed_earliest b cmd b' t :
  bank_ok b -> BankState.UpdateState b cmd = Ok b' -> earliest b' t = earliest b t.
Proof. intros Hb H. unfold earliest. by destruct (UpdateState_ok b cmd b' Hb H) as [_ ->]. Qed.

(** One command: the channel stays well formed, and the delays are recorded. *)
Lemma issue_step cs want cmd clk cs1 :
  chan_ok config cs -> cmd_ok config want ->
  ChannelState.GetReadyCommand config cs want clk = Ok cmd -> IsValid cmd = true ->
  UpdateTimingAndStates config timing cs cmd clk = Ok cs1 ->
  chan_ok config cs1 /\ is_ready config cs want clk cmd /\ later cs cs1 /\
  windows_step config cmd clk cs cs1 /\
  forall c b, in_range config c -> bk (bank_states_ cs1) c = Ok b ->
    forall t d, (t, d) ∈ delays_at timing cmd c -> u64 (clk + d) <= earliest b t.
Proof.
  intros Hcs Hw Hg Hv Hu.
  assert (Hl : legal config cs cmd).
  { unfold UpdateTimingAndStates in Hu. apply bind_ok in Hu as (? & E & _). by eapply executed_legal. }
  pose proof (GetReadyCommand_ready config cs want clk cmd Hgeo Hcs Hw Hg Hv) as Hir.
  destruct (UpdateTimingAndStates_ok config timing cs cmd clk Htim Hcs (ir_ok _ _ _ _ _ Hir) Hl)
    as (cs' & E & Hcs' & Hi & _ & _ & Hwin).
  assert (cs' = cs1) as -> by congruence. split_and!; try done.
  - intros c b Hc Hb. destruct (co_banks _ cs Hcs c Hc) as (b0 & Hb0 & Hbok).
    assert (b0 = b) as -> by congruence.
    destruct (Hi c b Hc Hb) as (b1 & b' & ? & Hti & Hx). exists b'. split; [done|]. intros t.
    etrans; [|apply (ti_mono _ _ _ _ Hti)]. case_decide; [|by subst].
    by rewrite (executed_earliest b cmd b1).
  - intros c b' Hc Hb' t d Hd. destruct (co_banks _ cs Hcs c Hc) as (b & Hb & _).
    destruct (Hi c b Hc Hb) as (b1 & b2 & ? & Hti & _). assert (b2 = b') as -> by congruence.
    by apply (ti_lower _ _ _ _ Hti).
Qed.

Lemma same_banks_later cs cs' : same_banks cs cs' -> later cs cs'.
Proof. intros (E & _) c b _ Hb. exists b. by rewrite E. Qed.

Lemma run_ok cs tr cs' : run cs tr cs' -> chan_ok config cs -> chan_ok config cs' /\ later cs cs'.
Proof.
  induction 1 as [cs|cs cs1 tr cs2 Hs _ IH|cs want cmd clk cs1 tr cs2 Hw Hg Hv Hu _ IH]; intros Hcs.
  - split; [done|]. apply later_refl.
  - destruct (IH (same_banks_ok _ _ Hcs Hs)) as [? ?]. split; [done|].
    eapply later_trans; [by apply same_banks_later|done].
  - destruct (issue_step _ _ _ _ _ Hcs Hw Hg Hv Hu) as (Hcs1 & _ & ? & _).
    destruct (IH Hcs1) as [? ?]. split; [done|]. by eapply later_trans.
Qed.

Lemma run_app cs tr1 tr2 cs' :
  run cs (tr1 ++ tr2) cs' -> exists cs1, run cs tr1 cs1 /\ run cs1 tr2 cs'.
Proof.
  intros H. remember (tr1 ++ tr2) as tr eqn:E. revert tr1 E.
  induction H as [cs|cs cs1 tr cs2 Hs Hr IH|cs want cmd clk cs1 tr cs2 Hw Hg Hv Hu Hr IH]; intros tr1 E.
  - symmetry in E. apply app_nil in E as [-> ->]. exists cs. split; constructor.
  - destruct (IH tr1 E) as (x & ? & ?). exists x. split; [by eapply run_other|done].
  - destruct tr1 as [|e tr1]; simplify_eq/=.
    + exists cs. split; [constructor|by eapply run_issue].
    + destruct (IH tr1 eq_refl) as (x & ? & ?). exists x. split; [by eapply run_issue|done].
Qed.

(** The first command of a run, up to operations that leave the banks alone. *)
Lemma run_cons cs e tr cs' :
  run cs (e :: tr) cs' -> chan_ok config cs ->
  exists cs0 cs1, later cs cs0 /\ chan_ok config cs0 /\
    (four_aw_ cs0 = four_aw_ cs /\ thirty_two_aw_ cs0 = thirty_two_aw_ cs) /\
    cmd_ok config (ev_want e) /\
    ChannelState.GetReadyCommand config cs0 (ev_want e) (ev_clk e) = Ok (ev_cmd e) /\
    IsValid (ev_cmd e) = true /\
    UpdateTimingAndStates config timing cs0 (ev_cmd e) (ev_clk e) = Ok cs1 /\ run cs1 tr cs'.
Proof.
  intros H. remember (e :: tr) as l eqn:E. revert E.
  induction H as [cs|cs cs1 l cs2 Hs Hr IH|cs want cmd clk cs1 l cs2 Hw Hg Hv Hu Hr IH];
    intros E Hcs; [done| |].
  - destruct (IH E (same_banks_ok _ _ Hcs Hs)) as (x & y & Hx & ? & [Hf Hf2] & ?). exists x, y.
    split; [eapply later_trans; [by apply same_banks_later|done]|]. split; [done|].
    split; [|done]. destruct Hs as (_ & E2 & E3 & _). by rewrite Hf, Hf2, E2, E3.
  - simplify_eq/=. exists cs, cs1. split_and!; try done. apply later_refl.
Qed.

End runs.

(** ** Activation windows *)
Section window.
Context (n : nat) (W : Z) (Hn : (1 <= n)%nat).

(** Any [n + 1] consecutive activations span at least [W] cycles. *)
Definition spaced (acts : list Z) : Prop :=
  forall i t t', acts !! i = Some t -> acts !! (i + n)%nat = Some t' -> t + W <= t'.

(** The window holds the ends of the latest activations, at most [n]; those it
    dropped were over. *)
Definition window_inv (acts q : list Z) : Prop :=
  exists m, q = (fun t => t + W) <$> drop m acts /\ (m <= length acts <= n + m)%nat /\
    forall i t, (i < m)%nat -> acts !! i = Some t -> exists t', last acts = Some t' /\ t + W <= t'.

Lemma window_inv_nil : window_inv [] [].
Proof using Type. clear Hn. exists 0%nat. split; [done|]. split; [simpl; lia|]. intros; lia. Qed.

Lemma window_push_inv acts q u :
  window_inv acts q -> (forall t, t ∈ acts -> t <= u) -> window_full n q u = false ->
  window_inv (acts ++ [u]) (window_push q u (u + W)) /\
  forall i t, (i + n)%nat = length acts -> acts !! i = Some t -> t + W <= u.
Proof using Hn.
  intros (m & -> & Hm & Hold) Hu Hfull.
  assert (Hexp : forall i t, (i < m)%nat -> acts !! i = Some t -> t + W <= u).
  { intros i t Hi Ht. destruct (Hold i t Hi Ht) as (t' & Hl & ?).
    apply last_Some_elem_of in Hl. specialize (Hu t' Hl). lia. }
  destruct (drop m acts) as [|x rest] eqn:Ed.
  { assert (Hlen : length (drop m acts) = 0%nat) by (by rewrite Ed). rewrite length_drop in Hlen. split.
    - exists m. rewrite drop_app_le, Ed by lia. cbn. split; [done|]. rewrite length_app. simpl.
      split; [lia|]. intros i t Hi Ht. exists u. rewrite last_snoc. split; [done|].
      rewrite lookup_app_l in Ht by lia. by eapply Hexp.
    - intros i t Hi Ht. apply (Hexp i t); [lia|done]. }
  assert (Hx : acts !! m = Some x).
  { replace m with (m + 0)%nat by lia. rewrite <- lookup_drop, Ed. done. }
  assert (Hlen : length acts = (m + S (length rest))%nat).
  { assert (length (drop m acts) = S (length rest)) as H by (by rewrite Ed). rewrite length_drop in H. lia. }
  rewrite fmap_cons in *. cbn [window_push window_full length] in *. rewrite length_fmap in Hfull.
  destruct (decide (u >= x + W)) as [Hover|Hover].
  - split.
    + exists (S m). rewrite drop_app_le by lia.
      assert (Hd : drop (S m) acts = rest).
      { change (S m) with (1 + m)%nat. rewrite Nat.add_comm, <- drop_drop, Ed. done. }
      rewrite Hd, fmap_app. split; [done|]. rewrite length_app. simpl. split; [lia|].
      intros i t Hi Ht. exists u. rewrite last_snoc. split; [done|].
      rewrite lookup_app_l in Ht by lia. destruct (decide (i = m)) as [->|]; [|eapply Hexp; [|done]; lia].
      rewrite Hx in Ht. injection Ht as <-. lia.
    + intros i t Hi Ht. destruct (decide (i < m)%nat); [by eapply Hexp|].
      assert (i = m) as -> by lia. rewrite Hx in Ht. injection Ht as <-. lia.
  - rewrite bool_decide_eq_true_2 in Hfull by lia. cbn in Hfull. apply bool_decide_eq_false in Hfull. split.
    + exists m. rewrite drop_app_le, Ed, fmap_app, fmap_cons by lia. split; [done|]. rewrite length_app. simpl.
      split; [lia|]. intros i t Hi Ht. exists u. rewrite last_snoc. split; [done|].
      rewrite lookup_app_l in Ht by lia. by eapply Hexp.
    + intros i t Hi Ht. destruct (decide (i < m)%nat); [by eapply Hexp|]. lia.
Qed.

Lemma spaced_snoc acts u :
  spaced acts -> (forall i t, (i + n)%nat = length acts -> acts !! i = Some t -> t + W <= u) ->
  spaced (acts ++ [u]).
Proof using Hn.
  intros Hs Hu i t t' Ht Ht'. destruct (decide ((i + n)%nat < length acts)%nat) as [Hl|Hl].
  - rewrite lookup_app_l in Ht, Ht' by lia. by eapply Hs.
  - rewrite lookup_app_r in Ht' by lia. apply list_lookup_singleton_Some in Ht' as [Hi <-].
    apply (Hu i); [lia|]. by rewrite lookup_app_l in Ht by lia.
Qed.
End window.

(** The cycles of the activations of a rank. *)
Definition activations (rk : Z) (tr : list event) : list Z :=
  ev_clk <$> filter (fun e => cmd_type (ev_cmd e) = ACTIVATE /\ Rank (ev_cmd e) = rk) tr.

Section activation_runs.
Context (config : Config) (timing : Timing) (Hgeo : geometry config) (Htim : timing_ok timing).
Context (n : nat) (W : Z) (Hn : (1 <= n)%nat) (rk : Z) (get : ChannelState -> list (list Z)).
Context (Hstep : forall cmd clk cs cs' q,
  windows_step config cmd clk cs cs' -> vget (get cs) rk = Ok q ->
  vget (get cs') rk = Ok (if decide (cmd_type cmd = ACTIVATE /\ Rank cmd = rk)
                          then window_push q clk (u64 (clk + W)) else q)).
Context (Hready : forall cs clk q,
  ActivationWindowOk config cs rk clk = Ok true -> vget (get cs) rk = Ok q -> window_full n q clk = false).
Context (Hsame : forall cs cs', four_aw_ cs' = four_aw_ cs -> thirty_two_aw_ cs' = thirty_two_aw_ cs ->
  get cs' = get cs).

Lemma run_spaced tr : forall cs cs' acts q,
  run config timing cs tr cs' -> chan_ok config cs ->
  vget (get cs) rk = Ok q -> window_inv n W acts q -> spaced n W acts ->
  StronglySorted Z.le (ev_clk <$> tr) -> (forall t e, t ∈ acts -> e ∈ tr -> t <= ev_clk e) ->
  (forall e, e ∈ tr -> 0 <= ev_clk e + W < 2 ^ 64) ->
  spaced n W (acts ++ activations rk tr).
Proof using Hgeo Htim Hn Hstep Hready Hsame.
  induction tr as [|e tr IH]; intros cs cs' acts q Hrun Hcs Hq Hinv Hsp Hsort Hle Hb.
  { unfold activations. simpl. by rewrite app_nil_r. }
  destruct (run_cons config timing cs e tr cs' Hrun Hcs)
    as (cs0 & cs1 & _ & Hcs0 & [Hf Hf2] & Hw & Hg & Hv & Hu & Hrun1).
  destruct (issue_step config timing Hgeo Htim _ _ _ _ _ Hcs0 Hw Hg Hv Hu) as (Hcs1 & Hir & _ & Hwin & _).
  rewrite <- (Hsame cs cs0 Hf Hf2) in Hq. pose proof (Hstep _ _ _ _ _ Hwin Hq) as Hq1.
  rewrite fmap_cons in Hsort. apply StronglySorted_inv in Hsort as [Hsort Hall].
  rewrite Forall_fmap, Forall_forall in Hall.
  assert (Htail : forall x, x ∈ tr -> 0 <= ev_clk x + W < 2 ^ 64) by (intros; apply Hb; set_solver).
  unfold activations. destruct (decide (cmd_type (ev_cmd e) = ACTIVATE /\ Rank (ev_cmd e) = rk)) as [Ha|Ha].
  - rewrite filter_cons_True by done. destruct Ha as [Ha <-].
    rewrite u64_small in Hq1 by (apply Hb; set_solver).
    pose proof (Hready _ _ _ (ir_window _ _ _ _ _ Hir Ha) Hq) as Hnf.
    destruct (window_push_inv n W Hn acts q (ev_clk e) Hinv) as [Hinv' Hlast];
      [intros t Ht; apply Hle; set_solver|done|].
    pose proof (IH cs1 cs' (acts ++ [ev_clk e]) _ Hrun1 Hcs1 Hq1 Hinv') as H.
    rewrite fmap_cons, cons_middle, app_assoc. apply H; [by apply spaced_snoc|done| |done].
    intros t x [Ht| ->%list_elem_of_singleton]%elem_of_app Hx; [apply Hle; set_solver|by apply Hall].
  - rewrite filter_cons_False by done. apply (IH cs1 cs' acts q); try done. intros; apply Hle; set_solver.
Qed.
End activation_runs.

(** C24. Activation windows: along any run of a channel whose cycles do not
    decrease, any five consecutive activations of a rank span at least [tFAW]
    cycles, so no window of [tFAW] cycles holds more than four; on GDDR any 33
    consecutive activations span at least [t32AW] cycles. *)
Theorem activation_windows config timing cs tr cs' rk :
  geometry config -> timing_ok timing -> chan_ok config cs -> run config timing cs tr cs' ->
  StronglySorted Z.le (ev_clk <$> tr) ->
  (vget (four_aw_ cs) rk = Ok [] -> (forall e, e ∈ tr -> 0 <= ev_clk e + tFAW config < 2 ^ 64) ->
   forall i t t', activations rk tr !! i = Some t -> activations rk tr !! (i + 4)%nat = Some t' ->
     t + tFAW config <= t') /\
  (IsGDDR (protocol config) = true -> vget (thirty_two_aw_ cs) rk = Ok [] ->
   (forall e, e ∈ tr -> 0 <= ev_clk e + t32AW config < 2 ^ 64) ->
   forall i t t', activations rk tr !! i = Some t -> activations rk tr !! (i + 32)%nat = Some t' ->
     t + t32AW config <= t').
Proof.
  intros Hg Ht Hcs Hrun Hsort. split.
  - intros Hq Hb. apply (run_spaced config timing Hg Ht 4 (tFAW config) ltac:(lia) rk four_aw_)
      with (cs := cs) (cs' := cs') (acts := []) (q := []); try done.
    + intros cmd clk cs1 cs2 q [H _] Hq1. rewrite (H rk q Hq1). by repeat case_decide; naive_solver.
    + unfold ActivationWindowOk, IsFAWReady. intros cs1 clk q H Hq1. rewrite Hq1 in H.
      cbn [mbind outcome_bind] in H. destruct (window_full 4 q clk); [|done].
      destruct (IsGDDR _); discriminate H.
    + apply window_inv_nil.
    + intros t e Hx. set_solver.
  - intros Hgd Hq Hb. apply (run_spaced config timing Hg Ht 32 (t32AW config) ltac:(lia) rk thirty_two_aw_)
      with (cs := cs) (cs' := cs') (acts := []) (q := []); try done.
    + intros cmd clk cs1 cs2 q [_ H] Hq1. rewrite (H rk q Hq1). by repeat case_decide; naive_solver.
    + unfold ActivationWindowOk, Is32AWReady. intros cs1 clk q H Hq1. ok_inv H. rewrite Hgd in H.
      destruct (negb r); [discriminate H|]. rewrite Hq1 in H. cbn [mbind outcome_bind] in H.
      destruct (window_full 32 q clk); [discriminate H|done].
    + apply window_inv_nil.
    + intros t e Hx. set_solver.
Qed.

(** ** Playing a sequence of requests *)
(** Serve the requests at the given cycles; a request that is not ready fails. *)
Fixpoint play (config : Config) (timing : Timing) (cs : ChannelState) (reqs : list (Command * Z))
    : outcome (list event * ChannelState) :=
  match reqs with
  | [] => Ok ([], cs)
  | (want, clk) :: reqs =>
      cmd ← ChannelState.GetReadyCommand config cs want clk;
      if IsValid cmd then
        cs ← UpdateTimingAndStates config timing cs cmd clk;
        r ← play config timing cs reqs;
        Ok (mkEvent want cmd clk :: r.1, r.2)
      else Fault Undefined
  end.

Lemma play_run config timing reqs cs tr cs' :
  Forall (fun r => cmd_ok config r.1) reqs -> play config timing cs reqs = Ok (tr, cs') ->
  run config timing cs tr cs'.
Proof.
  intros Hr. revert cs tr; induction Hr as [|[want clk] reqs Hw _ IH]; intros cs tr H; cbn [play] in H.
  - injection H as <- <-. constructor.
  - ok_inv H. destruct (IsValid r) eqn:Hv; [|discriminate]. ok_inv H.
    eapply run_issue; try done. apply IH. rewrite E1. by destruct r1.
Qed.

(** The requests of the witnesses: reads of six rows in six banks of rank 0 on
    HBM2, each opening its row when the windows allow. *)
Definition demo_reqs : list (Command * Z) :=
  (fun bt : Z * Z * Z => (mkCommand C_READ (mkAddress 0 0 bt.1.1 bt.1.2 5 3) 0, bt.2)) <$>
    [(0, 0, 0); (1, 0, 4); (2, 0, 8); (3, 0, 12); (0, 1, 30); (0, 0, 31); (1, 1, 34)].

Definition demo_trace : list event :=
  match play hbm2_config (Timing_new hbm2_config) (ChannelState_new hbm2_config) demo_reqs with
  | Ok r => r.1 | Fault _ => [] end.

Lemma demo_run : exists cs,
  run hbm2_config (Timing_new hbm2_config) (ChannelState_new hbm2_config) demo_trace cs.
Proof.
  destruct (play hbm2_config (Timing_new hbm2_config) (ChannelState_new hbm2_config) demo_reqs)
    as [[tr cs]|] eqn:E; [|exfalso; vm_compute in E; discriminate E].
  exists cs. unfold demo_trace. rewrite E. eapply play_run; [|exact E].
  repeat constructor; cbn; try lia; discriminate.
Qed.


Lemma activation_windows_witness :
  activations 0 demo_trace = [0; 4; 8; 12; 30; 34] /\ 0 + tFAW hbm2_config <= 30.
Proof.
  destruct demo_run as [cs Hrun].
  destruct (activation_windows hbm2_config (Timing_new hbm2_config) (ChannelState_new hbm2_config)
              demo_trace cs 0 hbm2_geometry (Timing_new_ok _) (ChannelState_new_ok _ hbm2_geometry) Hrun)
    as [Hw _].
  - vm_compute. repeat constructor; discriminate.
  - split; [by vm_compute|]. apply (Hw eq_refl) with (i := 0%nat); [|by vm_compute|by vm_compute].
    intros e He. assert (Hf : Forall (fun e => 0 <= ev_clk e + 30 < 2 ^ 64) demo_trace)
      by (apply (bool_decide_unpack _); vm_compute; exact I).
    rewrite Forall_forall in Hf. exact (Hf e He).
Defined.
