(* ===== verification/SimpleStats.v ===== *)
(** * DRAMsim3: the statistics (DRAMsim3/src/simple_stats.cc, simple_stats.h)

    The integer statistics of a channel: counters, per-rank counters and latency
    histograms, each with its value for the current epoch and its total.  The
    energies, the averages and the JSON report are in StatsReport. *)

From stdpp Require Import base tactics list list_numbers numbers strings gmap.
From Stdlib Require Import ZArith Lia.
From S2P Require Import Prelude.

Record SimpleStats := mkSimpleStats {
  counters_ : gmap string Z;
  epoch_counters_ : gmap string Z;
  vec_counters_ : gmap string (list Z);
  epoch_vec_counters_ : gmap string (list Z);
  histo_bounds_ : gmap string (Z * Z);
  bin_widths_ : gmap string Z;
  histo_counts_ : gmap string (gmap Z Z);
  epoch_histo_counts_ : gmap string (gmap Z Z);
  histo_bins_ : gmap string (list Z);
  epoch_histo_bins_ : gmap string (list Z)
}.

#[export] Instance SimpleStats_fields : Fields SimpleStats := fun s =>
  mkSimpleStats (counters_ s) (epoch_counters_ s) (vec_counters_ s) (epoch_vec_counters_ s)
    (histo_bounds_ s) (bin_widths_ s) (histo_counts_ s) (epoch_histo_counts_ s) (histo_bins_ s)
    (epoch_histo_bins_ s).

(** [m[k]] of a map: a missing entry is created with its default value. *)
Definition at_or {V} (d : V) (m : gmap string V) (k : string) : V := default d (m !! k).

(** ** Initialisation *)
(** [m.emplace(k, v)]: an entry that exists is kept. *)
Definition emplace {V} (m : gmap string V) (k : string) (v : V) : gmap string V :=
  match m !! k with Some _ => m | None => <[k := v]> m end.

(** [InitStat(name, "counter", ...)] *)
Definition InitStat (s : SimpleStats) (name : string) : SimpleStats :=
  s <| counters_ := emplace (counters_ s) name 0 |>
    <| epoch_counters_ := emplace (epoch_counters_ s) name 0 |>.

(** [InitVecStat(name, "vec_counter", ..., vec_len)] *)
Definition InitVecStat (s : SimpleStats) (name : string) (vec_len : Z) : SimpleStats :=
  s <| vec_counters_ := emplace (vec_counters_ s) name (replicate (Z.to_nat vec_len) 0) |>
    <| epoch_vec_counters_ :=
         emplace (epoch_vec_counters_ s) name (replicate (Z.to_nat vec_len) 0) |>.

Definition InitHistoStat (s : SimpleStats) (name : string) (start_val end_val num_bins : Z)
    : SimpleStats :=
  let bin_width := Z.quot (end_val - start_val) num_bins in
  {| counters_ := counters_ s; epoch_counters_ := epoch_counters_ s;
     vec_counters_ := vec_counters_ s; epoch_vec_counters_ := epoch_vec_counters_ s;
     bin_widths_ := emplace (bin_widths_ s) name bin_width;
     histo_bounds_ := emplace (histo_bounds_ s) name (start_val, end_val);
     histo_counts_ := emplace (histo_counts_ s) name ∅;
     epoch_histo_counts_ := emplace (epoch_histo_counts_ s) name ∅;
     histo_bins_ := emplace (histo_bins_ s) name (replicate (Z.to_nat (num_bins + 2)) 0);
     epoch_histo_bins_ := emplace (epoch_histo_bins_ s) name (replicate (Z.to_nat (num_bins + 2)) 0) |}.

Definition counter_names : list string :=
  ["num_cycles"; "epoch_num"; "num_reads_done"; "num_writes_done"; "num_write_buf_hits";
   "num_read_row_hits"; "num_write_row_hits"; "num_read_cmds"; "num_write_cmds"; "num_act_cmds";
   "num_pre_cmds"; "num_ondemand_pres"; "num_ref_cmds"; "num_refb_cmds"; "num_srefe_cmds";
   "num_srefx_cmds"; "hbm_dual_cmds"]%string.

Definition SimpleStats_new (ranks : Z) : SimpleStats :=
  let s := mkSimpleStats ∅ ∅ ∅ ∅ ∅ ∅ ∅ ∅ ∅ ∅ in
  let s := foldl InitStat s counter_names in
  let s := foldl (fun s n => InitVecStat s n ranks) s
             ["all_bank_idle_cycles"; "rank_active_cycles"; "sref_cycles"]%string in
  let s := InitHistoStat s "read_latency" 0 200 10 in
  let s := InitHistoStat s "write_latency" 0 200 10 in
  InitHistoStat s "interarrival_latency" 0 100 10.

(** ** Counting *)
Definition Increment (s : SimpleStats) (name : string) : SimpleStats :=
  s <| epoch_counters_ := <[name := u64 (at_or 0 (epoch_counters_ s) name + 1)]> (epoch_counters_ s) |>.

Definition IncrementVec (s : SimpleStats) (name : string) (pos : Z) : outcome SimpleStats :=
  v ← vupd (at_or [] (epoch_vec_counters_ s) name) pos (fun x => u64 (x + 1));
  Ok (s <| epoch_vec_counters_ := <[name := v]> (epoch_vec_counters_ s) |>).

(** [counts[value] += n], an absent value counting 0 *)
Definition add_count (counts : gmap Z Z) (value n : Z) : gmap Z Z :=
  <[value := u64 (default 0 (counts !! value) + n)]> counts.

Definition AddValue (s : SimpleStats) (name : string) (value : Z) : SimpleStats :=
  s <| epoch_histo_counts_ :=
    <[name := add_count (at_or ∅ (epoch_histo_counts_ s) name) (i32 value) 1]>
      (epoch_histo_counts_ s) |>.

(** ** The end of an epoch *)
(** [to[i] += from[i]] for each index of [from] *)
Definition add_vec (from to : list Z) : outcome (list Z) :=
  for_each (fun i to => x ← vget from i; vupd to i (fun y => u64 (y + x))) (seqZ 0 (vsize from)) to.

Definition UpdateCounters (s : SimpleStats) : outcome SimpleStats :=
  let cs := union_with (fun a b => Some (u64 (a + b))) (counters_ s) (epoch_counters_ s) in
  vs ← for_each (fun nv vs => v ← add_vec nv.2 (at_or [] vs nv.1); Ok (<[nv.1 := v]> vs))
         (map_to_list (epoch_vec_counters_ s)) (vec_counters_ s);
  Ok (s <| counters_ := cs |> <| vec_counters_ := vs |>).

(** The bin of a latency. *)
Definition bin_of (bounds : Z * Z) (width nbins value : Z) : outcome Z :=
  if decide (value < bounds.1) then Ok 0
  else if decide (value > bounds.2) then Ok (nbins - 1)
  else if decide (width = 0) then Fault Undefined
  else Ok (Z.quot (value - bounds.1) width + 1).

Definition fill_bins (bounds : Z * Z) (width : Z) (counts : gmap Z Z) (bins : list Z)
    : outcome (list Z) :=
  for_each (fun vc bins =>
      i ← bin_of bounds width (vsize bins) vc.1; vupd bins i (fun x => u64 (x + vc.2)))
    (map_to_list counts) (replicate (length bins) 0).

(** One name of the first loop of [UpdateHistoBins] ... *)
Definition epoch_bins (s : SimpleStats) (nb : string * list Z) (m : gmap string (list Z))
    : outcome (gmap string (list Z)) :=
  b ← fill_bins (at_or (0, 0) (histo_bounds_ s) nb.1) (at_or 0 (bin_widths_ s) nb.1)
        (at_or ∅ (epoch_histo_counts_ s) nb.1) nb.2;
  Ok (<[nb.1 := b]> m).

(** ... and of the second: the totals gain the values of the epoch. *)
Definition total_bins (epoch : gmap string (list Z)) (name : string) (m : gmap string (list Z))
    : outcome (gmap string (list Z)) :=
  let final_bins := at_or [] m name in
  b ← for_each (fun i fb => x ← vget (at_or [] epoch name) i; vupd fb i (fun y => u64 (y + x)))
        (seqZ 0 (vsize final_bins)) final_bins;
  Ok (<[name := b]> m).

Definition merge_counts (epoch total : gmap Z Z) : gmap Z Z :=
  union_with (fun a b => Some (u64 (a + b))) total epoch.

Definition UpdateHistoBins (s : SimpleStats) : outcome SimpleStats :=
  eb ← for_each (epoch_bins s) (map_to_list (epoch_histo_bins_ s)) (epoch_histo_bins_ s);
  let totals := foldl (fun m nc => <[nc.1 := merge_counts nc.2 (at_or ∅ m nc.1)]> m)
                  (histo_counts_ s) (map_to_list (epoch_histo_counts_ s)) in
  fb ← for_each (total_bins eb) (map_to_list (epoch_histo_counts_ s)).*1 (histo_bins_ s);
  Ok (s <| epoch_histo_bins_ := eb |> <| histo_counts_ := totals |> <| histo_bins_ := fb |>).

(** The loops at the end of [UpdateEpochStats]. *)
Definition clear_epoch (s : SimpleStats) : SimpleStats :=
  s <| epoch_counters_ := (fun _ => 0) <$> epoch_counters_ s |>
    <| epoch_vec_counters_ := (fun v => replicate (length v) 0) <$> epoch_vec_counters_ s |>
    <| epoch_histo_counts_ := (fun _ => ∅) <$> epoch_histo_counts_ s |>.

Definition UpdateEpochStats (s : SimpleStats) : outcome SimpleStats :=
  s ← UpdateCounters s;
  s ← UpdateHistoBins s;
  Ok (clear_epoch s).

Definition UpdateFinalStats (s : SimpleStats) : outcome SimpleStats :=
  s ← UpdateCounters s; UpdateHistoBins s.

Definition Reset (s : SimpleStats) : SimpleStats :=
  {| counters_ := (fun _ => 0) <$> counters_ s;
     epoch_counters_ := (fun _ => 0) <$> epoch_counters_ s;
     vec_counters_ := (fun v => replicate (length v) 0) <$> vec_counters_ s;
     epoch_vec_counters_ := (fun v => replicate (length v) 0) <$> epoch_vec_counters_ s;
     histo_bounds_ := histo_bounds_ s; bin_widths_ := bin_widths_ s;
     histo_counts_ := (fun _ => ∅) <$> histo_counts_ s;
     epoch_histo_counts_ := (fun _ => ∅) <$> epoch_histo_counts_ s;
     histo_bins_ := histo_bins_ s; epoch_histo_bins_ := epoch_histo_bins_ s |}.

(** ** Loops over the entries of a map *)
Lemma for_each_keyed {V W} (f : string -> V -> W -> outcome W) (d : W) (l : list (string * V)) (m : gmap string W) :
  NoDup l.*1 ->
  (forall k v, (k, v) ∈ l -> exists w, f k v (at_or d m k) = Ok w) ->
  exists m', for_each (fun kv m => w ← f kv.1 kv.2 (at_or d m kv.1); Ok (<[kv.1 := w]> m)) l m = Ok m' /\
    (forall k v w, (k, v) ∈ l -> f k v (at_or d m k) = Ok w -> m' !! k = Some w) /\
    (forall k, k ∉ l.*1 -> m' !! k = m !! k).
Proof.
  revert m; induction l as [|[k v] l IH]; intros m Hnd Hf; cbn [for_each].
  { exists m. split; [done|]. split; [set_solver|done]. }
  apply NoDup_cons in Hnd as [Hk Hnd]. cbn [fst snd] in *.
  destruct (Hf k v ltac:(set_solver)) as (w & Ew). rewrite Ew. cbn [mbind outcome_bind].
  assert (Hother : forall k', k' ∈ l.*1 -> at_or d (<[k := w]> m) k' = at_or d m k').
  { intros k' Hk'. unfold at_or. rewrite lookup_insert_ne; [done|]. by intros ->. }
  assert (Hfst : forall k' v', (k', v') ∈ l -> k' ∈ l.*1).
  { intros k' v' H. apply list_elem_of_fmap. by exists (k', v'). }
  destruct (IH (<[k := w]> m) Hnd) as (m' & E & Hin & Hout).
  { intros k' v' H. rewrite Hother by eauto. apply Hf. set_solver. }
  exists m'. split; [done|]. split.
  - intros k' v' w' [[= -> ->]|H]%elem_of_cons E'.
    + rewrite Hout by done. rewrite lookup_insert_eq. congruence.
    + apply (Hin k' v'); [done|]. by rewrite Hother by eauto.
  - intros k' Hk'. apply not_elem_of_cons in Hk' as [Hne Hk']. rewrite Hout by done.
    by rewrite lookup_insert_ne.
Qed.

(** ** Adding vectors *)
Lemma add_range (from to : list Z) (n : Z) :
  0 <= n <= vsize from -> n <= vsize to ->
  exists to', for_each (fun i to => x ← vget from i; vupd to i (fun y => u64 (y + x))) (seqZ 0 n) to = Ok to' /\
    vsize to' = vsize to /\
    forall i x y, vget from i = Ok x -> vget to i = Ok y ->
      vget to' i = Ok (if decide (i < n) then u64 (y + x) else y).
Proof.
  intros Hn Hto.
  pose proof (for_int_ind n (fun i to => x ← vget from i; vupd to i (fun y => u64 (y + x)))
    (fun k t => vsize t = vsize to /\ forall i x y, vget from i = Ok x -> vget to i = Ok y ->
      vget t i = Ok (if decide (i < k) then u64 (y + x) else y)) to) as H.
  unfold for_int in H. destruct H as (to' & E & Hs & Hv); [lia| | |].
  - split; [done|]. intros i x y [Hi _]%vget_ok Hy. by rewrite decide_False by lia.
  - intros i t Hi [Hs Hv]. destruct (vget_total from i) as (x & Ex); [lia|].
    destruct (vget_total to i) as (y & Ey); [lia|]. pose proof (Hv i x y Ex Ey) as Et.
    rewrite decide_False in Et by lia. rewrite Ex. cbn [mbind outcome_bind]. unfold vupd. rewrite Et.
    cbn [mbind outcome_bind].
    destruct (vset t i (u64 (y + x))) as [t'|] eqn:E.
    2: { unfold vset in E. rewrite decide_True in E by (unfold vsize in *; lia). discriminate E. }
    exists t'. split; [done|]. split; [by rewrite (vset_vsize _ _ _ _ E)|].
    intros j a b Ha Hb. destruct (decide (j = i)) as [->|Hne].
    + rewrite (vget_vset_eq _ _ _ _ E), decide_True by lia. congruence.
    + rewrite (vget_vset_ne _ _ _ _ _ (not_eq_sym Hne) E), (Hv j a b Ha Hb). f_equal.
      repeat case_decide; lia || done.
  - eauto.
Qed.

(** ** Well-formed statistics *)
(** The bounds and the width of a histogram cover its bins. *)
Record histo_ok (bounds : Z * Z) (width : Z) (bins : list Z) : Prop := {
  ho_width : 0 < width;
  ho_bounds : bounds.1 <= bounds.2;
  ho_bins : (bounds.2 - bounds.1) / width + 1 < vsize bins
}.

Definition latency_names : list string := ["read_latency"; "write_latency"; "interarrival_latency"]%string.

Record stats_inv (ranks : Z) (s : SimpleStats) : Prop := {
  si_latencies : forall name, name ∈ latency_names -> is_Some (epoch_histo_counts_ s !! name);
  si_named : forall name, name ∈ ["all_bank_idle_cycles"; "rank_active_cycles"; "sref_cycles"]%string ->
    exists v, epoch_vec_counters_ s !! name = Some v /\ vsize v = ranks;
  si_vecs : forall name v, epoch_vec_counters_ s !! name = Some v ->
    exists w, vec_counters_ s !! name = Some w /\ vsize w = vsize v;
  si_histos : forall name bins, epoch_histo_bins_ s !! name = Some bins ->
    exists bounds width, histo_bounds_ s !! name = Some bounds /\ bin_widths_ s !! name = Some width /\
      histo_ok bounds width bins;
  si_counts : forall name counts, epoch_histo_counts_ s !! name = Some counts ->
    exists b w, epoch_histo_bins_ s !! name = Some b /\ histo_bins_ s !! name = Some w /\ vsize w = vsize b
}.

Lemma Increment_inv ranks s name : stats_inv ranks s -> stats_inv ranks (Increment s name).
Proof. intros []. by split. Qed.

Lemma AddValue_inv ranks s name value :
  name ∈ latency_names -> stats_inv ranks s -> stats_inv ranks (AddValue s name value).
Proof.
  intros Hn [H0 H1 H2 H3 H4]. split; try done; simpl.
  - intros n Hn'. destruct (decide (n = name)) as [->|Hne]; [by rewrite lookup_insert_eq|].
    rewrite lookup_insert_ne by done. auto.
  - intros name' counts Hc. destruct (decide (name' = name)) as [->|Hne].
    + destruct (H0 name Hn) as [c0 Hc0]. by apply (H4 name c0).
    + rewrite lookup_insert_ne in Hc by done. by apply (H4 name' counts).
Qed.

Lemma IncrementVec_ok ranks s name pos :
  stats_inv ranks s -> name ∈ ["all_bank_idle_cycles"; "rank_active_cycles"; "sref_cycles"]%string ->
  0 <= pos < ranks ->
  exists s', IncrementVec s name pos = Ok s' /\ stats_inv ranks s'.
Proof.
  intros [H0 H1 H2 H3 H4] Hn Hp. destruct (H1 name Hn) as (v & Hv & Hs). unfold IncrementVec, at_or.
  rewrite Hv. cbn [default]. unfold vupd. destruct (vget_total v pos) as (x & Ex); [simpl; lia|].
  simpl. rewrite Ex. cbn [mbind outcome_bind].
  destruct (vset v pos (u64 (x + 1))) as [v'|] eqn:E.
  2: { unfold vset in E. rewrite decide_True in E by (unfold vsize in *; lia). discriminate E. }
  pose proof (vset_vsize _ _ _ _ E) as Hs'. cbn [mbind outcome_bind]. eexists. split; [reflexivity|].
  split; simpl; try done.
  - intros n Hn'. destruct (decide (n = name)) as [->|Hne].
    + rewrite lookup_insert_eq. exists v'. split; [done|lia].
    + rewrite lookup_insert_ne by done. auto.
  - intros n u Hu. destruct (decide (n = name)) as [->|Hne].
    + rewrite lookup_insert_eq in Hu. injection Hu as <-. destruct (H2 name v Hv) as (w & ? & ?).
      exists w. split; [done|lia].
    + rewrite lookup_insert_ne in Hu by done. auto.
Qed.

(** ** The bins of a histogram *)
Definition bin_idx (bounds : Z * Z) (width nbins value : Z) : Z :=
  if decide (value < bounds.1) then 0
  else if decide (value > bounds.2) then nbins - 1
  else (value - bounds.1) / width + 1.

Lemma bin_of_ok bounds width bins value :
  histo_ok bounds width bins ->
  bin_of bounds width (vsize bins) value = Ok (bin_idx bounds width (vsize bins) value) /\
  0 <= bin_idx bounds width (vsize bins) value < vsize bins.
Proof.
  intros [Hw Hb Hn]. unfold bin_of, bin_idx.
  pose proof (Z.div_pos (bounds.2 - bounds.1) width ltac:(lia) Hw).
  repeat case_decide; try lia; (split; [|try lia]); try done.
  - rewrite Z.quot_div_nonneg by lia. done.
  - pose proof (Z.div_pos (value - bounds.1) width ltac:(lia) Hw).
    assert ((value - bounds.1) / width <= (bounds.2 - bounds.1) / width) by (apply Z.div_le_mono; lia). lia.
Qed.

(** The number of values of bin [i]. *)
Definition bin_total (bin : Z -> Z) (l : list (Z * Z)) (i : Z) : Z :=
  foldr (fun vc acc => (if decide (bin vc.1 = i) then vc.2 else 0) + acc) 0 l.

Lemma fill_loop bounds width (l : list (Z * Z)) bins :
  histo_ok bounds width bins ->
  exists bins', for_each (fun vc bins =>
      i ← bin_of bounds width (vsize bins) vc.1; vupd bins i (fun x => u64 (x + vc.2))) l bins = Ok bins' /\
    vsize bins' = vsize bins /\
    forall i x, vget bins i = Ok (u64 x) ->
      vget bins' i = Ok (u64 (x + bin_total (bin_idx bounds width (vsize bins)) l i)).
Proof.
  revert bins; induction l as [|[v c] l IH]; intros bins Hok; cbn [for_each fst snd].
  { exists bins. split; [done|]. split; [done|]. intros i x Hx. simpl. by rewrite Z.add_0_r. }
  destruct (bin_of_ok bounds width bins v Hok) as [-> Hi]. cbn [mbind outcome_bind fst snd].
  set (j := bin_idx bounds width (vsize bins) v) in *.
  unfold vupd. destruct (vget_total bins j Hi) as (y & Ey). rewrite Ey. cbn [mbind outcome_bind].
  destruct (vset bins j (u64 (y + c))) as [b1|] eqn:E.
  2: { unfold vset in E. rewrite decide_True in E by (unfold vsize in *; lia). discriminate E. }
  pose proof (vset_vsize _ _ _ _ E) as Hs. cbn [mbind outcome_bind].
  destruct (IH b1) as (bins' & E' & Hs' & Hv). { destruct Hok. split; lia. }
  exists bins'. split; [done|]. split; [lia|]. intros i x Hx. rewrite Hs in Hv. cbn [bin_total foldr].
  fold (bin_total (bin_idx bounds width (vsize bins)) l i). cbn [fst snd]. fold j. case_decide as Hj.
  - subst i. rewrite (Hv j (x + c)); [do 2 f_equal; lia|]. rewrite (vget_vset_eq _ _ _ _ E).
    assert (y = u64 x) as -> by congruence. by rewrite u64_add_l.
  - rewrite (Hv i x); [do 2 f_equal; lia|]. by rewrite (vget_vset_ne _ _ _ _ _ Hj E).
Qed.

Lemma fill_bins_ok bounds width counts bins :
  histo_ok bounds width bins ->
  exists bins', fill_bins bounds width counts bins = Ok bins' /\ vsize bins' = vsize bins /\
    forall i, 0 <= i < vsize bins ->
      vget bins' i = Ok (u64 (bin_total (bin_idx bounds width (vsize bins)) (map_to_list counts) i)).
Proof.
  intros Hok. unfold fill_bins. set (z := replicate (length bins) 0).
  assert (Hz : vsize z = vsize bins) by (unfold z, vsize; by rewrite length_replicate).
  destruct (fill_loop bounds width (map_to_list counts) z) as (b & E & Hs & Hv).
  { destruct Hok. split; try done. by rewrite Hz. }
  exists b. split; [done|]. split; [lia|]. intros i Hi. rewrite <- Hz. apply (Hv i 0).
  destruct (vget_total z i) as (x & Hx); [lia|]. rewrite Hx.
  apply vget_ok in Hx as [_ Hx]. unfold z in Hx. apply lookup_replicate in Hx as [-> _]. done.
Qed.

(** ** Loops of the end of an epoch *)
Lemma UpdateCounters_ok ranks s :
  stats_inv ranks s -> exists vs,
    UpdateCounters s = Ok (s <| counters_ := union_with (fun a b => Some (u64 (a + b))) (counters_ s)
                                               (epoch_counters_ s) |> <| vec_counters_ := vs |>) /\
    forall name v w, epoch_vec_counters_ s !! name = Some v -> vec_counters_ s !! name = Some w ->
      exists w', vs !! name = Some w' /\ vsize w' = vsize w /\
        forall i x y, vget v i = Ok x -> vget w i = Ok y -> vget w' i = Ok (u64 (y + x)).
Proof.
  intros [H0 H1 H2 H3 H4]. unfold UpdateCounters.
  assert (Hadd : forall name v, (name, v) ∈ map_to_list (epoch_vec_counters_ s) ->
    exists w', add_vec v (at_or [] (vec_counters_ s) name) = Ok w' /\
      (forall w, vec_counters_ s !! name = Some w -> vsize w' = vsize w /\
         forall i x y, vget v i = Ok x -> vget w i = Ok y -> vget w' i = Ok (u64 (y + x)))).
  { intros name v Hv%elem_of_map_to_list. destruct (H2 name v Hv) as (w & Hw & Hs). unfold at_or. rewrite Hw.
    cbn [default]. destruct (add_range v w (vsize v)) as (w' & E & Hs' & Hx);
      [pose proof (vsize_nonneg v); lia|lia|].
    exists w'. split; [done|]. intros u [= <-]. split; [done|]. intros i x y Ex Ey.
    rewrite (Hx i x y Ex Ey), decide_True; [done|]. apply vget_ok in Ex as [? Ex].
    apply lookup_lt_Some in Ex. unfold vsize. lia. }
  destruct (for_each_keyed (fun _ => add_vec) [] (map_to_list (epoch_vec_counters_ s)) (vec_counters_ s))
    as (vs & E & Hin & _).
  - apply NoDup_fst_map_to_list.
  - intros name v Hv. destruct (Hadd name v Hv) as (w & ? & _). eauto.
  - exists vs. rewrite E. cbn [mbind outcome_bind]. split; [done|]. intros name v w Hv Hw.
    apply elem_of_map_to_list in Hv. destruct (Hadd name v Hv) as (w' & Ew & Hx).
    exists w'. split; [by eapply Hin|]. by apply Hx.
Qed.

Lemma epoch_bins_ok ranks s :
  stats_inv ranks s -> exists eb,
    for_each (epoch_bins s) (map_to_list (epoch_histo_bins_ s)) (epoch_histo_bins_ s) = Ok eb /\
    (forall name bins, epoch_histo_bins_ s !! name = Some bins ->
       exists b bounds width, eb !! name = Some b /\ vsize b = vsize bins /\
         histo_bounds_ s !! name = Some bounds /\ bin_widths_ s !! name = Some width /\
         forall i, 0 <= i < vsize bins -> vget b i =
           Ok (u64 (bin_total (bin_idx bounds width (vsize bins))
                      (map_to_list (at_or ∅ (epoch_histo_counts_ s) name)) i))) /\
    (forall name, epoch_histo_bins_ s !! name = None -> eb !! name = None).
Proof.
  intros [H0 H1 H2 H3 H4].
  assert (Hfill : forall name bins, epoch_histo_bins_ s !! name = Some bins ->
    exists b bounds width, fill_bins (at_or (0, 0) (histo_bounds_ s) name) (at_or 0 (bin_widths_ s) name)
        (at_or ∅ (epoch_histo_counts_ s) name) bins = Ok b /\ vsize b = vsize bins /\
      histo_bounds_ s !! name = Some bounds /\ bin_widths_ s !! name = Some width /\
      forall i, 0 <= i < vsize bins -> vget b i =
        Ok (u64 (bin_total (bin_idx bounds width (vsize bins))
                   (map_to_list (at_or ∅ (epoch_histo_counts_ s) name)) i))).
  { intros name bins Hb. destruct (H3 name bins Hb) as (bounds & width & Eb & Ew & Hok).
    destruct (fill_bins_ok bounds width (at_or ∅ (epoch_histo_counts_ s) name) bins Hok) as (b & E & Hs & Hv).
    exists b, bounds, width. split; [|done]. unfold at_or at 1 2. by rewrite Eb, Ew. }
  destruct (for_each_keyed (fun name bins (_ : list Z) =>
      fill_bins (at_or (0, 0) (histo_bounds_ s) name) (at_or 0 (bin_widths_ s) name)
        (at_or ∅ (epoch_histo_counts_ s) name) bins) [] (map_to_list (epoch_histo_bins_ s)) (epoch_histo_bins_ s))
    as (eb & E & Hin & Hout).
  - apply NoDup_fst_map_to_list.
  - intros name bins Hb%elem_of_map_to_list. destruct (Hfill name bins Hb) as (b & ? & ? & ? & _). eauto.
  - exists eb. split; [exact E|]. split.
    + intros name bins Hb. destruct (Hfill name bins Hb) as (b & bounds & width & Ef & Hrest).
      exists b, bounds, width. split; [|done]. apply (Hin name bins); [by apply elem_of_map_to_list|done].
    + intros name Hn. rewrite Hout; [done|]. intros (x & -> & Hx)%list_elem_of_fmap. destruct x as [n b].
      apply elem_of_map_to_list in Hx. simpl in Hn. congruence.
Qed.

Lemma total_bins_ok ranks s eb :
  stats_inv ranks s ->
  (forall name bins, epoch_histo_bins_ s !! name = Some bins ->
     exists b, eb !! name = Some b /\ vsize b = vsize bins) ->
  exists fb, for_each (total_bins eb) (map_to_list (epoch_histo_counts_ s)).*1 (histo_bins_ s) = Ok fb /\
    (forall name counts b w, epoch_histo_counts_ s !! name = Some counts -> eb !! name = Some b ->
       histo_bins_ s !! name = Some w ->
       exists w', fb !! name = Some w' /\ vsize w' = vsize w /\
         forall i x y, vget b i = Ok x -> vget w i = Ok y -> vget w' i = Ok (u64 (y + x))) /\
    (forall name w, histo_bins_ s !! name = Some w -> exists w', fb !! name = Some w' /\ vsize w' = vsize w).
Proof.
  intros [H0 H1 H2 H3 H4] Heb. rewrite for_each_fmap.
  assert (Hadd : forall name counts, (name, counts) ∈ map_to_list (epoch_histo_counts_ s) ->
    exists b w w', eb !! name = Some b /\ histo_bins_ s !! name = Some w /\
      for_each (fun i fb => x ← vget (at_or [] eb name) i; vupd fb i (fun y => u64 (y + x)))
        (seqZ 0 (vsize (at_or [] (histo_bins_ s) name))) (at_or [] (histo_bins_ s) name) = Ok w' /\
      vsize w' = vsize w /\
      forall i x y, vget b i = Ok x -> vget w i = Ok y -> vget w' i = Ok (u64 (y + x))).
  { intros name counts Hc%elem_of_map_to_list. destruct (H4 name counts Hc) as (b0 & w & Hb0 & Hw & Hs).
    destruct (Heb name b0 Hb0) as (b & Hb & Hsb). unfold at_or. rewrite Hb, Hw. cbn [default].
    destruct (add_range b w (vsize w)) as (w' & E & Hs' & Hx); [pose proof (vsize_nonneg w); lia|lia|].
    exists b, w, w'. split_and!; try done. intros i x y Ex Ey. rewrite (Hx i x y Ex Ey), decide_True; [done|].
    apply vget_ok in Ey as [? Ey]. apply lookup_lt_Some in Ey. unfold vsize. lia. }
  destruct (for_each_keyed (fun name (_ : gmap Z Z) fb =>
      for_each (fun i fb => x ← vget (at_or [] eb name) i; vupd fb i (fun y => u64 (y + x)))
        (seqZ 0 (vsize fb)) fb) [] (map_to_list (epoch_histo_counts_ s)) (histo_bins_ s)) as (fb & E & Hin & Hout).
  - apply NoDup_fst_map_to_list.
  - intros name counts Hc. destruct (Hadd name counts Hc) as (? & ? & w' & _ & _ & ? & _). eauto.
  - exists fb. split; [exact E|]. split.
    + intros name counts b w Hc%elem_of_map_to_list Hb Hw.
      destruct (Hadd name counts Hc) as (b1 & w1 & w' & Hb1 & Hw1 & Ew & Hrest).
      assert (b1 = b) as -> by congruence. assert (w1 = w) as -> by congruence.
      exists w'. split; [by eapply Hin|done].
    + intros name w Hw. destruct (decide (name ∈ (map_to_list (epoch_histo_counts_ s)).*1)) as [Hn|Hn].
      * apply list_elem_of_fmap in Hn as ([n counts] & -> & Hc). cbn [fst] in *.
        destruct (Hadd n counts Hc) as (b1 & w1 & w' & Hb1 & Hw1 & Ew & Hs & _).
        assert (w1 = w) as -> by congruence. exists w'. split; [by eapply Hin|done].
      * rewrite Hout by done. eauto.
Qed.

(** The three phases of the end of an epoch keep the statistics well formed. *)
Lemma counters_inv ranks s cs vs :
  stats_inv ranks s ->
  (forall name v w, epoch_vec_counters_ s !! name = Some v -> vec_counters_ s !! name = Some w ->
     exists w', vs !! name = Some w' /\ vsize w' = vsize w) ->
  stats_inv ranks (s <| counters_ := cs |> <| vec_counters_ := vs |>).
Proof.
  intros [H0 H1 H2 H3 H4] Hvs. split; simpl; try done. intros name v Hv.
  destruct (H2 name v Hv) as (w & Hw & ?). destruct (Hvs name v w Hv Hw) as (w' & ? & ?).
  exists w'. split; [done|lia].
Qed.

Lemma UpdateHistoBins_ok ranks s :
  stats_inv ranks s -> exists eb hc fb,
    UpdateHistoBins s =
      Ok (s <| epoch_histo_bins_ := eb |> <| histo_counts_ := hc |> <| histo_bins_ := fb |>) /\
    stats_inv ranks (s <| epoch_histo_bins_ := eb |> <| histo_counts_ := hc |> <| histo_bins_ := fb |>) /\
    forall name counts bins i y, epoch_histo_counts_ s !! name = Some counts ->
      histo_bins_ s !! name = Some bins -> vget bins i = Ok y ->
      exists bounds width bins', histo_bounds_ s !! name = Some bounds /\ bin_widths_ s !! name = Some width /\
        fb !! name = Some bins' /\
        vget bins' i = Ok (u64 (y + bin_total (bin_idx bounds width (vsize bins)) (map_to_list counts) i)).
Proof.
  intros Hs. destruct (epoch_bins_ok ranks s Hs) as (eb & E2 & Heb & Hnone).
  destruct (total_bins_ok ranks s eb Hs) as (fb & E3 & Hfb & Hfs).
  { intros name bins Hb. destruct (Heb name bins Hb) as (b & ? & ? & ? & ? & _). eauto. }
  unfold UpdateHistoBins. rewrite E2. cbn [mbind outcome_bind]. rewrite E3. cbn [mbind outcome_bind].
  eexists eb, _, fb. split; [reflexivity|]. destruct Hs as [H0 H1 H2 H3 H4]. split.
  - split; simpl; try done.
    + intros name bins Hb. destruct (epoch_histo_bins_ s !! name) as [b0|] eqn:Hb0.
      2: { rewrite (Hnone name Hb0) in Hb. discriminate Hb. }
      destruct (Heb name b0 Hb0) as (b & bounds & width & Hb' & Hsz & ? & ? & _).
      exists bounds, width. split_and!; try done.
      destruct (H3 name b0 Hb0) as (bo & wi & ? & ? & []). simpl in *. simplify_eq. split; try done. lia.
    + intros name counts Hc. destruct (H4 name counts Hc) as (b0 & w & Hb0 & Hw & ?).
      destruct (Heb name b0 Hb0) as (b & ? & ? & ? & ? & _). destruct (Hfs name w Hw) as (w' & ? & ?).
      exists b, w'. split_and!; try done. lia.
  - intros name counts bins i y Hc Hb Hy.
    destruct (H4 name counts Hc) as (b0 & w & Hb0 & Hw & Hsz). assert (w = bins) as -> by congruence.
    destruct (Heb name b0 Hb0) as (b & bounds & width & Hbe & Hsb & Hbo & Hwi & Hval).
    destruct (Hfb name counts b bins Hc Hbe Hb) as (w' & Hw' & _ & Hat).
    assert (Hi : 0 <= i < vsize b0).
    { apply vget_ok in Hy as [? Hy]. apply lookup_lt_Some in Hy. unfold vsize in *. lia. }
    exists bounds, width, w'. split_and!; try done.
    rewrite (Hat i _ y (Hval i Hi) Hy). f_equal. unfold at_or. rewrite Hc, Hsz. simpl.
    by rewrite Z.add_comm, u64_add_l, Z.add_comm.
Qed.

Lemma clear_epoch_inv ranks s : stats_inv ranks s -> stats_inv ranks (clear_epoch s).
Proof.
  intros [H0 H1 H2 H3 H4]. split; simpl; try done.
  - intros name Hn. destruct (H0 name Hn) as [c Hc]. by rewrite lookup_fmap, Hc.
  - intros name Hn. destruct (H1 name Hn) as (v & Hv & ?). rewrite lookup_fmap, Hv. simpl.
    eexists. split; [done|]. unfold vsize in *. by rewrite length_replicate.
  - intros name v Hv. rewrite lookup_fmap in Hv. destruct (epoch_vec_counters_ s !! name) as [v0|] eqn:Hv0;
      [|discriminate Hv]. simpl in Hv. injection Hv as <-. destruct (H2 name v0 Hv0) as (w & Hw & ?).
    exists w. split; [done|]. unfold vsize in *. rewrite length_replicate. lia.
  - intros name counts Hc. rewrite lookup_fmap in Hc.
    destruct (epoch_histo_counts_ s !! name) as [c0|] eqn:Hc0; [|discriminate Hc]. by apply (H4 name c0).
Qed.

Lemma UpdateEpochStats_inv ranks s :
  stats_inv ranks s -> exists s', UpdateEpochStats s = Ok s' /\ stats_inv ranks s'.
Proof.
  intros Hs. destruct (UpdateCounters_ok ranks s Hs) as (vs & E1 & Hvs).
  unfold UpdateEpochStats. rewrite E1. cbn [mbind outcome_bind].
  assert (Hs1 : stats_inv ranks (s <| counters_ := union_with (fun a b => Some (u64 (a + b))) (counters_ s) (epoch_counters_ s) |>
                                   <| vec_counters_ := vs |>)).
  { apply counters_inv; [done|]. intros name v w Hv Hw. destruct (Hvs name v w Hv Hw) as (w' & ? & ? & _). eauto. }
  destruct (UpdateHistoBins_ok ranks _ Hs1) as (eb & hc & fb & -> & Hs2 & _). cbn [mbind outcome_bind].
  eexists. split; [reflexivity|exact (clear_epoch_inv ranks _ Hs2)].
Qed.


(** ** The initial statistics *)
Lemma emplace_distinct {V} (l : list (string * V)) :
  NoDup l.*1 -> foldr (fun kv m => emplace m kv.1 kv.2) ∅ l = list_to_map l.
Proof.
  induction l as [|[k v] l IH]; intros Hnd; [done|]. apply NoDup_cons in Hnd as [Hk Hnd].
  cbn [foldr fst snd]. rewrite IH by done. unfold emplace. rewrite not_elem_of_list_to_map_1 by done. done.
Qed.

Lemma new_vecs ranks :
  let m : gmap string (list Z) := list_to_map
    ((fun n => (n, replicate (Z.to_nat ranks) 0)) <$> ["sref_cycles"; "rank_active_cycles"; "all_bank_idle_cycles"]%string) in
  epoch_vec_counters_ (SimpleStats_new ranks) = m /\ vec_counters_ (SimpleStats_new ranks) = m.
Proof.
  cbv zeta. split; cbn [fmap list_fmap];
    rewrite <- (emplace_distinct [_; _; _]) by (repeat constructor; set_solver); reflexivity.
Qed.

Lemma new_histos ranks :
  let m : gmap string (list Z) := list_to_map ((fun n => (n, replicate 12 0)) <$> latency_names) in
  epoch_histo_bins_ (SimpleStats_new ranks) = m /\ histo_bins_ (SimpleStats_new ranks) = m /\
  epoch_histo_counts_ (SimpleStats_new ranks) = list_to_map ((fun n => (n, ∅)) <$> latency_names) /\
  histo_bounds_ (SimpleStats_new ranks) = list_to_map
    [("interarrival_latency", (0, 100)); ("write_latency", (0, 200)); ("read_latency", (0, 200))]%string /\
  bin_widths_ (SimpleStats_new ranks) = list_to_map
    [("interarrival_latency", 10); ("write_latency", 20); ("read_latency", 20)]%string.
Proof.
  cbv zeta. split_and!; cbn [latency_names fmap list_fmap];
    rewrite <- (emplace_distinct [_; _; _]) by (repeat constructor; set_solver); reflexivity.
Qed.

Lemma SimpleStats_new_inv ranks : 0 <= ranks -> stats_inv ranks (SimpleStats_new ranks).
Proof.
  intros Hr. destruct (new_vecs ranks) as [E1 E2], (new_histos ranks) as (E3 & E4 & E5 & E6 & E7). split.
  - rewrite E5. apply Forall_forall. repeat constructor; eexists; reflexivity.
  - intros name Hn. rewrite E1. exists (replicate (Z.to_nat ranks) 0).
    split; [|unfold vsize; rewrite length_replicate; lia].
    revert name Hn. apply Forall_forall. repeat constructor.
  - intros name v. rewrite E1, E2. intros Hv. exists v. done.
  - intros name bins Hb. rewrite E3 in Hb. apply elem_of_list_to_map_2, list_elem_of_fmap in Hb as (n & [= -> ->] & Hn).
    rewrite E6, E7. revert n Hn. apply Forall_forall.
    repeat constructor; (eexists _, _; split; [reflexivity|]; split; [reflexivity|]; split; vm_compute; done).
  - intros name counts Hc. rewrite E5 in Hc. apply elem_of_list_to_map_2, list_elem_of_fmap in Hc as (n & [= -> ->] & Hn).
    rewrite E3, E4. revert n Hn. apply Forall_forall.
    repeat constructor; (eexists _, _; split; [reflexivity|]; split; [reflexivity|]; reflexivity).
Qed.

(** Two latencies, one in the range and one above it, in a fresh channel. *)
Definition demo_stats : SimpleStats :=
  AddValue (AddValue (Increment (SimpleStats_new 2) "num_cycles") "read_latency" 45) "read_latency" 999.

