(* ===== verification/CommandQueue.v ===== *)
(** * DRAMsim3: the command queues (DRAMsim3/src/command_queue.cc, command_queue.h)

    The commands that wait for a bank, one queue per bank or per rank, and the
    round-robin choice of the next one to issue.  The channel state and the
    statistics are shared with the controller: the operations take them as
    arguments, and those that count return the new statistics. *)

From stdpp Require Import base tactics list list_numbers numbers strings gmap.
From Stdlib Require Import ZArith Lia.
From S2P Require Import Prelude DramCommon DramConfig DramTiming BankState ChannelState SimpleStats.

Inductive QueueStructure := PER_RANK | PER_BANK.

Record CommandQueue := mkCommandQueue {
  rank_q_empty : list bool;
  queue_structure_ : QueueStructure;
  queues_ : list (list Command);
  ref_q_indices_ : gset Z;
  is_in_ref_ : bool;
  num_queues_ : Z;
  queue_size_ : Z;
  queue_idx_ : Z;
  q_clk_ : Z
}.

#[export] Instance CommandQueue_fields : Fields CommandQueue := fun q =>
  mkCommandQueue (rank_q_empty q) (queue_structure_ q) (queues_ q) (ref_q_indices_ q)
    (is_in_ref_ q) (num_queues_ q) (queue_size_ q) (queue_idx_ q) (q_clk_ q).

Section queue.
Context (config : Config).

Definition CommandQueue_new : outcome CommandQueue :=
  sn ← (if decide (queue_structure config = "PER_BANK"%string) then
          n ← imul (banks config) (ranks config); Ok (PER_BANK, n)
        else if decide (queue_structure config = "PER_RANK"%string) then Ok (PER_RANK, ranks config)
        else Fault AbruptExit);
  Ok {| rank_q_empty := replicate (Z.to_nat (ranks config)) true;
        queue_structure_ := sn.1;
        queues_ := replicate (Z.to_nat sn.2) [];
        ref_q_indices_ := ∅;
        is_in_ref_ := false;
        num_queues_ := sn.2;
        queue_size_ := u64 (cmd_queue_size config);
        queue_idx_ := 0;
        q_clk_ := 0 |}.

Definition GetQueueIndex (q : CommandQueue) (rk g k : Z) : Z :=
  match queue_structure_ q with
  | PER_RANK => rk
  | PER_BANK => rk * banks config + g * banks_per_group config + k
  end.

Definition GetQueue (q : CommandQueue) (rk g k : Z) : outcome (list Command) :=
  vget (queues_ q) (GetQueueIndex q rk g k).

Definition same_bank_as (c d : Command) : bool :=
  bool_decide (Rank c = Rank d) && bool_decide (Bankgroup c = Bankgroup d) &&
  bool_decide (Bank c = Bank d).

(** [before] are the commands ahead of [cmd] in its queue, [from] those from
    [cmd] to the end. *)
Definition ArbitratePrecharge (cs : ChannelState) (stats : SimpleStats) (before : list Command)
    (cmd : Command) (from : list Command) : outcome (bool * SimpleStats) :=
  if existsb (fun prev => same_bank_as prev cmd) before then Ok (false, stats)
  else
    b ← bank_at (bank_states_ cs) (Rank cmd) (Bankgroup cmd) (Bank cmd);
    let open_row := OpenRow b in
    let pending_row_hits_exist :=
      existsb (fun p => bool_decide (Row p = open_row) && same_bank_as p cmd) from in
    let rowhit_limit_reached := bool_decide (RowHitCount b >= 4) in
    if negb pending_row_hits_exist || rowhit_limit_reached
    then Ok (true, Increment stats "num_ondemand_pres")
    else Ok (false, stats).

Definition HasRWDependency (before : list Command) (cmd : Command) : bool :=
  existsb (fun it => IsRead it && bool_decide (Row it = Row cmd) &&
                     bool_decide (column (addr it) = column (addr cmd)) &&
                     bool_decide (Bank it = Bank cmd) && bool_decide (Bankgroup it = Bankgroup cmd))
    before.

(** The scan of a queue; [before] are the commands already passed. *)
Fixpoint first_ready (cs : ChannelState) (clk : Z) (stats : SimpleStats) (before rest : list Command)
    : outcome (Command * SimpleStats) :=
  match rest with
  | [] => Ok (Command_default, stats)
  | it :: rest' =>
      cmd ← ChannelState.GetReadyCommand config cs it clk;
      if negb (IsValid cmd) then first_ready cs clk stats (before ++ [it]) rest'
      else if decide (cmd_type cmd = PRECHARGE) then
        a ← ArbitratePrecharge cs stats before it (it :: rest');
        if (a.1 : bool) then Ok (cmd, a.2) else first_ready cs clk a.2 (before ++ [it]) rest'
      else if IsWrite cmd && HasRWDependency before it then
        first_ready cs clk stats (before ++ [it]) rest'
      else Ok (cmd, stats)
  end.

Definition GetFirstReadyInQueue (q : CommandQueue) (cs : ChannelState) (stats : SimpleStats)
    (queue : list Command) : outcome (Command * SimpleStats) :=
  first_ready cs (q_clk_ q) stats [] queue.

(** The index after [queue_idx_], round robin. *)
Definition next_idx (q : CommandQueue) : Z :=
  let i := queue_idx_ q + 1 in if decide (i = num_queues_ q) then 0 else i.

Definition GetNextQueue (q : CommandQueue) : outcome (CommandQueue * list Command) :=
  let q := q <| queue_idx_ := next_idx q |> in
  queue ← vget (queues_ q) (queue_idx_ q);
  Ok (q, queue).

(** The command that was issued for [cmd], in the queue. *)
Definition same_request (cmd it : Command) : bool :=
  bool_decide (hex_addr cmd = hex_addr it) && bool_decide (cmd_type cmd = cmd_type it).

Definition EraseRWCommand (q : CommandQueue) (cmd : Command) : outcome CommandQueue :=
  queue ← GetQueue q (Rank cmd) (Bankgroup cmd) (Bank cmd);
  if existsb (same_request cmd) queue then
    qs ← vset (queues_ q) (GetQueueIndex q (Rank cmd) (Bankgroup cmd) (Bank cmd))
              (erase_first (same_request cmd) queue);
    Ok (q <| queues_ := qs |>)
  else Fault ExitFailure.

(** [fuel] rounds of the loop over the queues. *)
Fixpoint issue_loop (fuel : nat) (cs : ChannelState) (q : CommandQueue) (stats : SimpleStats)
    : outcome (Command * CommandQueue * SimpleStats) :=
  match fuel with
  | O => Ok (Command_default, q, stats)
  | S fuel =>
      nq ← GetNextQueue q;
      let q := nq.1 in
      if is_in_ref_ q && bool_decide (queue_idx_ q ∈ ref_q_indices_ q) then issue_loop fuel cs q stats
      else
        r ← GetFirstReadyInQueue q cs stats nq.2;
        if IsValid r.1 then
          if IsReadWrite r.1 then q ← EraseRWCommand q r.1; Ok (r.1, q, r.2)
          else Ok (r.1, q, r.2)
        else issue_loop fuel cs q r.2
  end.

Definition GetCommandToIssue (cs : ChannelState) (q : CommandQueue) (stats : SimpleStats)
    : outcome (Command * CommandQueue * SimpleStats) :=
  issue_loop (Z.to_nat (num_queues_ q)) cs q stats.

Definition GetRefQIndices (q : CommandQueue) (ref : Command) : outcome CommandQueue :=
  ixs ← (if decide (cmd_type ref = REFRESH) then
           match queue_structure_ q with
           | PER_BANK =>
               for_int (num_queues_ q) (fun i s =>
                 r ← idiv i (banks config);
                 Ok (if decide (r = Rank ref) then {[i]} ∪ s else s)) (ref_q_indices_ q)
           | PER_RANK => Ok ({[Rank ref]} ∪ ref_q_indices_ q)
           end
         else Ok ({[GetQueueIndex q (Rank ref) (Bankgroup ref) (Bank ref)]} ∪ ref_q_indices_ q));
  Ok (q <| ref_q_indices_ := ixs |>).

Definition FinishRefresh (cs : ChannelState) (q : CommandQueue) : outcome (Command * CommandQueue) :=
  ref ← PendingRefCommand cs;
  q ← (if is_in_ref_ q then Ok q
       else q ← GetRefQIndices q ref; Ok (q <| is_in_ref_ := true |>));
  cmd ← ChannelState.GetReadyCommand config cs ref (q_clk_ q);
  if IsRefresh cmd then Ok (cmd, q <| ref_q_indices_ := ∅ |> <| is_in_ref_ := false |>)
  else Ok (cmd, q).

Definition WillAcceptCommand (q : CommandQueue) (rk g k : Z) : outcome bool :=
  queue ← vget (queues_ q) (GetQueueIndex q rk g k);
  Ok (bool_decide (vsize queue < queue_size_ q)).

Definition QueueEmpty (q : CommandQueue) : bool :=
  forallb (fun queue => match queue with [] => true | _ => false end) (queues_ q).

Definition AddCommand (q : CommandQueue) (cmd : Command) : outcome (bool * CommandQueue) :=
  queue ← GetQueue q (Rank cmd) (Bankgroup cmd) (Bank cmd);
  if decide (vsize queue < queue_size_ q) then
    qs ← vset (queues_ q) (GetQueueIndex q (Rank cmd) (Bankgroup cmd) (Bank cmd)) (queue ++ [cmd]);
    e ← vset (rank_q_empty q) (Rank cmd) false;
    Ok (true, q <| queues_ := qs |> <| rank_q_empty := e |>)
  else Ok (false, q).

Definition QueueUsage (q : CommandQueue) : Z :=
  foldl (fun usage queue => usage + vsize queue) 0 (queues_ q).

(** [CommandQueue::ClockTick] *)
Definition QueueTick (q : CommandQueue) : CommandQueue := q <| q_clk_ := u64 (q_clk_ q + 1) |>.
End queue.

(** ** Erasing the first match *)
Lemma erase_first_perm {A} (p : A -> bool) (l : list A) :
  existsb p l = true -> exists x, p x = true /\ x ∈ l /\ l ≡ₚ x :: erase_first p l.
Proof.
  induction l as [|y l IH]; intros H; [discriminate H|]. cbn [existsb erase_first] in *.
  destruct (p y) eqn:Ey.
  - exists y. split; [done|]. split; [set_solver|done].
  - destruct (IH H) as (x & ? & ? & Hp). exists x. split; [done|]. split; [set_solver|].
    rewrite Hp at 1. by rewrite Permutation_swap.
Qed.

Lemma erase_first_sub {A} (p : A -> bool) (l : list A) x : x ∈ erase_first p l -> x ∈ l.
Proof.
  induction l as [|y l IH]; cbn; [done|]. destruct (p y); [set_solver|].
  intros [->|H]%elem_of_cons; set_solver.
Qed.

Lemma erase_first_length {A} (p : A -> bool) (l : list A) : (length (erase_first p l) <= length l)%nat.
Proof. induction l as [|y l IH]; cbn; [done|]. destruct (p y); cbn; lia. Qed.

(** ** Well-formed queues *)
Section queue_laws.
Context (config : Config) (Hgeo : geometry config).

(** A waiting command: a column access inside the memory. *)
Definition waiting_ok (cmd : Command) : Prop := IsReadWrite cmd = true /\ in_range config (at_cmd cmd).

Record queue_inv (q : CommandQueue) : Prop := {
  qi_size : vsize (queues_ q) = num_queues_ q;
  qi_num : num_queues_ q =
    match queue_structure_ q with PER_RANK => ranks config | PER_BANK => ranks config * banks config end;
  qi_int : num_queues_ q < 2 ^ 31;
  qi_idx : 0 <= queue_idx_ q < num_queues_ q;
  qi_cmds : forall i l cmd, vget (queues_ q) i = Ok l -> cmd ∈ l ->
    waiting_ok cmd /\ GetQueueIndex config q (Rank cmd) (Bankgroup cmd) (Bank cmd) = i;
  qi_room : forall i l, vget (queues_ q) i = Ok l -> vsize l <= queue_size_ q;
  qi_ranks : vsize (rank_q_empty q) = ranks config;
  qi_cap : queue_size_ q = u64 (cmd_queue_size config);
  qi_structure : queue_structure_ q =
    if decide (queue_structure config = "PER_BANK"%string) then PER_BANK else PER_RANK
}.

(** All the waiting commands. *)
Definition queued (q : CommandQueue) : list Command := concat (queues_ q).

Lemma waiting_cmd_ok cmd : waiting_ok cmd -> cmd_ok config cmd /\ is_request cmd /\ IsRankCMD cmd = false.
Proof.
  intros [Hrw Hr]. assert (Hnr : IsRankCMD cmd = false).
  { unfold IsReadWrite, IsRead, IsWrite, IsRankCMD in *. by destruct (cmd_type cmd). }
  split_and!; [|by left|done]. split; [|by rewrite Hnr].
  unfold IsReadWrite, IsRead, IsWrite in Hrw. by destruct (cmd_type cmd).
Qed.

Lemma GetQueueIndex_range q cmd :
  queue_inv q -> in_range config (at_cmd cmd) ->
  0 <= GetQueueIndex config q (Rank cmd) (Bankgroup cmd) (Bank cmd) < vsize (queues_ q).
Proof.
  intros [Hs Hn _ _ _ _ _] (H1 & H2 & H3). cbn in H1, H2, H3. rewrite Hs, Hn. unfold GetQueueIndex.
  destruct (queue_structure_ q); [lia|]. destruct Hgeo.
  rewrite geo_banks. split; [nia|].
  assert (Bankgroup cmd * banks_per_group config + Bank cmd < bankgroups config * banks_per_group config) by nia.
  nia.
Qed.

Lemma elem_of_queued q cmd : cmd ∈ queued q <-> exists i l, vget (queues_ q) i = Ok l /\ cmd ∈ l.
Proof.
  unfold queued. rewrite list_elem_of_In, in_concat. split.
  - intros (l & Hl & Hc). apply list_elem_of_In, list_elem_of_lookup in Hl as (i & Hi).
    exists (Z.of_nat i), l. rewrite <- list_elem_of_In in Hc. split; [|done].
    apply vget_ok. split; [lia|]. by rewrite Nat2Z.id.
  - intros (i & l & [_ Hi]%vget_ok & Hc). exists l. rewrite <- !list_elem_of_In. split; [|done].
    by eapply list_elem_of_lookup_2.
Qed.

Lemma queued_ok q cmd : queue_inv q -> cmd ∈ queued q -> waiting_ok cmd.
Proof. intros Hq (i & l & Hi & Hc)%elem_of_queued. by eapply qi_cmds. Qed.

(** Replacing one queue. *)
Lemma concat_insert (qs : list (list Command)) i l l' x :
  qs !! i = Some l -> l ≡ₚ x ++ l' -> concat qs ≡ₚ x ++ concat (<[i := l']> qs).
Proof.
  intros Hi Hl. apply list_elem_of_split_length in Hi as (a & b & -> & Hlen).
  rewrite insert_app_r_alt by lia. replace (i - length a)%nat with 0%nat by lia. cbn.
  rewrite !concat_app. cbn. rewrite Hl. solve_Permutation.
Qed.

(** The index of a queue does not depend on its contents. *)
Lemma GetQueueIndex_queues q q' r g k :
  queue_structure_ q' = queue_structure_ q -> GetQueueIndex config q' r g k = GetQueueIndex config q r g k.
Proof. intros E. unfold GetQueueIndex. by rewrite E. Qed.

Lemma set_queue_inv q i l l' :
  queue_inv q -> vget (queues_ q) i = Ok l ->
  (forall cmd, cmd ∈ l' ->
     waiting_ok cmd /\ GetQueueIndex config q (Rank cmd) (Bankgroup cmd) (Bank cmd) = i) ->
  vsize l' <= queue_size_ q ->
  exists qs, vset (queues_ q) i l' = Ok qs /\ queue_inv (q <| queues_ := qs |>).
Proof.
  intros Hq Hi Hl' Hsz. destruct (vset (queues_ q) i l') as [qs|] eqn:E.
  2: { apply vget_ok in Hi as [? Hi]. apply lookup_lt_Some in Hi. unfold vset in E.
       rewrite decide_True in E by lia. discriminate E. }
  exists qs. split; [done|]. destruct Hq as [H1 H2 H3 H4 H5 H6 H7]. split; simpl; try done.
  - by rewrite (vset_vsize _ _ _ _ E).
  - intros j m cmd Hj Hc. change (GetQueueIndex config _ _ _ _) with
      (GetQueueIndex config q (Rank cmd) (Bankgroup cmd) (Bank cmd)).
    destruct (decide (j = i)) as [->|Hne].
    + rewrite (vget_vset_eq _ _ _ _ E) in Hj. injection Hj as <-. auto.
    + rewrite (vget_vset_ne _ _ _ _ _ (not_eq_sym Hne) E) in Hj. by eapply H5.
  - intros j m Hj. destruct (decide (j = i)) as [->|Hne].
    + rewrite (vget_vset_eq _ _ _ _ E) in Hj. injection Hj as <-. done.
    + rewrite (vget_vset_ne _ _ _ _ _ (not_eq_sym Hne) E) in Hj. by eapply H6.
Qed.

(** ** Adding and erasing commands *)
Lemma AddCommand_ok q cmd :
  queue_inv q -> waiting_ok cmd ->
  WillAcceptCommand config q (Rank cmd) (Bankgroup cmd) (Bank cmd) = Ok true ->
  exists q', AddCommand config q cmd = Ok (true, q') /\ queue_inv q' /\ queued q' ≡ₚ cmd :: queued q /\
    q_clk_ q' = q_clk_ q.
Proof.
  intros Hq [Hrw Hr] Hacc. unfold WillAcceptCommand in Hacc. ok_inv Hacc. apply bool_decide_eq_true in Hacc.
  set (i := GetQueueIndex config q (Rank cmd) (Bankgroup cmd) (Bank cmd)) in *.
  unfold AddCommand, GetQueue. fold i. rewrite E. cbn [mbind outcome_bind]. rewrite decide_True by done.
  destruct (set_queue_inv q i r (r ++ [cmd]) Hq E) as (qs & Eq & Hq').
  { intros c [Hc| ->%list_elem_of_singleton]%elem_of_app; [by eapply qi_cmds|by split]. }
  { rewrite vsize_app. unfold vsize at 2. simpl. lia. }
  rewrite Eq. cbn [mbind outcome_bind].
  destruct (vset (rank_q_empty q) (Rank cmd) false) as [e|] eqn:Ee.
  2: { unfold vset in Ee. pose proof (qi_ranks q Hq) as Hn. destruct Hr as (Hr & _). cbn in Hr.
       rewrite decide_True in Ee by (unfold vsize in Hn; lia). discriminate Ee. }
  cbn [mbind outcome_bind]. eexists. split; [reflexivity|]. split_and!; [..|done].
  - destruct Hq' as [H1 H2 H3 H4 H5 H6 H7]. split; simpl in *; try done. by rewrite (vset_vsize _ _ _ _ Ee).
  - unfold queued. simpl. apply vset_ok in Eq as [_ ->]. apply vget_ok in E as [_ E].
    pose proof (concat_insert (<[Z.to_nat i := r ++ [cmd]]> (queues_ q)) (Z.to_nat i) (r ++ [cmd]) r [cmd]) as H.
    rewrite list_insert_insert_eq, (list_insert_id (queues_ q) _ r) in H by done. apply H.
    + apply list_lookup_insert_eq. by eapply lookup_lt_Some.
    + by rewrite Permutation_app_comm.
Qed.

Lemma EraseRWCommand_ok q cmd it :
  queue_inv q -> it ∈ queued q -> same_request cmd it = true -> at_cmd cmd = at_cmd it ->
  exists q' x, EraseRWCommand config q cmd = Ok q' /\ queue_inv q' /\ same_request cmd x = true /\
    queued q ≡ₚ x :: queued q' /\ q_clk_ q' = q_clk_ q.
Proof.
  intros Hq Hit Hsame Hat. pose proof Hit as (i & l & Hi & Hl)%elem_of_queued.
  destruct (qi_cmds q Hq i l it Hi Hl) as [_ Hix]. unfold at_cmd in Hat. injection Hat as E1 E2 E3.
  unfold EraseRWCommand, GetQueue. rewrite E1, E2, E3, Hix, Hi. cbn [mbind outcome_bind].
  assert (Hex : existsb (same_request cmd) l = true).
  { apply existsb_exists. exists it. by rewrite <- list_elem_of_In. }
  rewrite Hex. destruct (erase_first_perm _ _ Hex) as (x & Hx & Hxl & Hp).
  destruct (set_queue_inv q i l (erase_first (same_request cmd) l) Hq Hi) as (qs & Eq & Hq').
  { intros c Hc. eapply qi_cmds; [done|done|]. by eapply erase_first_sub. }
  { pose proof (qi_room q Hq i l Hi). pose proof (erase_first_length (same_request cmd) l).
    unfold vsize in *. lia. }
  rewrite Eq. cbn [mbind outcome_bind]. eexists _, x. split; [reflexivity|]. split_and!; try done.
  unfold queued. simpl. apply vset_ok in Eq as [_ ->]. apply vget_ok in Hi as [_ Hi].
  apply (concat_insert _ _ _ _ [x] Hi Hp).
Qed.

(** ** The next command *)
(** Statistics that stay well formed. *)
Definition stats_kept (s s' : SimpleStats) : Prop := forall n, stats_inv n s -> stats_inv n s'.

#[local] Instance stats_kept_preorder : PreOrder stats_kept.
Proof. split; [by intros s n|intros s1 s2 s3 H1 H2 n H; by apply H2, H1]. Qed.

Lemma stats_kept_refl s : stats_kept s s.
Proof. reflexivity. Qed.

#[local] Hint Resolve stats_kept_refl : core.

Lemma ArbitratePrecharge_total cs stats before cmd from :
  chan_ok config cs -> in_range config (at_cmd cmd) ->
  exists r, ArbitratePrecharge cs stats before cmd from = Ok r /\ stats_kept stats r.2.
Proof.
  intros Hcs Hr. unfold ArbitratePrecharge. destruct (existsb _ before); [by eexists|].
  destruct (co_banks _ cs Hcs _ Hr) as (b & Hb & _). unfold bk, at_cmd in Hb. cbn [fst snd] in Hb.
  rewrite Hb. cbn [mbind outcome_bind]. destruct (negb _ || _); [|by eexists].
  eexists. split; [reflexivity|]. intros n. apply Increment_inv.
Qed.

Lemma first_ready_ok cs clk stats before rest :
  chan_ok config cs -> awake config cs -> Forall waiting_ok rest ->
  exists cmd stats', first_ready config cs clk stats before rest = Ok (cmd, stats') /\
    stats_kept stats stats' /\
    (IsValid cmd = true -> exists it, it ∈ rest /\ is_ready config cs it clk cmd).
Proof.
  intros Hcs Haw. revert stats before; induction rest as [|it rest IH]; intros stats before Hw; cbn [first_ready].
  { eexists _, _. split; [reflexivity|]. split; [done|]. intros H; discriminate H. }
  apply Forall_cons in Hw as [Hit Hw]. destruct (waiting_cmd_ok it Hit) as (Hok & Hreq & Hnr).
  destruct (GetReadyCommand_channel_total config cs it clk Hcs Haw Hok Hreq) as (cmd & Ecmd).
  rewrite Ecmd. cbn [mbind outcome_bind].
  assert (Hnext : forall s, stats_kept stats s -> exists c s',
    first_ready config cs clk s (before ++ [it]) rest = Ok (c, s') /\ stats_kept stats s' /\
    (IsValid c = true -> exists x, x ∈ it :: rest /\ is_ready config cs x clk c)).
  { intros s Hs. destruct (IH s (before ++ [it]) Hw) as (c & s' & ? & Hs' & Hx). exists c, s'.
    split; [done|]. split; [unfold stats_kept in *; auto|]. intros Hv.
    destruct (Hx Hv) as (x & ? & ?). exists x. split; [set_solver|done]. }
  destruct (IsValid cmd) eqn:Hv; cbn [negb]; [|by apply Hnext].
  assert (Hdone : exists it', it' ∈ it :: rest /\ is_ready config cs it' clk cmd).
  { exists it. split; [set_solver|]. by apply GetReadyCommand_ready. }
  case_decide.
  - destruct (ArbitratePrecharge_total cs stats before it (it :: rest) Hcs) as (r & -> & Hr); [apply Hit|].
    cbn [mbind outcome_bind]. destruct r.1; [|by apply Hnext]. by eexists _, _.
  - destruct (IsWrite cmd && _); [by apply Hnext|]. by eexists _, _.
Qed.

(** A ready column command is the waiting command itself. *)
Lemma ready_column cs it clk cmd :
  chan_ok config cs -> awake config cs -> waiting_ok it -> is_ready config cs it clk cmd ->
  IsReadWrite cmd = true -> cmd = it.
Proof.
  intros Hcs Haw Hit Hir Hrw. destruct (waiting_cmd_ok it Hit) as (_ & Hreq & Hnr).
  destruct (ready_type _ _ _ _ _ Hgeo Hcs Haw Hreq Hir) as [Ht|[Ht|Ht]].
  - destruct Hir as [_ _ _ _ Hh Ha _]. specialize (Ha Hnr). destruct cmd, it. simpl in *. congruence.
  - unfold IsReadWrite, IsRead, IsWrite in Hrw. by rewrite Ht in Hrw.
  - unfold IsReadWrite, IsRead, IsWrite in Hrw. by rewrite Ht in Hrw.
Qed.

(** What the queue gives for the next command. *)
Record issues (cs : ChannelState) (q : CommandQueue) (cmd : Command) (q' : CommandQueue) : Prop := {
  is_inv : queue_inv q';
  is_clk : q_clk_ q' = q_clk_ q;
  is_source : IsValid cmd = true -> exists it, it ∈ queued q /\ is_ready config cs it (q_clk_ q) cmd;
  is_kept : IsReadWrite cmd = false -> queues_ q' = queues_ q;
  is_taken : IsReadWrite cmd = true ->
    exists x, same_request cmd x = true /\ queued q ≡ₚ x :: queued q'
}.

Lemma issue_loop_ok fuel cs q stats :
  chan_ok config cs -> awake config cs -> queue_inv q ->
  exists cmd q' stats', issue_loop config fuel cs q stats = Ok (cmd, q', stats') /\
    issues cs q cmd q' /\ stats_kept stats stats'.
Proof.
  intros Hcs Haw. revert q stats; induction fuel as [|fuel IH]; intros q stats Hq; cbn [issue_loop].
  { eexists _, _, _. split; [reflexivity|]. split; [|done]. by split. }
  assert (Hi : 0 <= next_idx q < num_queues_ q).
  { unfold next_idx. pose proof (qi_idx q Hq). case_decide; lia. }
  unfold GetNextQueue. simpl queues_. simpl queue_idx_.
  destruct (vget_total (queues_ q) (next_idx q)) as (l & El); [rewrite (qi_size q Hq); done|].
  rewrite El. cbn [mbind outcome_bind fst snd].
  set (q1 := q <| queue_idx_ := next_idx q |>).
  assert (Hq1 : queue_inv q1) by (destruct Hq; by split).
  assert (Hnext : forall s, stats_kept stats s -> exists cmd q' stats',
    issue_loop config fuel cs q1 s = Ok (cmd, q', stats') /\ issues cs q cmd q' /\ stats_kept stats stats').
  { intros s Hs. destruct (IH q1 s Hq1) as (cmd & q' & s' & ? & [] & Hs'). eexists _, _, _.
    split; [done|]. split; [by split|unfold stats_kept in *; auto]. }
  destruct (is_in_ref_ q1 && _); [by apply Hnext|]. unfold GetFirstReadyInQueue.
  assert (Hw : Forall waiting_ok l).
  { apply Forall_forall. intros c Hc. by eapply (qi_cmds q Hq). }
  destruct (first_ready_ok cs (q_clk_ q1) stats [] l Hcs Haw Hw) as (cmd & s1 & -> & Hs1 & Hrd).
  cbn [mbind outcome_bind fst snd]. destruct (IsValid cmd) eqn:Hv; [|by apply Hnext].
  destruct (Hrd eq_refl) as (it & Hit & Hir).
  assert (Hitq : it ∈ queued q) by (apply elem_of_queued; eauto).
  destruct (IsReadWrite cmd) eqn:Hrw.
  - assert (waiting_ok it) as Hwit by (by eapply queued_ok).
    pose proof (ready_column _ _ _ _ Hcs Haw Hwit Hir Hrw) as ->.
    destruct (EraseRWCommand_ok q1 it it Hq1) as (q' & x & -> & Hq' & Hx & Hp & Hclk); [done| |done|].
    { unfold same_request. by rewrite !bool_decide_eq_true_2. }
    cbn [mbind outcome_bind]. eexists _, _, _. split; [reflexivity|]. split; [|done]. split; try done.
    + intros _. eauto.
    + by rewrite Hrw.
    + intros _. exists x. done.
  - eexists _, _, _. split; [reflexivity|]. split; [|done]. split; try done; [|by rewrite Hrw]. intros _. eauto.
Qed.

Lemma GetCommandToIssue_ok cs q stats :
  chan_ok config cs -> awake config cs -> queue_inv q ->
  exists cmd q' stats', GetCommandToIssue config cs q stats = Ok (cmd, q', stats') /\
    issues cs q cmd q' /\ stats_kept stats stats'.
Proof. intros. by apply issue_loop_ok. Qed.

(** ** The pending refresh *)
Lemma refresh_cmd_ok ref : refresh_ok config ref -> cmd_ok config ref /\ is_request ref.
Proof.
  intros [[Ht Hr]|[Ht Hr]]; unfold cmd_ok, is_request, IsRankCMD, IsRefresh; rewrite Ht; auto.
Qed.

Lemma GetRefQIndices_total q ref :
  queue_inv q -> exists ixs, GetRefQIndices config q ref = Ok (q <| ref_q_indices_ := ixs |>).
Proof.
  intros Hq. unfold GetRefQIndices.
  assert (Hscan : exists ixs, for_int (num_queues_ q) (fun i s =>
      r ← idiv i (banks config);
      Ok (if decide (r = Rank ref) then {[i]} ∪ s else s)) (ref_q_indices_ q) = Ok ixs).
  { unfold for_int. destruct (for_each_total (fun i s => r ← idiv i (banks config);
      Ok (if decide (r = Rank ref) then {[i]} ∪ s else s)) (fun _ => True) (seqZ 0 (num_queues_ q))
      (ref_q_indices_ q)) as (ixs & E & _); [|done|eauto].
    intros i s Hi%elem_of_seqZ _. pose proof (qi_int q Hq). destruct Hgeo.
    assert (0 < banks config) by nia.
    unfold idiv, int_. rewrite decide_False by lia. rewrite decide_True; [by eexists|].
    rewrite Z.quot_div_nonneg by lia. split; [pose proof (Z.div_pos i (banks config)); lia|].
    apply Z.le_lt_trans with i; [apply Z.div_le_upper_bound; nia|lia]. }
  destruct (decide (cmd_type ref = REFRESH)); [destruct (queue_structure_ q)|]; [..|by eexists].
  - by eexists.
  - destruct Hscan as (ixs & ->). by eexists.
Qed.

Lemma FinishRefresh_ok cs q ref rest :
  chan_ok config cs -> awake config cs -> queue_inv q -> refresh_q_ cs = ref :: rest -> refresh_ok config ref ->
  exists cmd q', FinishRefresh config cs q = Ok (cmd, q') /\ queue_inv q' /\ queues_ q' = queues_ q /\
    q_clk_ q' = q_clk_ q /\ (IsValid cmd = true -> is_ready config cs ref (q_clk_ q) cmd).
Proof.
  intros Hcs Haw Hq Hrf Href. destruct (refresh_cmd_ok ref Href) as [Hok Hreq].
  unfold FinishRefresh, PendingRefCommand. rewrite Hrf. cbn [mbind outcome_bind].
  assert (Hmark : exists q1, (if is_in_ref_ q then Ok q
       else q ← GetRefQIndices config q ref; Ok (q <| is_in_ref_ := true |>)) = Ok q1 /\ queue_inv q1 /\
       queues_ q1 = queues_ q /\ q_clk_ q1 = q_clk_ q).
  { destruct (is_in_ref_ q); [by exists q|].
    destruct (GetRefQIndices_total q ref Hq) as (ixs & ->). cbn [mbind outcome_bind].
    eexists. split; [reflexivity|]. split_and!; try done. destruct Hq. by split. }
  destruct Hmark as (q1 & -> & Hq1 & Eq & Ec). cbn [mbind outcome_bind].
  destruct (GetReadyCommand_channel_total config cs ref (q_clk_ q1) Hcs Haw Hok Hreq) as (cmd & Ecmd).
  rewrite Ecmd. cbn [mbind outcome_bind]. rewrite Ec in Ecmd.
  assert (Hrd : IsValid cmd = true -> is_ready config cs ref (q_clk_ q) cmd)
    by (intros; by apply GetReadyCommand_ready).
  destruct (IsRefresh cmd); (eexists _, _; split; [reflexivity|]; split_and!; try done).
  destruct Hq1. by split.
Qed.
End queue_laws.
