(* ===== verification/Refresh.v ===== *)
(** * DRAMsim3: the refresh generator (DRAMsim3/src/refresh.cc, refresh.h)

    The counter that asks the channel to refresh a rank or a bank at regular
    intervals.  The channel state is shared with the controller: it is an
    argument, and the result carries the new one. *)

From stdpp Require Import base tactics list list_numbers numbers strings gmap.
From Stdlib Require Import ZArith Lia.
From S2P Require Import Prelude DramCommon DramConfig DramTiming BankState ChannelState.

Record RefreshUnit := mkRefreshUnit {
  r_clk_ : Z;
  refresh_interval_ : Z;
  refresh_policy_ : RefreshPolicy;
  next_rank_ : Z;
  next_bg_ : Z;
  next_bank_ : Z
}.

#[export] Instance RefreshUnit_fields : Fields RefreshUnit := fun r =>
  mkRefreshUnit (r_clk_ r) (refresh_interval_ r) (refresh_policy_ r) (next_rank_ r) (next_bg_ r)
    (next_bank_ r).

Section refresh.
Context (config : Config).

Definition Refresh_new : outcome RefreshUnit :=
  interval ←
    match refresh_policy config with
    | RANK_LEVEL_SIMULTANEOUS => Ok (tREFI config)
    | BANK_LEVEL_STAGGERED => Ok (tREFIb config)
    | _ => idiv (tREFI config) (ranks config)
    end;
  Ok (mkRefreshUnit 0 interval (refresh_policy config) 0 0 0).

(** [a % b] *)
Definition imod (a b : Z) : outcome Z := if decide (b = 0) then Fault Undefined else Ok (Z.rem a b).

Definition IterateNext (r : RefreshUnit) : outcome RefreshUnit :=
  match refresh_policy_ r with
  | RANK_LEVEL_STAGGERED =>
      n ← imod (next_rank_ r + 1) (ranks config); Ok (r <| next_rank_ := n |>)
  | BANK_LEVEL_STAGGERED =>
      g ← imod (next_bg_ r + 1) (bankgroups config);
      let r := r <| next_bg_ := g |> in
      if decide (g = 0) then
        k ← imod (next_bank_ r + 1) (banks_per_group config);
        let r := r <| next_bank_ := k |> in
        if decide (k = 0) then
          n ← imod (next_rank_ r + 1) (ranks config); Ok (r <| next_rank_ := n |>)
        else Ok r
      else Ok r
  | _ => Fault AbruptExit
  end.

(** [for (i...) if (!IsRankSelfRefreshing(i)) { RankNeedRefresh(i, true); break; }] *)
Fixpoint refresh_first (cs : ChannelState) (l : list Z) : outcome ChannelState :=
  match l with
  | [] => Ok cs
  | i :: l =>
      sref ← IsRankSelfRefreshing cs i;
      if (sref : bool) then refresh_first cs l else Ok (RankNeedRefresh cs i true)
  end.

Definition InsertRefresh (r : RefreshUnit) (cs : ChannelState) : outcome (RefreshUnit * ChannelState) :=
  match refresh_policy_ r with
  | RANK_LEVEL_SIMULTANEOUS =>
      cs ← refresh_first cs (seqZ 0 (ranks config)); Ok (r, cs)
  | RANK_LEVEL_STAGGERED =>
      sref ← IsRankSelfRefreshing cs (next_rank_ r);
      let cs := if (sref : bool) then cs else RankNeedRefresh cs (next_rank_ r) true in
      r ← IterateNext r; Ok (r, cs)
  | BANK_LEVEL_STAGGERED =>
      sref ← IsRankSelfRefreshing cs (next_rank_ r);
      let cs := if (sref : bool) then cs
                else BankNeedRefresh cs (next_rank_ r) (next_bg_ r) (next_bank_ r) true in
      r ← IterateNext r; Ok (r, cs)
  | POLICY_SIZE => Fault AbruptExit
  end.

(** [Refresh::ClockTick]; [clk_ % refresh_interval_] converts the interval to
    [uint64_t]. *)
Definition RefreshTick (r : RefreshUnit) (cs : ChannelState) : outcome (RefreshUnit * ChannelState) :=
  if decide (u64 (refresh_interval_ r) = 0) then Fault Undefined
  else
    rc ← (if decide (r_clk_ r mod u64 (refresh_interval_ r) = 0 /\ r_clk_ r > 0)
          then InsertRefresh r cs else Ok (r, cs));
    Ok (rc.1 <| r_clk_ := u64 (r_clk_ rc.1 + 1) |>, rc.2).
End refresh.

(** ** The rotation *)
Section refresh_laws.
Context (config : Config) (Hgeo : geometry config).

Record refresh_inv (r : RefreshUnit) : Prop := {
  ri_policy : refresh_policy_ r <> POLICY_SIZE;
  ri_interval : u64 (refresh_interval_ r) <> 0;
  ri_rank : 0 <= next_rank_ r < ranks config;
  ri_bg : 0 <= next_bg_ r < bankgroups config;
  ri_bank : 0 <= next_bank_ r < banks_per_group config
}.

Lemma imod_ok a b : 0 <= a -> 0 < b -> imod a b = Ok (a mod b) /\ 0 <= a mod b < b.
Proof.
  intros Ha Hb. unfold imod. rewrite decide_False by lia. rewrite Z.rem_mod_nonneg by lia.
  split; [done|]. apply Z.mod_pos_bound. lia.
Qed.

Lemma IterateNext_ok r :
  refresh_inv r -> refresh_policy_ r <> RANK_LEVEL_SIMULTANEOUS ->
  exists r', IterateNext config r = Ok r' /\ refresh_inv r'.
Proof.
  intros [Hp Hi Hr Hg Hk] Hns. unfold IterateNext. destruct Hgeo.
  destruct (imod_ok (next_rank_ r + 1) (ranks config)) as [Er ?]; [lia..|].
  destruct (imod_ok (next_bg_ r + 1) (bankgroups config)) as [Eg ?]; [lia..|].
  destruct (imod_ok (next_bank_ r + 1) (banks_per_group config)) as [Ek ?]; [lia..|].
  destruct (refresh_policy_ r) eqn:Ep; [done| | |done].
  - rewrite Er. cbn [mbind outcome_bind]. eexists. split; [reflexivity|]. split; simpl; auto; by rewrite ?Ep.
  - rewrite Eg. cbn [mbind outcome_bind]. simpl. case_decide; [rewrite Ek; cbn [mbind outcome_bind]; case_decide;
      [rewrite Er; cbn [mbind outcome_bind]|]|]; (eexists; split; [reflexivity|]; split; simpl; auto; by rewrite ?Ep).
Qed.

(** The channel with refreshes added to its queue. *)
Definition with_refreshes (cs : ChannelState) (l : list Command) : ChannelState :=
  cs <| refresh_q_ := refresh_q_ cs ++ l |>.

Lemma with_no_refreshes cs : with_refreshes cs [] = cs.
Proof. unfold with_refreshes. rewrite app_nil_r. by destruct cs. Qed.

Lemma refresh_first_ok cs l :
  vsize (rank_is_sref_ cs) = ranks config -> (forall i, i ∈ l -> 0 <= i < ranks config) ->
  exists ref, refresh_first cs l = Ok (with_refreshes cs ref) /\ Forall (refresh_ok config) ref.
Proof.
  intros Hs. induction l as [|i l IH]; intros Hl; cbn [refresh_first].
  - exists []. by rewrite with_no_refreshes.
  - unfold IsRankSelfRefreshing.
    destruct (vget_total (rank_is_sref_ cs) i) as (b & ->); [rewrite Hs; apply Hl; set_solver|].
    cbn [mbind outcome_bind]. destruct b; [apply IH; set_solver|].
    eexists. split; [reflexivity|]. constructor; [|constructor]. left. split; [done|]. apply Hl. set_solver.
Qed.

Lemma InsertRefresh_ok r cs :
  refresh_inv r -> vsize (rank_is_sref_ cs) = ranks config ->
  exists r' l, InsertRefresh config r cs = Ok (r', with_refreshes cs l) /\ refresh_inv r' /\
    Forall (refresh_ok config) l.
Proof.
  intros Hr Hs. unfold InsertRefresh.
  destruct (vget_total (rank_is_sref_ cs) (next_rank_ r)) as (b & Eb); [rewrite Hs; apply Hr|].
  unfold IsRankSelfRefreshing. rewrite Eb. cbn [mbind outcome_bind].
  destruct (refresh_policy_ r) eqn:Ep; [| | |by destruct Hr].
  - destruct (refresh_first_ok cs (seqZ 0 (ranks config)) Hs) as (ref & -> & Href).
    { intros i Hi%elem_of_seqZ. lia. }
    cbn [mbind outcome_bind]. eauto.
  - destruct (IterateNext_ok r Hr) as (r' & -> & Hr'); [by rewrite Ep|]. cbn [mbind outcome_bind]. exists r'.
    destruct b; [exists []; by rewrite with_no_refreshes|].
    eexists. split; [reflexivity|]. split; [done|]. constructor; [|constructor]. left. split; [done|apply Hr].
  - destruct (IterateNext_ok r Hr) as (r' & -> & Hr'); [by rewrite Ep|]. cbn [mbind outcome_bind]. exists r'.
    destruct b; [exists []; by rewrite with_no_refreshes|].
    eexists. split; [reflexivity|]. split; [done|]. constructor; [|constructor]. right. split; [done|].
    destruct Hr. by unfold in_range.
Qed.

(** A tick only adds a well-formed refresh to the queue of the channel. *)
Lemma RefreshTick_ok r cs :
  refresh_inv r -> vsize (rank_is_sref_ cs) = ranks config ->
  exists r' l, RefreshTick config r cs = Ok (r', with_refreshes cs l) /\ refresh_inv r' /\
    Forall (refresh_ok config) l.
Proof.
  intros Hr Hs. unfold RefreshTick. rewrite decide_False by apply Hr.
  destruct (decide (_ /\ _)).
  - destruct (InsertRefresh_ok r cs Hr Hs) as (r' & l & -> & Hr' & Hl). cbn [mbind outcome_bind].
    eexists _, l. split; [reflexivity|]. split; [|done]. destruct Hr'. by split.
  - eexists _, []. rewrite with_no_refreshes. split; [reflexivity|]. split; [|constructor]. destruct Hr. by split.
Qed.

(** ** The order of the refreshes *)
(** [n] insertions in a row. *)
Fixpoint insert_n (n : nat) (r : RefreshUnit) (cs : ChannelState) : outcome (RefreshUnit * ChannelState) :=
  match n with
  | O => Ok (r, cs)
  | S n => rc ← insert_n n r cs; InsertRefresh config rc.1 rc.2
  end.

(** The bank of the [i]-th refresh: bank groups first, then banks, then ranks. *)
Definition nth_bank (i : Z) : Z * Z * Z :=
  ((i / banks config) mod ranks config, i mod bankgroups config,
   (i / bankgroups config) mod banks_per_group config).

Definition bank_refresh (c : Z * Z * Z) : Command :=
  mkCommand REFRESH_BANK (mkAddress (-1) c.1.1 c.1.2 c.2 (-1) (-1)) no_hex.

Lemma mod_succ i m : 0 < m -> (i + 1) mod m = (i mod m + 1) mod m.
Proof. intros Hm. by rewrite Zplus_mod_idemp_l. Qed.

Lemma div_succ i m : 0 < m -> (i + 1) / m = if decide ((i + 1) mod m = 0) then i / m + 1 else i / m.
Proof.
  intros Hm. pose proof (Z.div_mod i m ltac:(lia)). pose proof (Z.mod_pos_bound i m Hm).
  pose proof (Z.div_mod (i + 1) m ltac:(lia)). pose proof (Z.mod_pos_bound (i + 1) m Hm).
  case_decide; nia.
Qed.

(** The position of a refresh unit in the rotation. *)
Definition at_turn (i : Z) (r : RefreshUnit) : Prop :=
  (next_rank_ r, next_bg_ r, next_bank_ r) = nth_bank i.

Lemma IterateNext_turn i r :
  0 <= i -> refresh_policy_ r = BANK_LEVEL_STAGGERED -> at_turn i r ->
  exists r', IterateNext config r = Ok r' /\ at_turn (i + 1) r' /\ refresh_policy_ r' = BANK_LEVEL_STAGGERED.
Proof using Hgeo.
  intros Hi Hp Ht. unfold at_turn, nth_bank in *. injection Ht as Hr Hg Hk. destruct Hgeo.
  pose proof (Z.mod_pos_bound i (bankgroups config) ltac:(lia)).
  pose proof (Z.mod_pos_bound (i / bankgroups config) (banks_per_group config) ltac:(lia)).
  pose proof (Z.mod_pos_bound (i / banks config) (ranks config) ltac:(lia)).
  unfold IterateNext. rewrite Hp, Hg.
  destruct (imod_ok (i mod bankgroups config + 1) (bankgroups config)) as [-> _]; [lia..|].
  cbn [mbind outcome_bind]. rewrite <- mod_succ by lia. rewrite geo_banks in *.
  rewrite <- (Z.div_div (i + 1)), (div_succ i (bankgroups config)) by lia.
  destruct (decide ((i + 1) mod bankgroups config = 0)) as [E|E].
  2: { eexists. split; [reflexivity|]. simpl. rewrite Z.div_div by lia. split; [congruence|done]. }
  destruct (imod_ok ((i / bankgroups config) mod banks_per_group config + 1) (banks_per_group config))
    as [Ek _]; [lia..|].
  simpl. rewrite Hk, Ek. cbn [mbind outcome_bind]. rewrite <- mod_succ by lia.
  rewrite (div_succ (i / bankgroups config)) by lia.
  destruct (decide ((i / bankgroups config + 1) mod banks_per_group config = 0)) as [E2|E2].
  2: { eexists. split; [reflexivity|]. simpl. rewrite Z.div_div by lia. split; [congruence|done]. }
  simpl. rewrite Hr. rewrite Z.div_div by lia.
  destruct (imod_ok ((i / (bankgroups config * banks_per_group config)) mod ranks config + 1) (ranks config))
    as [-> _]; [lia..|].
  cbn [mbind outcome_bind]. rewrite <- mod_succ by lia.
  eexists. split; [reflexivity|]. simpl. split; [congruence|done].
Qed.

(** The [i] with [nth_bank i = c]. *)
Definition turn_of (c : Z * Z * Z) : Z :=
  (c.1.1 * banks_per_group config + c.2) * bankgroups config + c.1.2.

Lemma nth_bank_turn c :
  in_range config c -> 0 <= turn_of c < ranks config * banks config /\ nth_bank (turn_of c) = c.
Proof using Hgeo.
  destruct c as [[r g] k]. intros (Hr & Hg & Hk). cbn in Hr, Hg, Hk. unfold turn_of, nth_bank. cbn [fst snd].
  destruct Hgeo. rewrite geo_banks in *. split.
  { assert (r * banks_per_group config + k + 1 <= ranks config * banks_per_group config) by nia. nia. }
  rewrite <- Z.div_div by lia. rewrite Z.div_add_l, (Z.div_small g), Z.add_0_r by lia.
  rewrite Z.div_add_l, (Z.div_small k), Z.add_0_r, (Z.mod_small r) by lia.
  rewrite (Z.add_comm (_ * bankgroups config)), Z.mod_add, (Z.mod_small g) by lia.
  by rewrite (Z.add_comm (r * _)), Z.mod_add, (Z.mod_small k) by lia.
Qed.

Lemma turn_of_nth i : 0 <= i < ranks config * banks config -> turn_of (nth_bank i) = i.
Proof using Hgeo.
  intros Hi. destruct Hgeo. rewrite geo_banks in *. unfold turn_of, nth_bank. cbn [fst snd]. rewrite geo_banks.
  rewrite <- Z.div_div by lia.
  pose proof (Z.div_mod i (bankgroups config) ltac:(lia)). set (a := i / bankgroups config) in *.
  pose proof (Z.div_mod a (banks_per_group config) ltac:(lia)).
  assert (0 <= a < ranks config * banks_per_group config).
  { split; [apply Z.div_pos; lia|]. apply Z.div_lt_upper_bound; nia. }
  rewrite (Z.mod_small (a / banks_per_group config)); [nia|].
  split; [apply Z.div_pos; lia|]. apply Z.div_lt_upper_bound; nia.
Qed.
End refresh_laws.

(** Per-bank refresh: with the policy BANK_LEVEL_STAGGERED, as long as no
    rank is in self refresh, the refresh unit requests a refresh of the banks in
    a fixed rotation, bank groups first, then banks, then ranks; each bank comes
    up exactly once in every [ranks * banks] requests. *)
Theorem bank_refresh_rotation config r cs (n : nat) :
  geometry config -> refresh_policy config = BANK_LEVEL_STAGGERED -> Refresh_new config = Ok r ->
  rank_is_sref_ cs = replicate (Z.to_nat (ranks config)) false ->
  (exists r', insert_n config n r cs =
     Ok (r', with_refreshes cs (bank_refresh ∘ nth_bank config <$> seqZ 0 (Z.of_nat n)))) /\
  (forall c, in_range config c ->
     0 <= turn_of config c < ranks config * banks config /\
     forall i, 0 <= i < ranks config * banks config -> (nth_bank config i = c <-> i = turn_of config c)).
Proof.
  intros Hg Hpol Hnew Hs. split.
  - assert (Hind : exists r', insert_n config n r cs =
      Ok (r', with_refreshes cs (bank_refresh ∘ nth_bank config <$> seqZ 0 (Z.of_nat n))) /\
      at_turn config (Z.of_nat n) r' /\ refresh_policy_ r' = BANK_LEVEL_STAGGERED).
    { induction n as [|n IH].
      - exists r. cbn [insert_n]. rewrite with_no_refreshes. split; [done|].
        unfold Refresh_new in Hnew. rewrite Hpol in Hnew. ok_inv Hnew. split; [|done].
        unfold at_turn, nth_bank. by rewrite !Zdiv_0_l, !Zmod_0_l.
      - destruct IH as (r1 & E & Ht & Hp). cbn [insert_n]. rewrite E. cbn [mbind outcome_bind fst snd].
        destruct (IterateNext_turn config Hg (Z.of_nat n) r1 ltac:(lia) Hp Ht) as (r' & Er & Ht' & Hp').
        unfold InsertRefresh, IsRankSelfRefreshing. rewrite Hp.
        assert (Hrk : 0 <= next_rank_ r1 < ranks config).
        { unfold at_turn, nth_bank in Ht. injection Ht as -> _ _. apply Z.mod_pos_bound. destruct Hg; lia. }
        assert (vget (rank_is_sref_ (with_refreshes cs
          (bank_refresh ∘ nth_bank config <$> seqZ 0 (Z.of_nat n)))) (next_rank_ r1) = Ok false) as ->.
        { simpl. rewrite Hs. by apply vget_replicate. }
        cbn [mbind outcome_bind]. rewrite Er. cbn [mbind outcome_bind]. exists r'.
        split; [|by rewrite Nat2Z.inj_succ]. do 2 f_equal. unfold with_refreshes, BankNeedRefresh. simpl.
        rewrite seqZ_S, fmap_app. simpl. rewrite app_assoc. do 2 f_equal.
        unfold at_turn in Ht. injection Ht as -> -> ->. rewrite Z.add_0_l. done. }
    destruct Hind as (r' & E & _). eauto.
  - intros c Hc. destruct (nth_bank_turn config Hg c Hc) as [Hr Ht]. split; [done|].
    intros i Hi. split; [intros <-; symmetry; by apply turn_of_nth|by intros ->].
Qed.

(** A two-rank memory with two groups of two banks. *)
Definition demo_refresh_config : Config :=
  mkConfig (mkSystemParams 2048 1 128 "rorabgbachco" "PER_BANK" "OPEN_PAGE" 8 32 false 16
              BANK_LEVEL_STAGGERED false 1000 false)
    (mkDRAMParams HBM 2 2 4 32768 128 128 4 4 true 4 16 15000 64 16 2)
    (mkSizeParams 1 2 2048) (map_params hbm2_config) (timing_params hbm2_config) 1000.

Lemma bank_refresh_rotation_witness :
  exists r' : RefreshUnit, insert_n demo_refresh_config 3 (mkRefreshUnit 0 128 BANK_LEVEL_STAGGERED 0 0 0)
    (ChannelState_new demo_refresh_config) =
    Ok (r', with_refreshes (ChannelState_new demo_refresh_config)
              [bank_refresh (0, 0, 0); bank_refresh (0, 1, 0); bank_refresh (0, 0, 1)]).
Proof.
  destruct (bank_refresh_rotation demo_refresh_config (mkRefreshUnit 0 128 BANK_LEVEL_STAGGERED 0 0 0)
              (ChannelState_new demo_refresh_config) 3) as [[r' H] _];
    [split; cbn; lia|reflexivity|reflexivity|reflexivity|].
  exists r'. exact H.
Defined.
