(* ===== verification/DramController.v ===== *)
(** * DRAMsim3: the controller of a channel (DRAMsim3/src/controller.cc, controller.h)

    Transactions enter the read queue, the write buffer or the unified queue;
    each cycle one of them becomes a command, one command (two on HBM) is issued
    to the banks, and the completed transactions are returned.  This file holds
    the operations; [ControllerSafety] and [DramSystem] prove what they promise. *)

From stdpp Require Import base tactics list list_numbers numbers strings gmap.
From Stdlib Require Import ZArith Lia.
From S2P Require Import Prelude DramCommon DramConfig DramTiming BankState ChannelState SimpleStats.
From S2P Require Import CommandQueue Refresh.

Inductive RowBufPolicy := OPEN_PAGE | CLOSE_PAGE.

#[export] Instance RowBufPolicy_eq_dec : EqDecision RowBufPolicy.
Proof. solve_decision. Defined.

Record DController := mkDController {
  channel_id_ : Z;
  c_clk_ : Z;
  simple_stats_ : SimpleStats;
  channel_state_ : ChannelState;
  cmd_queue_ : CommandQueue;
  refresh_ : RefreshUnit;
  is_unified_queue_ : bool;
  unified_queue_ : list DTrans;
  read_queue_ : list DTrans;
  write_buffer_ : list DTrans;
  (** [multimap]s: the transactions, those of one address in insertion order. *)
  pending_rd_q_ : list DTrans;
  pending_wr_q_ : list DTrans;
  return_queue_ : list DTrans;
  row_buf_policy_ : RowBufPolicy;
  last_trans_clk_ : Z;
  write_draining_ : Z
}.

#[export] Instance DController_fields : Fields DController := fun c =>
  mkDController (channel_id_ c) (c_clk_ c) (simple_stats_ c) (channel_state_ c) (cmd_queue_ c)
    (refresh_ c) (is_unified_queue_ c) (unified_queue_ c) (read_queue_ c) (write_buffer_ c)
    (pending_rd_q_ c) (pending_wr_q_ c) (return_queue_ c) (row_buf_policy_ c) (last_trans_clk_ c)
    (write_draining_ c).

(** [m.count(a)] *)
Definition count_addr (a : Z) (l : list DTrans) : nat := length (filter (fun t => dt_addr t = a) l).

(** [it = m.find(a)] and the map without [it] *)
Fixpoint take_addr (a : Z) (l : list DTrans) : option (DTrans * list DTrans) :=
  match l with
  | [] => None
  | t :: l =>
      if decide (dt_addr t = a) then Some (t, l)
      else match take_addr a l with Some (u, l') => Some (u, t :: l') | None => None end
  end.

Section controller.
Context (config : Config) (timing : Timing).

Definition DController_new (ch : Z) : outcome DController :=
  q ← CommandQueue_new config;
  r ← Refresh_new config;
  if decide (trans_queue_size config < 0) then Fault LengthError
  else
    Ok {| channel_id_ := ch; c_clk_ := 0; simple_stats_ := SimpleStats_new (ranks config);
          channel_state_ := ChannelState_new config; cmd_queue_ := q; refresh_ := r;
          is_unified_queue_ := unified_queue config;
          unified_queue_ := []; read_queue_ := []; write_buffer_ := [];
          pending_rd_q_ := []; pending_wr_q_ := []; return_queue_ := [];
          row_buf_policy_ :=
            if decide (row_buf_policy config = "CLOSE_PAGE"%string) then CLOSE_PAGE else OPEN_PAGE;
          last_trans_clk_ := 0; write_draining_ := 0 |}.

(** The queues are reserved with [trans_queue_size] elements and never grow past
    it: a transaction is only added when there is room. *)
Definition capacity : Z := trans_queue_size config.

(** ** Completed transactions *)
(** The first transaction of the queue that is complete at [clk], and the others. *)
Fixpoint take_done (clk : Z) (l : list DTrans) : option (DTrans * list DTrans) :=
  match l with
  | [] => None
  | t :: l =>
      if decide (clk >= dt_complete t) then Some (t, l)
      else match take_done clk l with Some (u, l') => Some (u, t :: l') | None => None end
  end.

(** [None] stands for the pair (-1, -1). *)
Definition ReturnDoneTrans (c : DController) (clk : Z) : option (Z * bool) * DController :=
  match take_done clk (return_queue_ c) with
  | None => (None, c)
  | Some (t, l) =>
      let stats :=
        if dt_is_write t then Increment (simple_stats_ c) "num_writes_done"
        else AddValue (Increment (simple_stats_ c) "num_reads_done") "read_latency"
               (u64 (c_clk_ c - dt_added t)) in
      (Some (dt_addr t, dt_is_write t), c <| return_queue_ := l |> <| simple_stats_ := stats |>)
  end.

(** ** Accepting transactions *)
Definition WillAcceptTransaction (c : DController) (a : Z) (is_write : bool) : bool :=
  if is_unified_queue_ c then bool_decide (vsize (unified_queue_ c) < capacity)
  else if negb is_write then bool_decide (vsize (read_queue_ c) < capacity)
  else bool_decide (vsize (write_buffer_ c) < capacity).

Definition AddTransaction (c : DController) (trans : DTrans) : DController :=
  let trans := trans <| dt_added := c_clk_ c |> in
  let stats := AddValue (simple_stats_ c) "interarrival_latency" (u64 (c_clk_ c - last_trans_clk_ c)) in
  let c := c <| simple_stats_ := stats |> <| last_trans_clk_ := c_clk_ c |> in
  let done := trans <| dt_complete := u64 (c_clk_ c + 1) |> in
  if dt_is_write trans then
    let c :=
      if decide (count_addr (dt_addr trans) (pending_wr_q_ c) = 0%nat) then
        let c := c <| pending_wr_q_ := pending_wr_q_ c ++ [trans] |> in
        if is_unified_queue_ c then c <| unified_queue_ := unified_queue_ c ++ [trans] |>
        else c <| write_buffer_ := write_buffer_ c ++ [trans] |>
      else c in
    c <| return_queue_ := return_queue_ c ++ [done] |>
  else if decide (0 < count_addr (dt_addr trans) (pending_wr_q_ c))%nat then
    c <| return_queue_ := return_queue_ c ++ [done] |>
  else
    let c := c <| pending_rd_q_ := pending_rd_q_ c ++ [trans] |> in
    if decide (count_addr (dt_addr trans) (pending_rd_q_ c) = 1%nat) then
      if is_unified_queue_ c then c <| unified_queue_ := unified_queue_ c ++ [trans] |>
      else c <| read_queue_ := read_queue_ c ++ [trans] |>
    else c.

(** ** Scheduling *)
Definition TransToCommand (c : DController) (t : DTrans) : Command :=
  let a := AddressMapping config (dt_addr t) in
  let ty :=
    match row_buf_policy_ c with
    | OPEN_PAGE => if dt_is_write t then C_WRITE else C_READ
    | CLOSE_PAGE => if dt_is_write t then C_WRITE_PRECHARGE else C_READ_PRECHARGE
    end in
  mkCommand ty a (dt_addr t).

(** Where [ScheduleTransaction] takes the transactions from. *)
Inductive trans_queue := UNIFIED | WRITES | READS.

#[export] Instance trans_queue_eq_dec : EqDecision trans_queue.
Proof. solve_decision. Defined.

Definition get_queue (c : DController) (s : trans_queue) : list DTrans :=
  match s with UNIFIED => unified_queue_ c | WRITES => write_buffer_ c | READS => read_queue_ c end.
Definition set_queue (c : DController) (s : trans_queue) (l : list DTrans) : DController :=
  match s with
  | UNIFIED => c <| unified_queue_ := l |>
  | WRITES => c <| write_buffer_ := l |>
  | READS => c <| read_queue_ := l |>
  end.

(** The loop over the queue: [before] are the transactions already passed. *)
Fixpoint schedule_loop (c : DController) (s : trans_queue) (before rest : list DTrans)
    : outcome DController :=
  match rest with
  | [] => Ok c
  | t :: rest =>
      let cmd := TransToCommand c t in
      ok ← WillAcceptCommand config (cmd_queue_ c) (Rank cmd) (Bankgroup cmd) (Bank cmd);
      if (ok : bool) then
        if negb (is_unified_queue_ c) && IsWrite cmd && bool_decide (0 < count_addr (dt_addr t) (pending_rd_q_ c))%nat
        then Ok (c <| write_draining_ := 0 |>)
        else
          let c := if negb (is_unified_queue_ c) && IsWrite cmd
                   then c <| write_draining_ := write_draining_ c - 1 |> else c in
          q ← AddCommand config (cmd_queue_ c) cmd;
          Ok (set_queue (c <| cmd_queue_ := q.2 |>) s (before ++ rest))
      else schedule_loop c s (before ++ [t]) rest
  end.

(** The write buffer is drained when it is full, or has more than eight entries
    and no command waits. *)
Definition start_draining (c : DController) : DController :=
  if decide (write_draining_ c = 0 /\ is_unified_queue_ c = false) then
    if decide (vsize (write_buffer_ c) >= capacity \/
               (vsize (write_buffer_ c) > 8 /\ QueueEmpty (cmd_queue_ c) = true))
    then c <| write_draining_ := vsize (write_buffer_ c) |> else c
  else c.

Definition ScheduleTransaction (c : DController) : outcome DController :=
  let c := start_draining c in
  let s := if is_unified_queue_ c then UNIFIED
           else if decide (write_draining_ c > 0) then WRITES else READS in
  schedule_loop c s [] (get_queue c s).

(** ** Issuing commands *)
Definition UpdateCommandStats (c : DController) (cmd : Command) : outcome DController :=
  let inc := Increment (simple_stats_ c) in
  let column_cmd (cmds hits : string) : outcome SimpleStats :=
    b ← bank_at (bank_states_ (channel_state_ c)) (Rank cmd) (Bankgroup cmd) (Bank cmd);
    Ok (if decide (RowHitCount b <> 0) then Increment (inc cmds) hits else inc cmds) in
  stats ←
    match cmd_type cmd with
    | C_READ | C_READ_PRECHARGE => column_cmd "num_read_cmds"%string "num_read_row_hits"%string
    | C_WRITE | C_WRITE_PRECHARGE => column_cmd "num_write_cmds"%string "num_write_row_hits"%string
    | ACTIVATE => Ok (inc "num_act_cmds"%string)
    | PRECHARGE => Ok (inc "num_pre_cmds"%string)
    | REFRESH => Ok (inc "num_ref_cmds"%string)
    | REFRESH_BANK => Ok (inc "num_refb_cmds"%string)
    | SREF_ENTER => Ok (inc "num_srefe_cmds"%string)
    | SREF_EXIT => Ok (inc "num_srefx_cmds"%string)
    | C_SIZE => Fault AbruptExit
    end;
  Ok (c <| simple_stats_ := stats |>).

(** [num_reads] rounds of the loop that returns all pending reads of an address. *)
Fixpoint return_reads (num_reads : nat) (a complete : Z) (c : DController) : outcome DController :=
  match num_reads with
  | O => Ok c
  | S n =>
      match take_addr a (pending_rd_q_ c) with
      | None => Fault Undefined
      | Some (t, l) =>
          return_reads n a complete
            (c <| return_queue_ := return_queue_ c ++ [t <| dt_complete := complete |>] |>
               <| pending_rd_q_ := l |>)
      end
  end.

(** A column command settles its transactions: all pending reads of the address
    are on their way back, the one pending write leaves the multimap. *)
Definition settle_requests (c : DController) (cmd : Command) : outcome DController :=
  if IsRead cmd then
    let num_reads := count_addr (hex_addr cmd) (pending_rd_q_ c) in
    if decide (num_reads = 0%nat) then Fault ExitFailure
    else return_reads num_reads (hex_addr cmd) (u64 (c_clk_ c + read_delay config)) c
  else if IsWrite cmd then
    match take_addr (hex_addr cmd) (pending_wr_q_ c) with
    | None => Fault ExitFailure
    | Some (t, l) =>
        let wr_lat := u64 (c_clk_ c - dt_added t + write_delay config) in
        Ok (c <| simple_stats_ := AddValue (simple_stats_ c) "write_latency" wr_lat |>
              <| pending_wr_q_ := l |>)
    end
  else Ok c.

Definition IssueCommand (c : DController) (cmd : Command) : outcome DController :=
  c ← settle_requests c cmd;
  c ← UpdateCommandStats c cmd;
  cs ← UpdateTimingAndStates config timing (channel_state_ c) cmd (c_clk_ c);
  Ok (c <| channel_state_ := cs |>).

(** ** One cycle *)
(** The command of the cycle: a refresh step if one is waiting and ready, else a
    command of the queues. *)
Definition choose_command (c : DController) : outcome (Command * DController) :=
  fr ← (if IsRefreshWaiting (channel_state_ c) then
          r ← FinishRefresh config (channel_state_ c) (cmd_queue_ c);
          Ok (r.1, c <| cmd_queue_ := r.2 |>)
        else Ok (Command_default, c));
  if IsValid fr.1 then Ok fr
  else
    let c := fr.2 in
    r ← GetCommandToIssue config (channel_state_ c) (cmd_queue_ c) (simple_stats_ c);
    Ok (r.1.1, c <| cmd_queue_ := r.1.2 |> <| simple_stats_ := r.2 |>).

(** The second command of a cycle on HBM: it must not use the bus of the first. *)
Definition second_command (c : DController) (cmd : Command) : outcome DController :=
  if enable_hbm_dual_cmd config then
    r ← GetCommandToIssue config (channel_state_ c) (cmd_queue_ c) (simple_stats_ c);
    let second_cmd := r.1.1 in
    let c := c <| cmd_queue_ := r.1.2 |> <| simple_stats_ := r.2 |> in
    if IsValid second_cmd && negb (Bool.eqb (IsReadWrite second_cmd) (IsReadWrite cmd)) then
      c ← IssueCommand c second_cmd;
      Ok (c <| simple_stats_ := Increment (simple_stats_ c) "hbm_dual_cmds" |>)
    else Ok c
  else Ok c.

(** "power updates pt 1" for one rank *)
Definition rank_power (i : Z) (c : DController) : outcome DController :=
  let cs := channel_state_ c in
  sref ← IsRankSelfRefreshing cs i;
  if (sref : bool) then
    s ← IncrementVec (simple_stats_ c) "sref_cycles" i; Ok (c <| simple_stats_ := s |>)
  else
    idle ← IsAllBankIdleInRank config cs i;
    if (idle : bool) then
      s ← IncrementVec (simple_stats_ c) "all_bank_idle_cycles" i;
      v ← vupd (rank_idle_cycles cs) i (fun x => x + 1);
      Ok (c <| simple_stats_ := s |> <| channel_state_ := cs <| rank_idle_cycles := v |> |>)
    else
      s ← IncrementVec (simple_stats_ c) "rank_active_cycles" i;
      v ← vset (rank_idle_cycles cs) i 0;
      Ok (c <| simple_stats_ := s |> <| channel_state_ := cs <| rank_idle_cycles := v |> |>).

(** [Address()] with its rank set. *)
Definition rank_address (i : Z) : Address := mkAddress (-1) i (-1) (-1) (-1) (-1).

(** "power updates pt 2": self refresh, for the ranks of the list until a command
    is issued. *)
Fixpoint self_refresh (c : DController) (l : list Z) : outcome DController :=
  match l with
  | [] => Ok c
  | i :: l =>
      let cs := channel_state_ c in
      sref ← IsRankSelfRefreshing cs i;
      empty ← vget (rank_q_empty (cmd_queue_ c)) i;
      wanted ←
        (if (sref : bool) then Ok (if (empty : bool) then None else Some SREF_EXIT)
         else if (empty : bool) then
           idle ← vget (rank_idle_cycles cs) i;
           Ok (if decide (idle >= sref_threshold config) then Some SREF_ENTER else None)
         else Ok None);
      match wanted with
      | None => self_refresh c l
      | Some ty =>
          cmd ← ChannelState.GetReadyCommand config cs (mkCommand ty (rank_address i) no_hex) (c_clk_ c);
          if IsValid cmd then IssueCommand c cmd else self_refresh c l
      end
  end.

(** [Controller::ClockTick] *)
Definition ControllerTick (c : DController) : outcome DController :=
  rc ← RefreshTick config (refresh_ c) (channel_state_ c);
  let c := c <| refresh_ := rc.1 |> <| channel_state_ := rc.2 |> in
  cc ← choose_command c;
  let cmd := cc.1 in
  let cmd_issued := IsValid cmd in
  c ← (if cmd_issued then c ← IssueCommand cc.2 cmd; second_command c cmd else Ok cc.2);
  c ← for_int (ranks config) rank_power c;
  c ← (if enable_self_refresh config && negb cmd_issued
       then self_refresh c (seqZ 0 (ranks config)) else Ok c);
  c ← ScheduleTransaction c;
  Ok (c <| c_clk_ := u64 (c_clk_ c + 1) |> <| cmd_queue_ := QueueTick (cmd_queue_ c) |>
        <| simple_stats_ := Increment (simple_stats_ c) "num_cycles" |>).

(** [Controller::PrintEpochStats], less the printing *)
Definition PrintEpochStats (c : DController) : outcome DController :=
  let s := Increment (simple_stats_ c) "epoch_num" in
  s ← UpdateEpochStats s;
  Ok (c <| simple_stats_ := s |>).
End controller.
