(* ===== verification/ControllerSafety.v ===== *)
(** * DRAMsim3: the controller never fails and loses no request

    The invariant of a channel controller (DRAMsim3/src/controller.cc) between
    two of its operations, for configurations without self refresh: the parts are
    well formed, and every address with a pending read, and every address with a
    pending write, has exactly one request on its way through the transaction
    queues and the command queues.  [ClockTick] and [AddTransaction] succeed and
    preserve it. *)

From stdpp Require Import base tactics list list_numbers numbers strings gmap.
From Stdlib Require Import ZArith Lia.
From S2P Require Import Prelude DramCommon DramConfig DramTiming BankState ChannelState SimpleStats.
From S2P Require Import CommandQueue Refresh DramController.

(** ** The multimaps of pending transactions *)
Lemma count_addr_zero a l : count_addr a l = 0%nat <-> a ∉ dt_addr <$> l.
Proof.
  unfold count_addr. rewrite length_zero_iff_nil. split.
  - intros H (t & -> & Ht)%list_elem_of_fmap.
    assert (t ∈ filter (fun u => dt_addr u = dt_addr t) l) as Hf by (by apply list_elem_of_filter).
    rewrite H in Hf. by apply not_elem_of_nil in Hf.
  - intros H. destruct (filter _ l) as [|t f] eqn:E; [done|]. exfalso.
    assert (t ∈ filter (fun u => dt_addr u = a) l) as [Ha Ht]%list_elem_of_filter by (rewrite E; set_solver).
    apply H. rewrite <- Ha. by apply list_elem_of_fmap_2.
Qed.

Lemma count_addr_pos a l : (0 < count_addr a l)%nat <-> a ∈ dt_addr <$> l.
Proof.
  destruct (decide (a ∈ dt_addr <$> l)) as [H|H].
  - split; [done|]. intros _. destruct (count_addr a l) eqn:E; [|lia]. by apply count_addr_zero in E.
  - split; [|done]. apply count_addr_zero in H. lia.
Qed.

Lemma take_addr_none a l : take_addr a l = None <-> a ∉ dt_addr <$> l.
Proof.
  induction l as [|t l IH]; cbn; [split; [intros _; set_solver|done]|].
  case_decide as Ht; [split; [done|set_solver]|].
  destruct (take_addr a l) as [[u l']|]; split; try done; set_solver.
Qed.

Lemma take_addr_some a l t l' :
  take_addr a l = Some (t, l') ->
  dt_addr t = a /\ l ≡ₚ t :: l' /\
  filter (fun u => dt_addr u = a) l = t :: filter (fun u => dt_addr u = a) l' /\
  filter (fun u => dt_addr u <> a) l = filter (fun u => dt_addr u <> a) l'.
Proof.
  revert l'; induction l as [|u l IH]; intros l' H; cbn in H; [discriminate H|].
  destruct (decide (dt_addr u = a)) as [Ht|Ht].
  - injection H as <- <-. split_and!; [done|done|by rewrite filter_cons_True|].
    by rewrite filter_cons_False by (intros Hn; by apply Hn).
  - destruct (take_addr a l) as [[v m]|]; [|discriminate H]. injection H as <- <-.
    destruct (IH m eq_refl) as (H1 & H2 & H3 & H4). split_and!; [done| | |].
    + rewrite H2. by rewrite Permutation_swap.
    + by rewrite !filter_cons_False.
    + rewrite !filter_cons_True by done. by rewrite H4.
Qed.

(** A completed read. *)
Definition stamp (complete : Z) (t : DTrans) : DTrans := t <| dt_complete := complete |>.

Lemma return_reads_ok a complete n c :
  n = count_addr a (pending_rd_q_ c) ->
  return_reads n a complete c =
    Ok (c <| return_queue_ := return_queue_ c ++ (stamp complete <$> filter (fun t => dt_addr t = a) (pending_rd_q_ c)) |>
          <| pending_rd_q_ := filter (fun t => dt_addr t <> a) (pending_rd_q_ c) |>).
Proof.
  unfold count_addr. revert c; induction n as [|n IH]; intros c Hn; cbn [return_reads].
  - symmetry in Hn. apply length_zero_iff_nil in Hn. rewrite Hn. cbn. rewrite app_nil_r.
    rewrite filter_keep_all; [by destruct c|]. intros t Ht Ha.
    assert (t ∈ filter (fun u => dt_addr u = a) (pending_rd_q_ c)) as Hf by (by apply list_elem_of_filter).
    rewrite Hn in Hf. by apply not_elem_of_nil in Hf.
  - destruct (take_addr a (pending_rd_q_ c)) as [[t l]|] eqn:E.
    2: { apply take_addr_none, count_addr_zero in E. unfold count_addr in E. lia. }
    apply take_addr_some in E as (Ht & _ & H3 & H4). rewrite H3 in Hn. cbn in Hn.
    rewrite IH by (simpl; lia). simpl. rewrite H3, H4. rewrite <- app_assoc. done.
Qed.

(** ** Requests on their way *)
Section safety.
Context (config : Config) (timing : Timing).

(** The transactions that are not commands yet. *)
Definition waiting (c : DController) : list DTrans :=
  unified_queue_ c ++ read_queue_ c ++ write_buffer_ c.

Definition trans_addrs (w : bool) (l : list DTrans) : list Z :=
  dt_addr <$> filter (fun t => dt_is_write t = w) l.

Definition cmd_addrs (w : bool) (l : list Command) : list Z :=
  hex_addr <$> filter (fun x => (if w then IsWrite x else IsRead x) = true) l.

(** The addresses of the reads or writes on their way; [fl] are commands that
    have left their queue and are not issued yet. *)
Definition in_flight (w : bool) (fl : list Command) (c : DController) : list Z :=
  trans_addrs w (waiting c) ++ cmd_addrs w (fl ++ queued (cmd_queue_ c)).

Record requests_ok (fl : list Command) (c : DController) : Prop := {
  ro_reads_once : NoDup (in_flight false fl c);
  ro_reads : forall a, a ∈ in_flight false fl c <-> a ∈ dt_addr <$> pending_rd_q_ c;
  ro_writes_once : NoDup (dt_addr <$> pending_wr_q_ c);
  ro_writes : in_flight true fl c ≡ₚ dt_addr <$> pending_wr_q_ c;
  ro_rd_kind : Forall (fun t => dt_is_write t = false) (pending_rd_q_ c);
  ro_addrs : Forall (fun t => 0 <= dt_addr t) (waiting c);
  (** with separate queues, a write is not scheduled past a pending read *)
  ro_hazard : is_unified_queue_ c = false -> forall a,
    a ∈ cmd_addrs true (fl ++ queued (cmd_queue_ c)) -> a ∉ dt_addr <$> pending_rd_q_ c;
  ro_room : forall s, vsize (get_queue c s) <= capacity config
}.

Record machine_ok (c : DController) : Prop := {
  mo_chan : chan_ok config (channel_state_ c);
  mo_awake : awake config (channel_state_ c);
  mo_ref : Forall (refresh_ok config) (refresh_q_ (channel_state_ c));
  mo_queue : queue_inv config (cmd_queue_ c);
  mo_clk : q_clk_ (cmd_queue_ c) = c_clk_ c;
  mo_refresh : refresh_inv config (refresh_ c);
  mo_stats : stats_inv (ranks config) (simple_stats_ c)
}.

(** A command taken out of its queue. *)
Definition taken (cmd : Command) : list Command := if IsReadWrite cmd then [cmd] else [].

Lemma cmd_addrs_app w l1 l2 : cmd_addrs w (l1 ++ l2) = cmd_addrs w l1 ++ cmd_addrs w l2.
Proof. unfold cmd_addrs. by rewrite filter_app, fmap_app. Qed.

Lemma trans_addrs_cons w t l :
  trans_addrs w (t :: l) = (if decide (dt_is_write t = w) then [dt_addr t] else []) ++ trans_addrs w l.
Proof. unfold trans_addrs. rewrite filter_cons. by case_decide. Qed.

#[export] Instance cmd_addrs_perm w : Proper ((≡ₚ) ==> (≡ₚ)) (cmd_addrs w).
Proof. intros l l' H. unfold cmd_addrs. by rewrite H. Qed.

#[export] Instance trans_addrs_perm w : Proper ((≡ₚ) ==> (≡ₚ)) (trans_addrs w).
Proof. intros l l' H. unfold trans_addrs. by rewrite H. Qed.

(** [requests_ok] depends on the commands on their way as a multiset of
    addresses. *)
Lemma requests_ok_perm fl fl' c q' :
  (forall w, cmd_addrs w (fl' ++ queued q') ≡ₚ cmd_addrs w (fl ++ queued (cmd_queue_ c))) ->
  requests_ok fl c -> requests_ok fl' (c <| cmd_queue_ := q' |>).
Proof.
  intros Hp [H1 H2 H3 H4 H5 H6 H7 H8].
  assert (He : forall w, in_flight w fl' (c <| cmd_queue_ := q' |>) ≡ₚ in_flight w fl c).
  { intros w. unfold in_flight. simpl. by rewrite (Hp w). }
  split; simpl; try done.
  - by rewrite He.
  - intros a. by rewrite He.
  - by rewrite He.
  - intros Hu a. rewrite (Hp true). by apply H7.
Qed.

Lemma same_request_addrs cmd x w : same_request cmd x = true -> cmd_addrs w [x] = cmd_addrs w [cmd].
Proof.
  intros [H1%bool_decide_eq_true H2%bool_decide_eq_true]%andb_prop.
  unfold cmd_addrs. rewrite !filter_cons, !filter_nil. unfold IsWrite, IsRead. rewrite H2.
  destruct w; case_decide; simpl; by rewrite ?H1.
Qed.

(** What the queue gives leaves its requests accounted for. *)
Lemma issues_requests cs c cmd q' :
  issues config cs (cmd_queue_ c) cmd q' -> requests_ok [] c ->
  requests_ok (taken cmd) (c <| cmd_queue_ := q' |>).
Proof.
  intros [_ _ _ Hk Ht] Hr. eapply requests_ok_perm; [|exact Hr]. intros w. unfold taken.
  destruct (IsReadWrite cmd) eqn:Hrw.
  - destruct (Ht eq_refl) as (x & Hx & Hp). cbn [app]. rewrite Hp.
    change (cmd :: queued q') with ([cmd] ++ queued q'). change (x :: queued q') with ([x] ++ queued q').
    by rewrite !cmd_addrs_app, (same_request_addrs cmd x w Hx).
  - unfold queued. by rewrite (Hk eq_refl).
Qed.

(** ** Issuing a command *)
Lemma in_flight_taken w cmd c :
  in_flight w (taken cmd) c ≡ₚ
    (if (if w then IsWrite cmd else IsRead cmd) then [hex_addr cmd] else []) ++ in_flight w [] c.
Proof.
  unfold in_flight. rewrite cmd_addrs_app, Permutation_app_swap_app. f_equiv; [|done]. unfold taken, cmd_addrs.
  destruct (IsReadWrite cmd) eqn:Hrw.
  - rewrite filter_cons, filter_nil. destruct (if w then IsWrite cmd else IsRead cmd); simpl; done.
  - unfold IsReadWrite in Hrw. apply orb_false_iff in Hrw as [-> ->]. by destruct w.
Qed.

Lemma hazard_taken cmd c a :
  a ∈ cmd_addrs true ([] ++ queued (cmd_queue_ c)) -> a ∈ cmd_addrs true (taken cmd ++ queued (cmd_queue_ c)).
Proof. intros H. rewrite (cmd_addrs_app true (taken cmd)). apply elem_of_app. by right. Qed.

Lemma settle_read c cmd :
  IsRead cmd = true -> requests_ok (taken cmd) c ->
  exists ret, settle_requests config c cmd =
      Ok (c <| return_queue_ := ret |>
            <| pending_rd_q_ := filter (fun t => dt_addr t <> hex_addr cmd) (pending_rd_q_ c) |>) /\
    requests_ok [] (c <| return_queue_ := ret |>
            <| pending_rd_q_ := filter (fun t => dt_addr t <> hex_addr cmd) (pending_rd_q_ c) |>).
Proof.
  intros Hrd [H1 H2 H3 H4 H5 H6 H7 H8].
  assert (Hwr : IsWrite cmd = false) by (unfold IsRead, IsWrite in *; by destruct (cmd_type cmd)).
  pose proof (in_flight_taken false cmd c) as Hf. rewrite Hrd in Hf. cbn [app] in Hf.
  pose proof (in_flight_taken true cmd c) as Hg. rewrite Hwr in Hg. cbn [app] in Hg.
  rewrite Hf in H1. apply NoDup_cons in H1 as [Hni Hnd].
  assert (Hin : hex_addr cmd ∈ dt_addr <$> pending_rd_q_ c) by (apply H2; rewrite Hf; set_solver).
  unfold settle_requests. rewrite Hrd. pose proof Hin as Hp%count_addr_pos.
  rewrite decide_False by lia. rewrite return_reads_ok by done. eexists. split; [reflexivity|].
  split; simpl; try done.
  - intros a. change (in_flight false [] _) with (in_flight false [] c).
    specialize (H2 a). rewrite Hf in H2. rewrite !list_elem_of_fmap in *. split.
    + intros Ha. destruct (proj1 H2) as (t & -> & Ht); [set_solver|]. exists t. split; [done|].
      apply list_elem_of_filter. split; [|done]. intros E. rewrite E in Ha. done.
    + intros (t & -> & [Hne Ht]%list_elem_of_filter).
      assert (Hx : dt_addr t ∈ hex_addr cmd :: in_flight false [] c) by (apply H2; by exists t).
      apply elem_of_cons in Hx as [E|Hx]; [congruence|done].
  - change (in_flight true [] _) with (in_flight true [] c). by rewrite <- Hg.
  - apply Forall_forall. intros t [_ Ht]%list_elem_of_filter. by eapply Forall_forall in H5.
  - intros Hu a Ha. apply hazard_taken with (cmd := cmd) in Ha. specialize (H7 Hu a Ha).
    intros (t & -> & [_ Ht]%list_elem_of_filter)%list_elem_of_fmap. by apply H7, list_elem_of_fmap_2.
Qed.

Lemma settle_write c cmd :
  IsRead cmd = false -> IsWrite cmd = true -> requests_ok (taken cmd) c -> stats_inv (ranks config) (simple_stats_ c) ->
  exists l s, settle_requests config c cmd = Ok (c <| simple_stats_ := s |> <| pending_wr_q_ := l |>) /\
    requests_ok [] (c <| simple_stats_ := s |> <| pending_wr_q_ := l |>) /\ stats_inv (ranks config) s.
Proof.
  intros Hrd Hwr [H1 H2 H3 H4 H5 H6 H7 H8] Hs.
  pose proof (in_flight_taken false cmd c) as Hf. rewrite Hrd in Hf. cbn [app] in Hf.
  pose proof (in_flight_taken true cmd c) as Hg. rewrite Hwr in Hg. cbn [app] in Hg.
  assert (Hin : hex_addr cmd ∈ dt_addr <$> pending_wr_q_ c) by (rewrite <- H4, Hg; set_solver).
  unfold settle_requests. rewrite Hrd, Hwr.
  destruct (take_addr (hex_addr cmd) (pending_wr_q_ c)) as [[t l]|] eqn:E; [|by apply take_addr_none in E].
  apply take_addr_some in E as (Ht & Hp & _). eexists l, _. split; [reflexivity|].
  split; [|apply AddValue_inv; [set_solver|done]].
  rewrite Hp in H3, H4. rewrite fmap_cons in H3, H4. rewrite Ht in H3, H4. rewrite Hg in H4.
  split; simpl; try done.
  - change (in_flight false [] _) with (in_flight false [] c). by rewrite <- Hf.
  - intros a. change (in_flight false [] _) with (in_flight false [] c). by rewrite <- Hf.
  - by apply NoDup_cons in H3 as [_ H3].
  - by apply Permutation_cons_inv in H4.
  - intros Hu a Ha. by apply H7, hazard_taken.
Qed.

(** The parts of the controller that settling a command does not touch. *)
Definition same_machine (c c' : DController) : Prop :=
  channel_state_ c' = channel_state_ c /\ cmd_queue_ c' = cmd_queue_ c /\ c_clk_ c' = c_clk_ c /\
  refresh_ c' = refresh_ c.

Lemma machine_ok_same c c' :
  same_machine c c' -> stats_inv (ranks config) (simple_stats_ c') -> machine_ok c -> machine_ok c'.
Proof. intros (E1 & E2 & E3 & E4) Hs []. by split; rewrite ?E1, ?E2, ?E3, ?E4. Qed.

Lemma settle_ok c cmd :
  machine_ok c -> requests_ok (taken cmd) c ->
  exists c', settle_requests config c cmd = Ok c' /\ machine_ok c' /\ requests_ok [] c' /\ same_machine c c'.
Proof.
  intros Hm Hr. destruct (IsRead cmd) eqn:Hrd; [|destruct (IsWrite cmd) eqn:Hwr].
  - destruct (settle_read c cmd Hrd Hr) as (ret & -> & Hr'). eexists. split; [reflexivity|].
    split; [|by split_and!]. by eapply machine_ok_same; [|apply Hm|apply Hm].
  - destruct (settle_write c cmd Hrd Hwr Hr (mo_stats c Hm)) as (l & s & -> & Hr' & Hs).
    eexists. split; [reflexivity|]. split; [|by split_and!]. by eapply machine_ok_same; [| |apply Hm].
  - unfold settle_requests. rewrite Hrd, Hwr. exists c. split_and!; try done.
    unfold taken in Hr. assert (IsReadWrite cmd = false) as E by (unfold IsReadWrite; by rewrite Hrd, Hwr).
    by rewrite E in Hr.
Qed.

Lemma UpdateCommandStats_ok c cmd :
  machine_ok c -> cmd_ok config cmd ->
  exists s, UpdateCommandStats c cmd = Ok (c <| simple_stats_ := s |>) /\ stats_inv (ranks config) s.
Proof.
  intros Hm [Hty Hpl]. unfold UpdateCommandStats. pose proof (mo_stats c Hm) as Hs.
  assert (Hcol : IsRankCMD cmd = false -> exists b,
    bank_at (bank_states_ (channel_state_ c)) (Rank cmd) (Bankgroup cmd) (Bank cmd) = Ok b).
  { intros Hn. rewrite Hn in Hpl. destruct (co_banks _ _ (mo_chan c Hm) _ Hpl) as (b & Hb & _).
    exists b. exact Hb. }
  unfold IsRankCMD in Hcol.
  destruct (cmd_type cmd); try done; try (destruct (Hcol eq_refl) as (b & ->));
    cbn [mbind outcome_bind]; (eexists; split; [reflexivity|]); repeat case_decide; auto using Increment_inv.
Qed.

Lemma refresh_after_ok cmd l : Forall (refresh_ok config) l -> Forall (refresh_ok config) (refresh_after cmd l).
Proof.
  intros Hl. assert (He : forall p, Forall (refresh_ok config) (erase_first p l)).
  { intros p. apply Forall_forall. intros x Hx%erase_first_sub. by eapply Forall_forall in Hl. }
  unfold refresh_after. by destruct (cmd_type cmd).
Qed.

Context (Hgeo : geometry config) (Htim : timing_ok timing).

(** A command that is ready is executed. *)
Lemma IssueCommand_ok c cmd want :
  machine_ok c -> requests_ok (taken cmd) c -> is_request want ->
  is_ready config (channel_state_ c) want (c_clk_ c) cmd ->
  exists c', IssueCommand config timing c cmd = Ok c' /\ machine_ok c' /\ requests_ok [] c' /\
    c_clk_ c' = c_clk_ c /\
    banks_issued config timing cmd (c_clk_ c) (bank_states_ (channel_state_ c)) (bank_states_ (channel_state_ c')).
Proof.
  intros Hm Hr Hreq Hir. unfold IssueCommand.
  destruct (settle_ok c cmd Hm Hr) as (c1 & -> & Hm1 & Hr1 & (E1 & E2 & E3 & E4)). cbn [mbind outcome_bind].
  destruct (UpdateCommandStats_ok c1 cmd Hm1) as (s & -> & Hs); [apply Hir|]. cbn [mbind outcome_bind]. simpl.
  rewrite E1, E3.
  pose proof (ready_type _ _ _ _ _ Hgeo (mo_chan c Hm) (mo_awake c Hm) Hreq Hir) as Hty.
  pose proof (ready_legal _ _ _ _ _ Hgeo (mo_chan c Hm) (mo_awake c Hm) Hreq Hir) as Hleg.
  destruct (UpdateTimingAndStates_ok config timing (channel_state_ c) cmd (c_clk_ c) Htim (mo_chan c Hm))
    as (cs & -> & Hcs & Hbi & Hrf & _ & _); [apply Hir|done|]. cbn [mbind outcome_bind].
  eexists. split; [reflexivity|]. split_and!; [|by destruct Hr1|by simpl|by simpl].
  destruct Hm1. split; simpl; try done.
  - refine (issued_awake config timing cmd _ _ _ (co_banks _ _ (mo_chan c Hm)) (mo_awake c Hm) _ Hbi).
    intros Ht. destruct Hreq as [Hq|Hq]; unfold IsReadWrite, IsRead, IsWrite, IsRefresh in Hq;
      destruct Hty as [E|[E|E]]; rewrite Ht in E; try discriminate E; by rewrite <- E in Hq.
  - rewrite Hrf. apply refresh_after_ok, Hm.
  - congruence.
Qed.

(** ** The command of a cycle *)

(** The command found, if any, is ready for a request of the controller. *)
Definition found (c : DController) (cmd : Command) : Prop :=
  IsValid cmd = true -> exists want, is_request want /\ is_ready config (channel_state_ c) want (c_clk_ c) cmd.

Lemma taken_none c : requests_ok [] c -> requests_ok (taken Command_default) c.
Proof. done. Qed.

Lemma next_command_ok c :
  machine_ok c -> requests_ok [] c ->
  exists cmd q s, GetCommandToIssue config (channel_state_ c) (cmd_queue_ c) (simple_stats_ c) = Ok (cmd, q, s) /\
    let c' := c <| cmd_queue_ := q |> <| simple_stats_ := s |> in
    machine_ok c' /\ requests_ok (taken cmd) c' /\ found c' cmd.
Proof.
  intros Hm Hr.
  destruct (GetCommandToIssue_ok config Hgeo (channel_state_ c) (cmd_queue_ c) (simple_stats_ c)
              (mo_chan c Hm) (mo_awake c Hm) (mo_queue c Hm)) as (cmd & q & s & E & Hi & Hs).
  exists cmd, q, s. split; [done|]. pose proof (issues_requests _ _ _ _ Hi Hr) as Hr'.
  destruct Hi as [Hq Hc Hsrc _ _]. destruct Hm. split_and!.
  - split; simpl; try done; [congruence|]. by apply Hs.
  - destruct Hr'. by split.
  - intros Hv. destruct (Hsrc Hv) as (it & Hit & Hir). exists it. simpl. rewrite <- mo_clk0.
    split; [|done]. by apply (waiting_cmd_ok config), (queued_ok config (cmd_queue_ c)).
Qed.

Lemma choose_command_ok c :
  machine_ok c -> requests_ok [] c ->
  exists cmd c', choose_command config c = Ok (cmd, c') /\ machine_ok c' /\ requests_ok (taken cmd) c' /\
    found c' cmd /\ channel_state_ c' = channel_state_ c /\ c_clk_ c' = c_clk_ c.
Proof.
  intros Hm Hr. unfold choose_command, IsRefreshWaiting.
  assert (Hnext : forall q, machine_ok (c <| cmd_queue_ := q |>) -> requests_ok [] (c <| cmd_queue_ := q |>) ->
    exists cmd c', (let c := c <| cmd_queue_ := q |> in
        r ← GetCommandToIssue config (channel_state_ c) (cmd_queue_ c) (simple_stats_ c);
        Ok (r.1.1, c <| cmd_queue_ := r.1.2 |> <| simple_stats_ := r.2 |>)) = Ok (cmd, c') /\
      machine_ok c' /\ requests_ok (taken cmd) c' /\ found c' cmd /\ channel_state_ c' = channel_state_ c /\
      c_clk_ c' = c_clk_ c).
  { intros q Hmq Hrq. destruct (next_command_ok _ Hmq Hrq) as (cmd & q' & s & E & H1 & H2 & H3).
    cbn zeta. rewrite E. cbn [mbind outcome_bind fst snd]. eexists cmd, _. split; [reflexivity|]. by split_and!. }
  destruct (refresh_q_ (channel_state_ c)) as [|ref rest] eqn:Hq; cbn [negb mbind outcome_bind fst snd].
  - cbn. specialize (Hnext (cmd_queue_ c)). destruct c; simpl in *. by apply Hnext.
  - pose proof (mo_ref c Hm) as Hf. rewrite Hq in Hf. apply Forall_cons in Hf as [Href _].
    destruct (FinishRefresh_ok config Hgeo (channel_state_ c) (cmd_queue_ c) ref rest (mo_chan c Hm)
                (mo_awake c Hm) (mo_queue c Hm) Hq Href) as (cmd & q & -> & Hqi & Hqq & Hclk & Hrd).
    cbn [mbind outcome_bind fst snd].
    assert (Hm' : machine_ok (c <| cmd_queue_ := q |>)).
    { destruct Hm. split; simpl; try done. congruence. }
    assert (Hr' : requests_ok [] (c <| cmd_queue_ := q |>)).
    { eapply requests_ok_perm; [|exact Hr]. intros w. unfold queued. by rewrite Hqq. }
    destruct (IsValid cmd) eqn:Hv; [|by apply Hnext].
    destruct (refresh_cmd_ok config ref Href) as [_ Hreq]. specialize (Hrd eq_refl). rewrite (mo_clk c Hm) in Hrd.
    eexists cmd, _. split; [reflexivity|]. split_and!; try done.
    + unfold taken. assert (IsReadWrite cmd = false) as ->; [|done].
      destruct (ready_type _ _ _ _ _ Hgeo (mo_chan c Hm) (mo_awake c Hm) Hreq Hrd) as [E|[E|E]];
        unfold IsReadWrite, IsRead, IsWrite; rewrite E; try done.
      destruct Href as [[-> _]|[-> _]]; done.
    + intros _. by exists ref.
Qed.

(** ** Two commands in one cycle *)

(** After a column command no bank of the channel accepts a column command in
    the same cycle: the tables keep them apart, or the bank has been closed. *)
Definition columns_apart : Prop :=
  forall cmd c want, IsReadWrite cmd = true -> IsReadWrite want = true -> in_range config c ->
    in_range config (at_cmd cmd) -> (c = at_cmd cmd -> cmd_type cmd = C_READ \/ cmd_type cmd = C_WRITE) ->
    exists d, (cmd_type want, d) ∈ delays_at timing cmd c /\ 0 < d < 2 ^ 31.

Lemma second_not_column cs cs' clk cmd want second :
  columns_apart -> chan_ok config cs -> chan_ok config cs' -> awake config cs' -> 0 <= clk -> clk + 2 ^ 31 <= 2 ^ 64 ->
  banks_issued config timing cmd clk (bank_states_ cs) (bank_states_ cs') ->
  IsReadWrite cmd = true -> cmd_ok config cmd -> is_request want -> is_ready config cs' want clk second ->
  IsReadWrite second = false.
Proof.
  intros Hap Hcs Hcs' Haw Hc0 Hclk Hbi Hcmd Hcok Hreq Hir. apply not_true_iff_false. intros Hsec.
  pose proof (ready_type _ _ _ _ _ Hgeo Hcs' Haw Hreq Hir) as Hty.
  assert (Hwant : cmd_type second = cmd_type want).
  { unfold IsReadWrite, IsRead, IsWrite in Hsec. destruct Hty as [|[E|E]]; [done|by rewrite E in Hsec..]. }
  assert (Hnr : IsRankCMD want = false).
  { unfold IsReadWrite, IsRead, IsWrite, IsRankCMD in *. rewrite Hwant in Hsec. by destruct (cmd_type want). }
  assert (Hpl : in_range config (at_cmd second)) by (apply (ir_place _ _ _ _ _ Hir); by rewrite Hnr).
  destruct (co_banks _ cs Hcs _ Hpl) as (b & Hb & _). destruct (Hbi _ b Hpl Hb) as (b1 & b' & Hb' & Hti & Hx).
  destruct (ir_banks _ _ _ _ _ Hir _ b' Hpl) as [Hrq Hear]; [unfold checked; by rewrite Hnr|done|].
  assert (Hopen : state_ b1 = OPEN).
  { rewrite <- (ti_state _ _ _ _ Hti). unfold required_type in Hrq. rewrite Hwant in Hrq.
    unfold IsReadWrite, IsRead, IsWrite in Hsec. rewrite Hwant in Hsec.
    by destruct (state_ b'), (cmd_type want). }
  assert (Hcr : IsRankCMD cmd = false).
  { unfold IsReadWrite, IsRead, IsWrite, IsRankCMD in *. by destruct (cmd_type cmd). }
  destruct Hcok as [_ Hcok]. rewrite Hcr in Hcok.
  destruct (Hap cmd (at_cmd second) second Hcmd Hsec Hpl Hcok) as (d & Hd & Hpos).
  - intros E. assert (affected cmd (at_cmd second)) as Haff by (unfold affected; by rewrite Hcr).
    rewrite decide_True in Hx by done. unfold BankState.UpdateState in Hx. unfold IsReadWrite, IsRead, IsWrite in Hcmd.
    destruct (cmd_type cmd); try discriminate Hcmd; auto;
      destruct (state_ b); try discriminate Hx; injection Hx as <-; discriminate Hopen.
  - pose proof (ti_lower _ _ _ _ Hti _ _ Hd). rewrite u64_small in H by lia. lia.
Qed.

Context (Hdual : enable_hbm_dual_cmd config = true -> columns_apart).

Lemma second_command_ok c0 c cmd :
  machine_ok c -> requests_ok [] c -> chan_ok config (channel_state_ c0) -> c_clk_ c = c_clk_ c0 ->
  0 <= c_clk_ c0 -> c_clk_ c0 + 2 ^ 31 <= 2 ^ 64 ->
  banks_issued config timing cmd (c_clk_ c0) (bank_states_ (channel_state_ c0)) (bank_states_ (channel_state_ c)) ->
  cmd_ok config cmd -> exists c', second_command config timing c cmd = Ok c' /\ machine_ok c' /\ requests_ok [] c' /\ c_clk_ c' = c_clk_ c.
Proof.
  intros Hm Hr Hch Ec H0 Hclk Hbi Hcok. unfold second_command. destruct (enable_hbm_dual_cmd config) eqn:Ed; [|eauto].
  destruct (next_command_ok c Hm Hr) as (second & q & s & -> & Hm' & Hr' & Hf). cbn [mbind outcome_bind fst snd].
  set (c' := c <| cmd_queue_ := q |> <| simple_stats_ := s |>) in *.
  assert (Hsame : IsValid second && negb (Bool.eqb (IsReadWrite second) (IsReadWrite cmd)) = false ->
    requests_ok [] c').
  { intros E. unfold taken in Hr'. destruct (IsReadWrite second) eqn:Hs; [|done]. exfalso.
    assert (Hv : IsValid second = true).
    { unfold IsReadWrite, IsRead, IsWrite, IsValid in *. by destruct (cmd_type second). }
    rewrite Hv in E. destruct (IsReadWrite cmd) eqn:Hc; [|done]. destruct (Hf Hv) as (want & Hreq & Hir).
    simpl in Hir. rewrite Ec in Hir.
    pose proof (second_not_column _ _ _ cmd want second (Hdual eq_refl) Hch (mo_chan c Hm) (mo_awake c Hm)
                  H0 Hclk Hbi Hc Hcok Hreq Hir). congruence. }
  destruct (IsValid second && _) eqn:E; [|by exists c'; auto].
  apply andb_prop in E as [Hv _]. destruct (Hf Hv) as (want & Hreq & Hir).
  destruct (IssueCommand_ok c' second want Hm' Hr' Hreq Hir) as (c2 & -> & Hm2 & Hr2 & Ec2 & _).
  cbn [mbind outcome_bind]. eexists. split; [reflexivity|]. split_and!; [|by destruct Hr2|done].
  destruct Hm2. split; simpl; try done. by apply Increment_inv.
Qed.

(** ** Idle ranks *)
Lemma all_idle_total bs rk l :
  all_banks_ok config bs -> 0 <= rk < ranks config -> (forall jk, jk ∈ l -> jk ∈ bank_pairs config) ->
  exists b, all_idle bs rk l = Ok b.
Proof.
  intros Hok Hrk. induction l as [|[j k] l IH]; intros Hl; cbn [all_idle]; [eauto|].
  assert (Hjk : (j, k) ∈ bank_pairs config) by (apply Hl; set_solver). apply elem_of_bank_pairs in Hjk.
  destruct (Hok (rk, j, k)) as (b & Hb & _); [unfold in_range; simpl in *; tauto|].
  unfold bk in Hb. cbn [fst snd] in Hb. rewrite Hb. cbn [mbind outcome_bind].
  destruct (IsRowOpen b); [eauto|]. apply IH. set_solver.
Qed.

(** The controller with other statistics and idle counters. *)
Lemma idle_cycles_ok c s v :
  machine_ok c -> stats_inv (ranks config) s -> vsize v = ranks config ->
  machine_ok (c <| simple_stats_ := s |> <| channel_state_ := (channel_state_ c) <| rank_idle_cycles := v |> |>).
Proof. intros [[] H2 H3 H4 H5 H6 H7] Hs Hv. split; simpl; try done. Qed.

Lemma rank_power_ok i c :
  0 <= i < ranks config -> machine_ok c -> requests_ok [] c ->
  exists c', rank_power config i c = Ok c' /\ machine_ok c' /\ requests_ok [] c' /\ c_clk_ c' = c_clk_ c.
Proof.
  intros Hi Hm Hr. unfold rank_power, IsRankSelfRefreshing. pose proof (mo_chan c Hm) as Hc.
  destruct (vget_total (rank_is_sref_ (channel_state_ c)) i) as (sr & ->); [by rewrite (co_sref _ _ Hc)|].
  cbn [mbind outcome_bind]. pose proof (mo_stats c Hm) as Hs. destruct sr.
  - destruct (IncrementVec_ok _ _ "sref_cycles" i Hs) as (s & -> & Hs'); [set_solver|done|].
    cbn [mbind outcome_bind]. eexists. split; [reflexivity|].
    split_and!; [by apply (machine_ok_same c); [split_and!|..]|by destruct Hr|done].
  - destruct (all_idle_total (bank_states_ (channel_state_ c)) i (bank_pairs config) (co_banks _ _ Hc) Hi) as (idle & E);
      [done|]. unfold IsAllBankIdleInRank. rewrite E. cbn [mbind outcome_bind].
    destruct (vget_total (rank_idle_cycles (channel_state_ c)) i) as (x & Ex); [by rewrite (co_idle _ _ Hc)|].
    destruct (vset_total (rank_idle_cycles (channel_state_ c)) i (if idle then x + 1 else 0)) as (v & Ev & Hv);
      [by rewrite (co_idle _ _ Hc)|]. rewrite (co_idle _ _ Hc) in Hv. destruct idle.
    + destruct (IncrementVec_ok _ _ "all_bank_idle_cycles" i Hs) as (s & -> & Hs'); [set_solver|done|].
      unfold vupd. cbn [mbind outcome_bind]. rewrite Ex. cbn [mbind outcome_bind]. rewrite Ev. cbn [mbind outcome_bind].
      eexists. split; [reflexivity|]. split_and!; [by apply idle_cycles_ok|by destruct Hr|done].
    + destruct (IncrementVec_ok _ _ "rank_active_cycles" i Hs) as (s & -> & Hs'); [set_solver|done|].
      cbn [mbind outcome_bind]. rewrite Ev. cbn [mbind outcome_bind].
      eexists. split; [reflexivity|]. split_and!; [by apply idle_cycles_ok|by destruct Hr|done].
Qed.

(** ** Scheduling *)
Context (Hmap : mapped config).

Lemma TransToCommand_ok c t :
  0 <= dt_addr t ->
  waiting_ok config (TransToCommand config c t) /\ hex_addr (TransToCommand config c t) = dt_addr t /\
  IsWrite (TransToCommand config c t) = dt_is_write t /\ IsRead (TransToCommand config c t) = negb (dt_is_write t).
Proof.
  intros Ha. pose proof (in_fields_geometry config _ Hgeo (AddressMapping_in_fields config _ Hmap Ha)) as Hg.
  assert (Hr : in_range config (at_cmd (TransToCommand config c t)))
    by (split; [exact (ig_rank _ _ Hg)|split; [exact (ig_bankgroup _ _ Hg)|exact (ig_bank _ _ Hg)]]).
  unfold waiting_ok, TransToCommand in *. destruct (row_buf_policy_ c), (dt_is_write t); done.
Qed.

Lemma cmd_addrs_trans w c t l :
  0 <= dt_addr t ->
  cmd_addrs w (TransToCommand config c t :: l) =
    (if decide (dt_is_write t = w) then [dt_addr t] else []) ++ cmd_addrs w l.
Proof.
  intros Ha. destruct (TransToCommand_ok c t Ha) as (_ & Hh & Hw & Hr). unfold cmd_addrs. rewrite filter_cons.
  rewrite Hw, Hr. destruct w, (dt_is_write t); simpl; by rewrite ?Hh.
Qed.

Lemma waiting_set_queue c s before t rest :
  get_queue c s = before ++ t :: rest -> waiting c ≡ₚ t :: waiting (set_queue c s (before ++ rest)).
Proof.
  unfold waiting. destruct s; cbn [get_queue]; intros ->; simpl; rewrite <- ?app_assoc; simpl; solve_Permutation.
Qed.

(** A transaction becomes a command. *)
Lemma schedule_one c s before t rest q :
  requests_ok [] c -> get_queue c s = before ++ t :: rest ->
  queued q ≡ₚ TransToCommand config c t :: queued (cmd_queue_ c) ->
  (is_unified_queue_ c = false -> dt_is_write t = true -> dt_addr t ∉ dt_addr <$> pending_rd_q_ c) ->
  requests_ok [] (set_queue (c <| cmd_queue_ := q |>) s (before ++ rest)).
Proof.
  intros [H1 H2 H3 H4 H5 H6 H7 H8] Hq Hp Hz.
  pose proof (waiting_set_queue c s before t rest Hq) as Hw. rewrite Hw in H6. apply Forall_cons in H6 as [Ha H6].
  set (c' := set_queue _ s _). assert (Ew : waiting c' = waiting (set_queue c s (before ++ rest))) by (by destruct s).
  assert (He : forall w, in_flight w [] c' ≡ₚ in_flight w [] c).
  { intros w. unfold in_flight. rewrite Ew, Hw, trans_addrs_cons. replace (cmd_queue_ c') with q by (by destruct s).
    cbn [app]. rewrite Hp, cmd_addrs_trans by done. solve_Permutation. }
  assert (Ep : pending_rd_q_ c' = pending_rd_q_ c /\ pending_wr_q_ c' = pending_wr_q_ c) by (by destruct s).
  destruct Ep as [Ep1 Ep2]. split; rewrite ?Ep1, ?Ep2; try done.
  - by rewrite He.
  - intros a. by rewrite He.
  - by rewrite He.
  - by rewrite Ew.
  - replace (is_unified_queue_ c') with (is_unified_queue_ c) by (by destruct s). intros Hu a.
    replace (cmd_queue_ c') with q by (by destruct s). cbn [app]. rewrite Hp, cmd_addrs_trans by done.
    intros [Hx|Hx]%elem_of_app; [|by apply H7]. case_decide; [|by apply not_elem_of_nil in Hx].
    apply list_elem_of_singleton in Hx as ->. auto.
  - intros s1. pose proof (H8 s) as Hs. rewrite Hq in Hs. pose proof (H8 s1) as Hs1.
    assert (vsize (before ++ rest) <= capacity config).
    { unfold vsize in *. rewrite length_app in *. simpl in *. lia. }
    by destruct s, s1.
Qed.

(** The state between two steps of a cycle. *)
Definition ctl_ok (c : DController) : Prop := machine_ok c /\ requests_ok [] c.

Lemma draining_ok c n : ctl_ok c -> ctl_ok (c <| write_draining_ := n |>).
Proof. intros [[] []]. by split; split. Qed.

Lemma set_queue_ok c s q l : machine_ok (c <| cmd_queue_ := q |>) -> machine_ok (set_queue (c <| cmd_queue_ := q |>) s l).
Proof. intros Hm. apply (machine_ok_same (c <| cmd_queue_ := q |>)); destruct s; try done; apply Hm. Qed.

Lemma schedule_loop_ok c s before rest :
  ctl_ok c -> get_queue c s = before ++ rest ->
  exists c', schedule_loop config c s before rest = Ok c' /\ ctl_ok c' /\ c_clk_ c' = c_clk_ c.
Proof.
  intros Hc. revert before; induction rest as [|t rest IH]; intros before Hq; cbn [schedule_loop]; [eauto|].
  pose proof Hc as [Hm Hr].
  assert (Ha : 0 <= dt_addr t).
  { pose proof (ro_addrs _ _ Hr) as Hall. rewrite (waiting_set_queue c s before t rest Hq) in Hall.
    by apply Forall_cons in Hall as [? _]. }
  destruct (TransToCommand_ok c t Ha) as (Hwt & Hhex & Hisw & _). set (cmd := TransToCommand config c t) in *.
  pose proof (GetQueueIndex_range config Hgeo (cmd_queue_ c) cmd (mo_queue c Hm) (proj2 Hwt)) as Hix.
  destruct (vget_total _ _ Hix) as (l & El).
  destruct (WillAcceptCommand config (cmd_queue_ c) (Rank cmd) (Bankgroup cmd) (Bank cmd)) as [ok|] eqn:Eok.
  2: { unfold WillAcceptCommand in Eok. rewrite El in Eok. discriminate Eok. }
  cbn [mbind outcome_bind]. destruct ok.
  2: { apply IH. by rewrite <- app_assoc. }
  destruct (negb (is_unified_queue_ c) && IsWrite cmd && _) eqn:Eh; [eexists; split; [reflexivity|]; split; [by apply draining_ok|done]|].
  set (c1 := if negb (is_unified_queue_ c) && IsWrite cmd then _ else c).
  assert (Hc1 : ctl_ok c1) by (unfold c1; destruct (negb (is_unified_queue_ c) && IsWrite cmd); [by apply draining_ok|done]).
  assert (Hq1 : cmd_queue_ c1 = cmd_queue_ c /\ get_queue c1 s = get_queue c s /\ c_clk_ c1 = c_clk_ c /\
                row_buf_policy_ c1 = row_buf_policy_ c /\ is_unified_queue_ c1 = is_unified_queue_ c /\
                pending_rd_q_ c1 = pending_rd_q_ c)
    by (unfold c1; destruct (negb (is_unified_queue_ c) && IsWrite cmd); by destruct s).
  destruct Hq1 as (E1 & E2 & E3 & E4 & E5 & E6). destruct Hc1 as [Hm1 Hr1].
  destruct (AddCommand_ok config (cmd_queue_ c) cmd (mo_queue c Hm) Hwt Eok) as (q & Ea & Hqi & Hqp & Hqc).
  rewrite E1, Ea. cbn [mbind outcome_bind snd]. eexists. split; [reflexivity|]. split; [split|by destruct s].
  - apply set_queue_ok. destruct Hm1. split; simpl; try done. congruence.
  - apply schedule_one with (t := t); [done|congruence|unfold TransToCommand; rewrite E4, E1; exact Hqp|].
    rewrite E5, E6. intros Hu Hw. rewrite Hu, Hisw, Hw in Eh. cbn in Eh.
    apply bool_decide_eq_false in Eh. intros Hin%count_addr_pos. done.
Qed.

Lemma ScheduleTransaction_ok c :
  ctl_ok c -> exists c', ScheduleTransaction config c = Ok c' /\ ctl_ok c' /\ c_clk_ c' = c_clk_ c.
Proof.
  intros Hc. unfold ScheduleTransaction.
  assert (Hd : ctl_ok (start_draining config c) /\ c_clk_ (start_draining config c) = c_clk_ c).
  { unfold start_draining. do 2 (destruct (decide _); [|done]). split; [by apply draining_ok|done]. }
  destruct Hd as [Hd <-]. by apply schedule_loop_ok.
Qed.

(** ** A whole cycle *)
Context (Hself : enable_self_refresh config = false).

Lemma ControllerTick_ok c :
  ctl_ok c -> 0 <= c_clk_ c -> c_clk_ c + 2 ^ 31 <= 2 ^ 64 ->
  exists c', ControllerTick config timing c = Ok c' /\ ctl_ok c' /\ c_clk_ c' = c_clk_ c + 1.
Proof.
  intros [Hm Hr] H0 Hclk. unfold ControllerTick.
  destruct (RefreshTick_ok config Hgeo (refresh_ c) (channel_state_ c) (mo_refresh c Hm)) as (rf & l & -> & Hrf & Hl);
    [apply (mo_chan c Hm)|]. cbn [mbind outcome_bind fst snd].
  set (c1 := c <| refresh_ := rf |> <| channel_state_ := with_refreshes (channel_state_ c) l |>).
  assert (Hm1 : machine_ok c1).
  { destruct Hm as [[] H2 H3 H4 H5 H6 H7]. split; simpl; try done. by apply Forall_app. }
  assert (Hr1 : requests_ok [] c1) by (by destruct Hr).
  destruct (choose_command_ok c1 Hm1 Hr1) as (cmd & c2 & -> & Hm2 & Hr2 & Hf & Ecs & Eclk). cbn [mbind outcome_bind fst snd].
  assert (H3 : exists c3, (if IsValid cmd then c ← IssueCommand config timing c2 cmd; second_command config timing c cmd
                           else Ok c2) = Ok c3 /\ ctl_ok c3 /\ c_clk_ c3 = c_clk_ c).
  { destruct (IsValid cmd) eqn:Hv.
    - destruct (Hf Hv) as (want & Hreq & Hir).
      destruct (IssueCommand_ok c2 cmd want Hm2 Hr2 Hreq Hir) as (c3 & -> & Hm3 & Hr3 & E3 & Hbi).
      cbn [mbind outcome_bind]. simpl in Eclk.
      destruct (second_command_ok c2 c3 cmd Hm3 Hr3 (mo_chan c2 Hm2) E3) as (c4 & -> & Hm4 & Hr4 & E4); try lia; [done|apply Hir|].
      exists c4. split; [done|]. split; [by split|]. congruence.
    - exists c2. split; [done|]. split; [|done]. split; [done|].
      unfold taken in Hr2. assert (IsReadWrite cmd = false) as E; [|by rewrite E in Hr2].
      unfold IsValid, IsReadWrite, IsRead, IsWrite in *. by destruct (cmd_type cmd). }
  destruct H3 as (c3 & -> & Hc3 & E3). cbn [mbind outcome_bind].
  destruct (for_each_total (rank_power config) (fun c' => ctl_ok c' /\ c_clk_ c' = c_clk_ c) (seqZ 0 (ranks config)) c3)
    as (c4 & E4 & Hc4 & Eclk4).
  { intros i c' Hi%elem_of_seqZ [[Hm' Hr'] E']. destruct (rank_power_ok i c') as (c'' & ? & ? & ? & ?); [lia|done|done|].
    exists c''. split; [done|]. split; [by split|congruence]. }
  { done. }
  unfold for_int. rewrite E4. cbn [mbind outcome_bind]. rewrite Hself. cbn [andb mbind outcome_bind].
  destruct (ScheduleTransaction_ok c4 Hc4) as (c5 & -> & [Hm5 Hr5] & E5). cbn [mbind outcome_bind].
  eexists. split; [reflexivity|].
  assert (Ec : c_clk_ c5 = c_clk_ c) by congruence.
  split; [|simpl; rewrite Ec; apply u64_small; lia]. split; [|by destruct Hr5].
  destruct Hm5. split; simpl; try done; [|congruence|by apply Increment_inv]. destruct mo_queue0. by split.
Qed.

End safety.

(** ** New transactions *)
Section additions.
Context (config : Config).

Lemma in_flight_push w t c c' :
  waiting c' ≡ₚ t :: waiting c -> cmd_queue_ c' = cmd_queue_ c ->
  in_flight w [] c' ≡ₚ (if decide (dt_is_write t = w) then [dt_addr t] else []) ++ in_flight w [] c.
Proof. intros Hw Hq. unfold in_flight. rewrite Hq, Hw, trans_addrs_cons. by rewrite <- app_assoc. Qed.

(** Where a transaction waits until it becomes a command. *)
Definition queue_of (c : DController) (w : bool) : trans_queue :=
  if is_unified_queue_ c then UNIFIED else if w then WRITES else READS.

Definition enqueue (c : DController) (t : DTrans) : DController :=
  let s := queue_of c (dt_is_write t) in set_queue c s (get_queue c s ++ [t]).

Lemma enqueue_facts c t :
  waiting (enqueue c t) ≡ₚ t :: waiting c /\ cmd_queue_ (enqueue c t) = cmd_queue_ c /\
  is_unified_queue_ (enqueue c t) = is_unified_queue_ c /\
  forall s, get_queue (enqueue c t) s = get_queue c s ++ (if decide (s = queue_of c (dt_is_write t)) then [t] else []).
Proof.
  unfold enqueue, waiting. set (s0 := queue_of c _). split_and!; [|by destruct s0..|].
  - destruct s0; simpl; solve_Permutation.
  - intros s. destruct s0, s; simpl; by rewrite ?app_nil_r.
Qed.

Lemma enqueue_room c t :
  WillAcceptTransaction config c (dt_addr t) (dt_is_write t) = true ->
  (forall s, vsize (get_queue c s) <= capacity config) -> forall s, vsize (get_queue (enqueue c t) s) <= capacity config.
Proof.
  intros Hacc Hroom s. destruct (enqueue_facts c t) as (_ & _ & _ & ->). rewrite vsize_app. specialize (Hroom s).
  case_decide as Es; [|unfold vsize in *; simpl; lia].
  assert (vsize (get_queue c s) < capacity config); [|unfold vsize in *; simpl; lia].
  rewrite Es. unfold WillAcceptTransaction in Hacc. unfold queue_of. destruct (is_unified_queue_ c), (dt_is_write t);
    by apply bool_decide_eq_true in Hacc.
Qed.

(** A write whose address has no pending write. *)
Lemma add_write_requests c t :
  requests_ok config [] c -> dt_is_write t = true -> 0 <= dt_addr t -> dt_addr t ∉ dt_addr <$> pending_wr_q_ c ->
  WillAcceptTransaction config c (dt_addr t) true = true ->
  requests_ok config [] (enqueue (c <| pending_wr_q_ := pending_wr_q_ c ++ [t] |>) t).
Proof.
  intros [H1 H2 H3 H4 H5 H6 H7 H8] Hw Ha Hni Hacc. set (c1 := c <| pending_wr_q_ := _ |>).
  destruct (enqueue_facts c1 t) as (Ew & Eq & Eu & Eg).
  assert (Er : pending_rd_q_ (enqueue c1 t) = pending_rd_q_ c /\ pending_wr_q_ (enqueue c1 t) = pending_wr_q_ c ++ [t])
    by (unfold enqueue; by destruct (queue_of c1 _)).
  destruct Er as [Er Ewr].
  pose proof (in_flight_push false t c1 _ Ew Eq) as Hf. rewrite decide_False in Hf by (by rewrite Hw).
  pose proof (in_flight_push true t c1 _ Ew Eq) as Hg. rewrite decide_True in Hg by done.
  split; rewrite ?Er, ?Ewr, ?Eu, ?Eq; try done.
  - by rewrite Hf.
  - intros a. by rewrite Hf.
  - rewrite fmap_app. apply NoDup_app. split_and!; [done| |by apply NoDup_singleton].
    intros a Hin. set_solver.
  - rewrite Hg, fmap_app. change (in_flight true [] c1) with (in_flight true [] c). rewrite H4. solve_Permutation.
  - rewrite Ew. by constructor.
  - apply enqueue_room; [by rewrite Hw|done].
Qed.

(** A read of an address without a pending write. *)
Lemma add_read_requests c t :
  requests_ok config [] c -> dt_is_write t = false -> 0 <= dt_addr t -> dt_addr t ∉ dt_addr <$> pending_wr_q_ c ->
  WillAcceptTransaction config c (dt_addr t) false = true ->
  let c1 := c <| pending_rd_q_ := pending_rd_q_ c ++ [t] |> in
  requests_ok config [] (if decide (dt_addr t ∈ dt_addr <$> pending_rd_q_ c) then c1 else enqueue c1 t).
Proof.
  intros [H1 H2 H3 H4 H5 H6 H7 H8] Hw Ha Hni Hacc c1.
  assert (Hkind : Forall (fun t => dt_is_write t = false) (pending_rd_q_ c ++ [t]))
    by (apply Forall_app; split; [done|by repeat constructor]).
  assert (Hhaz : is_unified_queue_ c = false -> forall a, a ∈ cmd_addrs true ([] ++ queued (cmd_queue_ c)) ->
    a ∉ dt_addr <$> pending_rd_q_ c ++ [t]).
  { intros Hu a Hin. rewrite fmap_app. intros [Hx|Hx]%elem_of_app; [by eapply H7|].
    apply list_elem_of_singleton in Hx as ->. apply Hni. rewrite <- H4. unfold in_flight. apply elem_of_app. by right. }
  case_decide as Hin.
  - split; simpl; try done. intros a. change (in_flight false [] c1) with (in_flight false [] c).
    rewrite H2, fmap_app. set_solver.
  - destruct (enqueue_facts c1 t) as (Ew & Eq & Eu & Eg).
    assert (Er : pending_rd_q_ (enqueue c1 t) = pending_rd_q_ c ++ [t] /\ pending_wr_q_ (enqueue c1 t) = pending_wr_q_ c)
      by (unfold enqueue; by destruct (queue_of c1 _)).
    destruct Er as [Er Ewr].
    pose proof (in_flight_push false t c1 _ Ew Eq) as Hf. rewrite decide_True in Hf by done.
    pose proof (in_flight_push true t c1 _ Ew Eq) as Hg. rewrite decide_False in Hg by (by rewrite Hw).
    split; rewrite ?Er, ?Ewr, ?Eu, ?Eq; try done.
    + rewrite Hf. apply NoDup_cons. split; [|done]. change (in_flight false [] c1) with (in_flight false [] c).
      by rewrite H2.
    + intros a. rewrite Hf. cbn [app]. change (in_flight false [] c1) with (in_flight false [] c).
      rewrite fmap_app, elem_of_app, elem_of_cons, H2. cbn [fmap list_fmap]. rewrite list_elem_of_singleton. tauto.
    + by rewrite Hg.
    + rewrite Ew. by constructor.
    + apply enqueue_room; [by rewrite Hw|done].
Qed.

Lemma count_addr_snoc a l t : dt_addr t = a -> count_addr a (l ++ [t]) = S (count_addr a l).
Proof. intros Ht. unfold count_addr. rewrite filter_app, length_app, filter_cons_True by done. simpl. lia. Qed.

(** [AddTransaction] in terms of [enqueue]. *)
Lemma AddTransaction_cases c a w :
  let t := mkDTrans a (c_clk_ c) 0 w in
  let done := t <| dt_complete := u64 (c_clk_ c + 1) |> in
  let stats := AddValue (simple_stats_ c) "interarrival_latency" (u64 (c_clk_ c - last_trans_clk_ c)) in
  let c1 := c <| simple_stats_ := stats |> <| last_trans_clk_ := c_clk_ c |> in
  AddTransaction c (DTrans_new a w) =
    if w then
      let c2 := if decide (count_addr a (pending_wr_q_ c1) = 0%nat)
                then enqueue (c1 <| pending_wr_q_ := pending_wr_q_ c1 ++ [t] |>) t else c1 in
      c2 <| return_queue_ := return_queue_ c2 ++ [done] |>
    else if decide (0 < count_addr a (pending_wr_q_ c1))%nat
    then c1 <| return_queue_ := return_queue_ c1 ++ [done] |>
    else
      let c2 := c1 <| pending_rd_q_ := pending_rd_q_ c1 ++ [t] |> in
      if decide (count_addr a (pending_rd_q_ c2) = 1%nat) then enqueue c2 t else c2.
Proof.
  unfold enqueue, queue_of, AddTransaction. destruct w; simpl; repeat case_decide; simpl;
    destruct (is_unified_queue_ c); reflexivity.
Qed.

Lemma enqueue_machine c t : machine_ok config c -> machine_ok config (enqueue c t).
Proof. intros Hm. apply (machine_ok_same config c); [|..|done]; unfold enqueue; destruct (queue_of c _); try done; apply Hm. Qed.

Lemma AddTransaction_ok c a w :
  ctl_ok config c -> 0 <= a -> WillAcceptTransaction config c a w = true -> ctl_ok config (AddTransaction c (DTrans_new a w)).
Proof.
  intros [Hm Hr] Ha Hacc. rewrite AddTransaction_cases. cbn zeta.
  set (s := AddValue _ _ _). set (t := mkDTrans a (c_clk_ c) 0 w).
  assert (Hs : stats_inv (ranks config) s) by (apply AddValue_inv; [set_solver|apply Hm]).
  set (c1 := c <| simple_stats_ := s |> <| last_trans_clk_ := c_clk_ c |>).
  assert (Hm1 : machine_ok config c1) by (by apply (machine_ok_same config c)).
  assert (Hr1 : requests_ok config [] c1) by (by destruct Hr).
  assert (Hret : forall c' l, ctl_ok config c' -> ctl_ok config (c' <| return_queue_ := l |>)).
  { intros c' l [Hm' Hr']. split; [by apply (machine_ok_same config c'); [..|apply Hm'|]|by destruct Hr']. }
  destruct w.
  - apply Hret. case_decide as E; [|done]. apply count_addr_zero in E. split.
    + apply enqueue_machine. by apply (machine_ok_same config c1); [..|apply Hm1|].
    + by apply add_write_requests.
  - case_decide as E; [by apply Hret|].
    assert (E0 : a ∉ dt_addr <$> pending_wr_q_ c1) by (apply count_addr_zero; lia).
    pose proof (add_read_requests c1 t Hr1 eq_refl Ha E0 Hacc) as Hadd. cbn zeta in Hadd.
    change (dt_addr t) with a in Hadd.
    set (c2 := c1 <| pending_rd_q_ := _ |>) in *.
    assert (Hm2 : machine_ok config c2) by (by apply (machine_ok_same config c1); [..|apply Hm1|]).
    assert (Ec : count_addr a (pending_rd_q_ c2) = S (count_addr a (pending_rd_q_ c1))) by (by apply count_addr_snoc).
    destruct (decide (a ∈ dt_addr <$> pending_rd_q_ c1)) as [E2|E2].
    + apply count_addr_pos in E2. rewrite decide_False by lia. by split.
    + apply count_addr_zero in E2. rewrite decide_True by lia. split; [by apply enqueue_machine|done].
Qed.

Lemma take_done_perm clk l t l' : take_done clk l = Some (t, l') -> l ≡ₚ t :: l' /\ dt_complete t <= clk.
Proof.
  revert l'; induction l as [|u l IH]; intros l' H; cbn in H; [discriminate H|]. case_decide.
  - injection H as <- <-. split; [done|lia].
  - destruct (take_done clk l) as [[v m]|]; [|discriminate H]. injection H as <- <-.
    destruct (IH m eq_refl) as [Hp ?]. split; [|done]. rewrite Hp. apply Permutation_swap.
Qed.

Lemma ReturnDoneTrans_ok c clk : ctl_ok config c -> ctl_ok config (ReturnDoneTrans c clk).2.
Proof.
  intros [Hm Hr]. unfold ReturnDoneTrans. destruct (take_done clk (return_queue_ c)) as [[t l]|]; [|done]. simpl.
  split; [|by destruct Hr]. apply (machine_ok_same config c); [done| |done].
  destruct (dt_is_write t); [|apply AddValue_inv; [set_solver|]]; apply Increment_inv, Hm.
Qed.
End additions.

(** ** Conservation of transactions *)

(** The transactions whose callback is still to come. *)
Definition outstanding (c : DController) : list (Z * bool) :=
  (fun t => (dt_addr t, dt_is_write t)) <$> (return_queue_ c ++ pending_rd_q_ c).

Lemma filter_split {A} (P : A -> Prop) `{!forall x, Decision (P x)} (l : list A) :
  l ≡ₚ filter P l ++ filter (fun x => ~ P x) l.
Proof.
  induction l as [|x l IH]; [done|]. rewrite !filter_cons.
  destruct (decide (P x)) as [Hx|Hx]; [rewrite decide_False by (by intros Hn)|rewrite decide_True by done].
  - cbn [app]. by rewrite <- IH.
  - rewrite <- Permutation_middle. by rewrite <- IH.
Qed.

(** Reads move from the pending multimap to the return queue, nothing else
    happens to either. *)
Definition key (t : DTrans) : Z * bool := (dt_addr t, dt_is_write t).

Definition moved (c c' : DController) : Prop :=
  exists l m, return_queue_ c' = return_queue_ c ++ l /\ pending_rd_q_ c ≡ₚ m ++ pending_rd_q_ c' /\
    key <$> l = key <$> m.

#[export] Instance moved_preorder : PreOrder moved.
Proof.
  split.
  - intros c. exists [], []. by rewrite app_nil_r.
  - intros c1 c2 c3 (l & m & E1 & E2 & E3) (l' & m' & F1 & F2 & F3). exists (l ++ l'), (m ++ m').
    split_and!; [by rewrite F1, E1, app_assoc|by rewrite E2, F2, app_assoc|by rewrite !fmap_app, E3, F3].
Qed.

Lemma moved_outstanding c c' : moved c c' -> outstanding c' ≡ₚ outstanding c.
Proof.
  intros (l & m & E1 & E2 & E3). unfold outstanding. fold key. rewrite E1, E2, !fmap_app.
  change (fun t => (dt_addr t, dt_is_write t)) with key. rewrite E3. by rewrite <- app_assoc.
Qed.

(** The steps of a cycle that leave the transactions alone. *)
Definition same_trans (c c' : DController) : Prop :=
  return_queue_ c' = return_queue_ c /\ pending_rd_q_ c' = pending_rd_q_ c.

Lemma same_trans_moved c c' : same_trans c c' -> moved c c'.
Proof. intros [E1 E2]. exists [], []. by rewrite E1, E2, app_nil_r. Qed.

Section conservation.
Context (config : Config) (timing : Timing).

Lemma settle_moved c cmd c' : settle_requests config c cmd = Ok c' -> moved c c'.
Proof.
  unfold settle_requests. destruct (IsRead cmd).
  - case_decide; [intros H'; discriminate H'|]. rewrite return_reads_ok by done. intros [= <-].
    eexists _, (filter (fun t => dt_addr t = hex_addr cmd) (pending_rd_q_ c)). simpl. split; [reflexivity|].
    split; [apply filter_split|]. by rewrite <- list_fmap_compose.
  - destruct (IsWrite cmd); [|by intros [= <-]].
    destruct (take_addr _ _) as [[t l]|]; [|intros H'; discriminate H']. intros [= <-]. by apply same_trans_moved.
Qed.

Lemma IssueCommand_moved c cmd c' : IssueCommand config timing c cmd = Ok c' -> moved c c'.
Proof. unfold IssueCommand, UpdateCommandStats. intros H. ok_inv H. exact (settle_moved _ _ _ E). Qed.

Lemma choose_command_same c r : choose_command config c = Ok r -> same_trans c r.2.
Proof.
  unfold choose_command. intros H. ok_inv H.
  assert (same_trans c r0.2) as Hs by (destruct (IsRefreshWaiting _); ok_inv E; done).
  destruct (IsValid r0.1); ok_inv H; done.
Qed.

Lemma second_command_moved c cmd c' : second_command config timing c cmd = Ok c' -> moved c c'.
Proof.
  unfold second_command. destruct (enable_hbm_dual_cmd config); intros H; ok_inv H; [|done].
  destruct (IsValid _ && _); ok_inv H; [|by apply same_trans_moved]. exact (IssueCommand_moved _ _ _ E0).
Qed.

Lemma rank_power_same i c c' : rank_power config i c = Ok c' -> same_trans c c'.
Proof.
  unfold rank_power. intros H. ok_inv H. destruct r; ok_inv H; [done|]. destruct r; ok_inv H; done.
Qed.

Lemma self_refresh_moved l c c' : self_refresh config timing c l = Ok c' -> moved c c'.
Proof.
  revert c; induction l as [|i l IH]; cbn [self_refresh]; intros c H; ok_inv H; [done|].
  destruct r1; [|by apply IH]. ok_inv H. destruct (IsValid _); [by eapply IssueCommand_moved|by apply IH].
Qed.

Lemma schedule_loop_same c s before rest c' :
  schedule_loop config c s before rest = Ok c' -> same_trans c c'.
Proof.
  revert before; induction rest as [|t rest IH]; cbn [schedule_loop]; intros before H; ok_inv H; [done|].
  destruct r; [|by eapply IH]. destruct (_ && _ && _); ok_inv H; [done|].
  destruct (negb _ && _); by destruct s.
Qed.

Lemma ControllerTick_moved c c' : ControllerTick config timing c = Ok c' -> moved c c'.
Proof.
  unfold ControllerTick. intros H. apply bind_ok in H as (rc & _ & H).
  apply bind_ok in H as (r & E2 & H). apply choose_command_same, same_trans_moved in E2.
  apply bind_ok in H as (c3 & E3 & H). apply bind_ok in H as (c4 & E4 & H).
  apply bind_ok in H as (c5 & E5 & H). apply bind_ok in H as (c6 & E6 & H). injection H as <-.
  apply schedule_loop_same, same_trans_moved in E6.
  assert (H3 : moved c c3).
  { transitivity r.2; [exact E2|]. destruct (IsValid r.1); [|by injection E3 as <-].
    apply bind_ok in E3 as (c' & Ei & E3). transitivity c'; [exact (IssueCommand_moved _ _ _ Ei)|exact (second_command_moved _ _ _ E3)]. }
  assert (H4 : moved c c4).
  { apply (for_each_inv (rank_power config) (fun c' => moved c c') (seqZ 0 (ranks config)) c3); [|done|exact E4].
    intros i x x' _ Hx E. transitivity x; [done|]. by eapply same_trans_moved, rank_power_same. }
  assert (H5 : moved c c5).
  { transitivity c4; [done|]. destruct (_ && _); [by eapply self_refresh_moved|by injection E5 as <-]. }
  transitivity c5; [done|]. transitivity c6; [|by apply same_trans_moved].
  transitivity (start_draining config c5); [|exact E6]. apply same_trans_moved. unfold start_draining.
  by do 2 (destruct (decide _); [|done]).
Qed.

Lemma ControllerTick_outstanding c c' :
  ControllerTick config timing c = Ok c' -> outstanding c' ≡ₚ outstanding c.
Proof. intros H. by eapply moved_outstanding, ControllerTick_moved. Qed.

Lemma AddTransaction_outstanding c a w :
  outstanding (AddTransaction c (DTrans_new a w)) ≡ₚ (a, w) :: outstanding c.
Proof.
  assert (Hret : forall l t p, (fun t => (dt_addr t, dt_is_write t)) <$> ((l ++ [t]) ++ p) ≡ₚ
            (dt_addr t, dt_is_write t) :: ((fun t => (dt_addr t, dt_is_write t)) <$> (l ++ p))).
  { intros l t p. rewrite !fmap_app. simpl. solve_Permutation. }
  rewrite AddTransaction_cases. unfold outstanding, enqueue, queue_of. destruct w; cbn zeta; repeat case_decide;
    simpl; try (destruct (is_unified_queue_ c); simpl); try apply Hret; rewrite app_assoc;
    by rewrite fmap_app, Permutation_app_comm.
Qed.

Lemma ReturnDoneTrans_outstanding c clk :
  outstanding c ≡ₚ option_list (ReturnDoneTrans c clk).1 ++ outstanding (ReturnDoneTrans c clk).2.
Proof.
  unfold ReturnDoneTrans, outstanding. destruct (take_done clk (return_queue_ c)) as [[t l]|] eqn:E; [|done].
  apply take_done_perm in E as [Hp _]. simpl. by rewrite Hp.
Qed.
End conservation.

(** ** Runs of a controller *)

(** A configuration the controller can run: without self refresh, with a refresh
    interval, and, where two commands may be issued in a cycle, with column
    commands kept apart by the tables. *)
Record runnable (config : Config) : Prop := {
  rn_mapped : mapped config;
  rn_geometry : geometry config;
  rn_self : enable_self_refresh config = false;
  rn_policy : refresh_policy config <> POLICY_SIZE;
  rn_interval : forall r, Refresh_new config = Ok r -> u64 (refresh_interval_ r) <> 0;
  rn_columns : enable_hbm_dual_cmd config = true -> columns_apart config (Timing_new config)
}.

(** The delays between column commands that [columns_apart] asks for. *)
Lemma columns_apart_delays config :
  Forall (fun d => 0 < d < 2 ^ 31)
    [read_to_read_s config; read_to_read_l config; read_to_write config;
     write_to_read_s config; write_to_read_l config; write_to_write_s config; write_to_write_l config] ->
  (1 < ranks config -> Forall (fun d => 0 < d < 2 ^ 31)
     [read_to_read_o config; read_to_write_o config; write_to_read_o config; write_to_write_o config]) ->
  columns_apart config (Timing_new config).
Proof.
  intros Hd Ho cmd c want Hcmd Hwant Hc Hca Hat.
  rewrite !Forall_cons in Hd. destruct Hd as (? & ? & ? & ? & ? & ? & ? & _).
  assert (Hrk : IsRankCMD cmd = false).
  { unfold IsReadWrite, IsRead, IsWrite, IsRankCMD in *. by destruct (cmd_type cmd). }
  assert (Hcol : forall rd wr, 0 < rd < 2 ^ 31 -> 0 < wr < 2 ^ 31 ->
    exists d, (cmd_type want, d) ∈ columns_after rd wr /\ 0 < d < 2 ^ 31).
  { intros rd wr Hrd Hwr. unfold columns_after. unfold IsReadWrite, IsRead, IsWrite in Hwant.
    destruct (cmd_type want); try discriminate Hwant; [exists rd|exists rd|exists wr|exists wr]; split; try done; set_solver. }
  assert (Hpre : forall l l2, (exists d, (cmd_type want, d) ∈ l /\ 0 < d < 2 ^ 31) ->
    exists d, (cmd_type want, d) ∈ l ++ l2 /\ 0 < d < 2 ^ 31).
  { intros l l2 (d & ? & ?). exists d. split; [apply elem_of_app; by left|done]. }
  unfold delays_at. rewrite Hrk. unfold IsReadWrite, IsRead, IsWrite in Hcmd.
  destruct (decide (c.1.1 <> Rank cmd)) as [Hr|Hr].
  - assert (Hmany : 1 < ranks config).
    { destruct Hc as [Hc _], Hca as [Hca _]. change ((at_cmd cmd).1.1) with (Rank cmd) in Hca. lia. }
    specialize (Ho Hmany). rewrite !Forall_cons in Ho. destruct Ho as (? & ? & ? & ? & _).
    destruct (cmd_type cmd); try discriminate Hcmd; cbn; auto.
  - repeat case_decide; try (destruct (cmd_type cmd); try discriminate Hcmd; cbn; by auto).
    destruct Hat as [E|E]; [|rewrite E; cbn [same_bank Timing_new same_bank_table]; by apply Hpre, Hcol..].
    destruct c as [[x y] z]. unfold at_cmd. cbn [fst snd] in *. f_equal; [f_equal|]; lia.
Qed.

Lemma CommandQueue_new_inv config q :
  geometry config -> CommandQueue_new config = Ok q ->
  queue_inv config q /\ queued q = [] /\ q_clk_ q = 0.
Proof.
  intros Hg H. unfold CommandQueue_new in H. ok_inv H.
  assert (Hn : r.2 = match r.1 with PER_RANK => ranks config | PER_BANK => ranks config * banks config end /\
               0 < r.2 < 2 ^ 31).
  { destruct Hg. case_decide; [|case_decide; [|discriminate E]]; ok_inv E; cbn [fst snd]; [|lia].
    unfold imul, int_ in E0. case_decide; [|discriminate E0]. injection E0 as <-. split; [lia|nia]. }
  destruct Hn as [Hn Hpos]. split_and!; [| |done].
  2: { unfold queued. cbn. by induction (Z.to_nat r.2). }
  split; cbn; try done; try lia.
  - unfold vsize. rewrite length_replicate. lia.
  - intros i l cmd [_ Hi]%vget_ok Hc. apply lookup_replicate in Hi as [-> _]. by apply not_elem_of_nil in Hc.
  - intros i l [_ Hi]%vget_ok. apply lookup_replicate in Hi as [-> _]. unfold vsize. simpl. apply u64_range.
  - unfold vsize. rewrite length_replicate. destruct Hg. lia.
  - case_decide; [|case_decide; [|discriminate E]]; by ok_inv E.
Qed.

Lemma requests_ok_empty config c :
  (forall s, get_queue c s = []) -> queued (cmd_queue_ c) = [] -> pending_rd_q_ c = [] -> pending_wr_q_ c = [] ->
  0 <= capacity config -> requests_ok config [] c.
Proof.
  intros Hg Hq Hr Hw Hc. assert (Hwait : waiting c = []).
  { unfold waiting. by rewrite (Hg UNIFIED : unified_queue_ c = []), (Hg READS : read_queue_ c = []),
      (Hg WRITES : write_buffer_ c = []). }
  assert (Hf : forall w, in_flight w [] c = []) by (intros w; unfold in_flight; by rewrite Hwait, Hq).
  split; rewrite ?Hf, ?Hr, ?Hw, ?Hwait; try done; try constructor.
  - intros _ a Ha. rewrite Hq in Ha. by apply not_elem_of_nil in Ha.
  - intros s. by rewrite Hg.
Qed.

Lemma DController_new_ok config ch c :
  runnable config -> DController_new config ch = Ok c -> ctl_ok config c /\ c_clk_ c = 0 /\ outstanding c = [].
Proof.
  intros [Hm Hg Hs Hp Hi Hcol] H. unfold DController_new in H. ok_inv H.
  destruct (decide _) as [|Hsz]; [discriminate H|].
  pose proof (SimpleStats_new_inv (ranks config) ltac:(destruct Hg; lia)) as Hst.
  revert H Hst. generalize (SimpleStats_new (ranks config)). intros st H Hst.
  injection H as <-. split_and!; [|done..].
  destruct (CommandQueue_new_inv config r Hg E) as (Hq & Hq0 & Hqc). specialize (Hi _ E0).
  unfold Refresh_new in E0. ok_inv E0. split.
  - split; simpl; try done.
    + by apply ChannelState_new_ok.
    + intros x b Hx Hb. change (bk (bank_states_ (ChannelState_new config)) x = Ok b) in Hb.
      rewrite (bk_new config x Hx) in Hb. by injection Hb as <-.
    + destruct Hg. split; simpl; try done; lia.
  - apply requests_ok_empty; try done; [by intros []|unfold capacity; lia].
Qed.

(** What a client does to a controller: a cycle, the offer of a transaction
    (handed over only if the controller accepts it), the collection of a
    completed one. *)
Inductive ctl_event := Tick | Offer (a : Z) (w : bool) | Collect (clk : Z).

(** The controller with the transactions it has accepted and given back. *)
Definition ctl_log : Type := DController * list (Z * bool) * list (Z * bool).

Definition ctl_step (config : Config) (e : ctl_event) (s : ctl_log) : outcome ctl_log :=
  let '(c, accepted, returned) := s in
  match e with
  | Tick => c ← ControllerTick config (Timing_new config) c; Ok (c, accepted, returned)
  | Offer a w =>
      Ok (if WillAcceptTransaction config c a w
          then (AddTransaction c (DTrans_new a w), accepted ++ [(a, w)], returned) else s)
  | Collect clk =>
      let r := ReturnDoneTrans c clk in Ok (r.2, accepted, returned ++ option_list r.1)
  end.

Definition ctl_run (config : Config) (evs : list ctl_event) (s : ctl_log) : outcome ctl_log :=
  for_each (ctl_step config) evs s.

Definition event_ok (e : ctl_event) : Prop := match e with Offer a _ => 0 <= a | _ => True end.

Lemma AddTransaction_clk c t : c_clk_ (AddTransaction c t) = c_clk_ c.
Proof. unfold AddTransaction. simpl. repeat case_decide; destruct (dt_is_write t), (is_unified_queue_ c); done. Qed.

Lemma ReturnDoneTrans_clk c clk : c_clk_ (ReturnDoneTrans c clk).2 = c_clk_ c.
Proof. unfold ReturnDoneTrans. by destruct (take_done _ _) as [[]|]. Qed.

(** The state of a run: the invariant, the clock and the conserved transactions. *)
Definition run_ok (config : Config) (n : Z) (s : ctl_log) : Prop :=
  let '(c, accepted, returned) := s in
  ctl_ok config c /\ 0 <= c_clk_ c <= n /\ accepted ≡ₚ returned ++ outstanding c.

Lemma ctl_step_ok config e s n :
  runnable config -> event_ok e -> run_ok config n s -> n + 2 ^ 31 <= 2 ^ 64 ->
  exists s', ctl_step config e s = Ok s' /\ run_ok config (n + 1) s'.
Proof.
  intros [Hm Hg Hs Hp Hi Hcol] He. destruct s as [[c acc] ret]. intros (Hc & Hclk & Hbal) Hn. destruct e as [|a w|clk]; cbn.
  - destruct (ControllerTick_ok config (Timing_new config) Hg (Timing_new_ok config) Hcol Hm Hs c Hc) as (c' & E & Hc' & Ec); [lia..|].
    rewrite E. cbn [mbind outcome_bind]. eexists. split; [reflexivity|]. split_and!; [done|lia..|].
    by rewrite (ControllerTick_outstanding _ _ _ _ E).
  - eexists. split; [reflexivity|]. destruct (WillAcceptTransaction config c a w) eqn:E; [|by split_and!; [done|lia..|]].
    split_and!; [by apply AddTransaction_ok|rewrite AddTransaction_clk; lia..|].
    rewrite AddTransaction_outstanding, Hbal. solve_Permutation.
  - eexists. split; [reflexivity|]. split_and!; [by apply ReturnDoneTrans_ok|rewrite ReturnDoneTrans_clk; lia..|].
    rewrite Hbal, (ReturnDoneTrans_outstanding c clk). by rewrite app_assoc.
Qed.

Lemma ctl_run_ok config evs s n :
  runnable config -> Forall event_ok evs -> run_ok config n s -> n + Z.of_nat (length evs) + 2 ^ 31 <= 2 ^ 64 ->
  exists s', ctl_run config evs s = Ok s' /\ run_ok config (n + Z.of_nat (length evs)) s'.
Proof.
  intros Hrun. revert s n; induction evs as [|e evs IH]; intros s n He Hs Hn; unfold ctl_run in *; cbn [for_each length].
  { exists s. rewrite Z.add_0_r. done. }
  apply Forall_cons in He as [He Hes]. cbn [length] in Hn.
  destruct (ctl_step_ok config e s n Hrun He Hs) as (s1 & -> & Hs1); [lia|]. cbn [mbind outcome_bind].
  destruct (IH s1 (n + 1) Hes Hs1) as (s' & E & Hs'); [lia|]. exists s'. split; [done|].
  by replace (n + Z.of_nat (S (length evs))) with (n + 1 + Z.of_nat (length evs)) by lia.
Qed.

(** C21. A channel controller never fails and loses nothing.  Whatever sequence of
    cycles, offers and collections a client performs on a new controller, every
    step succeeds; the accepted transactions are exactly those given back and
    those still outstanding; every address with outstanding reads has exactly one
    read request on its way to the banks, every pending write exactly one write
    request; and with separate queues a write is never queued for the banks while
    a read of its address is outstanding. *)
Theorem controller_safe config ch c0 evs :
  runnable config -> DController_new config ch = Ok c0 -> Forall event_ok evs ->
  Z.of_nat (length evs) < 2 ^ 63 ->
  exists c accepted returned,
    ctl_run config evs (c0, [], []) = Ok (c, accepted, returned) /\
    accepted ≡ₚ returned ++ outstanding c /\
    NoDup (in_flight false [] c) /\ (forall a, a ∈ in_flight false [] c <-> a ∈ dt_addr <$> pending_rd_q_ c) /\
    NoDup (in_flight true [] c) /\ (forall a, a ∈ in_flight true [] c <-> a ∈ dt_addr <$> pending_wr_q_ c) /\
    (is_unified_queue_ c = false -> forall cmd, cmd ∈ queued (cmd_queue_ c) -> IsWrite cmd = true ->
       hex_addr cmd ∉ dt_addr <$> pending_rd_q_ c).
Proof.
  intros Hrun Hnew He Hn. destruct (DController_new_ok config ch c0 Hrun Hnew) as (Hc & Hclk & Ho).
  destruct (ctl_run_ok config evs (c0, [], []) 0 Hrun He) as ([[c acc] ret] & E & ([_ Hr] & _ & Hbal)).
  { split_and!; [done|lia..|]. by rewrite Ho. }
  { lia. }
  exists c, acc, ret. destruct Hr as [H1 H2 H3 H4 H5 H6 H7 H8]. split_and!; try done.
  - by rewrite H4.
  - intros a. by rewrite H4.
  - intros Hu cmd Hin Hw. apply H7; [done|]. cbn [app]. unfold cmd_addrs. apply list_elem_of_fmap_2.
    by apply list_elem_of_filter.
Qed.

Lemma hbm2_runnable : runnable hbm2_config.
Proof.
  split; [exact (Config_new_mapped _ _ hbm2_loads)|exact hbm2_geometry|done|done| |].
  - intros r H. vm_compute in H. injection H as <-. by vm_compute.
  - intros _. apply columns_apart_delays.
    2: { intros Hr. assert (ranks hbm2_config = 1) by (vm_compute; reflexivity). lia. }
    repeat (apply Forall_cons; split; [split; vm_compute; reflexivity|]). by apply Forall_nil.
Qed.

(** Two reads of one address, a write, a read of it and a read of another row. *)
Definition demo_events : list ctl_event :=
  [Offer 0 false; Offer 0 false; Offer 64 true; Offer 64 false; Offer 0x4000000 false] ++
  replicate 90 Tick ++ replicate 5 (Collect 90).

Lemma demo_controller_new : exists c0, DController_new hbm2_config 0 = Ok c0.
Proof. unfold DController_new. cbn. eexists. reflexivity. Qed.

Lemma controller_safe_witness :
  exists c0 c accepted returned, DController_new hbm2_config 0 = Ok c0 /\
    ctl_run hbm2_config demo_events (c0, [], []) = Ok (c, accepted, returned) /\
    accepted ≡ₚ returned ++ outstanding c.
Proof.
  destruct demo_controller_new as (c0 & E).
  destruct (controller_safe hbm2_config 0 c0 demo_events hbm2_runnable E) as (c & acc & ret & Hrun & Hbal & _).
  - repeat constructor; discriminate.
  - reflexivity.
  - exists c0, c, acc, ret. split; [exact E|]. split; [exact Hrun|exact Hbal].
Defined.

(** In the run above all the reads come back, the write is posted at once. *)
Example demo_events_run :
  (r ← (c0 ← DController_new hbm2_config 0; ctl_run hbm2_config demo_events (c0, [], []));
   Ok (r.2, outstanding r.1.1)) =
  Ok ([(64, true); (64, false); (0, false); (0, false); (0x4000000, false)], []).
Proof. vm_compute. reflexivity. Qed.
