(* ===== verification/ControllerBounds.v ===== *)
(** * DRAMsim3: how much a controller holds

    The queues of a channel controller (DRAMsim3/src/controller.cc,
    command_queue.cc) never grow past the sizes of the configuration, so the
    requests on their way are bounded; the multimap of pending reads is not. *)

From stdpp Require Import base tactics list list_numbers numbers strings gmap.
From Stdlib Require Import ZArith Lia.
From S2P Require Import Prelude DramCommon DramConfig DramTiming BankState ChannelState SimpleStats.
From S2P Require Import CommandQueue Refresh DramController ControllerSafety.

(** The number of command queues of a configuration, and the requests that fit
    into the transaction queues and the command queues together. *)
Definition command_queues (config : Config) : Z :=
  if decide (queue_structure config = "PER_BANK"%string) then ranks config * banks config else ranks config.

Definition request_room (config : Config) : Z :=
  3 * trans_queue_size config + command_queues config * u64 (cmd_queue_size config).

(** Queues of at most [m] elements hold at most [m] elements each, together. *)
Lemma vsize_concat {A} (qs : list (list A)) m :
  Forall (fun l => vsize l <= m) qs -> vsize (concat qs) <= vsize qs * m.
Proof.
  induction 1 as [|l qs Hl _ IH]; [done|]. cbn [concat]. rewrite vsize_app.
  assert (vsize (l :: qs) = vsize qs + 1) as -> by (unfold vsize; cbn; lia). nia.
Qed.

Lemma queued_room config q :
  queue_inv config q -> vsize (queued q) <= command_queues config * u64 (cmd_queue_size config).
Proof.
  intros [Hs Hn _ _ _ Hr _ Hc Ht].
  assert (command_queues config = vsize (queues_ q)) as ->.
  { rewrite Hs, Hn, Ht. unfold command_queues. by case_decide. }
  apply vsize_concat, Forall_lookup. intros i l Hl.
  rewrite <- Hc. apply (Hr (Z.of_nat i)). apply vget_ok. rewrite Nat2Z.id. split; [lia|done].
Qed.

(** The requests on their way fit into the queues. *)
Lemma in_flight_room config c :
  ctl_ok config c -> vsize (in_flight false [] c) + vsize (in_flight true [] c) <= request_room config.
Proof.
  intros [Hm Hr]. pose proof (queued_room config _ (mo_queue _ _ Hm)) as Hq.
  pose proof (ro_room _ _ _ Hr UNIFIED) as Hu. pose proof (ro_room _ _ _ Hr READS) as Hrd.
  pose proof (ro_room _ _ _ Hr WRITES) as Hw. unfold capacity in *. cbn [get_queue] in *.
  assert (Ht : forall l, vsize (trans_addrs false l) + vsize (trans_addrs true l) = vsize l).
  { unfold trans_addrs, vsize. induction l as [|t l IH]; [done|]. rewrite !filter_cons, !length_fmap in *.
    cbn [length]. repeat case_decide; destruct (dt_is_write t); try congruence; cbn [length]; lia. }
  assert (Hx : forall l, vsize (cmd_addrs false l) + vsize (cmd_addrs true l) <= vsize l).
  { unfold cmd_addrs, vsize. induction l as [|x l IH]; [done|]. rewrite !filter_cons, !length_fmap in *.
    cbn [length]. destruct (cmd_type x) eqn:E; unfold IsRead, IsWrite in *; rewrite !E in *;
      repeat case_decide; try discriminate; cbn [length]; lia. }
  unfold in_flight, request_room. rewrite !vsize_app. cbn [app].
  specialize (Ht (waiting c)). specialize (Hx (queued (cmd_queue_ c))).
  unfold waiting in Ht at 3. rewrite !vsize_app in Ht. lia.
Qed.

(** Offering one read address over and over: only the first read is queued, all
    of them are accepted. *)
Definition reading (a : Z) (n : nat) (c : DController) : Prop :=
  (forall s, vsize (get_queue c s) <= Z.of_nat (n `min` 1)) /\ pending_wr_q_ c = [] /\
  dt_addr <$> pending_rd_q_ c = replicate n a.

Lemma count_addr_replicate a n l : dt_addr <$> l = replicate n a -> count_addr a l = n.
Proof.
  intros H. assert (length l = n) as <- by (rewrite <- (length_fmap dt_addr), H; apply length_replicate).
  unfold count_addr. rewrite filter_keep_all; [done|]. intros t Ht.
  assert (dt_addr t ∈ replicate (length l) a) as E by (rewrite <- H; by apply list_elem_of_fmap_2).
  by apply elem_of_replicate_inv in E.
Qed.

Lemma offer_again (config : Config) c a n acc ret :
  2 <= trans_queue_size config -> reading a n c ->
  exists c', ctl_step config (Offer a false) (c, acc, ret) = Ok (c', acc ++ [(a, false)], ret) /\
    reading a (S n) c'.
Proof.
  intros Hcap (Hq & Hw & Hr). cbn [ctl_step].
  assert (Ha : WillAcceptTransaction config c a false = true).
  { pose proof (Hq UNIFIED). pose proof (Hq READS). cbn [get_queue] in *.
    unfold WillAcceptTransaction, capacity. cbn [negb]. destruct (is_unified_queue_ c); apply bool_decide_eq_true; lia. }
  rewrite Ha. eexists. split; [reflexivity|].
  assert (Hn : forall t, dt_addr t = a -> dt_addr <$> (pending_rd_q_ c ++ [t]) = replicate (S n) a).
  { intros t Ht. rewrite fmap_app, Hr. cbn. rewrite Ht. by rewrite replicate_cons_app. }
  unfold AddTransaction. simpl. rewrite Hw. cbn.
  rewrite (count_addr_replicate a (S n)) by (by apply Hn).
  case_decide as Hno; [exfalso; cbn in Hno; lia|]. case_decide as Hone.
  - injection Hone as ->. destruct (is_unified_queue_ c); (split_and!; [|done|by apply Hn]); intros s;
      specialize (Hq s); destruct s; cbn in *; rewrite ?vsize_app; unfold vsize in *; cbn; lia.
  - split_and!; [|done|by apply Hn]. intros s. specialize (Hq s). destruct s; cbn in *; lia.
Qed.

Lemma offer_many (config : Config) a n c acc k :
  2 <= trans_queue_size config -> reading a k c ->
  exists c', ctl_run config (replicate n (Offer a false)) (c, acc, []) = Ok (c', acc ++ replicate n (a, false), []) /\
    reading a (k + n) c'.
Proof.
  intros Hcap. revert c acc k; induction n as [|n IH]; intros c acc k Hc.
  { exists c. cbn. rewrite app_nil_r, Nat.add_0_r. done. }
  destruct (offer_again config c a k acc [] Hcap Hc) as (c1 & E & H1).
  destruct (IH c1 (acc ++ [(a, false)]) (S k) H1) as (c' & E' & H').
  exists c'. unfold ctl_run in *. cbn [replicate for_each]. rewrite E. cbn [mbind outcome_bind]. rewrite E'.
  rewrite <- app_assoc. split; [done|]. by replace (k + S n)%nat with (S k + n)%nat by lia.
Qed.

(** C22. What a controller holds is bounded by its configuration, except for the
    pending reads.  In every run on a new controller the transaction queues stay
    within [trans_queue_size], every command queue within [cmd_queue_size], and
    so the pending writes together with the different addresses of the pending
    reads within what the queues hold; but reads of one address are merged
    without a limit: any number of them is accepted in the same cycle, and all
    of them are kept in [pending_rd_q_]. *)
Theorem controller_bounded config ch c0 evs :
  runnable config -> DController_new config ch = Ok c0 -> Forall event_ok evs ->
  Z.of_nat (length evs) < 2 ^ 63 ->
  (exists c accepted returned,
    ctl_run config evs (c0, [], []) = Ok (c, accepted, returned) /\
    (forall s, vsize (get_queue c s) <= trans_queue_size config) /\
    vsize (queues_ (cmd_queue_ c)) = command_queues config /\
    (forall i l, vget (queues_ (cmd_queue_ c)) i = Ok l -> vsize l <= u64 (cmd_queue_size config)) /\
    Z.of_nat (size (list_to_set (dt_addr <$> pending_rd_q_ c) : gset Z)) + vsize (pending_wr_q_ c)
      <= request_room config) /\
  (2 <= trans_queue_size config -> forall a n, exists c,
    ctl_run config (replicate n (Offer a false)) (c0, [], []) = Ok (c, replicate n (a, false), []) /\
    length (pending_rd_q_ c) = n).
Proof.
  intros Hrun Hnew He Hn. destruct (DController_new_ok config ch c0 Hrun Hnew) as (Hc & Hclk & Ho). split.
  - destruct (ctl_run_ok config evs (c0, [], []) 0 Hrun He) as ([[c acc] ret] & E & (Hok & _)).
    { split_and!; [done|lia..|]. by rewrite Ho. }
    { lia. }
    exists c, acc, ret. pose proof (in_flight_room config c Hok) as Hroom. destruct Hok as [Hm Hr].
    destruct (mo_queue _ _ Hm) as [Hs Hnum _ _ _ Hqr _ Hcap Hst]. split_and!; [done| | | |].
    + apply (ro_room _ _ _ Hr).
    + rewrite Hs, Hnum, Hst. unfold command_queues. by case_decide.
    + intros i l Hl. rewrite <- Hcap. by apply (Hqr i).
    + assert ((list_to_set (dt_addr <$> pending_rd_q_ c) : gset Z) ≡ list_to_set (in_flight false [] c)) as ->.
      { intros a. rewrite !elem_of_list_to_set. symmetry. apply (ro_reads _ _ _ Hr). }
      rewrite size_list_to_set by apply (ro_reads_once _ _ _ Hr).
      assert (vsize (pending_wr_q_ c) = vsize (in_flight true [] c)) as ->; [|exact Hroom].
      unfold vsize. by rewrite (ro_writes _ _ _ Hr), length_fmap.
  - intros Hcap a n. destruct (offer_many config a n c0 [] 0 Hcap) as (c & E & _ & _ & Hp).
    { unfold DController_new in Hnew. ok_inv Hnew. destruct (decide _) in Hnew; [discriminate|].
      injection Hnew as <-. split_and!; [by intros []|done..]. }
    exists c. split; [exact E|]. rewrite <- (length_fmap dt_addr), Hp. apply length_replicate.
Qed.

Lemma controller_bounded_witness :
  trans_queue_size hbm2_config = 32 /\ cmd_queue_size hbm2_config = 8 /\ request_room hbm2_config = 224 /\
  exists c0 c accepted returned, DController_new hbm2_config 0 = Ok c0 /\
    ctl_run hbm2_config demo_events (c0, [], []) = Ok (c, accepted, returned) /\
    Z.of_nat (size (list_to_set (dt_addr <$> pending_rd_q_ c) : gset Z)) + vsize (pending_wr_q_ c) <= 224.
Proof.
  split; [vm_compute; reflexivity|]. split; [vm_compute; reflexivity|]. split; [vm_compute; reflexivity|].
  destruct demo_controller_new as (c0 & E).
  destruct (controller_bounded hbm2_config 0 c0 demo_events hbm2_runnable E)
    as ((c & acc & ret & Hrun & _ & _ & _ & Hb) & _).
  - repeat constructor; discriminate.
  - reflexivity.
  - exists c0, c, acc, ret. split; [exact E|]. split; [exact Hrun|exact Hb].
Defined.
