(* ===== verification/ControllerLimits.v ===== *)
(** * DRAMsim3: what the safety of the controller depends on

    [ControllerSafety.controller_safe] asks for configurations without self
    refresh, and with column commands kept apart by the timing tables where two
    commands can be issued in a cycle.  Two runs of the controller
    (DRAMsim3/src/controller.cc) show that neither condition can be dropped. *)

From stdpp Require Import base tactics list list_numbers numbers strings gmap.
From Stdlib Require Import ZArith Lia.
From S2P Require Import Prelude DramCommon IniReader DramConfig DramTiming BankState ChannelState SimpleStats.
From S2P Require Import CommandQueue Refresh DramController ControllerSafety.

(** HBM2_8Gb_x128.ini with some parameters replaced. *)
Definition hbm2_with (changes : list (string * string * string)) : INIReader :=
  foldl (fun r kv => ValueHandler r kv.1.1 kv.1.2 kv.2) (mkINIReader ∅)
    (filter (fun kv => kv.1 ∉ changes.*1) hbm2_values ++ changes).

Definition load (reader : INIReader) : match Config_new reader with Ok _ => Config | Fault _ => unit end :=
  match Config_new reader as o return match o with Ok _ => Config | Fault _ => unit end with
  | Ok c => c
  | Fault _ => tt
  end.

(** ** Two ranks: a read is dropped *)
Definition two_rank_reader : INIReader :=
  hbm2_with [("system", "channel_size", "2048"); ("system", "unified_queue", "True")]%string.

Definition two_rank_config : Config := Eval vm_compute in load two_rank_reader.

(** The first address of rank 1, and of the second bank of rank 0. *)
Definition in_rank1 : Z := Z.shiftl 1 (ra_pos two_rank_config + shift_bits two_rank_config).
Definition in_bank1 : Z := Z.shiftl 1 (ba_pos two_rank_config + shift_bits two_rank_config).

(** Open a row in three banks; a read of rank 0 delays a write of rank 0 until the
    cycle in which a read of rank 1 becomes ready, too. *)
Definition drop_events : list ctl_event :=
  [Offer 0 false; Offer in_rank1 false; Offer in_bank1 false] ++ replicate 60 Tick ++
  [Offer 64 false; Offer (in_bank1 + 64) true] ++ replicate 14 Tick ++
  [Offer (in_rank1 + 64) false] ++ replicate 60 Tick.


(** ** Self refresh: the wake-up aborts *)
Definition sref_reader : INIReader :=
  hbm2_with [("system", "enable_self_refresh", "true"); ("system", "sref_threshold", "10")]%string.

Definition sref_config : Config := Eval vm_compute in load sref_reader.

(** A read that arrives after [n] idle cycles. *)
Definition wakeup_events (n : nat) : list ctl_event := replicate n Tick ++ [Offer 64 false] ++ replicate 30 Tick.

Definition wakeup (n : nat) : outcome unit :=
  c0 ← DController_new sref_config 0; ctl_run sref_config (wakeup_events n) (c0, [], []) ≫= fun _ => Ok tt.

(** Waking a rank up too early ends the simulation.  With self refresh an
    idle rank enters it after [sref_threshold] cycles (10 here); a read that
    becomes a command before the rank may leave it again ([tCKESR] is 12) makes
    [ClockTick] ask the banks for SREF_EXIT, which [BankState::GetReadyCommand]
    does not know in state SREF: it calls [AbruptExit].  Earlier and later reads
    are served. *)
Theorem early_wakeup_aborts :
  Config_new sref_reader = Ok sref_config /\
  (forall n, (n < 9)%nat -> wakeup n = Ok tt) /\
  (forall n, (9 <= n < 20)%nat -> wakeup n = Fault AbruptExit) /\
  (forall n, (20 <= n < 40)%nat -> wakeup n = Ok tt).
Proof.
  assert (Hin : forall (P : nat -> Prop) k m, Forall P (seq k m) -> forall n, (k <= n < k + m)%nat -> P n).
  { intros P k m HP n Hn. eapply Forall_forall; [exact HP|]. by apply elem_of_seq. }
  split; [vm_compute; reflexivity|]. split_and!.
  - intros n Hn. apply (Hin (fun n => wakeup n = Ok tt) 0%nat 9%nat); [|lia]. repeat constructor; vm_compute; reflexivity.
  - apply (Hin (fun n => wakeup n = Fault AbruptExit) 9%nat 11%nat). repeat constructor; vm_compute; reflexivity.
  - apply (Hin (fun n => wakeup n = Ok tt) 20%nat 20%nat). repeat constructor; vm_compute; reflexivity.
Qed.
