(* ===== verification/IdealDram.v ===== *)
(** * The ideal memory system (DRAMsim3/src/dram_system.cc, [IdealDRAMSystem])

    An unbounded buffer whose transactions are returned once they are [latency_]
    cycles old.  [ClockTick] scans the buffer with an iterator it advances once
    more after every erase, so the element behind a returned one is not looked
    at in that cycle. *)

From stdpp Require Import base tactics list list_numbers numbers strings gmap.
From Stdlib Require Import ZArith Lia.
From S2P Require Import Prelude Common DramInterface DramCommon.

Record IdealDRAMSystem := mkIdeal {
  id_clk : Z;
  latency_ : Z;
  infinite_buffer_q : list DTrans
}.

#[export] Instance IdealDRAMSystem_fields : Fields IdealDRAMSystem := fun s =>
  mkIdeal (id_clk s) (latency_ s) (infinite_buffer_q s).

Definition Ideal_new (ideal_memory_latency : Z) : IdealDRAMSystem := mkIdeal 0 ideal_memory_latency [].

Definition Ideal_WillAcceptTransaction (s : IdealDRAMSystem) (a : Z) (w : bool) : bool := true.

Definition Ideal_AddTransaction (s : IdealDRAMSystem) (a : Z) (w : bool) : IdealDRAMSystem :=
  s <| infinite_buffer_q :=
    infinite_buffer_q s ++ [(DTrans_new a w) <| dt_added := id_clk s |>] |>.

(** [clk_ - added_cycle >= static_cast<uint64_t>(latency_)] *)
Definition due (clk lat : Z) (t : DTrans) : bool := u64 lat <=? u64 (clk - dt_added t).

(** The iterator loop: the returned transactions and the ones that stay. *)
Fixpoint ideal_scan (clk lat : Z) (q : list DTrans) : list DTrans * list DTrans :=
  match q with
  | [] => ([], [])
  | t :: q =>
      if due clk lat t then
        match q with
        | [] => ([t], [])
        | t' :: q' => let '(done, kept) := ideal_scan clk lat q' in (t :: done, t' :: kept)
        end
      else let '(done, kept) := ideal_scan clk lat q in (done, t :: kept)
  end.

Definition Ideal_ClockTick (s : IdealDRAMSystem) : IdealDRAMSystem * list DTrans :=
  let '(done, kept) := ideal_scan (id_clk s) (latency_ s) (infinite_buffer_q s) in
  (s <| infinite_buffer_q := kept |> <| id_clk := u64 (id_clk s + 1) |>, done).

(** ** The laws of the interface *)
Definition trans_of (t : DTrans) : Transaction := mkTransaction (dt_addr t) (dt_is_write t).

#[export] Instance ideal_backend : DramBackend IdealDRAMSystem := {|
  dram_will_accept := fun s a w => Ok (Ideal_WillAcceptTransaction s a w);
  dram_add := fun s a w => Ok (Ideal_AddTransaction s a w);
  dram_tick := fun s => let '(s, done) := Ideal_ClockTick s in Ok (s, trans_of <$> done)
|}.

(** Induction two elements at a time, as the scan may step. *)
Lemma list_ind2 {A} (P : list A -> Prop) :
  P [] -> (forall x, P [x]) -> (forall x y l, P l -> P (y :: l) -> P (x :: y :: l)) -> forall l, P l.
Proof.
  intros H0 H1 H2. assert (H : forall l, P l /\ forall x, P (x :: l)).
  { induction l as [|y l [IH1 IH2]]; [auto|]. split; auto. }
  intros l. apply H.
Qed.

Lemma ideal_scan_perm clk lat q :
  (ideal_scan clk lat q).1 ++ (ideal_scan clk lat q).2 ≡ₚ q.
Proof.
  induction q as [|x|x y q IH1 IH2] using list_ind2; [done| |].
  - simpl. by destruct (due clk lat x).
  - cbn [ideal_scan] in *. destruct (due clk lat x).
    + destruct (ideal_scan clk lat q) as [d k]. simpl in *.
      by rewrite <- Permutation_middle, IH1.
    + set (r := if due clk lat y then _ else _) in *. destruct r as [d k]. simpl in *.
      by rewrite <- Permutation_middle, IH2.
Qed.

#[export] Instance ideal_laws : DramLaws IdealDRAMSystem.
Proof.
  refine {| dram_inv := fun _ => True;
            dram_pending := fun s => trans_of <$> infinite_buffer_q s |}.
  - intros d a w d' _ _ _ H. injection H as <-. split; [done|]. simpl.
    rewrite fmap_app. symmetry. apply Permutation_cons_append.
  - intros d d' done _ H. split; [done|]. simpl in H. unfold Ideal_ClockTick in H.
    pose proof (ideal_scan_perm (id_clk d) (latency_ d) (infinite_buffer_q d)) as Hp.
    destruct (ideal_scan _ _ _) as [dn k]. injection H as <- <-. simpl in *.
    rewrite <- fmap_app. by apply Permutation_map.
Defined.

#[export] Instance ideal_total : DramTotal IdealDRAMSystem.
Proof.
  refine {| dram_ready := fun _ _ => True |}.
  - intros. eexists. reflexivity.
  - intros. eexists. split; [reflexivity|done].
  - intros n d _ _. simpl. destruct (Ideal_ClockTick d) as [d' done]. by eexists _, _.
Defined.

(** A cycle that returns nothing leaves the buffer, and nothing in it is due. *)
Lemma ideal_scan_none clk lat q :
  (ideal_scan clk lat q).1 = [] ->
  (ideal_scan clk lat q).2 = q /\ Forall (fun t => due clk lat t = false) q.
Proof.
  induction q as [|x|x y q IH1 IH2] using list_ind2; [done| |].
  - simpl. destruct (due clk lat x) eqn:E; [done|]. intros _. split; [done|]. by constructor.
  - cbn [ideal_scan] in *. destruct (due clk lat x) eqn:E.
    + by destruct (ideal_scan clk lat q) as [d k].
    + set (r := if due clk lat y then _ else _) in *. destruct r as [d k]. simpl in *.
      intros ->. destruct (IH2 eq_refl) as [-> Hf]. split; [done|]. by constructor.
Qed.

(** The cycles until the oldest transaction is due. *)
Definition ideal_lag (s : IdealDRAMSystem) : Z :=
  match infinite_buffer_q s with
  | [] => 0
  | t :: _ => u64 (latency_ s) - u64 (id_clk s - dt_added t)
  end.

#[export] Instance ideal_live : DramLive IdealDRAMSystem.
Proof.
  refine {| dram_lag := ideal_lag |}; [done|].
  intros d d' _ Ht Hp. simpl in Ht, Hp. unfold Ideal_ClockTick in Ht.
  pose proof (ideal_scan_none (id_clk d) (latency_ d) (infinite_buffer_q d)) as Hn.
  destruct (ideal_scan _ _ _) as [dn k]. injection Ht as <- Hd. simpl in Hn.
  apply fmap_nil_inv in Hd. destruct (Hn Hd) as [-> Hf]. unfold ideal_lag. simpl.
  destruct (infinite_buffer_q d) as [|t q]; [done|]. apply Forall_cons in Hf as [Ht _].
  unfold due in Ht. apply Z.leb_gt in Ht. pose proof (u64_range (latency_ d)).
  pose proof (u64_range (id_clk d - dt_added t)).
  assert (u64 (u64 (id_clk d + 1) - dt_added t) = u64 (id_clk d - dt_added t) + 1) as ->; [|lia].
  rewrite <- (u64_small (u64 (id_clk d - dt_added t) + 1)) by lia. rewrite u64_add_l.
  unfold u64. rewrite Zminus_mod_idemp_l. f_equal. lia.
Defined.

(** ** Latency and bandwidth *)
Lemma ideal_scan_due clk lat q :
  Forall (fun t => due clk lat t = true) (ideal_scan clk lat q).1.
Proof.
  induction q as [|x|x y q IH1 IH2] using list_ind2; [constructor| |].
  - simpl. destruct (due clk lat x) eqn:E; [by constructor|constructor].
  - cbn [ideal_scan] in *. destruct (due clk lat x) eqn:E.
    + destruct (ideal_scan clk lat q) as [d k]. by constructor.
    + set (r := if due clk lat y then _ else _) in *. by destruct r as [d k].
Qed.

Lemma ideal_scan_half clk lat q :
  vsize (filter (fun t => due clk lat t) q) <= 2 * vsize (ideal_scan clk lat q).1.
Proof.
  induction q as [|x|x y q IH1 IH2] using list_ind2; [done| |].
  - cbn [ideal_scan]. rewrite filter_cons, filter_nil.
    destruct (due clk lat x); [rewrite decide_True by done|rewrite decide_False by auto];
      unfold vsize; simpl; lia.
  - rewrite filter_cons. cbn [ideal_scan] in *. destruct (due clk lat x) eqn:E.
    + rewrite decide_True by done. rewrite filter_cons.
      destruct (ideal_scan clk lat q) as [d k]. unfold vsize in *. simpl in *.
      case_decide; simpl; lia.
    + rewrite decide_False by auto. set (r := if due clk lat y then _ else _) in *.
      by destruct r as [d k].
Qed.

(** the ideal memory returns only transactions that are at least [latency_]
    cycles old, keeps exactly the others, and in one cycle returns at least half
    of the transactions that are due. *)
Theorem ideal_clock_tick (s s' : IdealDRAMSystem) (done : list DTrans) :
  Ideal_ClockTick s = (s', done) ->
  done ++ infinite_buffer_q s' ≡ₚ infinite_buffer_q s /\
  id_clk s' = u64 (id_clk s + 1) /\
  Forall (fun t => u64 (latency_ s) <= u64 (id_clk s - dt_added t)) done /\
  vsize (filter (fun t => due (id_clk s) (latency_ s) t) (infinite_buffer_q s)) <= 2 * vsize done.
Proof.
  unfold Ideal_ClockTick. intros H.
  pose proof (ideal_scan_perm (id_clk s) (latency_ s) (infinite_buffer_q s)) as Hp.
  pose proof (ideal_scan_due (id_clk s) (latency_ s) (infinite_buffer_q s)) as Hd.
  pose proof (ideal_scan_half (id_clk s) (latency_ s) (infinite_buffer_q s)) as Hh.
  destruct (ideal_scan _ _ _) as [dn k]. injection H as <- <-. simpl in *. split_and!; try done.
  eapply Forall_impl; [exact Hd|]. intros t Ht. by apply Z.leb_le.
Qed.

Definition demo_ideal : IdealDRAMSystem :=
  Ideal_AddTransaction (Ideal_AddTransaction (mkIdeal 5 0 []) 64 false) 128 true.

(** Two transactions that are due in the same cycle: the second one stays. *)
Lemma ideal_clock_tick_witness :
  exists s' done, Ideal_ClockTick demo_ideal = (s', done) /\
    vsize done = 1 /\ vsize (infinite_buffer_q s') = 1 /\
    done ++ infinite_buffer_q s' ≡ₚ infinite_buffer_q demo_ideal.
Proof.
  eexists _, _. split; [reflexivity|]. split; [reflexivity|]. split; [reflexivity|].
  apply (ideal_clock_tick demo_ideal _ _ eq_refl).
Defined.
