(* ===== verification/DramSystem.v ===== *)
(** * DRAMsim3: the JEDEC memory system (DRAMsim3/src/dram_system.cc, dram_system.h)

    One controller per channel, chosen by the channel field of the address.  A
    cycle first returns every completed transaction through the callbacks and
    then advances all the controllers.  The printing of an epoch is left out;
    that it moves the statistics of every channel is not.

    The system is an instance of the interface the accelerator uses: it loses and
    invents no transaction, and on a runnable configuration it never fails. *)

From stdpp Require Import base tactics list list_numbers numbers strings gmap.
From Stdlib Require Import ZArith Lia.
From S2P Require Import Prelude Common DramInterface DramCommon DramConfig DramTiming BankState ChannelState.
From S2P Require Import SimpleStats CommandQueue Refresh DramController ControllerSafety.

Record JedecDRAMSystem := mkJedec {
  j_config : Config;
  j_clk_ : Z;
  last_req_clk_ : Z;
  ctrls_ : list DController
}.

#[export] Instance JedecDRAMSystem_fields : Fields JedecDRAMSystem := fun s =>
  mkJedec (j_config s) (j_clk_ s) (last_req_clk_ s) (ctrls_ s).

(** [f(ctrls_[i])] for each channel, in order. *)
Definition on_channels (f : DController -> outcome DController) (cs : list DController)
    : outcome (list DController) :=
  for_int (vsize cs) (fun i cs => c ← vget cs i; c ← f c; vset cs i c) cs.

Definition Jedec_new (config : Config) : outcome JedecDRAMSystem :=
  if IsHMC (protocol config) then Fault AbruptExit
  else if decide (channels config < 0) then Fault LengthError
  else
    cs ← for_int (channels config) (fun i cs => c ← DController_new config i; Ok (cs ++ [c])) [];
    Ok (mkJedec config 0 0 cs).

Definition Jedec_WillAcceptTransaction (s : JedecDRAMSystem) (a : Z) (w : bool) : outcome bool :=
  c ← vget (ctrls_ s) (GetChannel (j_config s) a);
  Ok (WillAcceptTransaction (j_config s) c a w).

Definition Jedec_AddTransaction (s : JedecDRAMSystem) (a : Z) (w : bool) : outcome (bool * JedecDRAMSystem) :=
  let channel := GetChannel (j_config s) a in
  c ← vget (ctrls_ s) channel;
  let ok := WillAcceptTransaction (j_config s) c a w in
  if ok then
    cs ← vset (ctrls_ s) channel (AddTransaction c (DTrans_new a w));
    Ok (ok, s <| ctrls_ := cs |> <| last_req_clk_ := j_clk_ s |>)
  else Fault AssertFailed.

(** The [while (true)] loop: the completed transactions of one channel in the
    order of their callbacks.  The queue shrinks in every round, so its length
    bounds them. *)
Fixpoint return_done (fuel : nat) (clk : Z) (c : DController) : list (Z * bool) * DController :=
  match fuel with
  | O => ([], c)
  | S fuel =>
      match ReturnDoneTrans c clk with
      | (None, c) => ([], c)
      | (Some p, c) => let '(l, c) := return_done fuel clk c in (p :: l, c)
      end
  end.

Definition return_channel (clk : Z) (c : DController) : list (Z * bool) * DController :=
  return_done (S (length (return_queue_ c))) clk c.

(** The loop over the channels: all the callbacks of a cycle. *)
Fixpoint return_all (clk : Z) (cs : list DController) : list (Z * bool) * list DController :=
  match cs with
  | [] => ([], [])
  | c :: cs =>
      let '(l, c) := return_channel clk c in
      let '(l', cs) := return_all clk cs in (l ++ l', c :: cs)
  end.

(** [BaseDRAMSystem::PrintEpochStats], less the printing *)
Definition Base_PrintEpochStats (s : JedecDRAMSystem) : outcome JedecDRAMSystem :=
  cs ← on_channels PrintEpochStats (ctrls_ s);
  Ok (s <| ctrls_ := cs |>).

(** [BaseDRAMSystem::ResetStats] *)
Definition Base_ResetStats (s : JedecDRAMSystem) : outcome JedecDRAMSystem :=
  cs ← on_channels (fun c => Ok (c <| simple_stats_ := Reset (simple_stats_ c) |>)) (ctrls_ s);
  Ok (s <| ctrls_ := cs |>).

(** [JedecDRAMSystem::ClockTick] with the transactions it reports; [clk_ %
    epoch_period] converts the period to [uint64_t]. *)
Definition Jedec_ClockTick (s : JedecDRAMSystem) : outcome (JedecDRAMSystem * list (Z * bool)) :=
  let config := j_config s in
  let '(done, cs) := return_all (j_clk_ s) (ctrls_ s) in
  cs ← on_channels (ControllerTick config (Timing_new config)) cs;
  let s := s <| ctrls_ := cs |> <| j_clk_ := u64 (j_clk_ s + 1) |> in
  if decide (u64 (epoch_period config) = 0) then Fault Undefined
  else
    s ← (if decide (j_clk_ s mod u64 (epoch_period config) = 0) then Base_PrintEpochStats s else Ok s);
    Ok (s, done).

(** ** The loop over the channels *)
Lemma on_channels_forall (f : DController -> outcome DController) cs :
  (forall c, c ∈ cs -> exists c', f c = Ok c') ->
  exists cs', on_channels f cs = Ok cs' /\ Forall2 (fun c c' => f c = Ok c') cs cs'.
Proof.
  intros Hf. unfold on_channels.
  destruct (for_int_ind (vsize cs) (fun i cs => c ← vget cs i; c ← f c; vset cs i c)
    (fun i l => exists done todo rest, l = done ++ rest /\ cs = todo ++ rest /\ Z.of_nat (length todo) = i /\
       Forall2 (fun c c' => f c = Ok c') todo done) cs) as (cs' & E & done & todo & rest & -> & Ecs & Hl & H2).
  - apply vsize_nonneg.
  - exists [], [], cs. by split_and!.
  - intros i l Hi (done & todo & rest & -> & Ecs & Hl & H2).
    pose proof (Forall2_length _ _ _ H2) as Hlen.
    destruct rest as [|c rest].
    { exfalso. unfold vsize in Hi. rewrite Ecs, length_app in Hi. simpl in Hi. lia. }
    assert (Eg : vget (done ++ c :: rest) i = Ok c).
    { apply vget_ok. split; [lia|]. apply list_lookup_middle. lia. }
    rewrite Eg. cbn [mbind outcome_bind]. destruct (Hf c) as (c' & Ec); [rewrite Ecs; set_solver|].
    rewrite Ec. cbn [mbind outcome_bind].
    assert (Es : vset (done ++ c :: rest) i c' = Ok (done ++ c' :: rest)).
    { apply vset_ok. unfold vsize. rewrite length_app. simpl. split; [lia|].
      replace (Z.to_nat i) with (length done + 0)%nat by lia. by rewrite insert_app_r. }
    rewrite Es. eexists. split; [reflexivity|]. exists (done ++ [c']), (todo ++ [c]), rest.
    rewrite <- !app_assoc. split_and!; [done|done|rewrite length_app; simpl; lia|].
    apply Forall2_app; [done|by repeat constructor].
  - exists (done ++ rest). split; [done|]. destruct rest as [|c rest].
    + by rewrite Ecs, !app_nil_r.
    + exfalso. unfold vsize in Hl. rewrite Ecs, length_app in Hl. simpl in Hl. lia.
Qed.

Lemma on_channels_inv (f : DController -> outcome DController) cs cs' :
  on_channels f cs = Ok cs' -> Forall2 (fun c c' => f c = Ok c') cs cs'.
Proof.
  unfold on_channels, for_int.
  assert (H : forall rest done l,
    for_each (fun i cs => c ← vget cs i; c ← f c; vset cs i c) (seqZ (vsize done) (vsize rest)) (done ++ rest) = Ok l ->
    exists rest', l = done ++ rest' /\ Forall2 (fun c c' => f c = Ok c') rest rest').
  { induction rest as [|c rest IH]; intros done l H.
    - injection H as <-. by exists [].
    - unfold vsize at 2 in H. simpl in H. rewrite seqZ_cons in H by lia. cbn [for_each] in H.
      apply bind_ok in H as (l1 & H1 & H). apply bind_ok in H1 as (c0 & Eg & H1).
      apply bind_ok in H1 as (c' & Ec & Es). apply vget_ok in Eg as [_ Eg]. apply vset_ok in Es as [_ ->].
      unfold vsize in Eg. rewrite Nat2Z.id, list_lookup_middle in Eg by done. injection Eg as <-.
      assert (Ei : <[Z.to_nat (vsize done) := c']> (done ++ c :: rest) = (done ++ [c']) ++ rest).
      { unfold vsize. rewrite Nat2Z.id, insert_app_r_alt, Nat.sub_diag by done. simpl. by rewrite <- app_assoc. }
      rewrite Ei in H. destruct (IH (done ++ [c']) l) as (rest' & -> & H2).
      + rewrite <- H. f_equal. unfold vsize. rewrite length_app. simpl. f_equal; lia.
      + exists (c' :: rest'). split; [by rewrite <- app_assoc|by constructor]. }
  intros E. by destruct (H cs [] cs' E) as (rest' & -> & H2).
Qed.

(** ** Returned transactions *)
Lemma return_done_outstanding fuel clk c :
  outstanding c ≡ₚ (return_done fuel clk c).1 ++ outstanding (return_done fuel clk c).2.
Proof.
  revert c; induction fuel as [|fuel IH]; intros c; cbn [return_done]; [done|].
  pose proof (ReturnDoneTrans_outstanding c clk) as H. destruct (ReturnDoneTrans c clk) as [[p|] c']; [|done].
  specialize (IH c'). destruct (return_done fuel clk c') as [l c'']. simpl in *. by rewrite H, IH.
Qed.

(** The rounds are enough: what stays in the queue is not complete yet. *)
Lemma return_done_complete fuel clk c :
  (length (return_queue_ c) < fuel)%nat ->
  Forall (fun t => clk < dt_complete t) (return_queue_ (return_done fuel clk c).2).
Proof.
  revert c; induction fuel as [|fuel IH]; intros c Hf; [lia|]. cbn [return_done]. unfold ReturnDoneTrans.
  destruct (take_done clk (return_queue_ c)) as [[t l]|] eqn:E.
  - apply take_done_perm in E as [Hp _]. rewrite Hp in Hf. simpl in Hf.
    set (c' := c <| return_queue_ := l |> <| simple_stats_ := _ |>). specialize (IH c' ltac:(simpl; lia)).
    destruct (return_done fuel clk c') as [done c'']. exact IH.
  - simpl. clear Hf IH. induction (return_queue_ c) as [|t l IH]; [constructor|]. cbn in E.
    destruct (decide _); [discriminate E|]. destruct (take_done clk l) as [[]|]; [discriminate E|].
    constructor; [lia|by apply IH].
Qed.

(** The transactions of a system whose callback is still to come. *)
Definition system_pending (s : JedecDRAMSystem) : list (Z * bool) := ctrls_ s ≫= outstanding.

Lemma return_all_outstanding clk cs :
  cs ≫= outstanding ≡ₚ (return_all clk cs).1 ++ ((return_all clk cs).2 ≫= outstanding).
Proof.
  induction cs as [|c cs IH]; [done|]. cbn [return_all]. unfold return_channel.
  pose proof (return_done_outstanding (S (length (return_queue_ c))) clk c) as H.
  destruct (return_done _ clk c) as [l c'], (return_all clk cs) as [l' cs']. simpl in *.
  rewrite H, IH. solve_Permutation.
Qed.

Lemma bind_forall2 cs cs' :
  Forall2 (fun c c' => outstanding c' ≡ₚ outstanding c) cs cs' -> cs' ≫= outstanding ≡ₚ cs ≫= outstanding.
Proof. induction 1 as [|c c' cs cs' Hc _ IH]; [done|]. simpl. by rewrite Hc, IH. Qed.

Lemma PrintEpochStats_outstanding c c' : PrintEpochStats c = Ok c' -> outstanding c' = outstanding c.
Proof. unfold PrintEpochStats. intros H. by ok_inv H. Qed.

Lemma Jedec_tick_pending s s' done :
  Jedec_ClockTick s = Ok (s', done) -> done ++ system_pending s' ≡ₚ system_pending s.
Proof.
  unfold Jedec_ClockTick, system_pending. pose proof (return_all_outstanding (j_clk_ s) (ctrls_ s)) as Hr.
  destruct (return_all _ _) as [d cs]. simpl in Hr. intros H. apply bind_ok in H as (cs1 & E1 & H).
  destruct (decide _); [discriminate H|]. apply bind_ok in H as (s2 & E2 & H). injection H as <- <-.
  assert (H1 : cs1 ≫= outstanding ≡ₚ cs ≫= outstanding).
  { apply bind_forall2. eapply Forall2_impl; [exact (on_channels_inv _ _ _ E1)|].
    intros c c'. apply ControllerTick_outstanding. }
  assert (H2 : ctrls_ s2 ≫= outstanding ≡ₚ cs1 ≫= outstanding).
  { destruct (decide _); [|by injection E2 as <-]. unfold Base_PrintEpochStats in E2. ok_inv E2. simpl.
    apply bind_forall2. eapply Forall2_impl; [exact (on_channels_inv _ _ _ E)|].
    intros c c' Hc. by rewrite (PrintEpochStats_outstanding c c' Hc). }
  by rewrite Hr, H2, H1.
Qed.

Lemma Jedec_add_pending s a w ok s' :
  Jedec_AddTransaction s a w = Ok (ok, s') -> system_pending s' ≡ₚ (a, w) :: system_pending s.
Proof.
  unfold Jedec_AddTransaction, system_pending. intros H. apply bind_ok in H as (c & Ec & H).
  destruct (WillAcceptTransaction _ _ _ _); [|discriminate H]. apply bind_ok in H as (cs & Es & H). injection H as <- <-.
  apply vget_ok in Ec as [Hi Ec]. apply vset_ok in Es as [_ ->]. simpl.
  apply list_elem_of_split_length in Ec as (l1 & l2 & -> & Hl). rewrite insert_app_r_alt by lia.
  replace (_ - length l1)%nat with 0%nat by lia. simpl. rewrite !bind_app, !bind_cons, AddTransaction_outstanding.
  solve_Permutation.
Qed.

(** ** The interface *)
Definition to_trans (p : Z * bool) : Transaction := mkTransaction p.1 p.2.

Definition jedec_add (s : JedecDRAMSystem) (a : Z) (w : bool) : outcome JedecDRAMSystem :=
  r ← Jedec_AddTransaction s a w; Ok r.2.

Definition jedec_tick (s : JedecDRAMSystem) : outcome (JedecDRAMSystem * list Transaction) :=
  r ← Jedec_ClockTick s; Ok (r.1, fmap (M := list) to_trans r.2).

#[export] Instance jedec_backend : DramBackend JedecDRAMSystem := {|
  dram_will_accept := Jedec_WillAcceptTransaction;
  dram_add := jedec_add;
  dram_tick := jedec_tick
|}.

#[export] Instance jedec_laws : DramLaws JedecDRAMSystem.
Proof.
  refine {| dram_inv := fun _ => True; dram_pending := fun s => to_trans <$> system_pending s |}.
  - intros s a w s' _ _ _ H. split; [done|]. simpl in H. apply bind_ok in H as ([ok s1] & E & H). injection H as <-.
    by rewrite (Jedec_add_pending _ _ _ _ _ E).
  - intros s s' done _ H. split; [done|]. simpl in H. apply bind_ok in H as ([s1 d] & E & H). injection H as <- <-.
    rewrite <- fmap_app. by rewrite (Jedec_tick_pending _ _ _ E).
Defined.

(** ** The system never fails *)

(** A posted write waits for its callback until the next cycle. *)
Definition young (c : DController) : Prop :=
  forall t, t ∈ return_queue_ c -> dt_is_write t = true -> dt_complete t <= c_clk_ c + 1.

(** A well-formed controller at cycle [k]. *)
Definition chan_at (config : Config) (k : Z) (c : DController) : Prop :=
  ctl_ok config c /\ c_clk_ c = k /\ young c.

(** Every controller is well formed and at the clock of the system; good for [n]
    more cycles. *)
Record jedec_ok (n : Z) (s : JedecDRAMSystem) : Prop := {
  jo_config : runnable (j_config s);
  jo_epoch : u64 (epoch_period (j_config s)) <> 0;
  jo_size : vsize (ctrls_ s) = channels (j_config s);
  jo_ctrls : Forall (chan_at (j_config s) (j_clk_ s)) (ctrls_ s);
  jo_clk : 0 <= n /\ 0 <= j_clk_ s /\ j_clk_ s + n + 2 ^ 31 <= 2 ^ 64
}.

Lemma young_none c : outstanding c = [] -> young c.
Proof.
  unfold outstanding. intros H t Ht. apply fmap_nil_inv, app_eq_nil in H as [H _]. rewrite H in Ht.
  by apply elem_of_nil in Ht.
Qed.

Lemma return_done_ok config fuel clk k c :
  chan_at config k c ->
  chan_at config k (return_done fuel clk c).2 /\
  forall t, t ∈ return_queue_ (return_done fuel clk c).2 -> t ∈ return_queue_ c.
Proof.
  revert c; induction fuel as [|fuel IH]; intros c (Hc & Hk & Hy); cbn [return_done]; [done|].
  pose proof (ReturnDoneTrans_ok config c clk Hc) as H1. pose proof (ReturnDoneTrans_clk c clk) as H2.
  assert (H3 : forall t, t ∈ return_queue_ (ReturnDoneTrans c clk).2 -> t ∈ return_queue_ c).
  { unfold ReturnDoneTrans. destruct (take_done clk (return_queue_ c)) as [[t l]|] eqn:E; [|done]. simpl.
    apply take_done_perm in E as [Hp _]. intros u Hu. rewrite Hp. by right. }
  assert (H4 : chan_at config k (ReturnDoneTrans c clk).2).
  { split_and!; [done|congruence|]. intros t Ht. rewrite H2. auto. }
  destruct (ReturnDoneTrans c clk) as [[p|] c']; [|done]. simpl in *. destruct (IH c' H4) as [H5 H6].
  destruct (return_done fuel clk c') as [l c'']. simpl in *. auto.
Qed.

(** The queues of all the channels after the returns of a cycle. *)
Lemma return_all_ok config clk k cs :
  Forall (chan_at config k) cs ->
  Forall (fun c => chan_at config k c /\ Forall (fun t => clk < dt_complete t) (return_queue_ c)) (return_all clk cs).2 /\
  vsize (return_all clk cs).2 = vsize cs.
Proof.
  induction 1 as [|c cs Hc _ [IH1 IH2]]; [done|]. cbn [return_all]. unfold return_channel.
  destruct (return_done_ok config (S (length (return_queue_ c))) clk k c Hc) as [H1 _].
  pose proof (return_done_complete (S (length (return_queue_ c))) clk c ltac:(lia)) as H2.
  destruct (return_done _ clk c) as [l c'], (return_all clk cs) as [l' cs']. simpl in *.
  split; [by constructor|unfold vsize in *; simpl; lia].
Qed.

(** A step that every channel of the list survives. *)
Lemma on_channels_ok (P Q : DController -> Prop) f cs :
  Forall P cs -> (forall c, P c -> exists c', f c = Ok c' /\ Q c') ->
  exists cs', on_channels f cs = Ok cs' /\ Forall Q cs' /\ vsize cs' = vsize cs.
Proof.
  intros Hcs Hf. destruct (on_channels_forall f cs) as (cs' & E & H2).
  { intros c Hc. eapply Forall_forall in Hcs; [|exact Hc]. destruct (Hf c Hcs) as (c' & ? & _). eauto. }
  exists cs'. split; [done|]. split; [|unfold vsize; by rewrite (Forall2_length _ _ _ H2)].
  clear E. induction H2 as [|c c' cs cs' Hc _ IH]; [constructor|]. apply Forall_cons in Hcs as [H1 Hcs].
  constructor; [|by apply IH]. destruct (Hf c H1) as (c1 & E1 & ?). assert (c1 = c') as -> by congruence. done.
Qed.

(** A cycle gives back no write that was not there before. *)
Lemma tick_no_writes config timing c c' t :
  ctl_ok config c -> ControllerTick config timing c = Ok c' ->
  t ∈ return_queue_ c' -> dt_is_write t = true -> t ∈ return_queue_ c.
Proof.
  intros [_ Hr] (l & m & E1 & E2 & E3)%ControllerTick_moved Ht Hw. rewrite E1 in Ht.
  apply elem_of_app in Ht as [Ht|Ht]; [done|]. exfalso.
  assert (Hk : key t ∈ key <$> m) by (rewrite <- E3; by apply list_elem_of_fmap_2).
  apply list_elem_of_fmap in Hk as (u & Eu & Hu). injection Eu as _ Eu.
  assert (u ∈ pending_rd_q_ c) as Hp by (rewrite E2; set_solver).
  pose proof (ro_rd_kind _ _ _ Hr) as Hk. eapply Forall_forall in Hk; [|exact Hp]. congruence.
Qed.

Lemma PrintEpochStats_ok config k c :
  chan_at config k c -> exists c', PrintEpochStats c = Ok c' /\ chan_at config k c' /\ return_queue_ c' = return_queue_ c.
Proof.
  intros ([Hm Hr] & Hk & Hy). unfold PrintEpochStats.
  destruct (UpdateEpochStats_inv (ranks config) (Increment (simple_stats_ c) "epoch_num")) as (s & -> & Hs);
    [apply Increment_inv, Hm|].
  cbn [mbind outcome_bind]. eexists. split; [reflexivity|]. split; [|done].
  split_and!; [|done|done]. split; [by apply (machine_ok_same config c)|by destruct Hr].
Qed.

(** The channel after a cycle that began at [k]: the writes in its return queue
    were there before and are not due at [k]. *)
Definition after_tick (config : Config) (k : Z) (c : DController) : Prop :=
  chan_at config (k + 1) c /\ forall t, t ∈ return_queue_ c -> dt_is_write t = true -> dt_complete t = k + 1.

Lemma Jedec_ClockTick_ok n s :
  0 < n -> jedec_ok n s ->
  exists s' done, Jedec_ClockTick s = Ok (s', done) /\ jedec_ok (n - 1) s' /\ j_clk_ s' = j_clk_ s + 1 /\
    j_config s' = j_config s /\ Forall (after_tick (j_config s) (j_clk_ s)) (ctrls_ s').
Proof.
  intros Hn [Hrun Hep Hsz Hcs Hclk]. unfold Jedec_ClockTick.
  destruct (return_all_ok (j_config s) (j_clk_ s) _ _ Hcs) as [Hcs1 Hsz1].
  destruct (return_all _ _) as [done cs1]. simpl in Hcs1, Hsz1. pose proof Hrun as [Hm Hg Hs Hp Hi Hcol].
  destruct (on_channels_ok _ (after_tick (j_config s) (j_clk_ s))
              (ControllerTick (j_config s) (Timing_new (j_config s))) cs1 Hcs1) as (cs2 & -> & Hcs2 & Hsz2).
  { intros c ((Hc & Hk & Hy) & Hold).
    destruct (ControllerTick_ok (j_config s) (Timing_new (j_config s)) Hg (Timing_new_ok _) Hcol Hm Hs c Hc)
      as (c' & E & Hc' & Hk'); [lia..|]. exists c'. split; [done|].
    assert (Hw : forall t, t ∈ return_queue_ c' -> dt_is_write t = true -> dt_complete t = j_clk_ s + 1).
    { intros t Ht Hw. pose proof (tick_no_writes _ _ _ _ _ Hc E Ht Hw) as Ho. specialize (Hy t Ho Hw).
      eapply Forall_forall in Hold; [|exact Ho]. simpl in Hold. lia. }
    split; [|done]. split_and!; [done|lia|]. intros t Ht Hwt. rewrite (Hw t Ht Hwt). lia. }
  cbn [mbind outcome_bind]. rewrite decide_False by done.
  replace (u64 (j_clk_ s + 1)) with (j_clk_ s + 1) by (rewrite u64_small; lia).
  set (s2 := s <| ctrls_ := cs2 |> <| j_clk_ := j_clk_ s + 1 |>).
  assert (Hat : forall cs, Forall (after_tick (j_config s) (j_clk_ s)) cs -> vsize cs = vsize (ctrls_ s) ->
    jedec_ok (n - 1) (s2 <| ctrls_ := cs |>)).
  { intros cs Ha Hv. split; simpl; try done; [congruence| |lia]. eapply Forall_impl; [exact Ha|]. by intros c []. }
  destruct (decide _).
  - unfold Base_PrintEpochStats.
    destruct (on_channels_ok _ (after_tick (j_config s) (j_clk_ s)) PrintEpochStats cs2 Hcs2)
      as (cs3 & E3 & Hcs3 & Hsz3).
    { intros c [Hc Hw]. destruct (PrintEpochStats_ok _ _ c Hc) as (c' & ? & ? & E). exists c'. split; [done|].
      split; [done|]. by rewrite E. }
    simpl. rewrite E3. cbn [mbind outcome_bind]. eexists _, _. split; [reflexivity|].
    split; [apply Hat; [done|congruence]|done].
  - eexists _, _. split; [reflexivity|]. split; [|done]. exact (Hat cs2 Hcs2 ltac:(congruence)).
Qed.

Lemma channel_range config a : runnable config -> 0 <= a -> 0 <= GetChannel config a < channels config.
Proof.
  intros [Hm Hg _ _ _ _] Ha.
  exact (ig_channel _ _ (in_fields_geometry config _ Hg (AddressMapping_in_fields config a Hm Ha))).
Qed.

Lemma Jedec_accept_ok n s a w :
  jedec_ok n s -> 0 <= a -> exists ok, Jedec_WillAcceptTransaction s a w = Ok ok.
Proof.
  intros [Hrun _ Hsz _ _] Ha. unfold Jedec_WillAcceptTransaction.
  destruct (vget_total (ctrls_ s) (GetChannel (j_config s) a)) as (c & ->); [rewrite Hsz; by apply channel_range|].
  cbn [mbind outcome_bind]. eauto.
Qed.

Lemma AddTransaction_returns c a w t :
  t ∈ return_queue_ (AddTransaction c (DTrans_new a w)) ->
  t ∈ return_queue_ c \/ dt_complete t = u64 (c_clk_ c + 1).
Proof.
  rewrite AddTransaction_cases. unfold enqueue, queue_of. destruct w; cbn zeta; repeat case_decide; simpl;
    try (destruct (is_unified_queue_ c); simpl); auto;
    (intros [Ht| ->%list_elem_of_singleton]%elem_of_app; [by left|by right]).
Qed.

Lemma Jedec_add_ok n s a w :
  jedec_ok n s -> 0 <= a -> Jedec_WillAcceptTransaction s a w = Ok true ->
  exists s', Jedec_AddTransaction s a w = Ok (true, s') /\ jedec_ok n s' /\ j_clk_ s' = j_clk_ s.
Proof.
  intros [Hrun Hep Hsz Hcs Hclk] Ha Hacc. unfold Jedec_WillAcceptTransaction in Hacc. unfold Jedec_AddTransaction.
  apply bind_ok in Hacc as (c & Ec & Hacc). injection Hacc as Hacc. rewrite Ec. cbn [mbind outcome_bind]. rewrite Hacc.
  destruct (vset_total (ctrls_ s) (GetChannel (j_config s) a) (AddTransaction c (DTrans_new a w))) as (cs & Es & Hs);
    [rewrite Hsz; by apply channel_range|].
  rewrite Es. cbn [mbind outcome_bind]. eexists. split; [reflexivity|]. split; [|done].
  split; simpl; try done; [congruence|]. apply vset_ok in Es as [_ ->]. apply vget_ok in Ec as [_ Ec].
  pose proof (Forall_lookup_1 _ _ _ _ Hcs Ec) as (Hc & Hk & Hy). apply Forall_insert; [done|].
  split_and!; [by apply AddTransaction_ok|by rewrite AddTransaction_clk|].
  intros t [Ht|Ht]%AddTransaction_returns Hwt; rewrite AddTransaction_clk; [by apply Hy|]. rewrite Ht, u64_small; lia.
Qed.

#[export] Instance jedec_total : DramTotal JedecDRAMSystem.
Proof.
  refine {| dram_ready := jedec_ok |}.
  - intros n s a w Hs Ha. eapply Jedec_accept_ok; [done|lia].
  - intros n s a w Hs Ha Hacc. destruct (Jedec_add_ok n s a w Hs) as (s' & E & Hs' & _); [lia|done|].
    exists s'. simpl. unfold jedec_add. by rewrite E.
  - intros n s Hn Hs. destruct (Jedec_ClockTick_ok n s Hn Hs) as (s' & done & E & Hs' & _).
    eexists s', _. simpl. unfold jedec_tick. rewrite E. by split.
Defined.

Lemma channels_new_ok config cs :
  runnable config -> u64 (epoch_period config) <> 0 -> 0 <= channels config ->
  for_int (channels config) (fun i cs => c ← DController_new config i; Ok (cs ++ [c])) [] = Ok cs ->
  jedec_ok (2 ^ 63) (mkJedec config 0 0 cs) /\ system_pending (mkJedec config 0 0 cs) = [].
Proof.
  intros Hrun Hep Hch E.
  assert (Hl : forall m l, for_int m (fun i cs => c ← DController_new config i; Ok (cs ++ [c])) [] = Ok l ->
      0 <= m -> Forall (chan_at config 0) l /\ vsize l = m /\ l ≫= outstanding = []).
  { intros m l Hl Hm. unfold for_int in Hl. rewrite <- (Z2Nat.id m Hm) in *. revert l Hl.
    induction (Z.to_nat m) as [|k IH]; intros l Hl; [by injection Hl as <-|].
    rewrite seqZ_S, for_each_app in Hl. apply bind_ok in Hl as (l1 & H1 & Hl). cbn [for_each] in Hl.
    apply bind_ok in Hl as (l2 & H2 & Hl). injection Hl as <-. apply bind_ok in H2 as (c & Ec & H2). injection H2 as <-.
    destruct (IH l1 H1) as (I1 & I2 & I3). destruct (DController_new_ok _ _ _ Hrun Ec) as (C1 & C2 & C3).
    split_and!; [apply Forall_app; split; [done|apply Forall_singleton; split_and!; [done..|by apply young_none]]|
      rewrite vsize_app, I2; unfold vsize; simpl; lia|].
    rewrite bind_app, I3. simpl. by rewrite C3. }
  destruct (Hl _ _ E Hch) as (H1 & H2 & H3). split; [|done]. split; simpl; try done; lia.
Qed.

Lemma Jedec_new_ok config s :
  runnable config -> u64 (epoch_period config) <> 0 -> Jedec_new config = Ok s ->
  jedec_ok (2 ^ 63) s /\ system_pending s = [] /\ j_config s = config.
Proof.
  intros Hrun Hep H. unfold Jedec_new in H. destruct (IsHMC _); [discriminate H|].
  destruct (decide _) as [|Hch]; [discriminate H|]. apply bind_ok in H as (cs & E & H). injection H as <-.
  destruct (channels_new_ok config cs Hrun Hep ltac:(lia) E). done.
Qed.

(** ** Runs of the system *)

(** What a client does: a cycle, or the offer of a transaction, which it adds only
    when the system says it will accept it. *)
Inductive sys_event := SysTick | SysOffer (a : Z) (w : bool).

Definition sys_log : Type := JedecDRAMSystem * list (Z * bool) * list (Z * bool).

Definition sys_step (e : sys_event) (l : sys_log) : outcome sys_log :=
  let '(s, accepted, returned) := l in
  match e with
  | SysTick => r ← Jedec_ClockTick s; Ok (r.1, accepted, returned ++ r.2)
  | SysOffer a w =>
      will ← Jedec_WillAcceptTransaction s a w;
      if (will : bool) then r ← Jedec_AddTransaction s a w; Ok (r.2, accepted ++ [(a, w)], returned)
      else Ok (s, accepted, returned)
  end.

Definition sys_run (evs : list sys_event) (l : sys_log) : outcome sys_log := for_each sys_step evs l.

Definition sys_event_ok (e : sys_event) : Prop := match e with SysOffer a _ => 0 <= a | SysTick => True end.

Definition sys_ok (n : Z) (l : sys_log) : Prop :=
  let '(s, accepted, returned) := l in jedec_ok n s /\ accepted ≡ₚ returned ++ system_pending s.

Lemma jedec_ok_weaken n m s : 0 <= m <= n -> jedec_ok n s -> jedec_ok m s.
Proof. intros Hm []. split; try done. lia. Qed.

Lemma sys_step_ok n e l :
  0 < n -> sys_event_ok e -> sys_ok n l -> exists l', sys_step e l = Ok l' /\ sys_ok (n - 1) l'.
Proof.
  intros Hn He. destruct l as [[s acc] ret]. intros [Hs Hbal]. destruct e as [|a w]; cbn.
  - destruct (Jedec_ClockTick_ok n s Hn Hs) as (s' & d & E & Hs' & _). rewrite E. cbn [mbind outcome_bind].
    eexists. split; [reflexivity|]. split; [done|]. simpl.
    by rewrite <- app_assoc, (Jedec_tick_pending _ _ _ E).
  - destruct (Jedec_accept_ok n s a w Hs He) as (will & E). rewrite E. cbn [mbind outcome_bind].
    destruct will; [|eexists; split; [reflexivity|]; split; [apply (jedec_ok_weaken n); [lia|done]|done]].
    destruct (Jedec_add_ok n s a w Hs He E) as (s' & E' & Hs' & _). rewrite E'. cbn [mbind outcome_bind].
    eexists. split; [reflexivity|]. split; [apply (jedec_ok_weaken n); [lia|done]|]. simpl.
    rewrite (Jedec_add_pending _ _ _ _ _ E'), Hbal. solve_Permutation.
Qed.

Lemma sys_run_ok evs : forall n l,
  Forall sys_event_ok evs -> Z.of_nat (length evs) <= n -> sys_ok n l ->
  exists l', sys_run evs l = Ok l' /\ sys_ok (n - Z.of_nat (length evs)) l'.
Proof.
  induction evs as [|e evs IH]; intros n l He Hn Hl; unfold sys_run in *; cbn [for_each length] in *.
  { exists l. by rewrite Z.sub_0_r. }
  apply Forall_cons in He as [He Hes].
  destruct (sys_step_ok n e l) as (l1 & -> & Hl1); [lia|done..|]. cbn [mbind outcome_bind].
  destruct (IH (n - 1) l1) as (l' & E & Hl'); [done|lia|done|]. exists l'. split; [done|].
  by replace (n - Z.of_nat (S (length evs))) with (n - 1 - Z.of_nat (length evs)) by lia.
Qed.

Lemma sys_new_ok config s0 :
  runnable config -> u64 (epoch_period config) <> 0 -> Jedec_new config = Ok s0 -> sys_ok (2 ^ 63) (s0, [], []).
Proof.
  intros Hrun Hep Hnew. destruct (Jedec_new_ok config s0 Hrun Hep Hnew) as (H1 & H2 & _). split; [done|]. by rewrite H2.
Qed.

(** C19. The whole memory system never fails and loses nothing: every sequence of
    cycles and offers runs through, over any number of channels and across epochs,
    and the accepted transactions are exactly those whose callback has been
    called and those a controller still holds. *)
Theorem jedec_system_safe config s0 evs :
  runnable config -> u64 (epoch_period config) <> 0 -> Jedec_new config = Ok s0 ->
  Forall sys_event_ok evs -> Z.of_nat (length evs) < 2 ^ 63 ->
  exists s accepted returned,
    sys_run evs (s0, [], []) = Ok (s, accepted, returned) /\
    accepted ≡ₚ returned ++ system_pending s.
Proof.
  intros Hrun Hep Hnew He Hn.
  destruct (sys_run_ok evs (2 ^ 63) (s0, [], []) He) as ([[s acc] ret] & E & _ & Hbal);
    [lia|by apply (sys_new_ok config)|]. eauto.
Qed.

(** ** Posted writes *)

(** The writes of the return queue are due at [k] at the latest. *)
Definition writes_by (k : Z) (c : DController) : Prop :=
  forall t, t ∈ return_queue_ c -> dt_is_write t = true -> dt_complete t <= k.

Lemma return_all_writes clk config k cs :
  Forall (fun c => chan_at config k c /\ writes_by clk c) cs ->
  Forall (fun c => ctl_ok config c /\ forall t, t ∈ return_queue_ c -> dt_is_write t = false) (return_all clk cs).2.
Proof.
  induction 1 as [|c cs [Hc Hw] _ IH]; [constructor|]. cbn [return_all]. unfold return_channel.
  destruct (return_done_ok config (S (length (return_queue_ c))) clk k c Hc) as [H1 H2].
  pose proof (return_done_complete (S (length (return_queue_ c))) clk c ltac:(lia)) as H3.
  destruct (return_done _ clk c) as [l c'], (return_all clk cs) as [l' cs']. simpl in *.
  constructor; [|done]. split; [apply H1|]. intros t Ht. destruct (dt_is_write t) eqn:E; [|done].
  specialize (Hw t (H2 t Ht) E). eapply Forall_forall in H3; [|exact Ht]. simpl in H3. lia.
Qed.

(** A cycle in which every posted write is due leaves none behind. *)
Lemma tick_clears_writes config s s' done :
  j_config s = config -> Forall (fun c => chan_at config (j_clk_ s) c /\ writes_by (j_clk_ s) c) (ctrls_ s) ->
  Jedec_ClockTick s = Ok (s', done) ->
  Forall (fun c => forall t, t ∈ return_queue_ c -> dt_is_write t = false) (ctrls_ s').
Proof.
  intros <- Hcs H. unfold Jedec_ClockTick in H. apply return_all_writes in Hcs.
  destruct (return_all _ _) as [d cs]. simpl in Hcs. apply bind_ok in H as (cs1 & E1 & H).
  destruct (decide _); [discriminate H|]. apply bind_ok in H as (s2 & E2 & H). injection H as <- <-.
  assert (H1 : Forall (fun c => forall t, t ∈ return_queue_ c -> dt_is_write t = false) cs1).
  { apply on_channels_inv in E1. clear E2. induction E1 as [|c c' cs cs1 Ec _ IH]; [constructor|].
    apply Forall_cons in Hcs as [[Hc Hr] Hcs]. constructor; [|by apply IH].
    intros t Ht. destruct (dt_is_write t) eqn:E; [|done]. rewrite <- E. apply Hr.
    by eapply tick_no_writes. }
  destruct (decide _); [|by injection E2 as <-]. unfold Base_PrintEpochStats in E2. ok_inv E2. simpl.
  apply on_channels_inv in E. simpl in E. clear -E H1. induction E as [|c c' cs cs' Ec _ IH]; [constructor|].
  apply Forall_cons in H1 as [Hc Hcs]. constructor; [|by apply IH].
  unfold PrintEpochStats in Ec. by ok_inv Ec.
Qed.

Lemma pending_reads_only config s :
  Forall (ctl_ok config) (ctrls_ s) ->
  Forall (fun c => forall t, t ∈ return_queue_ c -> dt_is_write t = false) (ctrls_ s) ->
  Forall (fun p => p.2 = false) (system_pending s).
Proof.
  intros H1 H2. apply Forall_forall. intros p Hp. unfold system_pending in Hp.
  apply list_elem_of_bind in Hp as (c & Hp & Hc). apply list_elem_of_fmap in Hp as (t & -> & Ht).
  eapply Forall_forall in H1 as [_ Hr]; [|exact Hc]. eapply Forall_forall in H2; [|exact Hc]. simpl in *.
  apply elem_of_app in Ht as [Ht|Ht]; [auto|]. pose proof (ro_rd_kind _ _ _ Hr) as Hk.
  by eapply Forall_forall in Hk.
Qed.

(** Two cycles leave no write pending. *)
Lemma two_ticks_clear n s :
  1 < n -> jedec_ok n s ->
  exists s1 d1 s2 d2, Jedec_ClockTick s = Ok (s1, d1) /\ Jedec_ClockTick s1 = Ok (s2, d2) /\
    Forall (fun p => p.2 = false) (system_pending s2).
Proof.
  intros Hn Hs. destruct (Jedec_ClockTick_ok n s) as (s1 & d1 & E1 & Hs1 & Hk1 & Hc1 & Ha1); [lia|done|].
  destruct (Jedec_ClockTick_ok (n - 1) s1) as (s2 & d2 & E2 & Hs2 & Hk2 & Hc2 & Ha2); [lia|done|].
  exists s1, d1, s2, d2. split_and!; [done..|]. apply (pending_reads_only (j_config s)).
  - pose proof (jo_ctrls _ _ Hs2) as H. rewrite Hc2, Hc1 in H. eapply Forall_impl; [exact H|]. by intros c [].
  - eapply tick_clears_writes; [exact Hc1| |exact E2]. rewrite Hk1. eapply Forall_impl; [exact Ha1|].
    intros c [Hc Hw]. split; [done|]. intros t Ht Hwt. rewrite (Hw t Ht Hwt). lia.
Qed.

Lemma writes_balance (acc ret pend : list (Z * bool)) :
  acc ≡ₚ ret ++ pend -> Forall (fun p => p.2 = false) pend ->
  filter (fun p => p.2 = true) acc ≡ₚ filter (fun p => p.2 = true) ret.
Proof.
  intros -> Hp. rewrite filter_app. induction Hp as [|p pend Hw _ IH]; [by rewrite app_nil_r|].
  rewrite filter_cons_False; [done|congruence].
Qed.

(** C20. Writes are posted: whatever a client has done before, two cycles later the
    write callback has been called for every write it had accepted, whether or not
    the data has reached the banks. *)
Theorem writes_return_in_two_cycles config s0 evs :
  runnable config -> u64 (epoch_period config) <> 0 -> Jedec_new config = Ok s0 ->
  Forall sys_event_ok evs -> Z.of_nat (length evs) + 2 < 2 ^ 63 ->
  exists s accepted returned,
    sys_run (evs ++ [SysTick; SysTick]) (s0, [], []) = Ok (s, accepted, returned) /\
    filter (fun p => p.2 = true) accepted ≡ₚ filter (fun p => p.2 = true) returned.
Proof.
  intros Hrun Hep Hnew He Hn.
  destruct (sys_run_ok evs (2 ^ 63) (s0, [], []) He) as ([[s acc] ret] & E & Hs & Hbal);
    [lia|by apply (sys_new_ok config)|].
  destruct (two_ticks_clear (2 ^ 63 - Z.of_nat (length evs)) s ltac:(lia) Hs) as (s1 & d1 & s2 & d2 & E1 & E2 & Hr).
  exists s2, acc, ((ret ++ d1) ++ d2). unfold sys_run in *. rewrite for_each_app, E. cbn [for_each mbind outcome_bind].
  unfold sys_step. rewrite E1. cbn [mbind outcome_bind fst snd]. rewrite E2. cbn [mbind outcome_bind fst snd].
  split; [done|]. apply (writes_balance _ _ (system_pending s2)); [|done].
  rewrite <- (Jedec_tick_pending _ _ _ E1), <- (Jedec_tick_pending _ _ _ E2) in Hbal. by rewrite <- !app_assoc.
Qed.

(** Reads and writes of three channels, with a repeated read and a write behind it. *)
Definition demo_sys_events : list sys_event :=
  [SysOffer 0 false; SysOffer 0 false; SysOffer 256 true; SysTick; SysOffer 256 false; SysOffer 4096 true] ++
  replicate 4 SysTick.

Lemma hbm2_jedec_new : exists s0, Jedec_new hbm2_config = Ok s0.
Proof.
  assert (H : match Jedec_new hbm2_config with Ok _ => true | Fault _ => false end = true) by (vm_compute; reflexivity).
  destruct (Jedec_new hbm2_config) as [s0|]; [by exists s0|discriminate H].
Qed.

Lemma jedec_system_safe_witness :
  exists s0 s accepted returned, Jedec_new hbm2_config = Ok s0 /\
    sys_run demo_sys_events (s0, [], []) = Ok (s, accepted, returned) /\ accepted ≡ₚ returned ++ system_pending s.
Proof.
  destruct hbm2_jedec_new as (s0 & E).
  destruct (jedec_system_safe hbm2_config s0 demo_sys_events hbm2_runnable) as (s & acc & ret & Hrun & Hbal).
  - vm_compute. discriminate.
  - exact E.
  - repeat constructor; discriminate.
  - reflexivity.
  - exists s0, s, acc, ret. split; [exact E|]. split; [exact Hrun|exact Hbal].
Defined.

Lemma writes_return_in_two_cycles_witness :
  exists s0 s accepted returned, Jedec_new hbm2_config = Ok s0 /\
    sys_run (demo_sys_events ++ [SysTick; SysTick]) (s0, [], []) = Ok (s, accepted, returned) /\
    filter (fun p => p.2 = true) accepted ≡ₚ filter (fun p => p.2 = true) returned.
Proof.
  destruct hbm2_jedec_new as (s0 & E).
  destruct (writes_return_in_two_cycles hbm2_config s0 demo_sys_events hbm2_runnable) as (s & acc & ret & Hrun & Hbal).
  - vm_compute. discriminate.
  - exact E.
  - repeat constructor; discriminate.
  - reflexivity.
  - exists s0, s, acc, ret. split; [exact E|]. split; [exact Hrun|exact Hbal].
Defined.

(** The run above: both writes come back in the second cycle after their offer. *)
Example demo_sys_run :
  (r ← (s0 ← Jedec_new hbm2_config; sys_run demo_sys_events (s0, [], [])); Ok (r.1.2, r.2)) =
  Ok ([(0, false); (0, false); (256, true); (256, false); (4096, true)], [(256, true); (256, false); (4096, true)]).
Proof. vm_compute. reflexivity. Qed.
