(* ===== verification/StatsReport.v ===== *)
(** * The report of the memory (DRAMsim3/src/simple_stats.cc, configuration.cc,
    dram_system.cc) and the figures [main] takes from it (src/main.cc)

    The second half of [SimpleStats]: the energies and averages computed from the
    counters, the JSON object [j_data_] they are put into, the file with one object
    per channel that [PrintStats] writes, the file of the epochs, and the two figures
    that are read back for the CSV record.  The integer half is [SimpleStats]; the
    text report ([print_pairs_], laid out by the library fmt) is not modelled.  The
    loops over unordered maps go through the entries in the order of [map_to_list];
    they fill maps, so that the order does not show in the file. *)

From stdpp Require Import base tactics list list_numbers numbers strings gmap.
From Stdlib Require Import ZArith Lia Ascii Floats.SpecFloat.
From S2P Require Import Prelude IniReader Double JsonReader JsonWriter JsonRoundTrip Inputs DramConfig SimpleStats.

(** ** The parameters of the energies (configuration.cc) *)
Record PowerParams := mkPowerParams {
  act_energy_inc : double;
  read_energy_inc : double;
  write_energy_inc : double;
  ref_energy_inc : double;
  refb_energy_inc : double;
  act_stb_energy_inc : double;
  pre_stb_energy_inc : double;
  pre_pd_energy_inc : double;
  sref_energy_inc : double;
  tCK : double;
  output_level : Z
}.

Declare Scope double_scope.
Delimit Scope double_scope with D.
Infix "+" := dadd : double_scope.
Infix "-" := dsub : double_scope.
Infix "*" := dmul : double_scope.
Infix "/" := ddiv : double_scope.

(** [InitPowerParams], with [tCK] of [InitTimingParams] and [output_level] of
    [InitOtherParams]. *)
Definition InitPowerParams (reader : INIReader) (c : Config) : PowerParams :=
  let get := GetReal reader "power" in
  let VDD := get "VDD"%string (decimal false 12 (-1)) in
  let IDD0 := get "IDD0"%string (dof 48) in
  let IDD2P := get "IDD2P"%string (dof 25) in
  let IDD2N := get "IDD2N"%string (dof 34) in
  let IDD3N := get "IDD3N"%string (dof 43) in
  let IDD4W := get "IDD4W"%string (dof 123) in
  let IDD4R := get "IDD4R"%string (dof 135) in
  let IDD5AB := get "IDD5AB"%string (dof 250) in
  let IDD5PB := get "IDD5PB"%string (dof 5) in
  let IDD6x := get "IDD6x"%string (dof 31) in
  let devices := dof (devices_per_rank c) in
  {| act_energy_inc := VDD * (IDD0 * dof (tRC c) - (IDD3N * dof (tRAS c) + IDD2N * dof (tRP c))) * devices;
     read_energy_inc := VDD * (IDD4R - IDD3N) * dof (burst_cycle c) * devices;
     write_energy_inc := VDD * (IDD4W - IDD3N) * dof (burst_cycle c) * devices;
     ref_energy_inc := VDD * (IDD5AB - IDD3N) * dof (tRFC c) * devices;
     refb_energy_inc := VDD * (IDD5PB - IDD3N) * dof (tRFCb c) * devices;
     act_stb_energy_inc := VDD * IDD3N * devices;
     pre_stb_energy_inc := VDD * IDD2N * devices;
     pre_pd_energy_inc := VDD * IDD2P * devices;
     sref_energy_inc := VDD * IDD6x * devices;
     tCK := GetReal reader "timing" "tCK" (dof 1);
     output_level := GetInteger reader "other" "output_level" 1 |}%D.

(** ** What a channel prints *)
Record StatsOutput := mkStatsOutput {
  out_channel_id : Z;
  histo_headers_ : gmap string (list string);
  doubles_ : gmap string double;
  vec_doubles_ : gmap string (list double);
  calculated_ : gmap string double;
  j_data_ : Json
}.

#[export] Instance StatsOutput_fields : Fields StatsOutput := fun r =>
  mkStatsOutput (out_channel_id r) (histo_headers_ r) (doubles_ r) (vec_doubles_ r) (calculated_ r) (j_data_ r).

Definition zero : double := S754_zero false.

(** The names of the bins in [InitHistoStat]. *)
Definition histo_headers (name : string) (start_val end_val num_bins : Z) : list string :=
  let bin_width := Z.quot (end_val - start_val) num_bins in
  [name +:+ "[-" +:+ show_int start_val +:+ "]"]%string ++
  ((fun i => name +:+ "[" +:+ show_int (start_val + (i - 1) * bin_width) +:+ "-" +:+
             show_int (start_val + i * bin_width - 1) +:+ "]")%string <$> seqZ 1 num_bins) ++
  [name +:+ "[" +:+ show_int end_val +:+ "-]"]%string.

Definition double_names : list string := ["act_energy"; "read_energy"; "write_energy"; "ref_energy"; "refb_energy"]%string.
Definition vec_double_names : list string := ["act_stb_energy"; "pre_stb_energy"; "sref_energy"]%string.
Definition calculated_names : list string :=
  ["average_bandwidth"; "total_energy"; "average_power"; "average_read_latency"; "average_interarrival"]%string.

(** [SimpleStats::SimpleStats], the members that are not counters. *)
Definition StatsOutput_new (ranks channel_id : Z) : StatsOutput :=
  {| out_channel_id := channel_id;
     histo_headers_ :=
       emplace (emplace (emplace ∅ "read_latency" (histo_headers "read_latency" 0 200 10))
         "write_latency" (histo_headers "write_latency" 0 200 10))
         "interarrival_latency" (histo_headers "interarrival_latency" 0 100 10);
     doubles_ := foldl (fun m n => emplace m n zero) ∅ double_names;
     vec_doubles_ := foldl (fun m n => emplace m n (replicate (Z.to_nat ranks) zero)) ∅ vec_double_names;
     calculated_ := foldl (fun m n => emplace m n zero) ∅ calculated_names;
     j_data_ := JNull |}.

(** ** The figures *)
(** [i->first * i->second]: the [int] is converted to 64 bits without a sign. *)
Definition GetHistoAvg (counts : gmap Z Z) : double :=
  let '(accu_sum, count) :=
    foldl (fun ac vc => (u64 (ac.1 + u64 (vc.1 * vc.2)), u64 (ac.2 + vc.2))) (0, 0) (map_to_list counts) in
  if decide (count = 0) then zero else (dof accu_sum / dof count)%D.

(** The energies of the commands, from the counters of an epoch or of the run. *)
Definition command_energies (p : PowerParams) (cnt : gmap string Z) (m : gmap string double) : gmap string double :=
  let e name inc := (dof (at_or 0%Z cnt name) * inc)%D in
  let m := <["act_energy"%string := e "num_act_cmds"%string (act_energy_inc p)]> m in
  let m := <["read_energy"%string := e "num_read_cmds"%string (read_energy_inc p)]> m in
  let m := <["write_energy"%string := e "num_write_cmds"%string (write_energy_inc p)]> m in
  let m := <["ref_energy"%string := e "num_ref_cmds"%string (ref_energy_inc p)]> m in
  <["refb_energy"%string := e "num_refb_cmds"%string (refb_energy_inc p)]> m.

(** [vec_doubles_[name][i] = x] *)
Definition put_double (m : gmap string (list double)) (name : string) (i : Z) (x : double)
    : outcome (gmap string (list double)) :=
  v ← vset (at_or [] m name) i x; Ok (<[name := v]> m).

(** One rank of the loop over the ranks. *)
Definition rank_energy (p : PowerParams) (vcnt : gmap string (list Z)) (i : Z) (st : gmap string (list double) * double)
    : outcome (gmap string (list double) * double) :=
  a ← vget (at_or [] vcnt "rank_active_cycles") i;
  let act_stb := (dof a * act_stb_energy_inc p)%D in
  b ← vget (at_or [] vcnt "all_bank_idle_cycles") i;
  let pre_stb := (dof b * pre_stb_energy_inc p)%D in
  c ← vget (at_or [] vcnt "sref_cycles") i;
  let sref_energy := (dof c * sref_energy_inc p)%D in
  m ← put_double st.1 "act_stb_energy" i act_stb;
  m ← put_double m "pre_stb_energy" i pre_stb;
  m ← put_double m "sref_energy" i sref_energy;
  Ok (m, st.2 + (act_stb + pre_stb + sref_energy))%D.

Definition rank_energies (p : PowerParams) (ranks : Z) (vcnt : gmap string (list Z)) (m : gmap string (list double))
    : outcome (gmap string (list double) * double) :=
  for_each (rank_energy p vcnt) (seqZ 0 ranks) (m, zero).

(** The sum of the energies, in the order of the code. *)
Definition sum_energy (m : gmap string double) (background_energy : double) : double :=
  let e := at_or zero m in
  (e "act_energy"%string + e "read_energy"%string + e "write_energy"%string + e "ref_energy"%string +
   e "refb_energy"%string + background_energy)%D.

Definition average_bandwidth (c : Config) (p : PowerParams) (cnt : gmap string Z) : double :=
  let total_reqs := u64 (at_or 0 cnt "num_reads_done"%string + at_or 0 cnt "num_writes_done"%string) in
  let total_time := (dof (at_or 0%Z cnt "num_cycles"%string) * tCK p)%D in
  (dof (u64 (total_reqs * request_size_bytes c)%Z) / total_time)%D.

Definition calculate (c : Config) (p : PowerParams) (cnt : gmap string Z) (hist : string -> gmap Z Z) (background : double)
    (r : StatsOutput) : StatsOutput :=
  let total_energy := sum_energy (doubles_ r) background in
  let m := <["average_bandwidth"%string := average_bandwidth c p cnt]> (calculated_ r) in
  let m := <["total_energy"%string := total_energy]> m in
  let m := <["average_power"%string := (total_energy / dof (at_or 0%Z cnt "num_cycles"%string))%D]> m in
  let m := <["average_read_latency"%string := GetHistoAvg (hist "read_latency"%string)]> m in
  r <| calculated_ := <["average_interarrival"%string := GetHistoAvg (hist "interarrival_latency"%string)]> m |>.

(** ** [UpdatePrints], the JSON object *)
Definition put_all {V} (f : V -> Json) (l : list (string * V)) (j : Json) : outcome Json :=
  for_each (fun kv j => json_set j kv.1 (f kv.2)) l j.

(** The object [j_list] of a vector: the elements under their indices. *)
Definition indexed {V} (f : V -> Json) (v : list V) : outcome Json :=
  for_each (fun i j => x ← vget v i; json_set j (show_int i) (f x)) (seqZ 0 (vsize v)) JNull.

Definition put_vecs {V} (f : V -> Json) (l : list (string * list V)) (j : Json) : outcome Json :=
  for_each (fun kv j => x ← indexed f kv.2; json_set j kv.1 x) l j.

Definition put_bins (headers : gmap string (list string)) (l : list (string * list Z)) (j : Json) : outcome Json :=
  for_each (fun kv j =>
      for_each (fun i j => x ← vget kv.2 i; name ← vget (at_or [] headers kv.1) i; json_set j name (JUnsigned x))
        (seqZ 0 (vsize kv.2)) j) l j.

Definition put_counts (l : list (string * gmap Z Z)) (j : Json) : outcome Json :=
  for_each (fun kv j =>
      x ← for_each (fun vc j => json_set j (show_int vc.1) (JUnsigned vc.2)) (map_to_list kv.2) JNull;
      json_set j kv.1 x) l j.

Definition UpdatePrints (epoch : bool) (s : SimpleStats) (r : StatsOutput) : outcome StatsOutput :=
  j ← json_set (j_data_ r) "channel" (JInteger (out_channel_id r));
  j ← put_all JUnsigned (map_to_list (if epoch then epoch_counters_ s else counters_ s)) j;
  j ← json_set j "epoch_num" (JUnsigned (at_or 0 (counters_ s) "epoch_num"));
  j ← put_vecs JUnsigned (map_to_list (if epoch then epoch_vec_counters_ s else vec_counters_ s)) j;
  j ← put_bins (histo_headers_ r) (map_to_list (if epoch then epoch_histo_bins_ s else histo_bins_ s)) j;
  j ← (if epoch then Ok j else put_counts (map_to_list (histo_counts_ s)) j);
  j ← put_all JFloat (map_to_list (doubles_ r)) j;
  j ← put_vecs JFloat (map_to_list (vec_doubles_ r)) j;
  j ← put_all JFloat (map_to_list (calculated_ r)) j;
  Ok (r <| j_data_ := j |>).

(** The energies, the bins and the averages, in the order of the code. *)
Definition update_figures (c : Config) (p : PowerParams) (epoch : bool) (s : SimpleStats) (r : StatsOutput)
    : outcome (SimpleStats * StatsOutput) :=
  let cnt := if epoch then epoch_counters_ s else counters_ s in
  let vcnt := if epoch then epoch_vec_counters_ s else vec_counters_ s in
  let r := r <| doubles_ := command_energies p cnt (doubles_ r) |> in
  vb ← rank_energies p (ranks c) vcnt (vec_doubles_ r);
  let r := r <| vec_doubles_ := vb.1 |> in
  s ← UpdateHistoBins s;
  let hist name := at_or ∅ (if epoch then epoch_histo_counts_ s else histo_counts_ s) name in
  let r := calculate c p cnt hist vb.2 r in
  r ← UpdatePrints epoch s r;
  Ok (s, r).

(** [UpdateEpochStats] and [UpdateFinalStats], with the report. *)
Definition epoch_report (c : Config) (p : PowerParams) (s : SimpleStats) (r : StatsOutput)
    : outcome (SimpleStats * StatsOutput) :=
  s ← UpdateCounters s;
  sr ← update_figures c p true s r;
  Ok (clear_epoch sr.1, sr.2).

Definition final_report (c : Config) (p : PowerParams) (s : SimpleStats) (r : StatsOutput)
    : outcome (SimpleStats * StatsOutput) :=
  s ← UpdateCounters s;
  update_figures c p false s r.

(** [SimpleStats::Reset], the numbers that are not counters; [j_data_] is kept. *)
Definition Reset_output (r : StatsOutput) : StatsOutput :=
  r <| doubles_ := (fun _ => zero) <$> doubles_ r |>
    <| vec_doubles_ := (fun v => replicate (length v) zero) <$> vec_doubles_ r |>
    <| calculated_ := (fun _ => zero) <$> calculated_ r |>.

(** ** The files *)
(** [SimpleStats::PrintFinalStats]: what is appended to the JSON file. *)
Definition PrintFinalStats (c : Config) (p : PowerParams) (sr : SimpleStats * StatsOutput)
    : outcome (list ascii * (SimpleStats * StatsOutput)) :=
  sr ← final_report c p sr.1 sr.2;
  if decide (0 <= output_level p) then
    t ← dump (j_data_ sr.2);
    Ok ("034"%char :: String.list_ascii_of_string (show_int (out_channel_id sr.2)) ++ "034"%char :: ":"%char :: t, sr)
  else Ok ([], sr).

(** The loop of [BaseDRAMSystem::PrintStats]: a comma and a line end behind every channel
    but the last. *)
Fixpoint print_channels (c : Config) (p : PowerParams) (chs : list (SimpleStats * StatsOutput))
    : outcome (list ascii * list (SimpleStats * StatsOutput)) :=
  match chs with
  | [] => Ok ([], [])
  | sr :: chs =>
      x ← PrintFinalStats c p sr;
      y ← print_channels c p chs;
      Ok (x.1 ++ match chs with [] => [] | _ => ","%char :: "010"%char :: y.1 end, x.2 :: y.2)
  end.

(** The JSON file, rewritten by [PrintStats]. *)
Definition PrintStats (c : Config) (p : PowerParams) (chs : list (SimpleStats * StatsOutput))
    : outcome (list ascii * list (SimpleStats * StatsOutput)) :=
  x ← print_channels c p chs;
  Ok ("{"%char :: x.1 ++ ["}"%char], x.2).

(** The file of the epochs; [None] while there is none.  One channel of
    [BaseDRAMSystem::PrintEpochStats] ... *)
Definition print_epoch_channel (c : Config) (p : PowerParams) (sr : SimpleStats * StatsOutput) (file : list ascii)
    : outcome (list ascii * (SimpleStats * StatsOutput)) :=
  sr ← epoch_report c p (Increment sr.1 "epoch_num") sr.2;
  t ← (if decide (1 <= output_level p) then dump (j_data_ sr.2) else Ok []);
  Ok (file ++ t ++ [","%char; "010"%char], sr).

Fixpoint print_epoch_channels (c : Config) (p : PowerParams) (chs : list (SimpleStats * StatsOutput)) (file : list ascii)
    : outcome (list ascii * list (SimpleStats * StatsOutput)) :=
  match chs with
  | [] => Ok (file, [])
  | sr :: chs =>
      x ← print_epoch_channel c p sr file;
      y ← print_epoch_channels c p chs x.1;
      Ok (y.1, x.2 :: y.2)
  end.

(** ... the whole, at the clock [clk] ... *)
Definition PrintEpochFile (c : Config) (p : PowerParams) (clk : Z) (chs : list (SimpleStats * StatsOutput))
    (file : option (list ascii)) : outcome (option (list ascii) * list (SimpleStats * StatsOutput)) :=
  let file := if decide (u64 (clk - epoch_period c) = 0) then Some ["["%char] else file in
  match chs, file with
  | [], _ => Ok (file, [])
  | _, _ => x ← print_epoch_channels c p chs (default [] file); Ok (Some x.1, x.2)
  end.

(** ... and the start of [PrintStats]: the bracket is written over the last comma. *)
Definition close_epochs (file : option (list ascii)) : option (list ascii) :=
  match file with
  | None => None
  | Some t => if decide (length t < 2)%nat then Some t else Some (<[(length t - 2)%nat := "]"%char]> t)
  end.

(** ** The figures of the CSV record (main.cc) *)
(** The result of [parse] is not looked at. *)
Definition read_figures (file : list ascii) : outcome (spec_float * double) :=
  x ← parse file nullValue;
  let root := x.1.2 in
  a ← at_key root "0";
  b ← at_key a "average_bandwidth";
  bandwidth ← asFloat b;
  e ← at_key a "total_energy";
  energy ← asDouble e;
  Ok (bandwidth, energy).

(** ** What can be printed *)
Record power_ok (p : PowerParams) : Prop := {
  po_act : valid (act_energy_inc p);
  po_read : valid (read_energy_inc p);
  po_write : valid (write_energy_inc p);
  po_ref : valid (ref_energy_inc p);
  po_refb : valid (refb_energy_inc p);
  po_act_stb : valid (act_stb_energy_inc p);
  po_pre_stb : valid (pre_stb_energy_inc p);
  po_sref : valid (sref_energy_inc p);
  po_tCK : valid (tCK p)
}.

(** The operations at the head of a term tell the lemma to use. *)
Ltac double_valid :=
  repeat match goal with
  | |- valid (dmul _ _) => apply dmul_valid
  | |- valid (dsub _ _) => apply dsub_valid
  | |- valid (dadd _ _) => apply dadd_valid
  | |- valid (GetReal _ _ _ _) => apply GetReal_valid
  | |- valid (dof _) => apply dof_valid
  | |- valid (decimal _ _ _) => apply decimal_valid; lia
  end.

(** Whatever the configuration file says, the parameters are doubles. *)
Lemma InitPowerParams_ok reader c : power_ok (InitPowerParams reader c).
Proof.
  unfold InitPowerParams. cbv zeta. split;
    cbn [act_energy_inc read_energy_inc write_energy_inc ref_energy_inc refb_energy_inc act_stb_energy_inc pre_stb_energy_inc
         sref_energy_inc tCK];
    double_valid.
Qed.

Definition word (z : Z) : Prop := 0 <= z < 2 ^ 64.

Lemma u64_word z : word (u64 z).
Proof. apply u64_range. Qed.
#[export] Hint Resolve u64_word : vec.

(** Bins that have names. *)
Definition bins_named (headers : gmap string (list string)) (name : string) (bins : list Z) : Prop :=
  vsize bins <= vsize (at_or [] headers name) /\ Forall word bins.

(** Counters of 64 bits under ASCII names. *)
Record printable (headers : gmap string (list string)) (s : SimpleStats) : Prop := {
  pr_counters : map_Forall (fun k v => ascii_string k /\ word v) (counters_ s);
  pr_epoch_counters : map_Forall (fun k v => ascii_string k /\ word v) (epoch_counters_ s);
  pr_vecs : map_Forall (fun k v => ascii_string k /\ Forall word v) (vec_counters_ s);
  pr_epoch_vecs : map_Forall (fun k v => ascii_string k /\ Forall word v) (epoch_vec_counters_ s);
  pr_counts : map_Forall (fun k m => ascii_string k /\ map_Forall (fun _ => word) m) (histo_counts_ s);
  pr_epoch_counts : map_Forall (fun k m => ascii_string k /\ map_Forall (fun _ => word) m) (epoch_histo_counts_ s);
  pr_bins : map_Forall (bins_named headers) (histo_bins_ s);
  pr_epoch_bins : map_Forall (bins_named headers) (epoch_histo_bins_ s)
}.

Lemma at_or_Forall {V} (P : string -> V -> Prop) d m k : map_Forall P m -> P k d -> P k (at_or d m k).
Proof. intros Hm Hd. unfold at_or. destruct (m !! k) eqn:E; [by apply Hm|done]. Qed.

Lemma vset_Forall {A} (P : A -> Prop) v i a v' : vset v i a = Ok v' -> Forall P v -> P a -> Forall P v'.
Proof. intros [_ ->]%vset_ok Hv Ha. by apply Forall_insert. Qed.

Lemma vupd_words v i f v' : vupd v i f = Ok v' -> (forall x, word (f x)) -> Forall word v -> Forall word v' /\ vsize v' = vsize v.
Proof.
  intros H Hf Hv. unfold vupd in H. ok_inv H. split; [by eapply vset_Forall|by eapply vset_vsize].
Qed.

(** Loops that add to the elements of a vector. *)
Lemma fill_bins_words bounds width counts bins bins' :
  fill_bins bounds width counts bins = Ok bins' -> Forall word bins' /\ vsize bins' = vsize bins.
Proof.
  intros H. refine (for_each_inv _ (fun w => Forall word w /\ vsize w = vsize bins) _ _ _ _ _ H).
  - intros x w w' _ [Hw Hs] E. ok_inv E. destruct (vupd_words _ _ _ _ E (fun y => u64_word _) Hw). split; [done|congruence].
  - split; [by apply Forall_replicate|]. unfold vsize. by rewrite length_replicate.
Qed.

Lemma add_vec_words from to to' : add_vec from to = Ok to' -> Forall word to -> Forall word to' /\ vsize to' = vsize to.
Proof.
  intros H Hv. eapply (for_each_inv _ (fun w => Forall word w /\ vsize w = vsize to)); [|done|exact H].
  intros x w w' _ [Hw Hs] E. ok_inv E. destruct (vupd_words _ _ _ _ E (fun y => u64_word _) Hw). split; [done|congruence].
Qed.

Section printable.
Context (headers : gmap string (list string)).

Lemma Increment_printable s name : ascii_string name -> printable headers s -> printable headers (Increment s name).
Proof.
  intros Hn []. split; try done. simpl. apply map_Forall_insert_2; [|done]. split; [done|apply u64_word].
Qed.

Lemma IncrementVec_printable s name i s' :
  ascii_string name -> IncrementVec s name i = Ok s' -> printable headers s -> printable headers s'.
Proof.
  intros Hn H []. unfold IncrementVec in H. ok_inv H. split; try done. simpl. apply map_Forall_insert_2; [|done].
  split; [done|]. eapply vupd_words; [done|intros x; apply u64_word|].
  by apply (at_or_Forall (fun k v => ascii_string k /\ Forall word v) [] (epoch_vec_counters_ s) name).
Qed.

Lemma add_count_words m v n : map_Forall (fun _ => word) m -> map_Forall (fun _ => word) (add_count m v n).
Proof. intros Hm. apply map_Forall_insert_2; [apply u64_word|done]. Qed.

Lemma AddValue_printable s name v : ascii_string name -> printable headers s -> printable headers (AddValue s name v).
Proof.
  intros Hn []. split; try done. simpl. apply map_Forall_insert_2; [|done]. split; [done|]. apply add_count_words.
  by apply (at_or_Forall (fun k m => ascii_string k /\ map_Forall (fun _ => word) m) ∅ (epoch_histo_counts_ s) name).
Qed.

(** Sums of maps. *)
Lemma union_words {K} `{Countable K} (P : K -> Prop) (a b : gmap K Z) :
  map_Forall (fun k v => P k /\ word v) a -> map_Forall (fun k v => P k /\ word v) b ->
  map_Forall (fun k v => P k /\ word v) (union_with (fun x y => Some (u64 (x + y))) a b).
Proof.
  intros Ha Hb k v. rewrite lookup_union_with. intros Hv. destruct (a !! k) as [x|] eqn:Ea, (b !! k) as [y|] eqn:Eb; simpl in Hv; simplify_eq.
  - split; [by destruct (Ha k x Ea)|apply u64_word].
  - by apply Ha.
  - by apply Hb.
Qed.

Lemma UpdateCounters_printable s s' : UpdateCounters s = Ok s' -> printable headers s -> printable headers s'.
Proof.
  intros H []. unfold UpdateCounters in H. ok_inv H. split; try done; simpl; [by apply union_words|].
  refine (for_each_inv _ (map_Forall (fun k v => ascii_string k /\ Forall word v)) _ _ _ _ pr_vecs0 E).
  intros [k v] m m' Hx%elem_of_map_to_list Hm Ex. ok_inv Ex. cbn [fst snd] in *. apply map_Forall_insert_2; [|done].
  destruct (pr_epoch_vecs0 k v Hx) as [Hk _]. split; [done|]. eapply add_vec_words; [done|].
  by apply (at_or_Forall (fun k v => ascii_string k /\ Forall word v) [] m k).
Qed.

Lemma epoch_bins_printable s m m' nb :
  epoch_bins s nb m = Ok m' -> bins_named headers nb.1 nb.2 -> map_Forall (bins_named headers) m ->
  map_Forall (bins_named headers) m'.
Proof.
  intros H [Hs _] Hm. unfold epoch_bins in H. ok_inv H. apply map_Forall_insert_2; [|done].
  destruct (fill_bins_words _ _ _ _ _ E) as [Hw Hv]. split; [lia|done].
Qed.

Lemma total_bins_printable eb name m m' :
  total_bins eb name m = Ok m' -> map_Forall (bins_named headers) m -> map_Forall (bins_named headers) m'.
Proof.
  intros H Hm. unfold total_bins in H. ok_inv H. apply map_Forall_insert_2; [|done].
  assert (Hb : bins_named headers name (at_or [] m name)).
  { apply at_or_Forall; [done|]. split; [apply vsize_nonneg|constructor]. }
  destruct Hb as [Hs Hw].
  assert (H : Forall word r /\ vsize r = vsize (at_or [] m name)).
  { refine (for_each_inv _ (fun w => Forall word w /\ vsize w = vsize (at_or [] m name)) _ _ _ _ (conj Hw eq_refl) E).
    intros x w w' _ [Hw' Hs'] Ex. ok_inv Ex. destruct (vupd_words _ _ _ _ Ex (fun y => u64_word _) Hw'). split; [done|congruence]. }
  destruct H. split; [lia|done].
Qed.

Lemma merge_printable (P := fun (k : string) (m : gmap Z Z) => ascii_string k /\ map_Forall (fun _ => word) m) l m :
  Forall (fun nc => P nc.1 nc.2) l -> map_Forall P m ->
  map_Forall P (foldl (fun m nc => <[nc.1 := merge_counts nc.2 (at_or ∅ m nc.1)]> m) m l).
Proof.
  revert m. induction l as [|[k c] l IH]; intros m Hl Hm; [done|]. apply Forall_cons in Hl as [[Hk Hc] Hl].
  cbn [foldl fst snd] in *. apply IH; [done|]. apply map_Forall_insert_2; [|done]. split; [done|].
  destruct (at_or_Forall P ∅ m k Hm) as [_ Ht]; [split; [done|apply map_Forall_empty]|].
  unfold merge_counts. intros v n Hn.
  by eapply (union_words (fun _ => True) (at_or ∅ m k) c); [..|exact Hn]; intros ? ? ?; (split; [done|]); [eapply Ht|eapply Hc].
Qed.

Lemma map_to_list_Forall {V} (P : string -> V -> Prop) m : map_Forall P m -> Forall (fun kv => P kv.1 kv.2) (map_to_list m).
Proof. intros Hm. apply Forall_forall. intros [k v] Hx%elem_of_map_to_list. by apply Hm. Qed.

Lemma UpdateHistoBins_printable s s' : UpdateHistoBins s = Ok s' -> printable headers s -> printable headers s'.
Proof.
  intros H []. unfold UpdateHistoBins in H. ok_inv H. split; try done; simpl.
  - apply merge_printable; [exact (map_to_list_Forall _ _ pr_epoch_counts0)|done].
  - refine (for_each_inv _ (map_Forall (bins_named headers)) _ _ _ _ pr_bins0 E0).
    intros x m m' _ Hm Ex. by eapply total_bins_printable.
  - refine (for_each_inv _ (map_Forall (bins_named headers)) _ _ _ _ pr_epoch_bins0 E).
    intros [k v] m m' Hx%elem_of_map_to_list Hm Ex. eapply epoch_bins_printable; [done| |done]. by apply pr_epoch_bins0.
Qed.

Lemma clear_epoch_printable s : printable headers s -> printable headers (clear_epoch s).
Proof.
  intros []. split; try done; simpl; intros k v; rewrite lookup_fmap; intros Hv;
    match type of Hv with _ <$> ?o = _ => destruct o as [x|] eqn:E; [|done] end; simpl in Hv; simplify_eq.
  - by destruct (pr_epoch_counters0 k x E).
  - destruct (pr_epoch_vecs0 k x E). split; [done|]. by apply Forall_replicate.
  - destruct (pr_epoch_counts0 k x E). split; [done|apply map_Forall_empty].
Qed.
End printable.

(** ** Filling the object *)
Lemma list_ascii_app a b : String.list_ascii_of_string (a +:+ b) = String.list_ascii_of_string a ++ String.list_ascii_of_string b.
Proof. induction a as [|c a IH]; [done|]. exact (f_equal (cons c) IH). Qed.

Lemma show_digits_Forall (P : ascii -> Prop) fuel : (forall d, 0 <= d < 10 -> P (digit_char d)) ->
  forall n, 0 <= n -> Forall P (String.list_ascii_of_string (show_digits fuel n)).
Proof.
  intros Hd. induction fuel as [|fuel IH]; intros n Hn; [constructor|]. cbn [show_digits]. destruct (Z.ltb_spec n 10).
  - constructor; [apply Hd; lia|constructor].
  - rewrite list_ascii_app. apply Forall_app. split; [apply IH, Z.div_pos; lia|].
    constructor; [apply Hd, Z.mod_pos_bound; lia|constructor].
Qed.

Lemma show_int_Forall (P : ascii -> Prop) n : P "-"%char -> (forall d, 0 <= d < 10 -> P (digit_char d)) ->
  Forall P (String.list_ascii_of_string (show_int n)).
Proof.
  intros Hm Hd. unfold show_int. destruct (Z.ltb_spec n 0); [constructor; [done|]|]; apply show_digits_Forall; done || lia.
Qed.

(** A number is its own text inside a string. *)
Lemma show_int_plain n :
  Forall (fun c => is_ascii c /\ escape_of c = [c]) (String.list_ascii_of_string (show_int n)).
Proof.
  apply show_int_Forall; [done|]. intros d H.
  assert (d = 0 \/ d = 1 \/ d = 2 \/ d = 3 \/ d = 4 \/ d = 5 \/ d = 6 \/ d = 7 \/ d = 8 \/ d = 9) as Hc by lia.
  by destruct_or! Hc; subst d.
Qed.

Lemma show_int_ascii n : ascii_string (show_int n).
Proof. eapply Forall_impl; [apply show_int_plain|]. by intros c [? _]. Qed.

Lemma quoted_show_int n :
  quoted (show_int n) = Ok ("034"%char :: String.list_ascii_of_string (show_int n) ++ ["034"%char]).
Proof.
  unfold quoted. rewrite dump_escaped_ascii by apply show_int_ascii. cbn [mbind outcome_bind].
  assert (E : forall l, Forall (fun c => is_ascii c /\ escape_of c = [c]) l -> concat (escape_of <$> l) = l).
  { induction 1 as [|c l [_ Hc] _ IH]; [done|]. cbn [fmap list_fmap concat]. by rewrite Hc, IH. }
  by rewrite E by apply show_int_plain.
Qed.

Lemma unsigned_writable n z : word z -> writable (S n) (JUnsigned z).
Proof. intros Hz. by constructor. Qed.

Lemma float_writable n d : valid d -> writable (S n) (JFloat d).
Proof. intros Hz. by constructor. Qed.

(** A loop of assignments. *)
Lemma put_loop {A} n (f : A -> Json -> outcome Json) l j :
  building n j -> (forall x j, x ∈ l -> building n j -> exists j', f x j = Ok j' /\ building n j') ->
  exists j', for_each f l j = Ok j' /\ building n j'.
Proof. intros Hj Hf. apply (for_each_total f (building n)); [|done]. intros x t Hx Ht. by apply Hf. Qed.

Lemma set_step n j key v : building n j -> ascii_string key -> writable n v -> exists j', json_set j key v = Ok j' /\ building n j'.
Proof. intros Hj Hk Hv. destruct (json_set_building n j key v Hj Hk Hv) as (j' & ? & ? & _). eauto. Qed.

Lemma put_all_ok {V} n (f : V -> Json) l : forall j,
  building n j -> Forall (fun kv => ascii_string kv.1 /\ writable n (f kv.2)) l ->
  exists j', put_all f l j = Ok j' /\ building n j' /\
    (forall k, k ∉ l.*1 -> member (members j') k = member (members j) k) /\
    (NoDup l.*1 -> forall k v, (k, v) ∈ l -> member (members j') k = Some (f v)).
Proof.
  induction l as [|[k v] l IH]; intros j Hj Hl; [exists j; split_and!; set_solver|].
  apply Forall_cons in Hl as [[Hk Hv] Hl]. unfold put_all. cbn [for_each fst snd] in *.
  destruct (json_set_building n j k (f v) Hj Hk Hv) as (j1 & -> & Hj1 & Hm1). cbn [mbind outcome_bind].
  destruct (IH j1 Hj1 Hl) as (j' & E & Hj' & Hout & Hin). exists j'. split_and!; [done|done| |].
  - intros k' [Hne Hk']%not_elem_of_cons. rewrite Hout by done. rewrite Hm1. by rewrite decide_False.
  - intros [Hk1 Hnd]%NoDup_cons k' v' [[= -> ->]|Hx]%elem_of_cons; [|by apply Hin].
    rewrite Hout by done. rewrite Hm1. by rewrite decide_True.
Qed.

Lemma indexed_ok {V} n (f : V -> Json) v :
  Forall (fun x => writable n (f x)) v -> exists j, indexed f v = Ok j /\ writable (S n) j.
Proof.
  intros Hv. destruct (put_loop n (fun i j => x ← vget v i; json_set j (show_int i) (f x)) (seqZ 0 (vsize v)) JNull)
    as (j & E & Hj & _); [apply building_null| |by exists j].
  intros i j Hi%elem_of_seqZ Hj. destruct (vget_total v i) as (x & Ex); [lia|]. rewrite Ex. cbn [mbind outcome_bind].
  apply set_step; [done|apply show_int_ascii|]. apply vget_ok in Ex as [_ Ex]. by eapply Forall_lookup_1 in Hv.
Qed.

Lemma put_vecs_ok {V} n (f : V -> Json) l j :
  building (S n) j -> Forall (fun kv => ascii_string kv.1 /\ Forall (fun x => writable n (f x)) kv.2) l ->
  exists j', put_vecs f l j = Ok j' /\ building (S n) j'.
Proof.
  intros Hj Hl. apply put_loop; [done|]. intros [k v] j' Hx Hj'. rewrite Forall_forall in Hl.
  destruct (Hl _ Hx) as [Hk Hv]. cbn [fst snd] in *. destruct (indexed_ok n f v Hv) as (x & -> & Hw). by apply set_step.
Qed.

Lemma put_counts_ok n l j :
  building (S (S n)) j -> Forall (fun kv => ascii_string kv.1 /\ map_Forall (fun _ => word) kv.2) l ->
  exists j', put_counts l j = Ok j' /\ building (S (S n)) j'.
Proof.
  intros Hj Hl. apply put_loop; [done|]. intros [k m] j' Hx Hj'. rewrite Forall_forall in Hl.
  destruct (Hl _ Hx) as [Hk Hm]. cbn [fst snd] in *.
  destruct (put_loop (S n) (fun vc j => json_set j (show_int vc.1) (JUnsigned vc.2)) (map_to_list m) JNull) as (x & -> & Hw & _).
  - apply building_null.
  - intros [v c] j2 Hv%elem_of_map_to_list Hj2. apply set_step; [done|apply show_int_ascii|].
    apply unsigned_writable. by eapply Hm.
  - by apply set_step.
Qed.

Lemma put_bins_ok n headers l j :
  building (S n) j -> map_Forall (fun _ => Forall ascii_string) headers ->
  Forall (fun kv => bins_named headers kv.1 kv.2) l ->
  exists j', put_bins headers l j = Ok j' /\ building (S n) j'.
Proof.
  intros Hj Hh Hl. apply put_loop; [done|]. intros [k v] j' Hx Hj'. rewrite Forall_forall in Hl.
  destruct (Hl _ Hx) as [Hs Hv]. cbn [fst snd] in *. apply put_loop; [done|]. intros i j2 Hi%elem_of_seqZ Hj2.
  destruct (vget_total v i) as (x & Ex); [lia|]. rewrite Ex. cbn [mbind outcome_bind].
  destruct (vget_total (at_or [] headers k) i) as (name & En); [lia|]. rewrite En. cbn [mbind outcome_bind].
  apply vget_ok in Ex as [_ Ex]. apply vget_ok in En as [_ En]. apply set_step; [done| |].
  - assert (Ha : Forall ascii_string (at_or [] headers k)) by (by apply (at_or_Forall (fun _ => Forall ascii_string) [] headers k)).
    by eapply Forall_lookup_1 in Ha.
  - apply unsigned_writable. by eapply Forall_lookup_1 in Hv.
Qed.

(** ** The state of the report *)
(** A given name is ASCII. *)
Ltac ascii_name := refine (bool_decide_unpack _ _); vm_compute; exact I.

Definition doubles_ok (m : gmap string double) : Prop := map_Forall (fun k d => ascii_string k /\ valid d) m.

(** Vectors with an element for each rank. *)
Definition rank_vectors (ranks : Z) (m : gmap string (list double)) : Prop :=
  map_Forall (fun k v => ascii_string k /\ Forall valid v) m /\
  forall name, name ∈ vec_double_names -> vsize (at_or [] m name) = ranks.

Record output_inv (ranks : Z) (r : StatsOutput) : Prop := {
  oi_headers : map_Forall (fun _ => Forall ascii_string) (histo_headers_ r);
  oi_doubles : doubles_ok (doubles_ r);
  oi_vectors : rank_vectors ranks (vec_doubles_ r);
  oi_calculated : doubles_ok (calculated_ r);
  oi_channel : 0 <= out_channel_id r < 2 ^ 31;
  oi_json : building 2 (j_data_ r)
}.

Lemma doubles_ok_insert m k d : ascii_string k -> valid d -> doubles_ok m -> doubles_ok (<[k := d]> m).
Proof. intros Hk Hd Hm. by apply map_Forall_insert_2. Qed.

Lemma at_or_insert {V} (d : V) m k k' v : at_or d (<[k := v]> m) k' = if decide (k' = k) then v else at_or d m k'.
Proof.
  unfold at_or. destruct (decide (k' = k)) as [->|Hne]; [by rewrite lookup_insert_eq|by rewrite lookup_insert_ne].
Qed.

Lemma put_double_ok ranks m name i x :
  rank_vectors ranks m -> name ∈ vec_double_names -> 0 <= i < ranks -> ascii_string name -> valid x ->
  exists m', put_double m name i x = Ok m' /\ rank_vectors ranks m'.
Proof.
  intros [Hm Hs] Hn Hi Ha Hx. unfold put_double. destruct (vset_total (at_or [] m name) i x) as (v & Ev & Hv); [rewrite Hs by done; lia|].
  rewrite Ev. cbn [mbind outcome_bind]. eexists. split; [reflexivity|]. split.
  - apply map_Forall_insert_2; [|done]. split; [done|]. eapply vset_Forall; [done| |done].
    by apply (at_or_Forall (fun k v => ascii_string k /\ Forall valid v) [] m name).
  - intros n Hn'. rewrite at_or_insert. case_decide; subst; rewrite ?Hv; by apply Hs.
Qed.

(** ** The energies, as the sum over the ranks *)
Definition cycles (vcnt : gmap string (list Z)) (name : string) (i : Z) : Z := default 0 (at_or [] vcnt name !! Z.to_nat i).

Definition rank_background (p : PowerParams) (vcnt : gmap string (list Z)) (i : Z) : double :=
  (dof (cycles vcnt "rank_active_cycles" i) * act_stb_energy_inc p +
   dof (cycles vcnt "all_bank_idle_cycles" i) * pre_stb_energy_inc p +
   dof (cycles vcnt "sref_cycles" i) * sref_energy_inc p)%D.

Definition background_energy (p : PowerParams) (ranks : Z) (vcnt : gmap string (list Z)) : double :=
  foldl (fun acc i => acc + rank_background p vcnt i)%D zero (seqZ 0 ranks).

Definition energy_of (p : PowerParams) (ranks : Z) (cnt : gmap string Z) (vcnt : gmap string (list Z)) : double :=
  let n name := dof (at_or 0%Z cnt name) in
  (n "num_act_cmds"%string * act_energy_inc p + n "num_read_cmds"%string * read_energy_inc p +
   n "num_write_cmds"%string * write_energy_inc p + n "num_ref_cmds"%string * ref_energy_inc p +
   n "num_refb_cmds"%string * refb_energy_inc p + background_energy p ranks vcnt)%D.

Definition rank_names : list string := ["all_bank_idle_cycles"; "rank_active_cycles"; "sref_cycles"]%string.

Lemma rank_background_valid p vcnt i : power_ok p -> valid (rank_background p vcnt i).
Proof. intros []. unfold rank_background. auto 8 with double. Qed.

Lemma vget_cycles vcnt name i ranks :
  vsize (at_or [] vcnt name) = ranks -> 0 <= i < ranks -> vget (at_or [] vcnt name) i = Ok (cycles vcnt name i).
Proof.
  intros Hs Hi. destruct (vget_total (at_or [] vcnt name) i) as (x & Ex); [lia|]. rewrite Ex.
  apply vget_ok in Ex as [_ Ex]. unfold cycles. by rewrite Ex.
Qed.

Lemma rank_energies_ok p ranks vcnt m :
  power_ok p -> 0 <= ranks -> (forall name, name ∈ rank_names -> vsize (at_or [] vcnt name) = ranks) -> rank_vectors ranks m ->
  exists m', rank_energies p ranks vcnt m = Ok (m', background_energy p ranks vcnt) /\ rank_vectors ranks m' /\
    valid (background_energy p ranks vcnt).
Proof.
  intros Hp Hr Hv Hm. unfold rank_energies.
  destruct (for_int_ind ranks (rank_energy p vcnt)
    (fun k st => rank_vectors ranks st.1 /\ st.2 = background_energy p k vcnt /\ valid st.2) (m, zero)) as ([m' b] & E & Hm' & Hb & Hval);
    [done|by split_and!| |cbn [fst snd] in *; subst b; by exists m'].
  intros i [t b] Hi (Ht & Hb & Hval). cbn [fst snd] in *. unfold rank_energy.
  rewrite !(vget_cycles _ _ _ ranks) by (done || apply Hv; set_solver). cbn [mbind outcome_bind fst snd].
  pose proof (rank_background_valid p vcnt i Hp) as Hrb. destruct Hp.
  destruct (put_double_ok ranks t "act_stb_energy" i (dof (cycles vcnt "rank_active_cycles" i) * act_stb_energy_inc p)%D)
    as (t1 & -> & H1); [done|set_solver|done|ascii_name|auto with double|]. cbn [mbind outcome_bind].
  destruct (put_double_ok ranks t1 "pre_stb_energy" i (dof (cycles vcnt "all_bank_idle_cycles" i) * pre_stb_energy_inc p)%D)
    as (t2 & -> & H2); [done|set_solver|done|ascii_name|auto with double|]. cbn [mbind outcome_bind].
  destruct (put_double_ok ranks t2 "sref_energy" i (dof (cycles vcnt "sref_cycles" i) * sref_energy_inc p)%D)
    as (t3 & -> & H3); [done|set_solver|done|ascii_name|auto with double|]. cbn [mbind outcome_bind].
  eexists. split; [reflexivity|]. cbn [fst snd]. split_and!; [done| |auto with double].
  unfold background_energy. rewrite (seqZ_app 0 i 1), seqZ_one, foldl_app by lia. by subst b.
Qed.

(** ** The object holds the figures *)
Lemma command_energies_ok p cnt m : power_ok p -> doubles_ok m -> doubles_ok (command_energies p cnt m).
Proof.
  intros [] Hm. unfold command_energies.
  repeat (apply doubles_ok_insert; [ascii_name|auto with double|]). done.
Qed.

Lemma sum_command_energies p ranks cnt vcnt m :
  sum_energy (command_energies p cnt m) (background_energy p ranks vcnt) = energy_of p ranks cnt vcnt.
Proof.
  unfold sum_energy, command_energies, energy_of. cbv zeta. generalize (background_energy p ranks vcnt). intros b.
  rewrite !at_or_insert. repeat (rewrite decide_True by reflexivity || rewrite decide_False by discriminate). reflexivity.
Qed.

Lemma energy_valid p ranks cnt vcnt : power_ok p -> valid (background_energy p ranks vcnt) -> valid (energy_of p ranks cnt vcnt).
Proof. intros [] Hb. unfold energy_of. auto 12 with double. Qed.

Lemma average_bandwidth_valid c p cnt : power_ok p -> valid (average_bandwidth c p cnt).
Proof. intros []. unfold average_bandwidth. auto with double. Qed.

Lemma GetHistoAvg_valid m : valid (GetHistoAvg m).
Proof.
  unfold GetHistoAvg. destruct (foldl _ _ _) as [a n]. case_decide; [done|]. auto with double.
Qed.
#[export] Hint Resolve energy_valid average_bandwidth_valid GetHistoAvg_valid : double.

(** What [update_figures] writes, in terms of the counters. *)
Definition figures (c : Config) (p : PowerParams) (cnt : gmap string Z) (vcnt : gmap string (list Z)) (j : Json) : Prop :=
  member (members j) "average_bandwidth" = Some (JFloat (average_bandwidth c p cnt)) /\
  member (members j) "total_energy" = Some (JFloat (energy_of p (ranks c) cnt vcnt)).

Lemma calculate_ok (c : Config) p cnt hist b r :
  power_ok p -> valid (sum_energy (doubles_ r) b) -> output_inv (ranks c) r -> output_inv (ranks c) (calculate c p cnt hist b r).
Proof.
  intros Hp Hb []. unfold calculate. split; try done. simpl.
  repeat (apply doubles_ok_insert; [ascii_name|auto with double|]). done.
Qed.

(** The entries of the maps can be written. *)
Lemma words_writable n m :
  map_Forall (fun k v => ascii_string k /\ word v) m ->
  Forall (fun kv => ascii_string kv.1 /\ writable (S n) (JUnsigned kv.2)) (map_to_list m).
Proof.
  intros Hm. eapply Forall_impl; [exact (map_to_list_Forall _ m Hm)|]. intros [k v] [? ?]. split; [done|].
  by apply unsigned_writable.
Qed.

Lemma doubles_writable n m :
  doubles_ok m -> Forall (fun kv => ascii_string kv.1 /\ writable (S n) (JFloat kv.2)) (map_to_list m).
Proof.
  intros Hm. eapply Forall_impl; [exact (map_to_list_Forall _ m Hm)|]. intros [k v] [? ?]. split; [done|].
  by apply float_writable.
Qed.

Lemma vectors_writable {V} n (P : V -> Prop) (f : V -> Json) m :
  (forall x, P x -> writable (S n) (f x)) -> map_Forall (fun k v => ascii_string k /\ Forall P v) m ->
  Forall (fun kv => ascii_string kv.1 /\ Forall (fun x => writable (S n) (f x)) kv.2) (map_to_list m).
Proof.
  intros Hf Hm. eapply Forall_impl; [exact (map_to_list_Forall _ m Hm)|]. intros [k v] [? Hv]. split; [done|].
  by eapply Forall_impl.
Qed.

Lemma UpdatePrints_ok epoch ranks s r :
  printable (histo_headers_ r) s -> output_inv ranks r ->
  exists r', UpdatePrints epoch s r = Ok r' /\ output_inv ranks r' /\ histo_headers_ r' = histo_headers_ r /\
    out_channel_id r' = out_channel_id r /\
    forall k d, calculated_ r !! k = Some d -> member (members (j_data_ r')) k = Some (JFloat d).
Proof.
  intros Hs [Hh Hd [Hv Hsz] Hc Hch Hj]. unfold UpdatePrints.
  destruct (set_step 2 (j_data_ r) "channel" (JInteger (out_channel_id r)) Hj) as (j1 & -> & H1);
    [ascii_name|constructor; lia|]. cbn [mbind outcome_bind].
  destruct (put_all_ok 2 JUnsigned (map_to_list (if epoch then epoch_counters_ s else counters_ s)) j1 H1) as (j2 & -> & H2 & _).
  { apply words_writable. by destruct epoch, Hs. }
  cbn [mbind outcome_bind].
  destruct (set_step 2 j2 "epoch_num" (JUnsigned (at_or 0 (counters_ s) "epoch_num")) H2) as (j3 & -> & H3); [ascii_name| |].
  { apply unsigned_writable. apply (at_or_Forall (fun _ => word)); [|done]. intros k v Hk. by destruct (pr_counters _ _ Hs k v Hk). }
  cbn [mbind outcome_bind].
  destruct (put_vecs_ok 1 JUnsigned (map_to_list (if epoch then epoch_vec_counters_ s else vec_counters_ s)) j3 H3) as (j4 & -> & H4).
  { apply (vectors_writable _ word); [apply unsigned_writable|by destruct epoch, Hs]. }
  cbn [mbind outcome_bind].
  destruct (put_bins_ok 1 (histo_headers_ r) (map_to_list (if epoch then epoch_histo_bins_ s else histo_bins_ s)) j4 H4 Hh) as (j5 & -> & H5).
  { apply map_to_list_Forall. by destruct epoch, Hs. }
  cbn [mbind outcome_bind].
  assert (Hcounts : exists j6, (if epoch then Ok j5 else put_counts (map_to_list (histo_counts_ s)) j5) = Ok j6 /\ building 2 j6).
  { destruct epoch; [by exists j5|]. apply (put_counts_ok 0); [done|]. exact (map_to_list_Forall _ _ (pr_counts _ _ Hs)). }
  destruct Hcounts as (j6 & -> & H6). cbn [mbind outcome_bind].
  destruct (put_all_ok 2 JFloat (map_to_list (doubles_ r)) j6 H6 (doubles_writable _ _ Hd)) as (j7 & -> & H7 & _). cbn [mbind outcome_bind].
  destruct (put_vecs_ok 1 JFloat (map_to_list (vec_doubles_ r)) j7 H7) as (j8 & -> & H8).
  { apply (vectors_writable _ valid); [apply float_writable|done]. }
  cbn [mbind outcome_bind].
  destruct (put_all_ok 2 JFloat (map_to_list (calculated_ r)) j8 H8 (doubles_writable _ _ Hc)) as (j9 & -> & H9 & _ & Hin). cbn [mbind outcome_bind].
  eexists. split; [reflexivity|]. split_and!; [by split|done|done|]. intros k d Hk. simpl.
  apply Hin; [apply NoDup_fst_map_to_list|by apply elem_of_map_to_list].
Qed.

(** ** The report of a channel *)
Record channel_inv (c : Config) (sr : SimpleStats * StatsOutput) : Prop := {
  ci_stats : stats_inv (ranks c) sr.1;
  ci_printable : printable (histo_headers_ sr.2) sr.1;
  ci_output : output_inv (ranks c) sr.2
}.

Lemma rank_counters (epoch : bool) ranks s :
  stats_inv ranks s -> forall name, name ∈ rank_names ->
  vsize (at_or [] (if epoch then epoch_vec_counters_ s else vec_counters_ s) name) = ranks.
Proof.
  intros Hs name Hn. destruct (si_named _ _ Hs name Hn) as (v & Hv & Hr). unfold at_or. destruct epoch; [by rewrite Hv|].
  destruct (si_vecs _ _ Hs name v Hv) as (w & -> & Hw). simpl. lia.
Qed.

Lemma update_figures_ok (c : Config) p (epoch : bool) s r :
  power_ok p -> channel_inv c (s, r) ->
  exists s' r', update_figures c p epoch s r = Ok (s', r') /\ UpdateHistoBins s = Ok s' /\ channel_inv c (s', r') /\
    out_channel_id r' = out_channel_id r /\
    figures c p (if epoch then epoch_counters_ s else counters_ s)
      (if epoch then epoch_vec_counters_ s else vec_counters_ s) (j_data_ r').
Proof.
  intros Hp [Hs Hpr Ho]. cbn [fst snd] in *. unfold update_figures.
  set (cnt := if epoch then epoch_counters_ s else counters_ s).
  pose proof (rank_counters epoch _ s Hs) as Hv. set (vcnt := if epoch then epoch_vec_counters_ s else vec_counters_ s) in *.
  assert (Hr : 0 <= ranks c).
  { destruct (si_named _ _ Hs "sref_cycles"%string ltac:(set_solver)) as (v & _ & <-). apply vsize_nonneg. }
  destruct (rank_energies_ok p (ranks c) vcnt (vec_doubles_ r) Hp Hr Hv (oi_vectors _ _ Ho)) as (m & E & Hm & Hb).
  cbn [vec_doubles_]. simpl (vec_doubles_ _). rewrite E. cbn [mbind outcome_bind fst snd].
  destruct (UpdateHistoBins_ok (ranks c) s Hs) as (eb & hc & fb & Es & Hs' & _). rewrite Es. cbn [mbind outcome_bind].
  pose proof (UpdateHistoBins_printable (histo_headers_ r) _ _ Es Hpr) as Hpr'.
  set (s' := s <| epoch_histo_bins_ := eb |> <| histo_counts_ := hc |> <| histo_bins_ := fb |>) in *.
  set (hist := fun name : string => at_or ∅ (if epoch then epoch_histo_counts_ s' else histo_counts_ s') name).
  set (r1 := r <| doubles_ := command_energies p cnt (doubles_ r) |> <| vec_doubles_ := m |>).
  assert (Esum : sum_energy (doubles_ r1) (background_energy p (ranks c) vcnt) = energy_of p (ranks c) cnt vcnt)
    by apply sum_command_energies.
  assert (Ho1 : output_inv (ranks c) r1).
  { destruct Ho. split; try done. simpl. by apply command_energies_ok. }
  destruct (UpdatePrints_ok epoch (ranks c) s' (calculate c p cnt hist (background_energy p (ranks c) vcnt) r1))
    as (r' & Er & Ho' & Hh & Hid & Hj); [done|apply calculate_ok; [done|rewrite Esum; auto with double|done]|].
  exists s', r'. rewrite Er. cbn [mbind outcome_bind]. split_and!; [done|done| |done|split].
  - split; [done|by cbn [fst snd]; rewrite Hh|done].
  - apply Hj. simpl. by rewrite !lookup_insert_ne, lookup_insert_eq by done.
  - apply Hj. simpl. rewrite !lookup_insert_ne, lookup_insert_eq by done. f_equal. exact Esum.
Qed.

Lemma UpdateCounters_channel c s r :
  channel_inv c (s, r) -> exists s', UpdateCounters s = Ok s' /\ channel_inv c (s', r).
Proof.
  intros [Hs Hp Ho]. cbn [fst snd] in *. destruct (UpdateCounters_ok (ranks c) s Hs) as (vs & E & Hvs).
  eexists. split; [exact E|]. split; [|by eapply UpdateCounters_printable|done]. apply counters_inv; [done|].
  intros name v w Hv Hw. destruct (Hvs name v w Hv Hw) as (w' & ? & ? & _). eauto.
Qed.

(** The final report works, its integers are those of [UpdateFinalStats] and its figures
    are those of the totals. *)
Lemma final_report_ok c p s r :
  power_ok p -> channel_inv c (s, r) ->
  exists s' r', final_report c p s r = Ok (s', r') /\ UpdateFinalStats s = Ok s' /\ channel_inv c (s', r') /\
    out_channel_id r' = out_channel_id r /\ figures c p (counters_ s') (vec_counters_ s') (j_data_ r').
Proof.
  intros Hp Hc. destruct (UpdateCounters_channel c s r Hc) as (s1 & E1 & Hc1).
  destruct (update_figures_ok c p false s1 r Hp Hc1) as (s2 & r2 & E2 & E3 & Hc2 & Hid & Hf).
  exists s2, r2. unfold final_report, UpdateFinalStats. rewrite E1. cbn [mbind outcome_bind]. split_and!; try done.
  unfold UpdateHistoBins in E3. ok_inv E3. exact Hf.
Qed.

Lemma epoch_report_ok c p s r :
  power_ok p -> channel_inv c (s, r) ->
  exists s' r', epoch_report c p s r = Ok (s', r') /\ UpdateEpochStats s = Ok s' /\
    out_channel_id r' = out_channel_id r /\ channel_inv c (s', r').
Proof.
  intros Hp Hc. destruct (UpdateCounters_channel c s r Hc) as (s1 & E1 & Hc1).
  destruct (update_figures_ok c p true s1 r Hp Hc1) as (s2 & r2 & E2 & E3 & [Hs Hpr Ho] & Hid & Hf).
  exists (clear_epoch s2), r2. unfold epoch_report, UpdateEpochStats. rewrite E1. cbn [mbind outcome_bind].
  rewrite E2, E3. cbn [mbind outcome_bind fst snd]. split_and!; [done|done|done|].
  split; [by apply clear_epoch_inv|by apply clear_epoch_printable|done].
Qed.

(** ** The states of a channel *)
Lemma emplace_Forall {V} (P : string -> V -> Prop) m k v : map_Forall P m -> P k v -> map_Forall P (emplace m k v).
Proof. intros Hm Hv. unfold emplace. destruct (m !! k); [done|]. by apply map_Forall_insert_2. Qed.

Lemma emplace_all_Forall {V} (P : string -> V -> Prop) (v : V) l : forall m,
  map_Forall P m -> Forall (fun k => P k v) l -> map_Forall P (foldl (fun m n => emplace m n v) m l).
Proof.
  induction l as [|k l IH]; intros m Hm Hl; [done|]. apply Forall_cons in Hl as [Hk Hl]. cbn [foldl].
  apply IH; [by apply emplace_Forall|done].
Qed.

(** All names of the statistics. *)
Lemma names_ascii :
  Forall ascii_string (counter_names ++ rank_names ++ latency_names ++ double_names ++ vec_double_names ++ calculated_names).
Proof. ascii_name. Qed.

Lemma name_ascii name :
  name ∈ counter_names ++ rank_names ++ latency_names ++ double_names ++ vec_double_names ++ calculated_names -> ascii_string name.
Proof. pose proof names_ascii as H. rewrite Forall_forall in H. apply H. Qed.

Lemma InitStat_all l : forall s,
  counters_ (foldl InitStat s l) = foldl (fun m n => emplace m n 0) (counters_ s) l /\
  epoch_counters_ (foldl InitStat s l) = foldl (fun m n => emplace m n 0) (epoch_counters_ s) l /\
  histo_counts_ (foldl InitStat s l) = histo_counts_ s /\ epoch_histo_counts_ (foldl InitStat s l) = epoch_histo_counts_ s.
Proof. induction l as [|k l IH]; intros s; [done|]. cbn [foldl]. destruct (IH (InitStat s k)) as (-> & -> & -> & ->). done. Qed.

Lemma counters_new ranks :
  counters_ (SimpleStats_new ranks) = foldl (fun m n => emplace m n 0) ∅ counter_names /\
  epoch_counters_ (SimpleStats_new ranks) = foldl (fun m n => emplace m n 0) ∅ counter_names /\
  histo_counts_ (SimpleStats_new ranks) = epoch_histo_counts_ (SimpleStats_new ranks).
Proof.
  unfold SimpleStats_new. destruct (InitStat_all counter_names (mkSimpleStats ∅ ∅ ∅ ∅ ∅ ∅ ∅ ∅ ∅ ∅)) as (H1 & H2 & H3 & H4).
  generalize dependent (foldl InitStat (mkSimpleStats ∅ ∅ ∅ ∅ ∅ ∅ ∅ ∅ ∅ ∅) counter_names). intros s H1 H2 H3 H4.
  cbn [foldl InitVecStat InitHistoStat counters_ epoch_counters_ histo_counts_ epoch_histo_counts_].
  split_and!; [exact H1|exact H2|]. cbn in H3, H4. simpl. by rewrite H3, H4.
Qed.

Definition headers_new : gmap string (list string) := histo_headers_ (StatsOutput_new 1 0).

Lemma bins_named_new name : name ∈ latency_names -> bins_named headers_new name (replicate 12 0).
Proof. revert name. apply Forall_forall. repeat constructor; vm_compute; congruence. Qed.

Lemma named_zeros {V} (P : string -> V -> Prop) (v : V) l :
  Forall (fun n => P n v) l -> map_Forall P (list_to_map ((fun n => (n, v)) <$> l) : gmap string V).
Proof.
  intros Hl k w Hk. apply elem_of_list_to_map_2, list_elem_of_fmap in Hk as (n & [= -> ->] & Hn).
  rewrite Forall_forall in Hl. by apply Hl.
Qed.

Lemma names_Forall {P : string -> Prop} l : Forall ascii_string l -> (forall k, ascii_string k -> P k) -> Forall P l.
Proof. intros Hl HP. by eapply Forall_impl. Qed.

Lemma SimpleStats_new_printable ranks : printable headers_new (SimpleStats_new ranks).
Proof.
  destruct (new_vecs ranks) as [E1 E2], (new_histos ranks) as (E3 & E4 & E5 & _), (counters_new ranks) as (E6 & E7 & E8).
  split.
  - rewrite E6. apply emplace_all_Forall; [apply map_Forall_empty|]. apply names_Forall; [ascii_name|].
    intros k Hk. split; [exact Hk|]. apply (u64_word 0).
  - rewrite E7. apply emplace_all_Forall; [apply map_Forall_empty|]. apply names_Forall; [ascii_name|].
    intros k Hk. split; [exact Hk|]. apply (u64_word 0).
  - rewrite E2. apply named_zeros, names_Forall; [ascii_name|]. intros k Hk. split; [exact Hk|]. apply Forall_replicate, (u64_word 0).
  - rewrite E1. apply named_zeros, names_Forall; [ascii_name|]. intros k Hk. split; [exact Hk|]. apply Forall_replicate, (u64_word 0).
  - rewrite E8, E5. apply named_zeros, names_Forall; [ascii_name|]. intros k Hk. split; [exact Hk|apply map_Forall_empty].
  - rewrite E5. apply named_zeros, names_Forall; [ascii_name|]. intros k Hk. split; [exact Hk|apply map_Forall_empty].
  - rewrite E4. apply named_zeros, Forall_forall. exact bins_named_new.
  - rewrite E3. apply named_zeros, Forall_forall. exact bins_named_new.
Qed.

Lemma StatsOutput_new_inv ranks id : 0 <= ranks -> 0 <= id < 2 ^ 31 -> output_inv ranks (StatsOutput_new ranks id).
Proof.
  intros Hr Hid. split.
  - change (histo_headers_ _) with headers_new. refine (bool_decide_unpack _ _). vm_compute. exact I.
  - apply emplace_all_Forall; [apply map_Forall_empty|]. apply names_Forall; [ascii_name|by intros].
  - split.
    + apply emplace_all_Forall; [apply map_Forall_empty|]. apply names_Forall; [ascii_name|].
      intros k Hk. split; [done|]. by apply Forall_replicate.
    + assert (E : forall name, name ∈ vec_double_names -> at_or [] (vec_doubles_ (StatsOutput_new ranks id)) name = replicate (Z.to_nat ranks) zero)
        by (apply Forall_forall; repeat constructor).
      intros name Hn. rewrite E by done. unfold vsize. rewrite length_replicate. lia.
  - apply emplace_all_Forall; [apply map_Forall_empty|]. apply names_Forall; [ascii_name|by intros].
  - exact Hid.
  - apply building_null.
Qed.

(** How the controller of the channel uses its statistics: it counts, ends epochs and
    resets. *)
Inductive channel_reach (c : Config) (p : PowerParams) (id : Z) : SimpleStats * StatsOutput -> Prop :=
  | reach_new : channel_reach c p id (SimpleStats_new (ranks c), StatsOutput_new (ranks c) id)
  | reach_increment s r name :
      name ∈ counter_names -> channel_reach c p id (s, r) -> channel_reach c p id (Increment s name, r)
  | reach_increment_vec s r name pos s' :
      name ∈ rank_names -> 0 <= pos < ranks c -> IncrementVec s name pos = Ok s' -> channel_reach c p id (s, r) ->
      channel_reach c p id (s', r)
  | reach_add_value s r name value :
      name ∈ latency_names -> channel_reach c p id (s, r) -> channel_reach c p id (AddValue s name value, r)
  | reach_epoch s r s' r' :
      epoch_report c p s r = Ok (s', r') -> channel_reach c p id (s, r) -> channel_reach c p id (s', r')
  | reach_reset s r : channel_reach c p id (s, r) -> channel_reach c p id (Reset s, Reset_output r).

Lemma fmap_Forall {V W} (P : string -> V -> Prop) (Q : string -> W -> Prop) (f : V -> W) (m : gmap string V) :
  map_Forall P m -> (forall k v, P k v -> Q k (f v)) -> map_Forall Q (f <$> m).
Proof.
  intros Hm Hf k w. rewrite lookup_fmap. destruct (m !! k) as [v|] eqn:E; [|done]. intros [= <-]. by apply Hf, Hm.
Qed.

(** Sets the statistics of an epoch and the totals to zero. *)
Lemma Reset_inv ranks s : stats_inv ranks s -> stats_inv ranks (Reset s).
Proof.
  intros Hs. destruct (clear_epoch_inv ranks s Hs) as [H0 H1 H2 H3 H4]. split; try done. simpl. intros name v Hv.
  rewrite lookup_fmap in Hv. destruct (epoch_vec_counters_ s !! name) as [v0|] eqn:E; [|done]. simpl in Hv. simplify_eq.
  destruct (si_vecs _ _ Hs name v0 E) as (w & Hw & Hsz). rewrite lookup_fmap, Hw. simpl. eexists. split; [done|].
  unfold vsize in *. rewrite !length_replicate. lia.
Qed.

Lemma Reset_printable headers s : printable headers s -> printable headers (Reset s).
Proof.
  intros Hp. destruct (clear_epoch_printable headers s Hp) as [_ E2 _ E4 _ E6 _ _]. destruct Hp as [E1 _ E3 _ E5 _ E7 E8].
  split; try done; simpl.
  - eapply fmap_Forall; [exact E1|]. intros k v [Hk _]. split; [exact Hk|apply (u64_word 0)].
  - eapply fmap_Forall; [exact E3|]. intros k v [Hk _]. split; [exact Hk|apply Forall_replicate, (u64_word 0)].
  - eapply fmap_Forall; [exact E5|]. intros k v [Hk _]. split; [exact Hk|apply map_Forall_empty].
Qed.

Lemma Reset_output_inv ranks r : output_inv ranks r -> output_inv ranks (Reset_output r).
Proof.
  intros [Hh Hd [Hv Hs] Hc Hid Hj]. split; try done; simpl.
  - eapply fmap_Forall; [exact Hd|]. intros k v [Hk _]. by split.
  - split.
    + eapply fmap_Forall; [exact Hv|]. intros k v [Hk _]. split; [exact Hk|]. by apply Forall_replicate.
    + intros name Hn. rewrite <- (Hs name Hn). unfold at_or. rewrite lookup_fmap.
      destruct (vec_doubles_ r !! name); [|done]. simpl. unfold vsize. by rewrite length_replicate.
  - eapply fmap_Forall; [exact Hc|]. intros k v [Hk _]. by split.
Qed.

Lemma Increment_channel c s r name :
  name ∈ counter_names -> channel_inv c (s, r) -> channel_inv c (Increment s name, r).
Proof.
  intros Hn [Hs Hp Ho]. split; [by apply Increment_inv| |done].
  apply Increment_printable; [|done]. apply name_ascii, elem_of_app. by left.
Qed.

(** The invariant of a channel and its number hold in every state it reaches. *)
Lemma channel_reach_inv (c : Config) p id sr :
  power_ok p -> 0 <= ranks c -> 0 <= id < 2 ^ 31 -> channel_reach c p id sr -> channel_inv c sr /\ out_channel_id sr.2 = id.
Proof.
  intros Hp Hr Hid H.
  induction H as [|s r name Hn _ [IH E]|s r name pos s' Hn Hpos Es _ [[Hs Hpr Ho] E]|s r name v Hn _ [[Hs Hpr Ho] E]
    |s r s' r' Er _ [IH E]|s r _ [[Hs Hpr Ho] E]]; cbn [fst snd] in *.
  - split; [|done]. split; [by apply SimpleStats_new_inv|apply SimpleStats_new_printable|by apply StatsOutput_new_inv].
  - split; [by apply Increment_channel|done].
  - split; [|done]. destruct (IncrementVec_ok (ranks c) s name pos Hs Hn Hpos) as (s1 & E1 & Hs1).
    rewrite Es in E1. injection E1 as <-. split; [done| |done].
    eapply IncrementVec_printable; [|done|done]. apply name_ascii. rewrite !elem_of_app. tauto.
  - split; [|done]. split; [by apply AddValue_inv| |done]. apply AddValue_printable; [|done].
    apply name_ascii. rewrite !elem_of_app. tauto.
  - destruct (epoch_report_ok c p s r Hp IH) as (s1 & r1 & E1 & _ & Hid' & Hc). rewrite Er in E1. injection E1 as <- <-.
    split; [done|congruence].
  - split; [|done]. split; [by apply Reset_inv|by apply Reset_printable|by apply Reset_output_inv].
Qed.

Lemma building_reads n j : building n j -> exists t, dump j = Ok t /\ reads_as (S n) (to_value j) t.
Proof. intros [Hj _]. by apply written. Qed.

(** C28. The report of a channel is well formed in every state it reaches by counting,
    ending epochs and resetting: each counter and each bin is a 64-bit word under an
    ASCII name, each vector has an element per rank, each bin has a header, each
    floating-point number is a double in normal form, and the JSON object can be
    written, whatever the configuration file says about the power. *)
Theorem report_well_formed (reader : INIReader) (c : Config) (id : Z) (sr : SimpleStats * StatsOutput) :
  0 <= ranks c -> 0 <= id < 2 ^ 31 -> channel_reach c (InitPowerParams reader c) id sr ->
  stats_inv (ranks c) sr.1 /\ printable (histo_headers_ sr.2) sr.1 /\ output_inv (ranks c) sr.2 /\
  out_channel_id sr.2 = id /\ exists t, dump (j_data_ sr.2) = Ok t.
Proof.
  intros Hr Hid H. destruct (channel_reach_inv c _ id sr (InitPowerParams_ok reader c) Hr Hid H) as [[Hs Hp Ho] E].
  split_and!; [done..|]. destruct (building_reads 2 (j_data_ sr.2) (oi_json _ _ Ho)) as (t & Et & _). by exists t.
Qed.

(** A channel that has counted two reads and a write in ten cycles. *)
Definition busy_stats : SimpleStats :=
  foldl Increment (SimpleStats_new 1)
    (["num_reads_done"; "num_reads_done"; "num_writes_done"; "num_read_cmds"; "num_act_cmds"]%string ++
     replicate 10 "num_cycles"%string).

Lemma busy_reach (c : Config) p id : ranks c = 1 -> channel_reach c p id (busy_stats, StatsOutput_new 1 id).
Proof.
  intros Hr. unfold busy_stats. cbn [app replicate foldl].
  do 15 (apply reach_increment; [refine (bool_decide_unpack _ _); vm_compute; exact I|]). rewrite <- Hr. apply reach_new.
Qed.

Lemma report_well_formed_witness :
  stats_inv 1 busy_stats /\ out_channel_id (StatsOutput_new 1 3) = 3 /\
  exists t, dump (j_data_ (StatsOutput_new 1 3)) = Ok t.
Proof.
  destruct (report_well_formed hbm2_reader hbm2_config 3 (busy_stats, StatsOutput_new 1 3)) as (Hs & _ & _ & Hid & Ht).
  - vm_compute. congruence.
  - lia.
  - apply busy_reach. reflexivity.
  - split; [exact Hs|]. split; [exact Hid|exact Ht].
Defined.

(** Without a [power] section the energy of a per-bank refresh is negative: the default of
    IDD5PB (5) is below that of IDD3N (43). *)
Example default_refb_energy_negative :
  match refb_energy_inc (InitPowerParams (mkINIReader ∅) hbm2_config) with S754_finite s _ _ => s | _ => false end = true.
Proof. vm_compute. reflexivity. Qed.
