(* ===== verification/StatsFiles.v ===== *)
(** * The files of the report (DRAMsim3/src/dram_system.cc, src/main.cc)

    What is in the JSON file when [PrintStats] has written it, what [main] reads
    from it for the CSV record, and that the file of the epochs is one JSON array. *)

From stdpp Require Import base tactics list list_numbers numbers strings gmap.
From Stdlib Require Import ZArith Lia Ascii Floats.SpecFloat.
From S2P Require Import Prelude IniReader Double JsonReader JsonWriter JsonRoundTrip Inputs DramConfig SimpleStats StatsReport.

(** ** The file *)
Lemma member_assign_all {A} (kxs : list (string * A)) k : forall m, k ∉ kxs.*1 -> member (assign_all m kxs) k = member m k.
Proof.
  induction kxs as [|[k' x] kxs IH]; intros m; [done|]. cbn [fmap list_fmap fst]. intros [Hne Hk]%not_elem_of_cons.
  cbn [assign_all foldl fst snd]. change (foldl _ ?m kxs) with (assign_all m kxs). rewrite IH by done.
  rewrite member_assign. by rewrite decide_False.
Qed.

(** The member of a channel in the file. *)
Definition channel_member (sr : SimpleStats * StatsOutput) : string * Value :=
  (show_int (out_channel_id sr.2), to_value (j_data_ sr.2)).

Lemma PrintFinalStats_ok c p sr :
  power_ok p -> 0 <= output_level p -> channel_inv c sr ->
  exists u sr', PrintFinalStats c p sr = Ok (u, sr') /\ final_report c p sr.1 sr.2 = Ok sr' /\
    out_channel_id sr'.2 = out_channel_id sr.2 /\ member_reads 3 (channel_member sr') u.
Proof.
  intros Hp Hl Hc. destruct sr as [s r]. destruct (final_report_ok c p s r Hp Hc) as (s' & r' & E & _ & Hc' & Hid & _).
  destruct (building_reads 2 (j_data_ r')) as (t & Et & Hr); [by destruct Hc' as [_ _ []]|].
  eexists _, (s', r'). unfold PrintFinalStats. cbn [fst snd]. rewrite E. cbn [mbind outcome_bind fst snd].
  rewrite decide_True by done. rewrite Et. cbn [mbind outcome_bind]. split_and!; [reflexivity|done|done|].
  split; [apply show_int_ascii|]. exists t. split; [|done]. eexists. split; [apply quoted_show_int|].
  cbn [fst channel_member snd app]. by rewrite <- app_assoc.
Qed.

Lemma print_channels_ok c p chs :
  power_ok p -> 0 <= output_level p -> Forall (channel_inv c) chs ->
  exists us chs', print_channels c p chs = Ok (join ["010"%char] us, chs') /\
    Forall2 (fun sr sr' => final_report c p sr.1 sr.2 = Ok sr' /\ out_channel_id sr'.2 = out_channel_id sr.2) chs chs' /\
    Forall2 (member_reads 3) (channel_member <$> chs') us.
Proof.
  intros Hp Hl Hc. induction Hc as [|sr chs Hsr Hc (us & chs' & E & Hf & Hr)]; [by exists [], []|].
  destruct (PrintFinalStats_ok c p sr Hp Hl Hsr) as (u & sr' & Eu & Hu & Hid & Hur).
  exists (u :: us), (sr' :: chs'). cbn [print_channels]. rewrite Eu. cbn [mbind outcome_bind fst snd].
  rewrite E. cbn [mbind outcome_bind fst snd]. split_and!; [|by constructor|by constructor].
  destruct Hf; [|by destruct us; [inversion Hr|]]. apply Forall2_nil_inv_l in Hr as ->. cbn [join]. by rewrite app_nil_r.
Qed.

(** The file is an object with a member for each channel. *)
Lemma PrintStats_ok c p chs root :
  power_ok p -> 0 <= output_level p -> Forall (channel_inv c) chs ->
  exists file chs', PrintStats c p chs = Ok (file, chs') /\
    Forall2 (fun sr sr' => final_report c p sr.1 sr.2 = Ok sr' /\ out_channel_id sr'.2 = out_channel_id sr.2) chs chs' /\
    parse file root = Ok (true, objectValue (assign_all [] (channel_member <$> chs')), []).
Proof.
  intros Hp Hl Hc. destruct (print_channels_ok c p chs Hp Hl Hc) as (us & chs' & E & Hf & Hr).
  eexists _, chs'. unfold PrintStats. rewrite E. cbn [mbind outcome_bind fst snd]. split_and!; [reflexivity|done|].
  rewrite <- (app_nil_r (_ :: _)). apply (reads_parse 4); [|unfold stackLimit; lia|done].
  apply object_reads; [done|]. by repeat constructor.
Qed.

(** ** The figures of the CSV record *)
(** What a number is after it went through the file: what is not finite is written as null. *)
Definition printed (d : double) : double := match d with S754_zero _ | S754_finite _ _ _ => d | _ => zero end.

Lemma asDouble_printed d : asDouble (to_value (JFloat d)) = Ok (printed d).
Proof. by destruct d. Qed.

Lemma asFloat_printed d : asFloat (to_value (JFloat d)) = Ok (float_of (printed d)).
Proof. by destruct d. Qed.

Lemma show_int_zero n : 0 <= n -> show_int n = "0"%string -> n = 0.
Proof.
  intros Hn H. unfold show_int in H. destruct (Z.ltb_spec n 0); [lia|].
  destruct (show_digits_read (S (Z.to_nat (Z.log2 n))) n EmptyString) as (k & E); [lia|done| |].
  - destruct (decide (n = 0)) as [->|]; [done|]. pose proof (Z.log2_spec n ltac:(lia)). pose proof (Z.log2_nonneg n).
    rewrite Nat2Z.inj_succ, Z2Nat.id by done. lia.
  - rewrite string_app_nil, H in E. cbn in E. by injection E as _ <-.
Qed.

(** Reading a figure of channel 0. *)
Lemma figure_of_channel0 (j : Json) kxs key d :
  (j = JNull \/ exists m, j = JObject m) -> "0"%string ∉ kxs.*1 -> member (members j) key = Some (JFloat d) ->
  (a ← at_key (objectValue (assign_all [] (("0"%string, to_value j) :: kxs))) "0"; at_key a key) = Ok (to_value (JFloat d)).
Proof.
  intros Hj Hk Hd.
  assert (E : at_key (objectValue (assign_all [] (("0"%string, to_value j) :: kxs))) "0" = Ok (to_value j)).
  { cbn [at_key assign_all foldl fst snd assign]. change (foldl _ ?m kxs) with (assign_all m kxs).
    rewrite member_assign_all by done. by rewrite member_cons, decide_True. }
  rewrite E. cbn [mbind outcome_bind]. rewrite at_key_object by done. by rewrite Hd.
Qed.

(** The two figures of the memory in the CSV record: after a run, [PrintStats] writes a
    file from which [main] reads back, bit for bit, the average bandwidth (rounded to
    a float) and the total energy that the counters of channel 0 amount to, for any
    number of channels and any configuration file; a figure that is not finite is
    read as zero. *)
Lemma figures_at (reader : INIReader) (c : Config) (s0 : SimpleStats) (r0 : StatsOutput)
    (chs : list (SimpleStats * StatsOutput)) :
  let p := InitPowerParams reader c in
  0 <= output_level p -> 0 <= ranks c -> channel_reach c p 0 (s0, r0) ->
  Forall (fun sr => exists id, 0 < id < 2 ^ 31 /\ channel_reach c p id sr) chs ->
  exists file chs' s0', PrintStats c p ((s0, r0) :: chs) = Ok (file, chs') /\ UpdateFinalStats s0 = Ok s0' /\
    read_figures file =
      Ok (float_of (printed (average_bandwidth c p (counters_ s0'))),
          printed (energy_of p (ranks c) (counters_ s0') (vec_counters_ s0'))).
Proof.
  intros p Hl Hrk Hr0 Hchs. pose proof (InitPowerParams_ok reader c) as Hp. fold p in Hp.
  destruct (channel_reach_inv c p 0 (s0, r0) Hp Hrk ltac:(lia) Hr0) as [Hc0 H0]. cbn [snd] in H0.
  assert (Hall : Forall (fun sr => channel_inv c sr /\ 0 < out_channel_id sr.2) chs).
  { eapply Forall_impl; [exact Hchs|]. intros sr (id & Hid & Hsr).
    destruct (channel_reach_inv c p id sr Hp Hrk ltac:(lia) Hsr) as [? ->]. split; [done|lia]. }
  apply Forall_and in Hall as [Hc Hpos]. pose proof (Forall_cons_2 _ _ _ Hc0 Hc) as Hc'.
  destruct (PrintStats_ok c p ((s0, r0) :: chs) nullValue Hp Hl Hc') as (file & chs' & E & Hf & Hr).
  apply Forall2_cons_inv_l in Hf as ([s0' r0'] & chs1 & [E0 _] & Hf & ->). cbn [fst snd] in *.
  destruct (final_report_ok c p s0 r0 Hp Hc0) as (s1 & r1 & E1 & Eu & Hc1 & Hid & Hb & He). rewrite E0 in E1. injection E1 as <- <-.
  exists file, ((s0', r0') :: chs1), s0'. split_and!; [done|done|].
  assert (Hk : "0"%string ∉ (channel_member <$> chs1).*1).
  { clear -Hf Hpos. induction Hf as [|sr sr' l l' [_ Hid] _ IH]; [by apply not_elem_of_nil|].
    apply Forall_cons in Hpos as [Hp0 Hpos]. cbn [fmap list_fmap]. apply not_elem_of_cons. split; [|by apply IH].
    intros Heq. symmetry in Heq. cbn [channel_member fst] in Heq. apply show_int_zero in Heq; lia. }
  assert (Hj : j_data_ r0' = JNull \/ exists m, j_data_ r0' = JObject m) by exact (proj2 (oi_json _ _ (ci_output _ _ Hc1))).
  unfold read_figures. rewrite Hr. cbn [mbind outcome_bind fst snd fmap list_fmap].
  unfold channel_member at 1. cbn [snd]. rewrite Hid, H0. change (show_int 0) with "0"%string.
  pose proof (figure_of_channel0 _ _ _ _ Hj Hk Hb) as Fb. pose proof (figure_of_channel0 _ _ _ _ Hj Hk He) as Fe.
  change (list_fmap _ _ channel_member chs1) with (channel_member <$> chs1).
  destruct (at_key (objectValue _) "0") as [a|]; [|done]. cbn [mbind outcome_bind] in *. rewrite Fb.
  cbn [mbind outcome_bind]. rewrite asFloat_printed. cbn [mbind outcome_bind]. rewrite Fe. cbn [mbind outcome_bind].
  by rewrite asDouble_printed.
Qed.

Definition busy_power : PowerParams := InitPowerParams hbm2_reader hbm2_config.

Lemma busy_figures :
  match UpdateFinalStats busy_stats with
  | Ok s => float_of (printed (average_bandwidth hbm2_config busy_power (counters_ s))) = float_of (decimal false 192 (-1)) /\
      printed (energy_of busy_power (ranks hbm2_config) (counters_ s) (vec_counters_ s)) = dof 660
  | Fault _ => False
  end.
Proof. vm_compute. split; reflexivity. Qed.

Example busy_figures_read :
  exists file chs', PrintStats hbm2_config busy_power [(busy_stats, StatsOutput_new 1 0); (busy_stats, StatsOutput_new 1 1)] =
      Ok (file, chs') /\
    read_figures file = Ok (float_of (decimal false 192 (-1)), dof 660).
Proof.
  destruct (figures_at hbm2_reader hbm2_config busy_stats (StatsOutput_new 1 0) [(busy_stats, StatsOutput_new 1 1)])
    as (file & chs' & s0' & E & Es & H).
  - vm_compute. congruence.
  - vm_compute. congruence.
  - apply busy_reach. reflexivity.
  - apply Forall_cons. split; [|apply Forall_nil; exact I]. exists 1. split; [lia|apply busy_reach; reflexivity].
  - exists file, chs'. split; [exact E|]. rewrite H. pose proof busy_figures as Hf. rewrite Es in Hf.
    destruct Hf as [Hb He]. unfold busy_power in Hb, He. rewrite Hb, He. reflexivity.
Qed.

(** ** The file of the epochs *)
(** The texts of the reports, each with a comma and a line end. *)
Definition lines (ts : list (list ascii)) : list ascii := concat ((fun t => t ++ [","%char; "010"%char]) <$> ts).

Lemma lines_app ts us : lines (ts ++ us) = lines ts ++ lines us.
Proof. unfold lines. by rewrite fmap_app, concat_app. Qed.

Lemma lines_join ts : ts <> [] -> lines ts = join ["010"%char] ts ++ [","%char; "010"%char].
Proof.
  induction ts as [|t ts IH]; [done|]. intros _. destruct ts as [|u ts]; [unfold lines; cbn; by rewrite app_nil_r|].
  change (lines (t :: u :: ts)) with ((t ++ [","%char; "010"%char]) ++ lines (u :: ts)). rewrite IH by done.
  rewrite join_cons. repeat (rewrite <- app_assoc; cbn [app]). done.
Qed.

Lemma close_lines t ts : ts <> [] -> close_epochs (Some (t ++ lines ts)) = Some (t ++ join ["010"%char] ts ++ ["]"%char; "010"%char]).
Proof.
  intros Hne. rewrite lines_join by done. rewrite app_assoc. set (a := t ++ join ["010"%char] ts). unfold close_epochs.
  rewrite length_app. cbn [length]. rewrite decide_False by lia. replace (length a + 2 - 2)%nat with (length a + 0)%nat by lia.
  rewrite insert_app_r. cbn. unfold a. by rewrite <- app_assoc.
Qed.

(** The report of an epoch is appended for each channel. *)
Lemma print_epoch_channels_ok c p chs :
  power_ok p -> 1 <= output_level p -> Forall (channel_inv c) chs -> forall file,
  exists ts chs', print_epoch_channels c p chs file = Ok (file ++ lines ts, chs') /\
    Forall2 (fun sr t => reads_as 3 (to_value (j_data_ sr.2)) t) chs' ts /\ length chs' = length chs.
Proof.
  intros Hp Hl Hc. induction Hc as [|[s r] chs Hsr Hc IH]; intros file.
  { exists [], []. cbn. by rewrite app_nil_r. }
  cbn [print_epoch_channels]. unfold print_epoch_channel. cbn [fst snd].
  destruct (epoch_report_ok c p (Increment s "epoch_num") r Hp) as (s' & r' & -> & _ & _ & Hc').
  { apply Increment_channel; [|done]. refine (bool_decide_unpack _ _). vm_compute. exact I. }
  cbn [mbind outcome_bind fst snd]. rewrite decide_True by done.
  destruct (building_reads 2 (j_data_ r')) as (t & Et & Hr); [exact (oi_json _ _ (ci_output _ _ Hc'))|].
  rewrite Et. cbn [mbind outcome_bind fst snd]. destruct (IH (file ++ t ++ [","%char; "010"%char])) as (ts & chs' & -> & Hf & Hn).
  exists (t :: ts), ((s', r') :: chs'). cbn [mbind outcome_bind fst snd]. split_and!; [|by constructor|cbn; lia].
  do 2 f_equal. change (t :: ts) with ([t] ++ ts). rewrite lines_app. unfold lines at 2. cbn. rewrite app_nil_r.
  by rewrite <- !app_assoc.
Qed.

(** The file after some epochs, with the reports that were printed: the first epoch
    starts the file anew, at the others the clock has another value. *)
Inductive epoch_file (c : Config) (p : PowerParams) : option (list ascii) -> list Json -> Prop :=
  | epoch_file_none : epoch_file c p None []
  | epoch_file_step file js clk chs file' chs' :
      epoch_file c p file js -> chs <> [] ->
      Forall (fun sr => exists id, 0 <= id < 2 ^ 31 /\ channel_reach c p id sr) chs ->
      (u64 (clk - epoch_period c) = 0 <-> file = None) ->
      PrintEpochFile c p clk chs file = Ok (file', chs') ->
      epoch_file c p file' (js ++ ((fun sr => j_data_ sr.2) <$> chs')).

Lemma epoch_file_lines (c : Config) p file js :
  power_ok p -> 1 <= output_level p -> 0 <= ranks c -> epoch_file c p file js ->
  exists ts, Forall2 (fun j t => reads_as 3 (to_value j) t) js ts /\
    file = match js with [] => None | _ => Some ("["%char :: lines ts) end.
Proof.
  intros Hp Hl Hr H. induction H as [|file js clk chs file' chs' _ (ts & Hts & Hfile) Hne Hchs Hclk E]; [by exists []|].
  assert (Hc : Forall (channel_inv c) chs).
  { eapply Forall_impl; [exact Hchs|]. intros sr (id & Hid & Hsr). by destruct (channel_reach_inv c p id sr Hp Hr Hid Hsr). }
  unfold PrintEpochFile in E.
  assert (Hstart : default [] (if decide (u64 (clk - epoch_period c) = 0) then Some ["["%char] else file) = "["%char :: lines ts).
  { destruct Hts; [subst file; by rewrite decide_True by (by apply Hclk)|].
    rewrite decide_False by (rewrite Hclk, Hfile; done). by rewrite Hfile. }
  destruct chs as [|sr chs]; [done|]. rewrite Hstart in E.
  destruct (print_epoch_channels_ok c p (sr :: chs) Hp Hl Hc ("["%char :: lines ts)) as (us & chs1 & E1 & Hf & Hn).
  rewrite E1 in E. cbn [mbind outcome_bind fst snd] in E. injection E as <- <-. exists (ts ++ us). split.
  - apply Forall2_app; [done|]. by apply Forall2_fmap_l.
  - rewrite lines_app. destruct js; [|done]. by destruct chs1.
Qed.


Definition busy_epoch : outcome (option (list ascii) * list (SimpleStats * StatsOutput)) :=
  PrintEpochFile hbm2_config busy_power 1000000 [(busy_stats, StatsOutput_new 1 0); (busy_stats, StatsOutput_new 1 1)] None.

Definition number_at (v : Value) (key : string) : outcome double := x ← at_key v key; asDouble x.

Lemma busy_epoch_ok :
  match busy_epoch with
  | Ok (file, [x; y]) =>
      number_at (to_value (j_data_ x.2)) "num_reads_done" = Ok (dof 2) /\ number_at (to_value (j_data_ y.2)) "channel" = Ok (dof 1)
  | _ => False
  end.
Proof. vm_compute. split; reflexivity. Qed.

