(* ===== verification/StatsRuns.v ===== *)
(** * The report of a run (DRAMsim3/src/controller.cc, command_queue.cc, dram_system.cc)

    Whatever the controllers of the JEDEC system do, they change their statistics
    only by counting and by ending epochs, so that the states a run reaches are the
    states [StatsReport.channel_reach] describes, and the files written at its end
    hold what StatsFiles says. *)

From stdpp Require Import base tactics list list_numbers numbers strings gmap.
From Stdlib Require Import ZArith Lia Ascii Floats.SpecFloat.
From S2P Require Import Prelude IniReader Double JsonReader JsonWriter JsonRoundTrip DramCommon DramConfig DramTiming BankState.
From S2P Require Import ChannelState SimpleStats CommandQueue Refresh DramController ControllerSafety DramSystem StatsReport StatsFiles.

(** ** Counting *)
Section counting.
Context (config : Config).

(** From [s] the statistics get to [s'] by counting. *)
Definition counted (s s' : SimpleStats) : Prop :=
  forall p id r, channel_reach config p id (s, r) -> channel_reach config p id (s', r).

#[local] Instance counted_preorder : PreOrder counted.
Proof. split; [by intros s p id r|]. intros s1 s2 s3 H1 H2 p id r H. by apply H2, H1. Qed.

(** The names the controller counts under. *)
Ltac counter_name := refine (bool_decide_unpack _ _); vm_compute; exact I.

Lemma counted_increment s name : name ∈ counter_names -> counted s (Increment s name).
Proof. intros Hn p id r H. by apply reach_increment. Qed.

Lemma counted_value s name v : name ∈ latency_names -> counted s (AddValue s name v).
Proof. intros Hn p id r H. by apply reach_add_value. Qed.

Lemma counted_vec s name i s' :
  name ∈ rank_names -> 0 <= i < ranks config -> IncrementVec s name i = Ok s' -> counted s s'.
Proof. intros Hn Hi E p id r H. by eapply reach_increment_vec. Qed.

Lemma ArbitratePrecharge_counted cs s before cmd from a :
  ArbitratePrecharge cs s before cmd from = Ok a -> counted s a.2.
Proof.
  unfold ArbitratePrecharge. intros H. destruct (existsb _ before); [by injection H as <-|]. ok_inv H.
  destruct (negb _ || _); injection H as <-; [|done]. apply counted_increment. counter_name.
Qed.

Lemma first_ready_counted cs clk rest : forall s before r,
  first_ready config cs clk s before rest = Ok r -> counted s r.2.
Proof.
  induction rest as [|it rest IH]; intros s before r H; cbn [first_ready] in H; [by injection H as <-|]. ok_inv H.
  destruct (negb _); [by eapply IH|]. case_decide.
  - apply bind_ok in H as (a & Ha & H). apply ArbitratePrecharge_counted in Ha.
    destruct (a.1); [by injection H as <-|]. etrans; [exact Ha|]. by eapply IH.
  - destruct (_ && _); [by eapply IH|]. by injection H as <-.
Qed.

Lemma issue_loop_counted cs fuel : forall q s r, issue_loop config fuel cs q s = Ok r -> counted s r.2.
Proof.
  induction fuel as [|fuel IH]; intros q s r H; cbn [issue_loop] in H; [by injection H as <-|].
  apply bind_ok in H as (nq & _ & H). destruct (_ && _); [by eapply IH|].
  apply bind_ok in H as (x & Hx & H). apply first_ready_counted in Hx.
  destruct (IsValid _); [|etrans; [exact Hx|by eapply IH]].
  destruct (IsReadWrite _); ok_inv H; done.
Qed.

Lemma return_reads_stats n a k : forall c c', return_reads n a k c = Ok c' -> simple_stats_ c' = simple_stats_ c.
Proof.
  induction n as [|n IH]; intros c c' H; cbn [return_reads] in H; [by injection H as <-|].
  destruct (take_addr _ _) as [[t l]|]; [|done]. apply IH in H. exact H.
Qed.

Lemma settle_requests_counted c cmd c' :
  settle_requests config c cmd = Ok c' -> counted (simple_stats_ c) (simple_stats_ c').
Proof.
  unfold settle_requests. intros H. destruct (IsRead cmd).
  - case_decide; [done|]. by rewrite (return_reads_stats _ _ _ _ _ H).
  - destruct (IsWrite cmd); [|by injection H as <-]. destruct (take_addr _ _) as [[t l]|]; [|done]. injection H as <-.
    simpl. apply counted_value. counter_name.
Qed.

Lemma UpdateCommandStats_counted c cmd c' :
  UpdateCommandStats c cmd = Ok c' -> counted (simple_stats_ c) (simple_stats_ c').
Proof.
  unfold UpdateCommandStats. intros H. apply bind_ok in H as (s & Hs & H). injection H as <-. simpl.
  assert (Hcol : forall cmds hits, cmds ∈ counter_names -> hits ∈ counter_names ->
    (b ← bank_at (bank_states_ (channel_state_ c)) (Rank cmd) (Bankgroup cmd) (Bank cmd);
     Ok (if decide (RowHitCount b <> 0) then Increment (Increment (simple_stats_ c) cmds) hits
         else Increment (simple_stats_ c) cmds)) = Ok s -> counted (simple_stats_ c) s).
  { intros cmds hits H1 H2 E. ok_inv E. case_decide; [|by apply counted_increment].
    transitivity (Increment (simple_stats_ c) cmds); by apply counted_increment. }
  destruct (cmd_type cmd); try discriminate Hs;
    try (eapply Hcol; [| |exact Hs]; counter_name); injection Hs as <-; apply counted_increment; counter_name.
Qed.

Lemma IssueCommand_counted timing c cmd c' :
  IssueCommand config timing c cmd = Ok c' -> counted (simple_stats_ c) (simple_stats_ c').
Proof.
  unfold IssueCommand. intros H. apply bind_ok in H as (c1 & H1 & H). apply bind_ok in H as (c2 & H2 & H). ok_inv H.
  apply settle_requests_counted in H1. apply UpdateCommandStats_counted in H2. simpl. by etrans.
Qed.

Lemma choose_command_counted c r : choose_command config c = Ok r -> counted (simple_stats_ c) (simple_stats_ r.2).
Proof.
  unfold choose_command. intros H. apply bind_ok in H as (fr & Hfr & H).
  assert (E : simple_stats_ fr.2 = simple_stats_ c) by (destruct (IsRefreshWaiting _); ok_inv Hfr; done).
  destruct (IsValid _); [injection H as <-; by rewrite E|]. apply bind_ok in H as (x & Hx & H). injection H as <-.
  simpl. rewrite E in Hx. by eapply issue_loop_counted.
Qed.

Lemma second_command_counted timing c cmd c' :
  second_command config timing c cmd = Ok c' -> counted (simple_stats_ c) (simple_stats_ c').
Proof.
  unfold second_command. intros H. destruct (enable_hbm_dual_cmd _); [|by injection H as <-].
  apply bind_ok in H as (x & Hx & H). apply issue_loop_counted in Hx.
  destruct (_ && _); [|injection H as <-; done]. apply bind_ok in H as (c1 & H1 & H). injection H as <-. simpl.
  apply IssueCommand_counted in H1. etrans; [exact Hx|]. etrans; [exact H1|]. apply counted_increment. counter_name.
Qed.

Lemma rank_power_counted i c c' :
  0 <= i < ranks config -> rank_power config i c = Ok c' -> counted (simple_stats_ c) (simple_stats_ c').
Proof.
  intros Hi. unfold rank_power. intros H. apply bind_ok in H as (sref & _ & H). destruct sref.
  - ok_inv H. simpl. eapply counted_vec; [|exact Hi|eassumption]. counter_name.
  - apply bind_ok in H as (idle & _ & H). destruct idle; ok_inv H; simpl;
      (eapply counted_vec; [|exact Hi|eassumption]); counter_name.
Qed.

Lemma self_refresh_counted timing l : forall c c',
  self_refresh config timing c l = Ok c' -> counted (simple_stats_ c) (simple_stats_ c').
Proof.
  induction l as [|i l IH]; intros c c' H; cbn [self_refresh] in H; [by injection H as <-|].
  apply bind_ok in H as (sref & _ & H). apply bind_ok in H as (e & _ & H). apply bind_ok in H as (w & _ & H).
  destruct w as [ty|]; [|by eapply IH]. apply bind_ok in H as (cmd & _ & H).
  destruct (IsValid cmd); [by eapply IssueCommand_counted|by eapply IH].
Qed.

Lemma schedule_loop_stats s rest : forall c before c',
  schedule_loop config c s before rest = Ok c' -> simple_stats_ c' = simple_stats_ c.
Proof.
  induction rest as [|t rest IH]; intros c before c' H; cbn [schedule_loop] in H; [by injection H as <-|].
  apply bind_ok in H as (ok & _ & H). destruct ok; [|by eapply IH].
  destruct (negb _ && _ && _); [by injection H as <-|]. ok_inv H. destruct s; simpl; by destruct (negb _ && _).
Qed.

Lemma ControllerTick_counted timing c c' :
  ControllerTick config timing c = Ok c' -> counted (simple_stats_ c) (simple_stats_ c').
Proof.
  unfold ControllerTick. intros H. apply bind_ok in H as (rc & _ & H). apply bind_ok in H as (cc & Hcc & H).
  apply bind_ok in H as (c1 & H1 & H). apply bind_ok in H as (c2 & H2 & H). apply bind_ok in H as (c3 & H3 & H).
  apply bind_ok in H as (c4 & H4 & H). injection H as <-. simpl.
  apply choose_command_counted in Hcc. simpl in Hcc. etrans; [exact Hcc|]. transitivity (simple_stats_ c1).
  { destruct (IsValid _); [|by injection H1 as <-]. apply bind_ok in H1 as (c5 & H5 & H1).
    apply IssueCommand_counted in H5. apply second_command_counted in H1. by etrans. }
  transitivity (simple_stats_ c2).
  { refine (for_each_inv _ (fun c => counted (simple_stats_ c1) (simple_stats_ c)) _ _ _ _ _ H2); [|done].
    intros i t t' Hi%elem_of_seqZ Ht Et. etrans; [exact Ht|]. eapply rank_power_counted; [|exact Et]. lia. }
  transitivity (simple_stats_ c3).
  { destruct (_ && _); [by eapply self_refresh_counted|by injection H3 as <-]. }
  unfold ScheduleTransaction in H4. apply schedule_loop_stats in H4. rewrite H4.
  assert (E : simple_stats_ (start_draining config c3) = simple_stats_ c3)
    by (unfold start_draining; repeat case_decide; done).
  rewrite E. apply counted_increment. counter_name.
Qed.

Lemma ReturnDoneTrans_counted c clk : counted (simple_stats_ c) (simple_stats_ (ReturnDoneTrans c clk).2).
Proof.
  unfold ReturnDoneTrans. destruct (take_done _ _) as [[t l]|]; [|done]. simpl. destruct (dt_is_write t).
  - apply counted_increment. counter_name.
  - transitivity (Increment (simple_stats_ c) "num_reads_done"); [apply counted_increment|apply counted_value]; counter_name.
Qed.

Lemma return_done_counted fuel clk : forall c, counted (simple_stats_ c) (simple_stats_ (return_done fuel clk c).2).
Proof.
  induction fuel as [|fuel IH]; intros c; cbn [return_done]; [done|]. pose proof (ReturnDoneTrans_counted c clk) as H.
  destruct (ReturnDoneTrans c clk) as [[x|] c1]; [|done]. specialize (IH c1). destruct (return_done fuel clk c1) as [l c2].
  by etrans.
Qed.

Lemma AddTransaction_counted c t : counted (simple_stats_ c) (simple_stats_ (AddTransaction c t)).
Proof.
  transitivity (AddValue (simple_stats_ c) "interarrival_latency" (u64 (c_clk_ c - last_trans_clk_ c))).
  - apply counted_value. counter_name.
  - unfold AddTransaction. repeat (case_match; simpl; try done).
Qed.
End counting.

(** ** The system *)
Section system.
Context (reader : INIReader) (config : Config).
Let p : PowerParams := InitPowerParams reader config.

(** The statistics of channel [id] are reached together with some report. *)
Definition reported (id : Z) (s : SimpleStats) : Prop := exists r, channel_reach config p id (s, r).

(** A step of the channel after which they still are. *)
Definition keeps_report (c c' : DController) : Prop :=
  forall id, 0 <= id < 2 ^ 31 -> reported id (simple_stats_ c) -> reported id (simple_stats_ c').

Lemma counted_keeps c c' : counted config (simple_stats_ c) (simple_stats_ c') -> keeps_report c c'.
Proof. intros H id Hid [r Hr]. exists r. by apply H. Qed.

(** The end of an epoch prints a report. *)
Lemma epoch_keeps c c' : 0 <= ranks config -> PrintEpochStats c = Ok c' -> keeps_report c c'.
Proof.
  intros Hr H id Hid [r Hreach]. pose proof (InitPowerParams_ok reader config) as Hp.
  assert (Hn : "epoch_num"%string ∈ counter_names) by (refine (bool_decide_unpack _ _); vm_compute; exact I).
  pose proof (reach_increment config p id _ _ _ Hn Hreach) as H1.
  unfold PrintEpochStats in H. apply bind_ok in H as (s1 & Es1 & H). injection H as <-. simpl.
  destruct (channel_reach_inv config p id _ Hp Hr Hid H1) as [Hc _].
  destruct (epoch_report_ok config p _ _ Hp Hc) as (s' & r' & E' & Es & _). exists r'.
  eapply reach_epoch; [|exact H1]. rewrite E'. cbn [fst] in Es. congruence.
Qed.

(** Every channel of a system of moderate size is reported. *)
Definition system_reported (s : JedecDRAMSystem) : Prop :=
  j_config s = config /\ vsize (ctrls_ s) <= 2 ^ 31 /\
  forall i c, ctrls_ s !! i = Some c -> reported (Z.of_nat i) (simple_stats_ c).

Lemma system_reported_step s s' :
  j_config s' = j_config s -> Forall2 keeps_report (ctrls_ s) (ctrls_ s') -> system_reported s -> system_reported s'.
Proof.
  intros Hcfg Hf (Hc & Hsz & Hr). split; [congruence|]. pose proof (Forall2_length _ _ _ Hf) as Hlen. unfold vsize in *.
  split; [lia|]. intros i c' Hi'. destruct (Forall2_lookup_r _ _ _ _ _ Hf Hi') as (c & Hi & Hk).
  apply Hk; [|by apply Hr]. apply lookup_lt_Some in Hi. lia.
Qed.

Lemma return_all_keeps clk cs : Forall2 keeps_report cs (return_all clk cs).2.
Proof.
  induction cs as [|c cs IH]; cbn [return_all]; [constructor|]. unfold return_channel.
  pose proof (return_done_counted config (S (length (return_queue_ c))) clk c) as H.
  destruct (return_done _ _ c) as [l c1]. destruct (return_all clk cs) as [l' cs1]. constructor; [|exact IH].
  by apply counted_keeps.
Qed.

Lemma keeps_report_trans cs1 cs2 cs3 :
  Forall2 keeps_report cs1 cs2 -> Forall2 keeps_report cs2 cs3 -> Forall2 keeps_report cs1 cs3.
Proof.
  intros H12 H23. revert cs3 H23. induction H12 as [|a b l1 l2 Hab _ IH]; intros cs3 H23.
  - apply Forall2_nil_inv_l in H23 as ->. constructor.
  - apply Forall2_cons_inv_l in H23 as (c & l3 & Hbc & Hl & ->). constructor; [|by apply IH].
    intros id Hid H. by apply Hbc, Hab.
Qed.

Lemma on_channels_keeps f cs cs' :
  (forall c c', f c = Ok c' -> keeps_report c c') -> on_channels f cs = Ok cs' -> Forall2 keeps_report cs cs'.
Proof. intros Hf H. eapply Forall2_impl; [by eapply on_channels_inv|]. exact Hf. Qed.

Lemma tick_reported s r :
  0 <= ranks config -> Jedec_ClockTick s = Ok r -> system_reported s -> system_reported r.1.
Proof.
  intros Hr H Hs. pose proof Hs as [Hc _]. unfold Jedec_ClockTick in H. pose proof (return_all_keeps (j_clk_ s) (ctrls_ s)) as H1.
  destruct (return_all _ _) as [d cs1]. cbn [snd] in H1. apply bind_ok in H as (cs2 & H2 & H). rewrite Hc in *.
  apply on_channels_keeps in H2; [|intros c c' E; by apply counted_keeps, (ControllerTick_counted config (Timing_new config))].
  destruct (decide _); [done|]. apply bind_ok in H as (s3 & H3 & H). injection H as <-. cbn [fst].
  assert (Hs2 : system_reported (s <| ctrls_ := cs2 |> <| j_clk_ := u64 (j_clk_ s + 1) |>)).
  { apply (system_reported_step s); [reflexivity| |exact Hs]. by eapply keeps_report_trans. }
  destruct (decide _); [|by injection H3 as <-]. unfold Base_PrintEpochStats in H3. ok_inv H3.
  apply (system_reported_step (s <| ctrls_ := cs2 |> <| j_clk_ := u64 (j_clk_ s + 1) |>)); [reflexivity| |exact Hs2]. eapply on_channels_keeps; [|eassumption].
  intros c c' E'. by apply epoch_keeps.
Qed.

Lemma vset_keeps cs i c c' cs' :
  vget cs i = Ok c -> vset cs i c' = Ok cs' -> keeps_report c c' -> Forall2 keeps_report cs cs'.
Proof.
  intros [_ Hg]%vget_ok [_ ->]%vset_ok Hk. apply Forall2_same_length_lookup. split; [by rewrite length_insert|].
  intros j x y Hx Hy. destruct (decide (j = Z.to_nat i)) as [->|Hne].
  - rewrite list_lookup_insert_eq in Hy by (by eapply lookup_lt_Some). by simplify_eq.
  - rewrite list_lookup_insert_ne in Hy by done. simplify_eq. by intros id Hid.
Qed.

Lemma add_reported s a w r : Jedec_AddTransaction s a w = Ok r -> system_reported s -> system_reported r.2.
Proof.
  intros H Hs. unfold Jedec_AddTransaction in H. apply bind_ok in H as (c & Hg & H).
  destruct (WillAcceptTransaction _ _ _ _); [|done]. apply bind_ok in H as (cs & Hv & H). injection H as <-.
  apply (system_reported_step s); [reflexivity| |exact Hs]. eapply vset_keeps; [exact Hg|exact Hv|].
  apply counted_keeps, AddTransaction_counted.
Qed.

Lemma sys_run_reported evs : 0 <= ranks config -> forall l l',
  sys_run evs l = Ok l' -> system_reported l.1.1 -> system_reported l'.1.1.
Proof.
  intros Hr l l' H Hs. refine (for_each_inv _ (fun l => system_reported l.1.1) _ _ _ _ Hs H).
  intros e [[s acc] ret] t' _ Ht E. cbn [fst] in *. destruct e as [|a w]; cbn in E.
  - apply bind_ok in E as (r & Er & E). injection E as <-. cbn [fst]. by apply (tick_reported s).
  - apply bind_ok in E as (will & _ & E). destruct will; [|by injection E as <-].
    apply bind_ok in E as (r & Er & E). injection E as <-. cbn [fst]. by apply (add_reported s a w).
Qed.

Lemma DController_new_stats ch c : DController_new config ch = Ok c -> simple_stats_ c = SimpleStats_new (ranks config).
Proof.
  unfold DController_new. intros H. apply bind_ok in H as (q & _ & H). apply bind_ok in H as (r & _ & H).
  destruct (decide _); [done|]. injection H as <-. done.
Qed.

Lemma new_reported s : 0 <= ranks config -> channels config <= 2 ^ 31 -> Jedec_new config = Ok s -> system_reported s.
Proof.
  intros Hr Hch H. unfold Jedec_new in H. destruct (IsHMC _); [done|]. destruct (decide _) as [|Hpos]; [done|].
  apply bind_ok in H as (cs & E & H). injection H as <-.
  assert (Hl : forall m l, for_int m (fun i cs => c ← DController_new config i; Ok (cs ++ [c])) [] = Ok l ->
    0 <= m -> vsize l = m /\ Forall (fun c => simple_stats_ c = SimpleStats_new (ranks config)) l).
  { intros m l Hl Hm. unfold for_int in Hl. rewrite <- (Z2Nat.id m Hm) in *. revert l Hl.
    induction (Z.to_nat m) as [|k IH]; intros l Hl; [by injection Hl as <-|].
    rewrite seqZ_S, for_each_app in Hl. apply bind_ok in Hl as (l1 & H1 & Hl). cbn [for_each] in Hl. ok_inv Hl.
    destruct (IH l1 H1) as [I1 I2]. split; [rewrite vsize_app, I1; unfold vsize; simpl; lia|].
    apply Forall_app. split; [done|]. apply Forall_singleton. by eapply DController_new_stats. }
  destruct (Hl _ _ E ltac:(lia)) as [Hsz Hall]. split; [done|]. simpl. split; [lia|]. intros i c Hi.
  eapply Forall_lookup_1 in Hall; [|exact Hi]. rewrite Hall. exists (StatsOutput_new (ranks config) (Z.of_nat i)). apply reach_new.
Qed.
End system.

(** ** The figures of a run *)
Lemma choose_reports (R : Z -> SimpleStats * StatsOutput -> Prop) ss : forall k,
  (forall i s, ss !! i = Some s -> exists r, R (k + Z.of_nat i) (s, r)) ->
  exists chs, chs.*1 = ss /\ forall i sr, chs !! i = Some sr -> R (k + Z.of_nat i) sr.
Proof.
  induction ss as [|s ss IH]; intros k H; [by exists []|].
  destruct (H 0%nat s eq_refl) as [r Hr]. destruct (IH (k + 1)) as (chs & E & Hchs).
  { intros i s' Hi. destruct (H (S i) s' Hi) as [r' Hr']. exists r'.
    by replace (k + 1 + Z.of_nat i) with (k + Z.of_nat (S i)) by lia. }
  exists ((s, r) :: chs). split; [cbn [fmap list_fmap fst]; by rewrite E|]. intros [|i] sr Hi; [by injection Hi as <-|].
  specialize (Hchs i sr Hi). by replace (k + Z.of_nat (S i)) with (k + 1 + Z.of_nat i) by lia.
Qed.

(** C27. The figures of a whole run: let any client run the JEDEC memory system for any
    number of cycles and offers, across epochs, on any configuration it runs; then every
    channel's statistics and report are in a state its own updates and epochs reach, the
    report printed at the end is written without a failure, and what [main] reads
    back from the file are the average bandwidth and the total energy that the final
    counters of channel 0 amount to, bit for bit. *)
Theorem run_figures_logged (reader : INIReader) (config : Config) (s0 : JedecDRAMSystem) (evs : list sys_event) :
  let p := InitPowerParams reader config in
  runnable config -> u64 (epoch_period config) <> 0 -> 0 < channels config <= 2 ^ 31 -> 0 <= output_level p ->
  Jedec_new config = Ok s0 -> Forall sys_event_ok evs -> Z.of_nat (length evs) < 2 ^ 63 ->
  exists s accepted returned c0 chs file chs' final,
    sys_run evs (s0, [], []) = Ok (s, accepted, returned) /\ ctrls_ s !! 0%nat = Some c0 /\
    chs.*1 = simple_stats_ <$> ctrls_ s /\
    (forall i sr, chs !! i = Some sr -> channel_reach config p (Z.of_nat i) sr) /\
    PrintStats config p chs = Ok (file, chs') /\
    UpdateFinalStats (simple_stats_ c0) = Ok final /\
    read_figures file =
      Ok (float_of (printed (average_bandwidth config p (counters_ final))),
          printed (energy_of p (ranks config) (counters_ final) (vec_counters_ final))).
Proof.
  intros p Hrun Hep Hch Hlev Hnew He Hn.
  assert (Hr : 0 <= ranks config) by (destruct Hrun as [_ []]; lia).
  destruct (sys_run_ok evs (2 ^ 63) (s0, [], []) He) as ([[s acc] ret] & E & Hok & _);
    [lia|by apply (sys_new_ok config)|].
  destruct (sys_run_reported reader config evs Hr _ _ E (new_reported reader config s0 Hr ltac:(lia) Hnew)) as (Hcfg & Hsz & Hall).
  cbn [fst] in *. pose proof (jo_size _ _ Hok) as Hsize. rewrite Hcfg in Hsize.
  destruct (choose_reports (channel_reach config p) (simple_stats_ <$> ctrls_ s) 0) as (chs & Echs & Hchs).
  { intros i st Hi. rewrite list_lookup_fmap in Hi. destruct (ctrls_ s !! i) as [c|] eqn:Hc; [|done]. injection Hi as <-.
    exact (Hall i c Hc). }
  destruct (ctrls_ s) as [|c0 cs] eqn:Ec; [unfold vsize in Hsize; cbn in Hsize; lia|].
  destruct chs as [|[st0 r0] chs]; [discriminate Echs|]. cbn [fmap list_fmap fst] in Echs. injection Echs as Est Erest. subst st0.
  assert (Hlen : length chs = length cs).
  { apply (f_equal length) in Erest. by rewrite !length_fmap in Erest. }
  destruct (figures_at reader config (simple_stats_ c0) r0 chs Hlev Hr) as (file & chs' & final & E1 & E2 & E3).
  - exact (Hchs 0%nat _ eq_refl).
  - apply Forall_lookup_2. intros i sr Hi. exists (0 + Z.of_nat (S i)). split; [|exact (Hchs (S i) sr Hi)].
    apply lookup_lt_Some in Hi. unfold vsize in Hsize. cbn [length] in Hsize. lia.
  - exists s, acc, ret, c0, ((simple_stats_ c0, r0) :: chs), file, chs', final. rewrite Ec. split_and!; try done.
    cbn [fmap list_fmap fst]. f_equal. exact Erest.
Qed.

Lemma run_figures_logged_witness :
  exists s0 s accepted returned c0 chs file chs' final,
    Jedec_new hbm2_config = Ok s0 /\ sys_run demo_sys_events (s0, [], []) = Ok (s, accepted, returned) /\
    ctrls_ s !! 0%nat = Some c0 /\ chs.*1 = simple_stats_ <$> ctrls_ s /\
    (forall i sr, chs !! i = Some sr -> channel_reach hbm2_config busy_power (Z.of_nat i) sr) /\
    PrintStats hbm2_config busy_power chs = Ok (file, chs') /\ UpdateFinalStats (simple_stats_ c0) = Ok final /\
    read_figures file =
      Ok (float_of (printed (average_bandwidth hbm2_config busy_power (counters_ final))),
          printed (energy_of busy_power 1 (counters_ final) (vec_counters_ final))).
Proof.
  destruct hbm2_jedec_new as (s0 & E).
  destruct (run_figures_logged hbm2_reader hbm2_config s0 demo_sys_events hbm2_runnable)
    as (s & acc & ret & c0 & chs & file & chs' & final & H1 & H2 & H3 & H4 & H5 & H6 & H7).
  - vm_compute. discriminate.
  - split; vm_compute; [reflexivity|discriminate].
  - vm_compute. discriminate.
  - exact E.
  - repeat constructor; discriminate.
  - reflexivity.
  - exists s0, s, acc, ret, c0, chs, file, chs', final. split; [exact E|]. split; [exact H1|]. split; [exact H2|].
    split; [exact H3|]. split; [exact H4|]. split; [exact H5|]. split; [exact H6|exact H7].
Defined.
