(* ===== verification/Hmc.v ===== *)
(** * The hybrid memory cube (DRAMsim3/src/hmc.h, hmc.cc)

    Requests enter a link queue, cross the bar to the quadrant of their vault,
    wait there for the vault's controller and are answered by a response that
    goes from the quadrant back to the link.  The vaults are the channel
    controllers of the base class.  Links and crossbar run on the logic clock,
    the vaults on the DRAM clock; both clocks are counted in picoseconds. *)

From stdpp Require Import base tactics list list_numbers numbers strings gmap.
From Stdlib Require Import ZArith Lia.
From S2P Require Import Prelude DramCommon IniReader DramConfig DramTiming Refresh DramController ControllerSafety DramSystem DramInterface Common.

(** ** Packets *)
Inductive HMCReqType :=
  | RD0 | RD16 | RD32 | RD48 | RD64 | RD80 | RD96 | RD112 | RD128 | RD256
  | WR0 | WR16 | WR32 | WR48 | WR64 | WR80 | WR96 | WR112 | WR128 | WR256
  | P_WR16 | P_WR32 | P_WR48 | P_WR64 | P_WR80 | P_WR96 | P_WR112 | P_WR128 | P_WR256
  | ADD8 | ADD16 | P_2ADD8 | P_ADD16 | ADDS8R | ADDS16R | INC8 | P_INC8
  | XOR16 | OR16 | NOR16 | AND16 | NAND16
  | CASGT8 | CASGT16 | CASLT8 | CASLT16 | CASEQ8 | CASZERO16
  | EQ8 | EQ16 | BWR | P_BWR | BWR8R | SWAP16 | REQ_SIZE.

Inductive HMCRespType := RESP_NONE | RD_RS | WR_RS | RESP_ERR | RESP_SIZE.

#[export] Instance HMCReqType_eq_dec : EqDecision HMCReqType.
Proof. solve_decision. Defined.
#[export] Instance HMCRespType_eq_dec : EqDecision HMCRespType.
Proof. solve_decision. Defined.

(** The range of the enumeration from [WR0] to [P_WR256]. *)
Definition req_is_write (t : HMCReqType) : bool :=
  match t with
  | WR0 | WR16 | WR32 | WR48 | WR64 | WR80 | WR96 | WR112 | WR128 | WR256
  | P_WR16 | P_WR32 | P_WR48 | P_WR64 | P_WR80 | P_WR96 | P_WR112 | P_WR128 | P_WR256 => true
  | _ => false
  end.

Record HMCRequest := mkHMCRequest {
  q_type : HMCReqType;
  q_mem_operand : Z;
  q_link : Z;
  q_quad : Z;
  q_vault : Z;
  q_flits : Z;
  q_is_write : bool;
  q_exit_time : Z
}.

Record HMCResponse := mkHMCResponse {
  p_resp_id : Z;
  p_type : HMCRespType;
  p_link : Z;
  p_quad : Z;
  p_flits : Z;
  p_exit_time : Z
}.

#[export] Instance HMCRequest_fields : Fields HMCRequest := fun q =>
  mkHMCRequest (q_type q) (q_mem_operand q) (q_link q) (q_quad q) (q_vault q) (q_flits q) (q_is_write q) (q_exit_time q).
#[export] Instance HMCResponse_fields : Fields HMCResponse := fun p =>
  mkHMCResponse (p_resp_id p) (p_type p) (p_link p) (p_quad p) (p_flits p) (p_exit_time p).

(** The flits of a request packet. *)
Definition request_flits (t : HMCReqType) : outcome Z :=
  match t with
  | RD0 | WR0 => Ok 0
  | RD16 | RD32 | RD48 | RD64 | RD80 | RD96 | RD112 | RD128 | RD256 => Ok 1
  | WR16 | P_WR16 => Ok 2
  | WR32 | P_WR32 => Ok 3
  | WR48 | P_WR48 => Ok 4
  | WR64 | P_WR64 => Ok 5
  | WR80 | P_WR80 => Ok 6
  | WR96 | P_WR96 => Ok 7
  | WR112 | P_WR112 => Ok 8
  | WR128 | P_WR128 => Ok 9
  | WR256 | P_WR256 => Ok 17
  | ADD8 | ADD16 | P_2ADD8 | P_ADD16 | ADDS8R | ADDS16R => Ok 2
  | INC8 | P_INC8 => Ok 1
  | XOR16 | OR16 | NOR16 | AND16 | NAND16 | CASGT8 | CASGT16 | CASLT8 | CASLT16 | CASEQ8 | CASZERO16 => Ok 2
  | EQ8 | EQ16 | BWR | P_BWR | BWR8R | SWAP16 => Ok 2
  | REQ_SIZE => Fault AbruptExit
  end.

(** The constructor; [link] and [exit_time] are set when the packet moves. *)
Definition HMCRequest_new (t : HMCReqType) (hex_addr vault : Z) : outcome HMCRequest :=
  flits ← request_flits t;
  Ok (mkHMCRequest t hex_addr 0 (Z.rem vault 4) vault flits (req_is_write t) 0).

(** The type and the flits of the response to a request. *)
Definition response_kind (t : HMCReqType) : outcome (HMCRespType * Z) :=
  match t with
  | RD0 => Ok (RD_RS, 0)
  | RD16 => Ok (RD_RS, 2)
  | RD32 => Ok (RD_RS, 3)
  | RD48 => Ok (RD_RS, 4)
  | RD64 => Ok (RD_RS, 5)
  | RD80 => Ok (RD_RS, 6)
  | RD96 => Ok (RD_RS, 7)
  | RD112 => Ok (RD_RS, 8)
  | RD128 => Ok (RD_RS, 9)
  | RD256 => Ok (RD_RS, 17)
  | WR0 => Ok (WR_RS, 0)
  | WR16 | WR32 | WR48 | WR64 | WR80 | WR96 | WR112 | WR128 | WR256 => Ok (WR_RS, 1)
  | P_WR16 | P_WR32 | P_WR48 | P_WR64 | P_WR80 | P_WR96 | P_WR112 | P_WR128 | P_WR256 => Ok (RESP_NONE, 0)
  | ADD8 | ADD16 => Ok (WR_RS, 1)
  | P_2ADD8 | P_ADD16 => Ok (RESP_NONE, 0)
  | ADDS8R | ADDS16R => Ok (RD_RS, 2)
  | INC8 => Ok (WR_RS, 1)
  | P_INC8 => Ok (RESP_NONE, 0)
  | XOR16 | OR16 | NOR16 | AND16 | NAND16 | CASGT8 | CASGT16 | CASLT8 | CASLT16 | CASEQ8 | CASZERO16 => Ok (RD_RS, 2)
  | EQ8 | EQ16 | BWR => Ok (WR_RS, 1)
  | P_BWR => Ok (RESP_NONE, 0)
  | BWR8R | SWAP16 => Ok (RD_RS, 2)
  | REQ_SIZE => Fault AbruptExit
  end.

Definition HMCResponse_new (id : Z) (t : HMCReqType) (dest_link src_quad : Z) : outcome HMCResponse :=
  '(ty, flits) ← response_kind t;
  Ok (mkHMCResponse id ty dest_link src_quad flits 0).

(** ** The system *)
Record HMCMemorySystem := mkHMC {
  h_base : JedecDRAMSystem;           (** the fields of [BaseDRAMSystem] *)
  logic_clk_ : Z;
  ps_per_dram_ : Z;
  ps_per_logic_ : Z;
  logic_ps_ : Z;
  dram_ps_ : Z;
  next_link_ : Z;
  links_ : Z;
  queue_depth_ : Z;
  resp_lookup_table_ : list (Z * HMCResponse);   (** equal keys in insertion order *)
  link_req_queues_ : list (list HMCRequest);
  link_resp_queues_ : list (list HMCResponse);
  quad_req_queues_ : list (list HMCRequest);
  quad_resp_queues_ : list (list HMCResponse);
  link_busy_ : list Z;
  quad_busy_ : list Z;
  link_age_counter_ : list Z;
  quad_age_counter_ : list Z
}.

#[export] Instance HMCMemorySystem_fields : Fields HMCMemorySystem := fun s =>
  mkHMC (h_base s) (logic_clk_ s) (ps_per_dram_ s) (ps_per_logic_ s) (logic_ps_ s) (dram_ps_ s) (next_link_ s)
    (links_ s) (queue_depth_ s) (resp_lookup_table_ s) (link_req_queues_ s) (link_resp_queues_ s)
    (quad_req_queues_ s) (quad_resp_queues_ s) (link_busy_ s) (quad_busy_ s) (link_age_counter_ s) (quad_age_counter_ s).

(** [SetClockRatio]: picoseconds per DRAM and per logic cycle.  The quotient
    [1000000 / (double)logic_speed] is below 2^20 and at least [1 / 2^31] away from
    the next integer, so its truncation is the integer quotient; a speed of 0 or
    less has no [uint64_t] value. *)
Definition SetClockRatio (config : Config) : outcome (Z * Z) :=
  link_cycles_per_flit ← idiv 128 (link_width config);
  logic_speed ← idiv (link_speed config) link_cycles_per_flit;
  if decide (logic_speed <= 0) then Fault Undefined
  else
    let ps := Z.quot 1000000 logic_speed in
    Ok (800, if decide (ps > 800) then 800 else ps).

(** The constructor. *)
Definition HMC_new (config : Config) : outcome HMCMemorySystem :=
  if negb (IsHMC (protocol config)) then Fault AbruptExit
  else
    '(per_dram, per_logic) ← SetClockRatio config;
    if decide (channels config < 0) then Fault LengthError
    else
      cs ← for_int (channels config) (fun i cs => c ← DController_new config i; Ok (cs ++ [c])) [];
      let links := num_links config in
      if decide (links < 0) then Fault LengthError
      else
        let n := Z.to_nat links in
        Ok (mkHMC (mkJedec config 0 0 cs) 0 per_dram per_logic 0 0 0 links (u64 (xbar_queue_depth config)) []
              (replicate n []) (replicate n []) (replicate 4 []) (replicate 4 [])
              (replicate n 0) [0; 0; 0; 0] (replicate n 0) [0; 0; 0; 0]).

Definition IterateNextLink (s : HMCMemorySystem) : outcome HMCMemorySystem :=
  i ← imod (next_link_ s + 1) (links_ s);
  Ok (s <| next_link_ := i |>).

(** ** Requests *)
Definition HMC_WillAcceptTransaction (s : HMCMemorySystem) (hex_addr : Z) (is_write : bool) : bool :=
  existsb (fun q => vsize q <? queue_depth_ s) (link_req_queues_ s).

Definition InsertReqToLink (req : HMCRequest) (link : Z) (s : HMCMemorySystem) : outcome (bool * HMCMemorySystem) :=
  q ← vget (link_req_queues_ s) link;
  if vsize q <? queue_depth_ s then
    qs ← vset (link_req_queues_ s) link (q ++ [req <| q_link := link |>]);
    resp ← HMCResponse_new (q_mem_operand req) (q_type req) link (q_quad req);
    ages ← vset (link_age_counter_ s) link 1;
    Ok (true, s <| link_req_queues_ := qs |>
                <| resp_lookup_table_ := resp_lookup_table_ s ++ [(p_resp_id resp, resp)] |>
                <| link_age_counter_ := ages |>
                <| h_base := (h_base s) <| last_req_clk_ := j_clk_ (h_base s) |> |>)
  else Ok (false, s).

(** The loop over the other links; [next_link_] is back at [start_link] after
    [links_] rounds at the latest. *)
Fixpoint try_links (fuel : nat) (start_link : Z) (req : HMCRequest) (s : HMCMemorySystem)
    : outcome (bool * HMCMemorySystem) :=
  match fuel with
  | O => Fault Undefined
  | S fuel =>
      if decide (start_link = next_link_ s) then Ok (false, s)
      else
        '(ok, s) ← InsertReqToLink req (next_link_ s) s;
        s ← IterateNextLink s;
        if (ok : bool) then Ok (true, s) else try_links fuel start_link req s
  end.

Definition InsertHMCReq (req : HMCRequest) (s : HMCMemorySystem) : outcome (bool * HMCMemorySystem) :=
  let start_link := next_link_ s in
  '(is_inserted, s) ← InsertReqToLink req start_link s;
  s ← IterateNextLink s;
  if (is_inserted : bool) then Ok (true, s) else try_links (Z.to_nat (links_ s)) start_link req s.

(** The request type of a transaction of [block_size] bytes. *)
Definition block_request (size : Z) (is_write : bool) : outcome HMCReqType :=
  match size with
  | 0 => Ok (if is_write then WR0 else RD0)
  | 32 => Ok (if is_write then WR32 else RD32)
  | 64 => Ok (if is_write then WR64 else RD64)
  | 128 => Ok (if is_write then WR128 else RD128)
  | 256 => Ok (if is_write then WR256 else RD256)
  | _ => Fault AbruptExit
  end.

Definition HMC_AddTransaction (s : HMCMemorySystem) (hex_addr : Z) (is_write : bool) : outcome (bool * HMCMemorySystem) :=
  let config := j_config (h_base s) in
  t ← block_request (block_size config) is_write;
  req ← HMCRequest_new t hex_addr (GetChannel config hex_addr);
  InsertHMCReq req s.

(** ** Arbitration *)

(** [age_queue.insert(it, pos)] before the first entry that is smaller than the age. *)
Fixpoint age_insert (age pos : Z) (age_queue : list Z) : list Z :=
  match age_queue with
  | [] => [pos]
  | it :: l => if age >? it then pos :: it :: l else it :: age_insert age pos l
  end.

Definition BuildAgeQueue (logic_clk : Z) (age_counter : list Z) : outcome (list Z) :=
  let queue_len := vsize age_counter in
  start_pos ← imod logic_clk queue_len;
  for_int queue_len (fun i age_queue =>
    let pos := Z.rem (i + start_pos) queue_len in
    age ← vget age_counter pos;
    Ok (if age >? 0 then age_insert age pos age_queue else age_queue)) [].

(** [if (i > 0) i -= 2] for every entry *)
Definition drain_xbar (busy : list Z) : list Z := (fun i => if i >? 0 then i - 2 else i) <$> busy.

Definition InsertReqToDRAM (req : HMCRequest) (s : HMCMemorySystem) : outcome HMCMemorySystem :=
  c ← vget (ctrls_ (h_base s)) (q_vault req);
  cs ← vset (ctrls_ (h_base s)) (q_vault req) (AddTransaction c (DTrans_new (q_mem_operand req) (q_is_write req)));
  Ok (s <| h_base := (h_base s) <| ctrls_ := cs |> |>).

(** The first request of quadrant [i] goes to its vault. *)
Definition drain_quad (i : Z) (s : HMCMemorySystem) : outcome HMCMemorySystem :=
  q ← vget (quad_req_queues_ s) i;
  r ← vget (quad_resp_queues_ s) i;
  match q with
  | req :: q =>
      if (vsize r <? queue_depth_ s) && (q_exit_time req <=? logic_clk_ s) then
        c ← vget (ctrls_ (h_base s)) (q_vault req);
        if WillAcceptTransaction (j_config (h_base s)) c (q_mem_operand req) (q_is_write req) then
          s ← InsertReqToDRAM req s;
          qs ← vset (quad_req_queues_ s) i q;
          Ok (s <| quad_req_queues_ := qs |>)
        else Ok s
      else Ok s
  | [] => Ok s
  end.

(** The first request of a link crosses the bar or is stalled. *)
Definition forward_request (src_link : Z) (s : HMCMemorySystem) : outcome HMCMemorySystem :=
  q ← vget (link_req_queues_ s) src_link;
  match q with
  | [] => Fault Undefined
  | req :: q =>
      let dest_quad := q_quad req in
      d ← vget (quad_req_queues_ s) dest_quad;
      busy ← vget (quad_busy_ s) dest_quad;
      if (vsize d <? queue_depth_ s) && (busy <=? 0) then
        links ← vset (link_req_queues_ s) src_link q;
        quads ← vset (quad_req_queues_ s) dest_quad (d ++ [req <| q_exit_time := u64 (logic_clk_ s + q_flits req) |>]);
        busies ← vset (quad_busy_ s) dest_quad (q_flits req);
        ages ← vset (link_age_counter_ s) src_link (match q with [] => 0 | _ => 1 end);
        Ok (s <| link_req_queues_ := links |> <| quad_req_queues_ := quads |> <| quad_busy_ := busies |>
              <| link_age_counter_ := ages |>)
      else
        age ← vget (link_age_counter_ s) src_link;
        age ← iadd age 1;
        ages ← vset (link_age_counter_ s) src_link age;
        Ok (s <| link_age_counter_ := ages |>)
  end.

Definition DrainRequests (s : HMCMemorySystem) : outcome HMCMemorySystem :=
  s ← for_int 4 drain_quad s;
  let s := s <| quad_busy_ := drain_xbar (quad_busy_ s) |> in
  age_queue ← BuildAgeQueue (logic_clk_ s) (link_age_counter_ s);
  for_each forward_request age_queue s.

(** ** Responses *)

(** A callback: the address and whether it is the write callback. *)
Definition callback_of (p : HMCResponse) : Z * bool := (p_resp_id p, bool_decide (p_type p <> RD_RS)).

(** The first response of link [i] goes to the processor. *)
Definition drain_link (i : Z) (st : HMCMemorySystem * list (Z * bool)) : outcome (HMCMemorySystem * list (Z * bool)) :=
  let '(s, done) := st in
  q ← vget (link_resp_queues_ s) i;
  match q with
  | resp :: q =>
      if p_exit_time resp <=? logic_clk_ s then
        qs ← vset (link_resp_queues_ s) i q;
        Ok (s <| link_resp_queues_ := qs |>, done ++ [callback_of resp])
      else Ok (s, done)
  | [] => Ok (s, done)
  end.

(** The first response of a quadrant crosses the bar or is stalled. *)
Definition forward_response (src_quad : Z) (s : HMCMemorySystem) : outcome HMCMemorySystem :=
  q ← vget (quad_resp_queues_ s) src_quad;
  match q with
  | [] => Fault Undefined
  | resp :: q =>
      let dest_link := p_link resp in
      d ← vget (link_resp_queues_ s) dest_link;
      busy ← vget (link_busy_ s) dest_link;
      if (vsize d <? queue_depth_ s) && (busy <=? 0) then
        quads ← vset (quad_resp_queues_ s) src_quad q;
        links ← vset (link_resp_queues_ s) dest_link (d ++ [resp <| p_exit_time := u64 (logic_clk_ s + p_flits resp) |>]);
        busies ← vset (link_busy_ s) dest_link (p_flits resp);
        ages ← vset (quad_age_counter_ s) src_quad (match q with [] => 0 | _ => 1 end);
        Ok (s <| quad_resp_queues_ := quads |> <| link_resp_queues_ := links |> <| link_busy_ := busies |>
              <| quad_age_counter_ := ages |>)
      else
        age ← vget (quad_age_counter_ s) src_quad;
        age ← iadd age 1;
        ages ← vset (quad_age_counter_ s) src_quad age;
        Ok (s <| quad_age_counter_ := ages |>)
  end.

Definition DrainResponses (s : HMCMemorySystem) : outcome (HMCMemorySystem * list (Z * bool)) :=
  '(s, done) ← for_int (links_ s) drain_link (s, []);
  let s := s <| link_busy_ := drain_xbar (link_busy_ s) |> in
  age_queue ← BuildAgeQueue (logic_clk_ s) (quad_age_counter_ s);
  s ← for_each forward_response age_queue s;
  Ok (s, done).

(** [find] and [erase] of the multimap: the first entry of the key and the others. *)
Fixpoint table_take (key : Z) (table : list (Z * HMCResponse)) : option (HMCResponse * list (Z * HMCResponse)) :=
  match table with
  | [] => None
  | (k, p) :: l =>
      if decide (k = key) then Some (p, l)
      else match table_take key l with Some (r, l) => Some (r, (k, p) :: l) | None => None end
  end.

Definition VaultCallback (req_id : Z) (s : HMCMemorySystem) : outcome HMCMemorySystem :=
  match table_take req_id (resp_lookup_table_ s) with
  | None => Fault Undefined
  | Some (resp, table) =>
      qs ← vpush (quad_resp_queues_ s) (p_quad resp) resp;
      ages ← vset (quad_age_counter_ s) (p_quad resp) 1;
      Ok (s <| resp_lookup_table_ := table |> <| quad_resp_queues_ := qs |> <| quad_age_counter_ := ages |>)
  end.

(** ** The clocks *)
Definition DRAMClockTick (s : HMCMemorySystem) : outcome HMCMemorySystem :=
  let config := j_config (h_base s) in
  let '(done, cs) := return_all (j_clk_ (h_base s)) (ctrls_ (h_base s)) in
  s ← for_each (fun p => VaultCallback p.1) done s;
  cs ← on_channels (ControllerTick config (Timing_new config)) cs;
  let base := (h_base s) <| ctrls_ := cs |> <| j_clk_ := u64 (j_clk_ (h_base s) + 1) |> in
  if decide (u64 (epoch_period config) = 0) then Fault Undefined
  else
    base ← (if decide (j_clk_ base mod u64 (epoch_period config) = 0) then Base_PrintEpochStats base else Ok base);
    Ok (s <| h_base := base |>).

(** The end of a logic cycle. *)
Definition logic_tick (s : HMCMemorySystem) : HMCMemorySystem :=
  s <| logic_ps_ := u64 (logic_ps_ s + ps_per_logic_ s) |> <| logic_clk_ := u64 (logic_clk_ s + 1) |>.

(** The logic cycles until the next DRAM cycle.  Every round adds at least one
    picosecond to [logic_ps_] unless [ps_per_logic_] is 0, when the loop never ends. *)
Fixpoint logic_cycles (fuel : nat) (s : HMCMemorySystem) (done : list (Z * bool)) : outcome (HMCMemorySystem * list (Z * bool)) :=
  if decide (logic_ps_ s < u64 (dram_ps_ s + ps_per_dram_ s)) then
    match fuel with
    | O => Fault Undefined
    | S fuel =>
        '(s, l) ← DrainResponses s;
        s ← DrainRequests s;
        logic_cycles fuel (logic_tick s) (done ++ l)
    end
  else Ok (s, done).

Definition HMC_ClockTick (s : HMCMemorySystem) : outcome (HMCMemorySystem * list (Z * bool)) :=
  '(s, done) ← (if decide (dram_ps_ s = logic_ps_ s) then
                  '(s, l) ← DrainResponses s;
                  s ← DRAMClockTick s;
                  s ← DrainRequests s;
                  Ok (logic_tick s, l)
                else s ← DRAMClockTick s; Ok (s, []));
  '(s, done) ← logic_cycles (Z.to_nat (u64 (dram_ps_ s + ps_per_dram_ s) - logic_ps_ s)) s done;
  Ok (s <| dram_ps_ := u64 (dram_ps_ s + ps_per_dram_ s) |>, done).

(** ** configs/HMC_2GB_4Lx16.ini *)
Definition hmc_values : list (string * string * string) :=
  [("hmc", "num_links", "4"); ("hmc", "link_width", "16"); ("hmc", "link_speed", "10000");
   ("hmc", "block_size", "64"); ("hmc", "xbar_queue_depth", "6");
   ("dram_structure", "protocol", "HMC"); ("dram_structure", "bankgroups", "1");
   ("dram_structure", "banks_per_group", "8"); ("dram_structure", "rows", "65536");
   ("dram_structure", "columns", "64"); ("dram_structure", "device_width", "32"); ("dram_structure", "num_dies", "4");
   ("timing", "CL", "17"); ("timing", "CWL", "17"); ("timing", "tRCD", "17"); ("timing", "tRP", "17");
   ("timing", "tRAS", "34"); ("timing", "tRFC", "420"); ("timing", "tREFI", "9364"); ("timing", "tRRD_S", "4");
   ("timing", "tRRD_L", "4"); ("timing", "tWTR_S", "3"); ("timing", "tWTR_L", "3"); ("timing", "tFAW", "27");
   ("timing", "tWR", "17"); ("timing", "tCCD_S", "6"); ("timing", "tCCD_L", "6"); ("timing", "tXS", "12");
   ("timing", "tCKSRE", "1"); ("timing", "tXP", "8"); ("timing", "tRTP_L", "8"); ("timing", "tRTP_S", "8");
   ("timing", "tRTRS", "0");
   ("system", "channel_size", "128"); ("system", "channels", "16"); ("system", "bus_width", "32");
   ("system", "address_mapping", "rocorabgbach"); ("system", "queue_structure", "PER_BANK");
   ("system", "row_buf_policy", "CLOSE_PAGE"); ("system", "cmd_queue_size", "8");
   ("system", "trans_queue_size", "32"); ("system", "unified_queue", "True");
   ("other", "epoch_period", "1250000")]%string.

Definition hmc_reader : INIReader :=
  foldl (fun r kv => ValueHandler r kv.1.1 kv.1.2 kv.2) (mkINIReader ∅) hmc_values.

Definition hmc_config : Config :=
  Eval vm_compute in
    (match Config_new hmc_reader as o return match o with Ok _ => Config | Fault _ => unit end with
     | Ok c => c | Fault _ => tt end).
