(* ===== verification/HmcSafety.v ===== *)
(** * Runs of the hybrid memory cube

    The arbitration serves every waiting queue exactly once per logic cycle; no
    packet is lost or duplicated between the links, the quadrants and the vaults,
    every completion of a vault finds its response, and no operation fails.  The
    system is therefore a memory the accelerator can use ([DramBackend] with
    [DramLaws] and [DramTotal]). *)

From stdpp Require Import base tactics list list_numbers numbers strings gmap.
From Stdlib Require Import ZArith Lia.
From S2P Require Import Prelude DramCommon IniReader DramConfig DramTiming Refresh DramController ControllerSafety DramSystem DramInterface Common Hmc.

(** ** Vectors of queues *)
Lemma concat_vset {A} (v v' : list (list A)) i l l' :
  vget v i = Ok l -> vset v i l' = Ok v' -> l ++ concat v' ≡ₚ l' ++ concat v.
Proof.
  intros [Hi Hl]%vget_ok [Hr ->]%vset_ok. rewrite (insert_take_drop v) by (unfold vsize in Hr; lia).
  rewrite <- (take_drop_middle v (Z.to_nat i) l Hl) at 3. rewrite !concat_app. simpl. solve_Permutation.
Qed.

Lemma vset_same_size {A B} (v v' : list A) (w : list B) i a :
  vset v i a = Ok v' -> vsize v = vsize w -> vsize v' = vsize w.
Proof. intros ->%vset_vsize. done. Qed.

Lemma Forall_vget {A} (P : A -> Prop) v i a : Forall P v -> vget v i = Ok a -> P a.
Proof. intros Hv [_ Ha]%vget_ok. eapply Forall_lookup_1; done. Qed.

Lemma Forall2_vget {A B} (R : A -> B -> Prop) v w i a b :
  Forall2 R v w -> vget v i = Ok a -> vget w i = Ok b -> R a b.
Proof. intros Hv [_ Ha]%vget_ok [_ Hb]%vget_ok. eapply Forall2_lookup_lr; done. Qed.

Lemma Forall2_vset {A B} (R : A -> B -> Prop) v w v' w' i a b :
  Forall2 R v w -> vset v i a = Ok v' -> vset w i b = Ok w' -> R a b -> Forall2 R v' w'.
Proof. intros Hv [_ ->]%vset_ok [_ ->]%vset_ok Hab. by apply Forall2_insert. Qed.

Lemma Forall2_vsize {A B} (R : A -> B -> Prop) v w : Forall2 R v w -> vsize v = vsize w.
Proof. intros H. unfold vsize. by rewrite (Forall2_length _ _ _ H). Qed.

(** ** Arbitration *)
Lemma age_insert_perm age pos q : age_insert age pos q ≡ₚ pos :: q.
Proof.
  induction q as [|it q IH]; [done|]. simpl. destruct (age >? it); [done|]. rewrite IH. apply Permutation_swap.
Qed.

Section rotation.
Context (len start : Z).
Hypothesis Hlen : 0 < len.
Hypothesis Hstart : 0 <= start < len.

Definition rotation (n : Z) : list Z := (fun i => Z.rem (i + start) len) <$> seqZ 0 n.

Lemma rotation_succ n : 0 <= n -> rotation (n + 1) = rotation n ++ [Z.rem (n + start) len].
Proof. intros Hn. unfold rotation. by rewrite seqZ_app, fmap_app, seqZ_one, Z.add_0_l by lia. Qed.

Lemma rotation_range p : p ∈ rotation len <-> 0 <= p < len.
Proof.
  unfold rotation. rewrite list_elem_of_fmap. split.
  - intros (i & -> & [Hi _]%elem_of_seqZ). apply Z.rem_bound_pos; lia.
  - intros Hp. destruct (decide (start <= p)).
    + exists (p - start). rewrite elem_of_seqZ. split; [|lia]. rewrite Z.rem_small; lia.
    + exists (p - start + len). rewrite elem_of_seqZ. split; [|lia].
      replace (p - start + len + start) with (p + 1 * len) by lia. rewrite Z.rem_mod_nonneg, Z.mod_add, Z.mod_small; lia.
Qed.

Lemma rotation_nodup : NoDup (rotation len).
Proof.
  unfold rotation. apply NoDup_fmap_2_strong; [|apply NoDup_seqZ].
  intros i j Hi Hj E. rewrite elem_of_seqZ in Hi, Hj. rewrite !Z.rem_mod_nonneg in E by lia.
  pose proof (Z.div_mod (i + start) len ltac:(lia)). pose proof (Z.div_mod (j + start) len ltac:(lia)).
  assert ((i + start) / len = (j + start) / len) by nia. nia.
Qed.
End rotation.

(** Is the queue at [pos] waiting? *)
Definition waiting (ages : list Z) (pos : Z) : Prop := exists a, vget ages pos = Ok a /\ 0 < a.

Lemma BuildAgeQueue_run clk ages : 0 <= clk -> ages <> [] ->
  exists q, BuildAgeQueue clk ages = Ok q /\ NoDup q /\ forall p, p ∈ q <-> waiting ages p.
Proof.
  intros Hc Ha. set (len := vsize ages). assert (Hlen : 0 < len) by (unfold len, vsize; destruct ages; simpl; [done|lia]).
  unfold BuildAgeQueue, imod. fold len. rewrite decide_False by lia. cbn [mbind outcome_bind].
  set (start := Z.rem clk len). assert (Hs : 0 <= start < len) by (apply Z.rem_bound_pos; lia).
  set (age := fun p => match vget ages p with Ok a => a | Fault _ => 0 end).
  destruct (for_int_ind len (fun i q => a ← vget ages (Z.rem (i + start) len);
      Ok (if a >? 0 then age_insert a (Z.rem (i + start) len) q else q))
    (fun i q => q ≡ₚ filter (fun p => 0 < age p) (rotation len start i)) []) as (q & -> & Hq); [lia|done|..].
  - intros i q Hi Hq. destruct (vget_total ages (Z.rem (i + start) len)) as (a & E); [apply Z.rem_bound_pos; fold len; lia|].
    rewrite E. cbn [mbind outcome_bind]. eexists. split; [reflexivity|]. rewrite rotation_succ, filter_app, <- Hq by lia.
    assert (Ea : age (Z.rem (i + start) len) = a) by (unfold age; by rewrite E).
    destruct (Z.gtb_spec a 0).
    + rewrite filter_cons_True by (rewrite Ea; lia). rewrite age_insert_perm. solve_Permutation.
    + rewrite filter_cons_False by (rewrite Ea; lia). by rewrite app_nil_r.
  - exists q. split; [done|]. split.
    + rewrite Hq. apply NoDup_filter. by apply rotation_nodup.
    + intros p. rewrite Hq, list_elem_of_filter, rotation_range by done. unfold waiting, age. split.
      * intros [Hp Hr]. destruct (vget ages p) as [a|] eqn:E; [|lia]. by exists a.
      * intros (a & E & Hp). rewrite E. split; [done|]. pose proof E as [H1 H2]%vget_ok.
        pose proof (lookup_lt_Some _ _ _ H2). unfold len, vsize. lia.
Qed.

(** The arbitration of the crossbar misses no queue and serves none twice: in
    any logic cycle [BuildAgeQueue] lists exactly the positions with a positive
    age, each once, whatever the ages and the round-robin start. *)
Theorem age_queue_complete logic_clk age_counter :
  0 <= logic_clk -> age_counter <> [] ->
  exists q, BuildAgeQueue logic_clk age_counter = Ok q /\ NoDup q /\
    forall pos, pos ∈ q <-> exists age, vget age_counter pos = Ok age /\ 0 < age.
Proof. apply BuildAgeQueue_run. Qed.

Lemma age_queue_complete_witness :
  exists q, BuildAgeQueue 7 [2; 0; 1; 5] = Ok q /\ NoDup q.
Proof.
  destruct (age_queue_complete 7 [2; 0; 1; 5]) as (q & E & H & _); [discriminate|discriminate|].
  exists q. split; [exact E|exact H].
Defined.

(** The comparison is between an age and the index of a queue, not its age: the
    queue that has waited longest, number 0 with age 5, is served last. *)
Example oldest_served_last : BuildAgeQueue 0 [5; 1; 2] = Ok [2; 1; 0].
Proof. reflexivity. Qed.

(** ** The crossbar

    Requests and responses cross it in the same way: the first packet of a source
    queue moves to its destination queue when that has room and is not busy. *)
Section cross.
Context {P : Type} (dest flits : P -> Z) (stamp : Z -> P -> P).

Definition cross (depth clk src : Z) (from to : list (list P)) (busy ages : list Z)
    : outcome (list (list P) * list (list P) * list Z * list Z) :=
  q ← vget from src;
  match q with
  | [] => Fault Undefined
  | p :: q =>
      d ← vget to (dest p);
      b ← vget busy (dest p);
      if (vsize d <? depth) && (b <=? 0) then
        from ← vset from src q;
        to ← vset to (dest p) (d ++ [stamp (u64 (clk + flits p)) p]);
        busy ← vset busy (dest p) (flits p);
        ages ← vset ages src (match q with [] => 0 | _ => 1 end);
        Ok (from, to, busy, ages)
      else
        age ← vget ages src;
        age ← iadd age 1;
        ages ← vset ages src age;
        Ok (from, to, busy, ages)
  end.

(** A packet moves with a new time stamp, or nothing does. *)
Definition moved (from to from' to' : list (list P)) : Prop :=
  (from' = from /\ to' = to) \/
  exists p t, concat from ≡ₚ p :: concat from' /\ concat to' ≡ₚ stamp t p :: concat to.

Lemma cross_moved depth clk src from to busy ages from' to' busy' ages' :
  cross depth clk src from to busy ages = Ok (from', to', busy', ages') ->
  moved from to from' to' /\ vsize from' = vsize from /\ vsize to' = vsize to /\
  vsize busy' = vsize busy /\ vsize ages' = vsize ages.
Proof.
  unfold cross. intros H. apply bind_ok in H as (q & Eq & H). destruct q as [|p q]; [done|].
  apply bind_ok in H as (d & Ed & H). apply bind_ok in H as (b & Eb & H). destruct (_ && _).
  - apply bind_ok in H as (f & Ef & H). apply bind_ok in H as (t & Et & H). apply bind_ok in H as (b' & Eb' & H).
    apply bind_ok in H as (g & Eg & H). simplify_eq.
    rewrite (vset_vsize _ _ _ _ Ef), (vset_vsize _ _ _ _ Et), (vset_vsize _ _ _ _ Eb'), (vset_vsize _ _ _ _ Eg).
    split; [|done]. right. eexists p, _. split.
    + pose proof (concat_vset _ _ _ _ _ Eq Ef) as Hp. apply (Permutation_app_inv_l q). rewrite <- Hp. solve_Permutation.
    + pose proof (concat_vset _ _ _ _ _ Ed Et) as Hp. apply (Permutation_app_inv_l d). rewrite Hp. solve_Permutation.
  - apply bind_ok in H as (g & _ & H). apply bind_ok in H as (g' & _ & H). apply bind_ok in H as (g'' & Eg & H). simplify_eq.
    rewrite (vset_vsize _ _ _ _ Eg). split; [by left|done].
Qed.

Lemma moved_fmap {X} (f : P -> X) from to from' to' :
  (forall t p, f (stamp t p) = f p) -> moved from to from' to' ->
  (f <$> concat from') ++ (f <$> concat to') ≡ₚ (f <$> concat from) ++ (f <$> concat to).
Proof.
  intros Hf [[-> ->]|(p & t & H1 & H2)]; [done|]. rewrite H1, H2, !fmap_cons, Hf. solve_Permutation.
Qed.

Lemma moved_forall (Q : P -> Prop) from to from' to' :
  (forall t p, Q p -> Q (stamp t p)) -> moved from to from' to' ->
  Forall Q (concat from ++ concat to) -> Forall Q (concat from' ++ concat to').
Proof.
  clear dest flits. intros HQ [[-> ->]|(p & t & H1 & H2)]; [done|]. rewrite !Forall_app, H1, H2, !Forall_cons. naive_solver.
Qed.

(** A queue is waiting exactly when its age is positive; ages are at most [B]. *)
Definition age_ok (B : Z) (q : list P) (a : Z) : Prop := 0 <= a <= B /\ (0 < a <-> q <> []).

Lemma age_ok_weaken B B' q a : B <= B' -> age_ok B q a -> age_ok B' q a.
Proof. intros HB [H1 H2]. split; [lia|done]. Qed.

(** The queues still to be served have an age of at most [B], the others [B + 1]. *)
Definition serving (B : Z) (todo : list Z) (from : list (list P)) (ages : list Z) : Prop :=
  Forall2 (age_ok (B + 1)) from ages /\
  forall i, i ∈ todo -> exists q a, vget from i = Ok q /\ vget ages i = Ok a /\ 0 < a <= B.

Lemma cross_total depth clk B src todo from to busy ages :
  1 <= B -> B + 1 < 2 ^ 31 -> NoDup (src :: todo) -> serving B (src :: todo) from ages ->
  vsize busy = vsize to -> Forall (fun p => 0 <= dest p < vsize to) (concat from) ->
  exists from' to' busy' ages', cross depth clk src from to busy ages = Ok (from', to', busy', ages') /\
    serving B todo from' ages'.
Proof.
  intros HB Hmax [Hn _]%NoDup_cons [Hages Htodo] Hb Hd. destruct (Htodo src) as (q & a & Eq & Ea & Ha); [left|].
  assert (Hrest : forall from' ages' q' a', vset from src q' = Ok from' -> vset ages src a' = Ok ages' ->
    age_ok (B + 1) q' a' -> serving B todo from' ages').
  { intros from' ages' q' a' Ef Eg Hok. split; [by eapply Forall2_vset|]. intros i Hi.
    destruct (Htodo i) as (q1 & a1 & E1 & E2 & H1); [by right|]. exists q1, a1.
    assert (Hne : src <> i) by (by intros ->).
    by rewrite (vget_vset_ne _ _ _ _ _ Hne Ef), (vget_vset_ne _ _ _ _ _ Hne Eg). }
  assert (Hsrc : 0 <= src < vsize from) by (pose proof Eq as [H1 H2]%vget_ok; apply lookup_lt_Some in H2; unfold vsize; lia).
  pose proof (Forall2_vsize _ _ _ Hages) as Hsz.
  destruct (Forall2_vget _ _ _ _ _ _ Hages Eq Ea) as [_ Hwait]. destruct q as [|p q]; [by destruct Hwait as [Hw _]; destruct Hw; [lia|]|].
  assert (Hp : 0 <= dest p < vsize to).
  { rewrite Forall_forall in Hd. apply Hd. apply vget_ok in Eq as [_ Eq]. apply list_elem_of_In, in_concat. exists (p :: q).
    split; [apply list_elem_of_In; by eapply list_elem_of_lookup_2|by left]. }
  unfold cross. rewrite Eq. cbn [mbind outcome_bind]. destruct (vget_total to _ Hp) as (d & ->). cbn [mbind outcome_bind].
  destruct (vget_total busy (dest p)) as (b & ->); [lia|]. cbn [mbind outcome_bind]. destruct (_ && _).
  - destruct (vset_total from src q Hsrc) as (f & Ef & _). rewrite Ef. cbn [mbind outcome_bind].
    edestruct (vset_total to (dest p)) as (t & -> & _); [done|]. cbn [mbind outcome_bind].
    destruct (vset_total busy (dest p) (flits p)) as (b' & -> & _); [lia|]. cbn [mbind outcome_bind].
    destruct (vset_total ages src (match q with [] => 0 | _ => 1 end)) as (g & Eg & _); [lia|]. rewrite Eg. cbn [mbind outcome_bind].
    eexists _, _, _, _. split; [reflexivity|]. eapply Hrest; [done..|]. destruct q; (split; [lia|]); split; try done; lia.
  - rewrite Ea. cbn [mbind outcome_bind]. unfold iadd, int_. rewrite decide_True by lia. cbn [mbind outcome_bind].
    destruct (vset_total ages src (a + 1)) as (g & Eg & _); [lia|]. rewrite Eg. cbn [mbind outcome_bind].
    eexists _, _, _, _. split; [reflexivity|]. eapply (Hrest from g (p :: q) (a + 1)); [|done|split; [lia|split; [done|lia]]].
    apply vset_ok. split; [done|]. symmetry. apply list_insert_id. by apply vget_ok in Eq as [_ Eq].
Qed.

(** Before a round every waiting queue is to be served. *)
Lemma serving_start B from ages q :
  Forall2 (age_ok B) from ages -> (forall p, p ∈ q <-> waiting ages p) -> serving B q from ages.
Proof.
  intros Hages Hq. split; [eapply Forall2_impl; [exact Hages|]; intros; by eapply age_ok_weaken; [|done]; lia|].
  intros i (a & Ea & Ha)%Hq. pose proof Ea as [Hi Hl]%vget_ok.
  destruct (Forall2_lookup_r _ _ _ _ _ Hages Hl) as (l & El & [Hok _]). exists l, a.
  split; [by apply vget_ok|]. split; [done|lia].
Qed.
End cross.

(** Follow two computations through the steps they share. *)
Ltac run_binds :=
  repeat match goal with |- (?m ≫= _) = _ => destruct m; cbn [mbind outcome_bind]; [|done] end.

Lemma forward_request_cross i s :
  forward_request i s =
  ('(f, t, b, g) ← cross q_quad q_flits (fun x p => p <| q_exit_time := x |>) (queue_depth_ s) (logic_clk_ s) i
       (link_req_queues_ s) (quad_req_queues_ s) (quad_busy_ s) (link_age_counter_ s);
   Ok (s <| link_req_queues_ := f |> <| quad_req_queues_ := t |> <| quad_busy_ := b |> <| link_age_counter_ := g |>)).
Proof.
  unfold forward_request, cross. destruct (vget (link_req_queues_ s) i) as [[|p q]|]; cbn [mbind outcome_bind]; [done| |done].
  destruct (vget (quad_req_queues_ s) (q_quad p)) as [d|]; cbn [mbind outcome_bind]; [|done].
  destruct (vget (quad_busy_ s) (q_quad p)) as [b|]; cbn [mbind outcome_bind]; [|done].
  destruct (_ && _); run_binds; by destruct s.
Qed.

Lemma forward_response_cross i s :
  forward_response i s =
  ('(f, t, b, g) ← cross p_link p_flits (fun x p => p <| p_exit_time := x |>) (queue_depth_ s) (logic_clk_ s) i
       (quad_resp_queues_ s) (link_resp_queues_ s) (link_busy_ s) (quad_age_counter_ s);
   Ok (s <| quad_resp_queues_ := f |> <| link_resp_queues_ := t |> <| link_busy_ := b |> <| quad_age_counter_ := g |>)).
Proof.
  unfold forward_response, cross. destruct (vget (quad_resp_queues_ s) i) as [[|p q]|]; cbn [mbind outcome_bind]; [done| |done].
  destruct (vget (link_resp_queues_ s) (p_link p)) as [d|]; cbn [mbind outcome_bind]; [|done].
  destruct (vget (link_busy_ s) (p_link p)) as [b|]; cbn [mbind outcome_bind]; [|done].
  destruct (_ && _); run_binds; by destruct s.
Qed.

(** ** Nothing is lost

    The responses that are still to be delivered: those waiting for their vault in
    the lookup table and those in the response queues. *)
Definition resps (s : HMCMemorySystem) : list HMCResponse :=
  (resp_lookup_table_ s).*2 ++ concat (quad_resp_queues_ s) ++ concat (link_resp_queues_ s).

Definition hmc_pending (s : HMCMemorySystem) : list (Z * bool) := callback_of <$> resps s.

Definition front_of (s : HMCMemorySystem) : Z * Z * Z * Z :=
  (next_link_ s, links_ s, vsize (link_req_queues_ s), vsize (link_age_counter_ s)).

Definition clocks (s : HMCMemorySystem) : Z * Z * Z * Z * Z :=
  (logic_clk_ s, ps_per_dram_ s, ps_per_logic_ s, logic_ps_ s, dram_ps_ s).

(** A step that calls back for [done]. *)
Definition step_frame (done : list (Z * bool)) (s s' : HMCMemorySystem) : Prop :=
  front_of s' = front_of s /\ clocks s' = clocks s /\ done ++ hmc_pending s' ≡ₚ hmc_pending s.

Lemma step_frame_refl s : step_frame [] s s.
Proof. by split_and!. Qed.

Lemma step_frame_trans d d' s1 s2 s3 : step_frame d s1 s2 -> step_frame d' s2 s3 -> step_frame (d ++ d') s1 s3.
Proof.
  intros (F1 & C1 & P1) (F2 & C2 & P2). split_and!; [congruence..|]. by rewrite <- app_assoc, P2.
Qed.

Lemma for_each_frame {A} (f : A -> HMCMemorySystem -> outcome HMCMemorySystem) l : forall s s',
  (forall x t t', f x t = Ok t' -> step_frame [] t t') -> for_each f l s = Ok s' -> step_frame [] s s'.
Proof.
  induction l as [|x l IH]; intros s s' Hf H; simpl in H; [injection H as <-; apply step_frame_refl|].
  apply bind_ok in H as (t & E & H). apply (step_frame_trans [] [] s t s'); eauto.
Qed.

Lemma drain_quad_frame i s s' : drain_quad i s = Ok s' -> step_frame [] s s'.
Proof.
  unfold drain_quad, InsertReqToDRAM. intros H. apply bind_ok in H as (q & _ & H). apply bind_ok in H as (r & _ & H).
  destruct q as [|req q]; [injection H as <-; apply step_frame_refl|].
  destruct (_ && _); [|injection H as <-; apply step_frame_refl]. apply bind_ok in H as (c & _ & H).
  destruct (WillAcceptTransaction _ _ _ _); [|injection H as <-; apply step_frame_refl].
  apply bind_ok in H as (s1 & E1 & H). apply bind_ok in H as (qs & _ & H). injection H as <-.
  apply bind_ok in E1 as (c1 & _ & E1). apply bind_ok in E1 as (cs & _ & E1). by injection E1 as <-.
Qed.

Lemma forward_request_frame i s s' : forward_request i s = Ok s' -> step_frame [] s s'.
Proof.
  rewrite forward_request_cross. intros H. apply bind_ok in H as ([[[f t] b] g] & E & H). injection H as <-.
  apply cross_moved in E as (_ & E1 & _ & _ & E2). split_and!; [|done|done]. unfold front_of. simpl. by rewrite E1, E2.
Qed.

Lemma DrainRequests_frame s s' : DrainRequests s = Ok s' -> step_frame [] s s'.
Proof.
  unfold DrainRequests. intros H. apply bind_ok in H as (s1 & E1 & H). apply bind_ok in H as (q & _ & H).
  apply (step_frame_trans [] [] s s1 s').
  - eapply for_each_frame; [|exact E1]. intros i t t' E. by eapply drain_quad_frame.
  - exact (for_each_frame _ _ _ _ forward_request_frame H).
Qed.

Lemma drain_link_frame i s done s' done' : drain_link i (s, done) = Ok (s', done') ->
  exists d, done' = done ++ d /\ step_frame d s s'.
Proof.
  unfold drain_link. intros H. apply bind_ok in H as (q & Eq & H).
  destruct q as [|resp q]; [injection H as <- <-; exists []; by rewrite app_nil_r|].
  destruct (_ <=? _); [|injection H as <- <-; exists []; by rewrite app_nil_r].
  apply bind_ok in H as (qs & Es & H). injection H as <- <-. exists [callback_of resp]. split; [done|].
  split_and!; [done|done|]. unfold hmc_pending, resps. simpl. pose proof (concat_vset _ _ _ _ _ Eq Es) as Hp.
  assert (Hp' : concat (link_resp_queues_ s) ≡ₚ resp :: concat qs).
  { apply (Permutation_app_inv_l q). rewrite <- Hp. solve_Permutation. }
  rewrite Hp', !fmap_app, fmap_cons. solve_Permutation.
Qed.

Lemma drain_links_frame l : forall s done s' done', for_each drain_link l (s, done) = Ok (s', done') ->
  exists d, done' = done ++ d /\ step_frame d s s'.
Proof.
  induction l as [|i l IH]; intros s done s' done' H; simpl in H.
  - injection H as <- <-. exists []. rewrite app_nil_r. split; [done|apply step_frame_refl].
  - apply bind_ok in H as ([s1 d1] & E & H). apply drain_link_frame in E as (d & -> & F1).
    apply IH in H as (d2 & -> & F2). exists (d ++ d2). rewrite app_assoc. split; [done|by eapply step_frame_trans].
Qed.

Lemma forward_response_frame i s s' : forward_response i s = Ok s' -> step_frame [] s s'.
Proof.
  rewrite forward_response_cross. intros H. apply bind_ok in H as ([[[f t] b] g] & E & H). injection H as <-.
  apply cross_moved in E as (Hm & _). split_and!; [done|done|]. unfold hmc_pending, resps. simpl. rewrite !fmap_app.
  apply (moved_fmap _ callback_of) in Hm; [|done]. by rewrite Hm.
Qed.

Lemma DrainResponses_frame s s' done : DrainResponses s = Ok (s', done) -> step_frame done s s'.
Proof.
  unfold DrainResponses. intros H. apply bind_ok in H as ([s1 d1] & E1 & H). apply bind_ok in H as (q & _ & H).
  apply bind_ok in H as (s2 & E2 & H). injection H as <- <-. apply drain_links_frame in E1 as (d & -> & F1). simpl.
  rewrite <- (app_nil_r d). apply (step_frame_trans d [] s s1 s2); [done|].
  exact (for_each_frame _ _ _ _ forward_response_frame E2).
Qed.

Lemma table_take_spec key table resp rest : table_take key table = Some (resp, rest) ->
  table ≡ₚ (key, resp) :: rest.
Proof.
  revert rest. induction table as [|[k p] table IH]; intros rest H; [done|]. simpl in H.
  case_decide; [by simplify_eq|]. destruct (table_take key table) as [[r l]|] eqn:E; [|done]. simplify_eq.
  rewrite (IH _ eq_refl). apply Permutation_swap.
Qed.

Lemma vpush_concat {A} (v v' : list (list A)) i a : vpush v i a = Ok v' -> concat v' ≡ₚ a :: concat v /\ vsize v' = vsize v.
Proof.
  unfold vpush, vupd. intros H. apply bind_ok in H as (l & El & H). split; [|by eapply vset_vsize].
  pose proof (concat_vset _ _ _ _ _ El H) as Hp. apply (Permutation_app_inv_l l). rewrite Hp. solve_Permutation.
Qed.

Lemma VaultCallback_frame id s s' : VaultCallback id s = Ok s' -> step_frame [] s s'.
Proof.
  unfold VaultCallback. intros H. destruct (table_take _ _) as [[resp table]|] eqn:Et; [|done].
  apply bind_ok in H as (qs & Eq & H). apply bind_ok in H as (ages & _ & H). injection H as <-.
  apply table_take_spec in Et. apply vpush_concat in Eq as [Eq _]. split_and!; [done|done|].
  unfold hmc_pending, resps. simpl. rewrite Et, Eq. apply (fmap_Permutation callback_of). cbn. solve_Permutation.
Qed.

Lemma DRAMClockTick_frame s s' : DRAMClockTick s = Ok s' -> step_frame [] s s'.
Proof.
  unfold DRAMClockTick. destruct (return_all _ _) as [done cs]. intros H. apply bind_ok in H as (s1 & E1 & H).
  apply bind_ok in H as (cs' & _ & H).
  destruct (decide (u64 (epoch_period (j_config (h_base s))) = 0)); [done|]. apply bind_ok in H as (base & _ & H). injection H as <-.
  apply (step_frame_trans [] [] s s1).
  - eapply for_each_frame; [|exact E1]. intros p t t' E. exact (VaultCallback_frame _ _ _ E).
  - by split_and!.
Qed.

(** The part of [step_frame] that a change of the clocks keeps. *)
Definition conserves (done : list (Z * bool)) (s s' : HMCMemorySystem) : Prop :=
  front_of s' = front_of s /\ done ++ hmc_pending s' ≡ₚ hmc_pending s.

Lemma step_conserves d s s' : step_frame d s s' -> conserves d s s'.
Proof. intros (H1 & _ & H2). by split. Qed.

Lemma conserves_trans d d' s1 s2 s3 : conserves d s1 s2 -> conserves d' s2 s3 -> conserves (d ++ d') s1 s3.
Proof. intros (F1 & P1) (F2 & P2). split; [congruence|]. by rewrite <- app_assoc, P2. Qed.

Lemma logic_cycles_conserves fuel : forall s done s' done', logic_cycles fuel s done = Ok (s', done') ->
  exists d, done' = done ++ d /\ conserves d s s'.
Proof.
  induction fuel as [|fuel IH]; intros s done s' done' H; cbn [logic_cycles] in H; case_decide.
  - done.
  - injection H as <- <-. exists []. rewrite app_nil_r. by split_and!.
  - apply bind_ok in H as ([s1 l] & E1 & H). apply bind_ok in H as (s2 & E2 & H). apply IH in H as (d & -> & Hc).
    exists (l ++ d). rewrite app_assoc. split; [done|]. apply DrainResponses_frame, step_conserves in E1.
    apply DrainRequests_frame, step_conserves in E2.
    apply (conserves_trans _ _ _ s1); [done|]. exact (conserves_trans [] d s1 s2 s' E2 Hc).
  - injection H as <- <-. exists []. rewrite app_nil_r. by split_and!.
Qed.

Lemma HMC_tick_conserves s s' done : HMC_ClockTick s = Ok (s', done) -> conserves done s s'.
Proof.
  unfold HMC_ClockTick. intros H. apply bind_ok in H as ([s1 d1] & E1 & H). apply bind_ok in H as ([s2 d2] & E2 & H).
  injection H as <- <-. apply logic_cycles_conserves in E2 as (d & -> & Hc).
  assert (H1 : conserves d1 s s1).
  { case_decide.
    - apply bind_ok in E1 as ([t1 l] & E & E1). apply bind_ok in E1 as (t2 & E' & E1). apply bind_ok in E1 as (t3 & E'' & E1).
      injection E1 as <- <-. apply DrainResponses_frame, step_conserves in E. apply DRAMClockTick_frame, step_conserves in E'.
      apply DrainRequests_frame, step_conserves in E''. rewrite <- (app_nil_r l). apply (conserves_trans _ _ _ t1); [done|].
      exact (conserves_trans [] [] t1 t2 t3 E' E'').
    - apply bind_ok in E1 as (t & E & E1). injection E1 as <- <-. by apply step_conserves, DRAMClockTick_frame. }
  exact (conserves_trans _ _ _ _ _ H1 Hc).
Qed.

(** ** Accepting requests *)

(** The link side is in order. *)
Definition front_ok (s : HMCMemorySystem) : Prop :=
  0 <= next_link_ s < links_ s /\ vsize (link_req_queues_ s) = links_ s /\ vsize (link_age_counter_ s) = links_ s.

Lemma front_of_ok s s' : front_of s' = front_of s -> front_ok s -> front_ok s'.
Proof. unfold front_of, front_ok. intros E. by injection E as -> -> -> ->. Qed.

(** The state after a request has entered link [i]. *)
Definition entered (i next : Z) (req : HMCRequest) (resp : HMCResponse) (s s' : HMCMemorySystem) : Prop :=
  exists q qs ages, vget (link_req_queues_ s) i = Ok q /\ vset (link_req_queues_ s) i (q ++ [req <| q_link := i |>]) = Ok qs /\
    vset (link_age_counter_ s) i 1 = Ok ages /\ 0 <= next < links_ s /\
    s' = s <| link_req_queues_ := qs |> <| resp_lookup_table_ := resp_lookup_table_ s ++ [(p_resp_id resp, resp)] |>
           <| link_age_counter_ := ages |> <| h_base := (h_base s) <| last_req_clk_ := j_clk_ (h_base s) |> |> <| next_link_ := next |>.

Definition has_room (s : HMCMemorySystem) (i : Z) : Prop :=
  exists q, vget (link_req_queues_ s) i = Ok q /\ vsize q < queue_depth_ s.

Lemma will_accept_room s a w : HMC_WillAcceptTransaction s a w = true -> exists i, has_room s i.
Proof.
  unfold HMC_WillAcceptTransaction. intros (q & Hq & Hs)%existsb_exists. apply list_elem_of_In, list_elem_of_lookup in Hq as (i & Hi).
  exists (Z.of_nat i), q. split; [apply vget_ok; rewrite Nat2Z.id; by split; [lia|]|lia].
Qed.

Lemma IterateNextLink_ok s : front_ok s ->
  IterateNextLink s = Ok (s <| next_link_ := (next_link_ s + 1) mod links_ s |>).
Proof.
  intros (Hn & _). unfold IterateNextLink, imod. rewrite decide_False by lia. cbn [mbind outcome_bind].
  by rewrite Z.rem_mod_nonneg by lia.
Qed.

Lemma InsertReqToLink_ok req resp i s : front_ok s -> 0 <= i < links_ s ->
  HMCResponse_new (q_mem_operand req) (q_type req) i (q_quad req) = Ok resp ->
  (has_room s i /\ exists s', InsertReqToLink req i s = Ok (true, s') /\ front_ok s' /\ next_link_ s' = next_link_ s /\
     links_ s' = links_ s /\ forall n, 0 <= n < links_ s -> entered i n req resp s (s' <| next_link_ := n |>)) \/
  (~ has_room s i /\ InsertReqToLink req i s = Ok (false, s)).
Proof.
  intros (Hnl & Hs & Ha) Hi Hr. unfold InsertReqToLink. destruct (vget_total (link_req_queues_ s) i) as (q & Eq); [lia|].
  rewrite Eq. cbn [mbind outcome_bind]. destruct (Z.ltb_spec (vsize q) (queue_depth_ s)) as [Hq|Hq].
  - left. split; [by exists q|].
    edestruct (vset_total (link_req_queues_ s) i) as (qs & Es & _); [lia|]. rewrite Es. cbn [mbind outcome_bind].
    rewrite Hr. cbn [mbind outcome_bind]. destruct (vset_total (link_age_counter_ s) i 1) as (ages & Eg & _); [lia|].
    rewrite Eg. cbn [mbind outcome_bind]. eexists. split; [reflexivity|]. split; [|split; [done|split; [done|]]].
    + split_and!; simpl; [lia..| |]; [by rewrite (vset_vsize _ _ _ _ Es)|by rewrite (vset_vsize _ _ _ _ Eg)].
    + intros n Hn. by exists q, qs, ages.
  - right. split; [|done]. intros (q' & E' & Hq'). rewrite Eq in E'. injection E' as <-. lia.
Qed.

Lemma has_room_range s i : front_ok s -> has_room s i -> 0 <= i < links_ s.
Proof.
  intros (_ & <- & _) (q & [Hi Hq]%vget_ok & _). apply lookup_lt_Some in Hq. unfold vsize. lia.
Qed.

(** The response that belongs to a request on link [i]. *)
Definition response_on (i : Z) (req : HMCRequest) (k : HMCRespType * Z) : HMCResponse :=
  mkHMCResponse (q_mem_operand req) k.1 i (q_quad req) k.2 0.

Lemma HMCResponse_new_on i req k : response_kind (q_type req) = Ok k ->
  HMCResponse_new (q_mem_operand req) (q_type req) i (q_quad req) = Ok (response_on i req k).
Proof. intros E. unfold HMCResponse_new. rewrite E. by destruct k. Qed.

(** All the links before the [k]-th one behind [start] are full. *)
Definition full_before (start k : Z) (s : HMCMemorySystem) : Prop :=
  forall j, 0 <= j < k -> ~ has_room s ((start + j) mod links_ s).

Lemma full_all start s : front_ok s -> full_before start (links_ s) s -> forall i, ~ has_room s i.
Proof.
  intros Hf Hfull i Hi. pose proof (has_room_range s i Hf Hi) as Hr. pose proof Hf as (Hn & _).
  apply (Hfull ((i - start) mod links_ s)); [apply Z.mod_pos_bound; lia|].
  rewrite Z.add_mod_idemp_r by lia. replace (start + (i - start)) with i by lia. by rewrite Z.mod_small.
Qed.

Lemma try_links_ok req kind fuel : forall k s start,
  front_ok s -> response_kind (q_type req) = Ok kind -> 0 <= start < links_ s -> 1 <= k <= links_ s ->
  next_link_ s = (start + k) mod links_ s -> full_before start k s -> (exists i, has_room s i) -> links_ s - k < Z.of_nat fuel ->
  exists s' i n, try_links fuel start req s = Ok (true, s') /\ entered i n req (response_on i req kind) s s'.
Proof.
  induction fuel as [|fuel IH]; intros k s start Hf Hk Hs Hkr Hn Hfull Hroom Hfuel; [lia|]. cbn [try_links].
  destruct (decide (k = links_ s)) as [->|Hne].
  { destruct Hroom as (i & Hi). by destruct (full_all start s Hf Hfull i). }
  assert (Hne' : start <> next_link_ s).
  { intros E. rewrite Hn in E. destruct (decide (start + k < links_ s)) as [Hlt|Hge].
    - rewrite Z.mod_small in E by lia. lia.
    - replace (start + k) with (start + k - links_ s + 1 * links_ s) in E by lia.
      rewrite Z.mod_add, Z.mod_small in E by lia. lia. }
  rewrite decide_False by done. pose proof Hf as (Hnl & _).
  pose proof (Z.mod_pos_bound (next_link_ s + 1) (links_ s) ltac:(lia)) as Hm.
  destruct (InsertReqToLink_ok req _ (next_link_ s) s Hf Hnl (HMCResponse_new_on _ req kind Hk)) as [(_ & s' & -> & Hf' & En & El & He)|(Hno & ->)];
    cbn [mbind outcome_bind].
  - rewrite IterateNextLink_ok by done. cbn [mbind outcome_bind]. eexists _, _, _. split; [reflexivity|]. apply He. rewrite En, El. done.
  - rewrite IterateNextLink_ok by done. cbn [mbind outcome_bind].
    destruct (IH (k + 1) (s <| next_link_ := (next_link_ s + 1) mod links_ s |>) start) as (s' & i & n & E & He).
    + destruct Hf as (_ & H1 & H2). by split_and!; simpl; [lia..|].
    + done.
    + done.
    + simpl. lia.
    + simpl. rewrite Hn, Z.add_mod_idemp_l by lia. f_equal. lia.
    + intros j Hj. change (~ has_room s ((start + j) mod links_ s)). destruct (decide (j = k)) as [->|]; [by rewrite <- Hn|].
      apply Hfull. lia.
    + destruct Hroom as (i & Hi). by exists i.
    + simpl. lia.
    + exists s', i, n. split; [exact E|]. destruct He as (q & qs & ages & H). by exists q, qs, ages.
Qed.

Lemma InsertHMCReq_ok req kind s :
  front_ok s -> response_kind (q_type req) = Ok kind -> (exists i, has_room s i) ->
  exists s' i n, InsertHMCReq req s = Ok (true, s') /\ entered i n req (response_on i req kind) s s'.
Proof.
  intros Hf Hk Hroom. pose proof Hf as (Hn & _). unfold InsertHMCReq.
  pose proof (Z.mod_pos_bound (next_link_ s + 1) (links_ s) ltac:(lia)) as Hm.
  destruct (InsertReqToLink_ok req _ (next_link_ s) s Hf Hn (HMCResponse_new_on _ req kind Hk)) as [(_ & s' & -> & Hf' & En & El & He)|(Hno & ->)];
    cbn [mbind outcome_bind].
  - rewrite IterateNextLink_ok by done. cbn [mbind outcome_bind]. eexists _, _, _. split; [reflexivity|]. apply He. by rewrite En, El.
  - rewrite IterateNextLink_ok by done. cbn [mbind outcome_bind].
    destruct (try_links_ok req kind (Z.to_nat (links_ s)) 1 (s <| next_link_ := (next_link_ s + 1) mod links_ s |>) (next_link_ s))
      as (s' & i & n & E & He); try done; simpl; try lia.
    + destruct Hf as (_ & H1 & H2). by split_and!; simpl; [lia..|].
    + intros j Hj. change (~ has_room s ((next_link_ s + j) mod links_ s)). replace j with 0 by lia.
      by rewrite Z.add_0_r, Z.mod_small by lia.
    + exists s', i, n. split; [exact E|]. destruct He as (q & qs & ages & H). by exists q, qs, ages.
Qed.

Lemma entered_pending i n req resp s s' : entered i n req resp s s' -> hmc_pending s' ≡ₚ callback_of resp :: hmc_pending s.
Proof.
  intros (q & qs & ages & _ & _ & _ & _ & ->). unfold hmc_pending, resps. simpl.
  rewrite (fmap_app snd). simpl. rewrite !fmap_app. simpl. solve_Permutation.
Qed.

Lemma entered_front i n req resp s s' : front_ok s -> entered i n req resp s s' -> front_ok s'.
Proof.
  intros (_ & H1 & H2) (q & qs & ages & _ & Es & Eg & Hn & ->). split_and!; simpl; [lia..| |].
  - by rewrite (vset_vsize _ _ _ _ Es).
  - by rewrite (vset_vsize _ _ _ _ Eg).
Qed.

(** A transaction of the block size becomes a read or a write request with the
    response of its kind. *)
Lemma block_request_kind size w t : block_request size w = Ok t ->
  exists fl fl', request_flits t = Ok fl /\ response_kind t = Ok (if w then WR_RS else RD_RS, fl') /\ req_is_write t = w.
Proof.
  unfold block_request. intros H. destruct w; repeat case_match; simplify_eq; by eexists _, _.
Qed.

Lemma HMC_add_enters s a w t :
  front_ok s -> block_request (block_size (j_config (h_base s))) w = Ok t -> HMC_WillAcceptTransaction s a w = true ->
  exists s' i n req resp, HMC_AddTransaction s a w = Ok (true, s') /\ entered i n req resp s s' /\
    q_mem_operand req = a /\ q_is_write req = w /\ q_vault req = GetChannel (j_config (h_base s)) a /\
    q_quad req = Z.rem (q_vault req) 4 /\
    resp = response_on i req (p_type resp, p_flits resp) /\ callback_of resp = (a, w).
Proof.
  intros Hf Ht Hacc. destruct (block_request_kind _ _ _ Ht) as (fl & fl' & E1 & E2 & E3). unfold HMC_AddTransaction.
  rewrite Ht. cbn [mbind outcome_bind]. unfold HMCRequest_new. rewrite E1. cbn [mbind outcome_bind].
  set (req := mkHMCRequest _ _ _ _ _ _ _ _).
  destruct (InsertHMCReq_ok req (if w then WR_RS else RD_RS, fl') s Hf E2 (will_accept_room _ _ _ Hacc)) as (s' & i & n & E & He).
  exists s', i, n, req, (response_on i req (if w then WR_RS else RD_RS, fl')). split_and!; try done.
  unfold callback_of, response_on. simpl. by destruct w.
Qed.

Lemma HMC_add_conserves s a w ok s' :
  front_ok s -> HMC_WillAcceptTransaction s a w = true -> HMC_AddTransaction s a w = Ok (ok, s') ->
  ok = true /\ front_ok s' /\ hmc_pending s' ≡ₚ (a, w) :: hmc_pending s.
Proof.
  intros Hf Hacc H. pose proof H as H'. unfold HMC_AddTransaction in H'. apply bind_ok in H' as (t & Et & _).
  destruct (HMC_add_enters s a w t Hf Et Hacc) as (s1 & i & n & req & resp & E & He & _ & _ & _ & _ & _ & Hc).
  rewrite E in H. injection H as <- <-. split; [done|]. split; [by eapply entered_front|].
  rewrite (entered_pending _ _ _ _ _ _ He). by rewrite Hc.
Qed.

Definition hmc_add (s : HMCMemorySystem) (a : Z) (w : bool) : outcome HMCMemorySystem :=
  r ← HMC_AddTransaction s a w; Ok r.2.

Definition hmc_tick (s : HMCMemorySystem) : outcome (HMCMemorySystem * list Transaction) :=
  r ← HMC_ClockTick s; Ok (r.1, fmap (M := list) to_trans r.2).

#[export] Instance hmc_backend : DramBackend HMCMemorySystem := {|
  dram_will_accept := fun s a w => Ok (HMC_WillAcceptTransaction s a w);
  dram_add := hmc_add;
  dram_tick := hmc_tick
|}.

#[export] Instance hmc_laws : DramLaws HMCMemorySystem.
Proof.
  refine {| dram_inv := front_ok; dram_pending := fun s => to_trans <$> hmc_pending s |}.
  - intros s a w s' Hf _ Hacc H. simpl in *. injection Hacc as Hacc. apply bind_ok in H as ([ok s1] & E & H). injection H as <-.
    destruct (HMC_add_conserves _ _ _ _ _ Hf Hacc E) as (_ & H1 & H2). split; [done|]. simpl. by rewrite H2.
  - intros s s' done Hf H. simpl in *. apply bind_ok in H as ([s1 d] & E & H). injection H as <- <-.
    apply HMC_tick_conserves in E as (E1 & E2). split; [by eapply front_of_ok|]. simpl. by rewrite <- fmap_app, E2.
Defined.

(** ** No operation fails *)
Definition req_ok (config : Config) (q : HMCRequest) : Prop :=
  0 <= q_quad q < 4 /\ q_vault q = GetChannel config (q_mem_operand q) /\ 0 <= q_mem_operand q.

Definition resp_ok (links : Z) (p : HMCResponse) : Prop := 0 <= p_link p < links /\ 0 <= p_quad p < 4.

Definition reqs (s : HMCMemorySystem) : list HMCRequest := concat (link_req_queues_ s) ++ concat (quad_req_queues_ s).

(** A well-formed system whose ages are at most [B] and whose vaults are good for
    [n] more cycles.  The keys of the lookup table are the addresses of the
    requests on their way to a vault and of the transactions in the vaults. *)
Record hmc_ok (B n : Z) (s : HMCMemorySystem) : Prop := {
  ho_front : front_ok s;
  ho_links : vsize (link_resp_queues_ s) = links_ s /\ vsize (link_busy_ s) = links_ s;
  ho_quads : vsize (quad_req_queues_ s) = 4 /\ vsize (quad_resp_queues_ s) = 4 /\ vsize (quad_busy_ s) = 4;
  ho_link_age : Forall2 (age_ok B) (link_req_queues_ s) (link_age_counter_ s);
  ho_quad_age : Forall2 (age_ok B) (quad_resp_queues_ s) (quad_age_counter_ s);
  ho_reqs : Forall (req_ok (j_config (h_base s))) (reqs s);
  ho_resps : Forall (resp_ok (links_ s)) (resps s);
  ho_table : (resp_lookup_table_ s).*1 ≡ₚ (q_mem_operand <$> reqs s) ++ (system_pending (h_base s)).*1;
  ho_base : jedec_ok n (h_base s);
  ho_clk : 0 <= logic_clk_ s;
  ho_block : forall w, exists t, block_request (block_size (j_config (h_base s))) w = Ok t;
  ho_B : 1 <= B
}.

Lemma vault_add n base a w c :
  jedec_ok n base -> 0 <= a -> vget (ctrls_ base) (GetChannel (j_config base) a) = Ok c ->
  WillAcceptTransaction (j_config base) c a w = true ->
  exists cs, vset (ctrls_ base) (GetChannel (j_config base) a) (AddTransaction c (DTrans_new a w)) = Ok cs /\
    jedec_ok n (base <| ctrls_ := cs |>) /\ system_pending (base <| ctrls_ := cs |>) ≡ₚ (a, w) :: system_pending base.
Proof.
  intros Hb Ha Ec Hw. destruct (Jedec_add_ok n base a w Hb Ha) as (b' & E & Hb' & _).
  { unfold Jedec_WillAcceptTransaction. rewrite Ec. cbn [mbind outcome_bind]. by rewrite Hw. }
  pose proof (Jedec_add_pending _ _ _ _ _ E) as Hp. unfold Jedec_AddTransaction in E. rewrite Ec in E. cbn [mbind outcome_bind] in E.
  rewrite Hw in E. apply bind_ok in E as (cs & Es & E). injection E as <-. exists cs. split; [done|]. split; [|done].
  destruct Hb'. by split.
Qed.

Lemma drain_quad_ok B n i s : hmc_ok B n s -> 0 <= i < 4 -> exists s', drain_quad i s = Ok s' /\ hmc_ok B n s'.
Proof.
  intros H Hi. destruct (ho_quads _ _ _ H) as (S1 & S2 & S3). unfold drain_quad.
  destruct (vget_total (quad_req_queues_ s) i) as (q & Eq); [lia|]. destruct (vget_total (quad_resp_queues_ s) i) as (r & Er); [lia|].
  rewrite Eq, Er. cbn [mbind outcome_bind]. destruct q as [|req q]; [by exists s|]. destruct (_ && _); [|by exists s].
  destruct (vset_total (quad_req_queues_ s) i q) as (qs & Es & Ez); [lia|].
  assert (Hp : concat (quad_req_queues_ s) ≡ₚ req :: concat qs).
  { pose proof (concat_vset _ _ _ _ _ Eq Es) as Hp. apply (Permutation_app_inv_l q). rewrite <- Hp. solve_Permutation. }
  pose proof (ho_reqs _ _ _ H) as Hr. unfold reqs in Hr. rewrite Hp, Forall_app, Forall_cons in Hr. destruct Hr as (R1 & (_ & Ev & Ha) & R2).
  pose proof (ho_base _ _ _ H) as Hb. rewrite Ev.
  destruct (vget_total (ctrls_ (h_base s)) (GetChannel (j_config (h_base s)) (q_mem_operand req))) as (c & Ec).
  { destruct Hb as [Hrun _ Hsz _ _]. rewrite Hsz. by apply channel_range. }
  rewrite Ec. cbn [mbind outcome_bind]. destruct (WillAcceptTransaction _ c _ _) eqn:Ew; [|by exists s].
  destruct (vault_add n _ _ _ c Hb Ha Ec Ew) as (cs & Ecs & Hb' & Hpend). unfold InsertReqToDRAM. rewrite Ev, Ec. cbn [mbind outcome_bind].
  rewrite Ecs. cbn [mbind outcome_bind]. change (quad_req_queues_ (s <| h_base := _ |>)) with (quad_req_queues_ s). rewrite Es.
  cbn [mbind outcome_bind]. eexists. split; [reflexivity|].
  destruct H as [H1 H2 H3 H4 H5 H6 H7 H8 H9 H10 H11 H12]. split; try done; simpl.
  - split_and!; [|done|done]. lia.
  - unfold reqs. simpl. by rewrite Forall_app.
  - unfold reqs in *. simpl. rewrite H8, Hpend, Hp. rewrite !fmap_app, !fmap_cons. simpl. solve_Permutation.
Qed.

Lemma forward_requests_ok B n todo : forall s,
  1 <= B -> B + 1 < 2 ^ 31 -> NoDup todo -> serving B todo (link_req_queues_ s) (link_age_counter_ s) -> hmc_ok (B + 1) n s ->
  exists s', for_each forward_request todo s = Ok s' /\ hmc_ok (B + 1) n s'.
Proof.
  induction todo as [|i todo IH]; intros s HB Hmax Hnd Hserv H; cbn [for_each]; [by exists s|].
  pose proof H as [(Hn & F1 & F2) H2 (Q1 & Q2 & Q3) H4 H5 H6 H7 H8 H9 H10 H11 H12]. unfold reqs in *. rewrite forward_request_cross.
  destruct (cross_total q_quad q_flits (fun x p => p <| q_exit_time := x |>) (queue_depth_ s) (logic_clk_ s) B i todo _
    (quad_req_queues_ s) (quad_busy_ s) _ HB Hmax Hnd Hserv) as (f & t & b & g & E & Hs').
  { lia. }
  { rewrite Q1. apply Forall_app in H6 as [H6 _]. eapply Forall_impl; [exact H6|]. by intros p (Hp & _). }
  rewrite E. cbn [mbind outcome_bind]. apply NoDup_cons in Hnd as [_ Hnd]. destruct (cross_moved _ _ _ _ _ _ _ _ _ _ _ _ _ _ E) as (Hm & Z1 & Z2 & Z3 & Z4).
  apply IH; [done..| |]; simpl; [done|]. destruct Hs' as [Hs' _].
  split; try done; simpl.
  - split_and!; simpl; lia.
  - split_and!; lia.
  - unfold reqs. simpl. eapply moved_forall; [|exact Hm|exact H6]. by intros ? ? ?.
  - unfold reqs. simpl. apply (moved_fmap _ q_mem_operand) in Hm; [|done]. by rewrite H8, !fmap_app, Hm.
Qed.

Lemma hmc_ok_weaken B B' n s : B <= B' -> hmc_ok B n s -> hmc_ok B' n s.
Proof.
  intros HB []. split; try done; [..|lia]; (eapply Forall2_impl; [done|]; intros; by eapply age_ok_weaken).
Qed.

Lemma DrainRequests_ok B n s : B + 1 < 2 ^ 31 -> hmc_ok B n s -> exists s', DrainRequests s = Ok s' /\ hmc_ok (B + 1) n s'.
Proof.
  intros Hmax H. unfold DrainRequests.
  destruct (for_each_total drain_quad (hmc_ok B n) (seqZ 0 4) s) as (s1 & E1 & H1); [|done|].
  { intros i t Hi%elem_of_seqZ Ht. apply drain_quad_ok; [done|lia]. }
  unfold for_int. rewrite E1. cbn [mbind outcome_bind].
  assert (H2 : hmc_ok B n (s1 <| quad_busy_ := drain_xbar (quad_busy_ s1) |>)).
  { destruct H1 as [? ? (Q1 & Q2 & Q3)]. split; try done. simpl. split_and!; [done..|]. unfold drain_xbar, vsize in *. by rewrite length_fmap. }
  set (s2 := s1 <| quad_busy_ := _ |>) in *. clearbody s2. clear H1 E1 H.
  destruct (BuildAgeQueue_run (logic_clk_ s2) (link_age_counter_ s2)) as (q & -> & Hnd & Hq).
  { by destruct H2. }
  { destruct H2 as [(Hn & _ & F) _]. intros E. rewrite E in F. change (0 = links_ s2) in F. lia. }
  cbn [mbind outcome_bind]. apply forward_requests_ok; [by destruct H2|done..| |].
  - apply serving_start; [by destruct H2|done].
  - eapply hmc_ok_weaken; [|exact H2]. lia.
Qed.

Lemma drain_link_ok B n i s done : hmc_ok B n s -> 0 <= i < links_ s ->
  exists s' done', drain_link i (s, done) = Ok (s', done') /\ hmc_ok B n s' /\ links_ s' = links_ s.
Proof.
  intros H Hi. destruct (ho_links _ _ _ H) as [L1 L2]. unfold drain_link.
  destruct (vget_total (link_resp_queues_ s) i) as (q & Eq); [lia|]. rewrite Eq. cbn [mbind outcome_bind].
  destruct q as [|resp q]; [by exists s, done|]. destruct (_ <=? _); [|by exists s, done].
  destruct (vset_total (link_resp_queues_ s) i q) as (qs & Es & Ez); [lia|]. rewrite Es. cbn [mbind outcome_bind].
  eexists _, _. split; [reflexivity|]. split; [|done].
  assert (Hp : concat (link_resp_queues_ s) ≡ₚ resp :: concat qs).
  { pose proof (concat_vset _ _ _ _ _ Eq Es) as Hp. apply (Permutation_app_inv_l q). rewrite <- Hp. solve_Permutation. }
  destruct H as [H1 H2 H3 H4 H5 H6 H7 H8 H9 H10 H11 H12]. split; try done; simpl.
  - split; [lia|done].
  - unfold resps in *. simpl. rewrite Hp, !Forall_app, Forall_cons in H7. rewrite !Forall_app. naive_solver.
Qed.

Lemma forward_responses_ok B n todo : forall s,
  1 <= B -> B + 1 < 2 ^ 31 -> NoDup todo -> serving B todo (quad_resp_queues_ s) (quad_age_counter_ s) -> hmc_ok (B + 1) n s ->
  exists s', for_each forward_response todo s = Ok s' /\ hmc_ok (B + 1) n s'.
Proof.
  induction todo as [|i todo IH]; intros s HB Hmax Hnd Hserv H; cbn [for_each]; [by exists s|].
  pose proof H as [H1 (L1 & L2) (Q1 & Q2 & Q3) H4 H5 H6 H7 H8 H9 H10 H11 H12]. rewrite forward_response_cross.
  unfold resps in H7. apply Forall_app in H7 as [H7 H7'].
  destruct (cross_total p_link p_flits (fun x p => p <| p_exit_time := x |>) (queue_depth_ s) (logic_clk_ s) B i todo _
    (link_resp_queues_ s) (link_busy_ s) _ HB Hmax Hnd Hserv) as (f & t & b & g & E & Hs').
  { lia. }
  { rewrite L1. apply Forall_app in H7' as [H7' _]. eapply Forall_impl; [exact H7'|]. by intros p (Hp & _). }
  rewrite E. cbn [mbind outcome_bind]. apply NoDup_cons in Hnd as [_ Hnd]. destruct (cross_moved _ _ _ _ _ _ _ _ _ _ _ _ _ _ E) as (Hm & Z1 & Z2 & Z3 & Z4).
  apply IH; [done..| |]; simpl; [done|]. destruct Hs' as [Hs' _].
  split; try done; simpl.
  - split_and!; lia.
  - split_and!; lia.
  - unfold resps. simpl. apply Forall_app. split; [done|]. eapply moved_forall; [|exact Hm|exact H7']. by intros ? ? ?.
Qed.

Lemma DrainResponses_ok B n s : B + 1 < 2 ^ 31 -> hmc_ok B n s ->
  exists s' done, DrainResponses s = Ok (s', done) /\ hmc_ok (B + 1) n s'.
Proof.
  intros Hmax H. unfold DrainResponses.
  destruct (for_each_total drain_link (fun st => hmc_ok B n st.1 /\ links_ st.1 = links_ s) (seqZ 0 (links_ s)) (s, [])) as ([s1 d1] & E1 & H1 & _); [|done|].
  { intros i [t d] Hi%elem_of_seqZ [Ht El]. simpl in *. destruct (drain_link_ok B n i t d Ht ltac:(lia)) as (t' & d' & E & Ht' & El').
    exists (t', d'). split_and!; [done..|]. simpl. congruence. }
  unfold for_int. rewrite E1. cbn [mbind outcome_bind]. simpl in H1.
  assert (H2 : hmc_ok B n (s1 <| link_busy_ := drain_xbar (link_busy_ s1) |>)).
  { destruct H1 as [? (L1 & L2)]. split; try done. simpl. split_and!; [done..|]. unfold drain_xbar, vsize in *. by rewrite length_fmap. }
  set (s2 := s1 <| link_busy_ := _ |>) in *. clearbody s2. clear H1 E1 H.
  destruct (BuildAgeQueue_run (logic_clk_ s2) (quad_age_counter_ s2)) as (q & -> & Hnd & Hq).
  { by destruct H2. }
  { destruct H2 as [_ _ (_ & F & _) _ Ha]. intros E. apply Forall2_vsize in Ha. rewrite E, F in Ha. discriminate Ha. }
  cbn [mbind outcome_bind]. destruct (forward_responses_ok B n q s2) as (s3 & E & H3); [by destruct H2|done..| | |].
  - apply serving_start; [by destruct H2|done].
  - eapply hmc_ok_weaken; [|exact H2]. lia.
  - rewrite E. cbn [mbind outcome_bind]. by eexists _, _.
Qed.

(** *** Completions of the vaults *)
Lemma table_take_total key table : key ∈ table.*1 -> exists r, table_take key table = Some r.
Proof.
  induction table as [|[k p] table IH]; intros H; [by apply elem_of_nil in H|]. simpl. case_decide as Hk; [by eexists|].
  apply elem_of_cons in H as [H|H]; [by destruct Hk|]. destruct (IH H) as ([r l] & ->). by eexists.
Qed.

Lemma vault_callbacks_ok B keys : forall s rest,
  1 <= B -> (resp_lookup_table_ s).*1 ≡ₚ keys.*1 ++ rest -> vsize (quad_resp_queues_ s) = 4 ->
  Forall2 (age_ok B) (quad_resp_queues_ s) (quad_age_counter_ s) -> Forall (resp_ok (links_ s)) (resps s) ->
  exists table qs ages, let s' := s <| resp_lookup_table_ := table |> <| quad_resp_queues_ := qs |> <| quad_age_counter_ := ages |> in
    for_each (fun p : Z * bool => VaultCallback p.1) keys s = Ok s' /\ table.*1 ≡ₚ rest /\ vsize qs = 4 /\
    Forall2 (age_ok B) qs ages /\ Forall (resp_ok (links_ s)) (resps s').
Proof.
  induction keys as [|[key w] keys IH]; intros s rest HB Ht Hq Ha Hr; cbn [for_each].
  { exists (resp_lookup_table_ s), (quad_resp_queues_ s), (quad_age_counter_ s). split; [by destruct s|]. by split_and!. }
  destruct (table_take_total key (resp_lookup_table_ s)) as ([resp table] & E); [rewrite Ht; by left|].
  pose proof (table_take_spec _ _ _ _ E) as Ep. pose proof Hr as Hr'. unfold resps in Hr'.
  rewrite Ep, Forall_app, fmap_cons, Forall_cons in Hr'. destruct Hr' as ((Hp & R1) & R2). pose proof Hp as (_ & Hquad). simpl in Hquad.
  destruct (vget_total (quad_resp_queues_ s) (p_quad resp)) as (q & Eq); [lia|].
  destruct (vset_total (quad_resp_queues_ s) (p_quad resp) (q ++ [resp])) as (qs & Es & Ez); [lia|].
  pose proof (Forall2_vsize _ _ _ Ha) as Hsz.
  destruct (vset_total (quad_age_counter_ s) (p_quad resp) 1) as (ages & Eg & _); [lia|].
  set (s1 := s <| resp_lookup_table_ := table |> <| quad_resp_queues_ := qs |> <| quad_age_counter_ := ages |>).
  assert (EV : VaultCallback key s = Ok s1).
  { unfold VaultCallback, vpush, vupd. rewrite E, Eq. cbn [mbind outcome_bind]. rewrite Es. cbn [mbind outcome_bind]. by rewrite Eg. }
  destruct (IH s1 rest) as (table' & qs' & ages' & E' & H1 & H2 & H3 & H4).
  - done.
  - apply (Permutation_cons_inv (a := key)). unfold s1. simpl. rewrite <- Ht. by rewrite Ep.
  - unfold s1. simpl. lia.
  - unfold s1. simpl. eapply Forall2_vset; [exact Ha|exact Es|exact Eg|]. split; [lia|]. split; [|lia]. intros _ Hnil. by destruct q.
  - unfold s1, resps. simpl. assert (Hc : concat qs ≡ₚ resp :: concat (quad_resp_queues_ s)).
    { apply (vpush_concat _ _ (p_quad resp)). unfold vpush, vupd. by rewrite Eq. }
    rewrite Hc. simpl. apply Forall_app in R2 as [R2 R3].
    apply Forall_app. split; [exact R1|]. apply Forall_cons. split; [exact Hp|]. apply Forall_app. by split.
  - exists table', qs', ages'. cbv zeta. cbn [fst]. rewrite EV. cbn [mbind outcome_bind]. by split_and!.
Qed.

Lemma DRAMClockTick_ok B n s : 0 < n -> hmc_ok B n s -> exists s', DRAMClockTick s = Ok s' /\ hmc_ok B (n - 1) s'.
Proof.
  intros Hn H. destruct H as [H1 H2 (Q1 & Q2 & Q3) H4 H5 H6 H7 H8 H9 H10 H11 H12].
  destruct (Jedec_ClockTick_ok n (h_base s) Hn H9) as (base & done & E & Hb & _ & Ec & _).
  pose proof (Jedec_tick_pending _ _ _ E) as Hp. unfold Jedec_ClockTick in E. unfold DRAMClockTick.
  destruct (return_all _ _) as [done' cs]. apply bind_ok in E as (cs' & E1 & E).
  destruct (decide (u64 (epoch_period (j_config (h_base s))) = 0)) as [|He]; [done|].
  apply bind_ok in E as (base' & E2 & E). injection E as -> ->.
  destruct (vault_callbacks_ok B done s ((q_mem_operand <$> reqs s) ++ (system_pending base).*1)) as (table & qs & ages & E3 & T & Z & A & R); try done.
  { rewrite H8, <- Hp, fmap_app. solve_Permutation. }
  cbv zeta in E3. rewrite E3. cbn [mbind outcome_bind]. rewrite E1. cbn [mbind outcome_bind]. cbv zeta. cbn [h_base put] in E2 |- *.
  rewrite E2.   cbn [mbind outcome_bind]. eexists. split; [reflexivity|].
  split; try done; simpl.
  - by rewrite Ec.
  - by rewrite Ec.
Qed.

(** *** The clocks *)
Definition dram_time (s : HMCMemorySystem) : Z * Z * Z := (ps_per_dram_ s, ps_per_logic_ s, dram_ps_ s).

Lemma clocks_time s s' : clocks s' = clocks s -> dram_time s' = dram_time s /\ logic_ps_ s' = logic_ps_ s.
Proof. unfold clocks, dram_time. intros E. simplify_eq. by split; congruence. Qed.

Lemma logic_tick_ok B n s : hmc_ok B n s -> hmc_ok B n (logic_tick s).
Proof. intros []. split; try done. simpl. apply u64_range. Qed.

Lemma logic_cycle_ok B n s : B + 2 < 2 ^ 31 -> hmc_ok B n s ->
  exists s1 l s2, DrainResponses s = Ok (s1, l) /\ DrainRequests s1 = Ok s2 /\ hmc_ok (B + 2) n (logic_tick s2) /\ clocks s2 = clocks s.
Proof.
  intros Hmax H. destruct (DrainResponses_ok B n s ltac:(lia) H) as (s1 & l & E1 & H1).
  destruct (DrainRequests_ok (B + 1) n s1 ltac:(lia) H1) as (s2 & E2 & H2). exists s1, l, s2. split_and!; [done..| |].
  - apply logic_tick_ok. by replace (B + 2) with (B + 1 + 1) by lia.
  - apply DrainResponses_frame in E1 as (_ & C1 & _).
    apply DrainRequests_frame in E2 as (_ & C2 & _). congruence.
Qed.

(** The loop of logic cycles ends, and after [k] of them the ages have grown by at
    most [2 * k]. *)
Lemma logic_cycles_ok n target fuel : forall B s done,
  hmc_ok B n s -> u64 (dram_ps_ s + ps_per_dram_ s) = target -> 0 < ps_per_logic_ s -> 0 <= logic_ps_ s < target + ps_per_logic_ s ->
  target + ps_per_logic_ s < 2 ^ 64 -> target - logic_ps_ s <= Z.of_nat fuel ->
  (forall k, 0 <= k -> (k - 1) * ps_per_logic_ s < target - logic_ps_ s -> B + 2 * k < 2 ^ 31) ->
  exists s' done' k, logic_cycles fuel s done = Ok (s', done') /\ 0 <= k /\ hmc_ok (B + 2 * k) n s' /\
    dram_time s' = dram_time s /\ logic_ps_ s' = logic_ps_ s + k * ps_per_logic_ s /\
    target <= logic_ps_ s' < target + ps_per_logic_ s.
Proof.
  induction fuel as [|fuel IH]; intros B s done H Ht Hp Hl Hmax Hfuel Hk; cbn [logic_cycles]; rewrite Ht; case_decide as Hlt.
  - lia.
  - exists s, done, 0. rewrite Z.mul_0_r, Z.mul_0_l, !Z.add_0_r. split_and!; try done; lia.
  - destruct (logic_cycle_ok B n s) as (s1 & l & s2 & E1 & E2 & H2 & Hc); [|done|].
    { specialize (Hk 1). lia. }
    rewrite E1. cbn [mbind outcome_bind]. rewrite E2. cbn [mbind outcome_bind].
    apply clocks_time in Hc as (Hd & El). unfold dram_time in Hd. injection Hd as D1 D2 D3.
    assert (El' : logic_ps_ (logic_tick s2) = logic_ps_ s + ps_per_logic_ s).
    { simpl. rewrite El, D2. apply u64_small. lia. }
    destruct (IH (B + 2) (logic_tick s2) (done ++ l)) as (s' & done' & k & E & K0 & Hok & Hd & Hlog & Hr); rewrite ?El'; simpl; rewrite ?D1, ?D2, ?D3; try done; try lia.
    { intros k K0 K1. specialize (Hk (k + 1)). lia. }
    exists s', done', (k + 1). split; [exact E|]. rewrite El' in Hlog. simpl in Hlog, Hr. rewrite D2 in Hlog, Hr.
    split_and!; [lia| | |lia..].
    + by replace (B + 2 * (k + 1)) with (B + 2 + 2 * k) by lia.
    + rewrite Hd. unfold dram_time. simpl. by rewrite D1, D2, D3.
  - exists s, done, 0. rewrite Z.mul_0_r, Z.mul_0_l, !Z.add_0_r. split_and!; try done; lia.
Qed.

(** The logic clock is less than one logic cycle ahead of the DRAM clock, and
    neither wraps around within [n] DRAM cycles. *)
Definition clock_ok (n : Z) (s : HMCMemorySystem) : Prop :=
  ps_per_dram_ s = 800 /\ 0 < ps_per_logic_ s <= 800 /\ 0 <= dram_ps_ s <= logic_ps_ s /\
  logic_ps_ s < dram_ps_ s + ps_per_logic_ s /\ dram_ps_ s + 800 * n + 800 < 2 ^ 64.

(** The growth of an age in one DRAM cycle. *)
Definition age_rate (s : HMCMemorySystem) : Z := 2 * (800 / ps_per_logic_ s + 2).

Definition hmc_ready (n : Z) (s : HMCMemorySystem) : Prop :=
  exists B, hmc_ok B n s /\ clock_ok n s /\ B + age_rate s * n < 2 ^ 31.

Lemma rounds_bound p k : 0 < p -> (k - 1) * p < 800 -> k <= 800 / p + 1.
Proof. intros Hp Hk. pose proof (Z.div_mod 800 p ltac:(lia)). pose proof (Z.mod_pos_bound 800 p Hp). nia. Qed.

(** The DRAM cycle and, when the clocks agree, the logic cycle around it. *)
Lemma first_half_ok B n s : 0 < n -> B + 2 < 2 ^ 31 -> hmc_ok B n s -> clock_ok n s ->
  exists s' l k, (if decide (dram_ps_ s = logic_ps_ s) then
       '(s, l) ← DrainResponses s; s ← DRAMClockTick s; s ← DrainRequests s; Ok (logic_tick s, l)
     else s ← DRAMClockTick s; Ok (s, [])) = Ok (s', l) /\
    hmc_ok (B + 2 * k) (n - 1) s' /\ (k = 0 \/ k = 1 /\ dram_ps_ s = logic_ps_ s) /\ dram_time s' = dram_time s /\
    logic_ps_ s' = logic_ps_ s + k * ps_per_logic_ s.
Proof.
  intros Hn HB H (P1 & P2 & P3 & P4 & P5). case_decide as He.
  - destruct (DrainResponses_ok B n s ltac:(lia) H) as (s1 & l & E1 & H1). rewrite E1. cbn [mbind outcome_bind].
    destruct (DRAMClockTick_ok _ _ _ Hn H1) as (s2 & E2 & H2). rewrite E2. cbn [mbind outcome_bind].
    destruct (DrainRequests_ok (B + 1) _ _ ltac:(lia) H2) as (s3 & E3 & H3). rewrite E3. cbn [mbind outcome_bind].
    apply DrainResponses_frame in E1 as (_ & C1 & _). apply DRAMClockTick_frame in E2 as (_ & C2 & _).
    apply DrainRequests_frame in E3 as (_ & C3 & _). rewrite C2, C1 in C3. apply clocks_time in C3 as (D & L).
    exists (logic_tick s3), l, 1. split; [done|]. split; [|split; [by right|]].
    + apply logic_tick_ok. by replace (B + 2 * 1) with (B + 1 + 1) by lia.
    + unfold dram_time in D. injection D as D1 D2 D3. split; [unfold dram_time; simpl; by rewrite D1, D2, D3|].
      simpl. rewrite L, D2, Z.mul_1_l. apply u64_small. lia.
  - destruct (DRAMClockTick_ok _ _ _ Hn H) as (s2 & E2 & H2). rewrite E2. cbn [mbind outcome_bind].
    apply DRAMClockTick_frame in E2 as (_ & C2 & _). apply clocks_time in C2 as (D & L).
    exists s2, [], 0. split; [done|]. rewrite Z.mul_0_r, Z.add_0_r, Z.mul_0_l, Z.add_0_r. split_and!; try done. by left.
Qed.

Lemma HMC_ClockTick_ok n s : 0 < n -> hmc_ready n s -> exists s' done, HMC_ClockTick s = Ok (s', done) /\ hmc_ready (n - 1) s'.
Proof.
  intros Hn (B & H & Hc & HB). pose proof Hc as (P1 & P2 & P3 & P4 & P5). unfold age_rate in HB.
  set (p := ps_per_logic_ s) in *. pose proof (Z.div_pos 800 p ltac:(lia) ltac:(lia)) as Hq. unfold HMC_ClockTick.
  destruct (first_half_ok B n s Hn ltac:(nia) H Hc) as (s1 & l & k1 & E1 & H1 & K1 & D1 & L1). rewrite E1. cbn [mbind outcome_bind].
  unfold dram_time in D1. injection D1 as D1 D2 D3. fold p in L1, D2.
  assert (Ht : u64 (dram_ps_ s1 + ps_per_dram_ s1) = dram_ps_ s + 800) by (rewrite D3, D1, P1; apply u64_small; lia).
  rewrite Ht.
  destruct (logic_cycles_ok (n - 1) (dram_ps_ s + 800) (Z.to_nat (dram_ps_ s + 800 - logic_ps_ s1)) (B + 2 * k1) s1 l)
    as (s2 & d2 & k2 & E2 & K2 & H2 & D & L2 & R2); rewrite ?D2; try done; try nia.
  { intros k K0 K. pose proof (rounds_bound p k ltac:(lia)) as Hr. nia. }
  rewrite E2. cbn [mbind outcome_bind]. unfold dram_time in D. injection D as D1' D2' D3'. rewrite D2 in *.
  assert (Ht' : u64 (dram_ps_ s2 + ps_per_dram_ s2) = dram_ps_ s + 800) by (rewrite D3', D1', D3, D1, P1; apply u64_small; lia).
  eexists _, _. split; [reflexivity|]. rewrite Ht'. exists (B + 2 * k1 + 2 * k2). split; [|split].
  - destruct H2. by split.
  - unfold clock_ok. simpl. rewrite D1', D2', D1, P1. split_and!; try done; lia.
  - unfold age_rate. simpl. rewrite D2'. pose proof (rounds_bound p (k1 + k2) ltac:(lia)) as Hr.
    assert (k1 + k2 <= 800 / p + 1) by (apply Hr; nia). nia.
Qed.

Lemma HMC_add_ok n s a w : hmc_ready n s -> 0 <= a < 2 ^ 64 -> HMC_WillAcceptTransaction s a w = true ->
  exists s', HMC_AddTransaction s a w = Ok (true, s') /\ hmc_ready n s'.
Proof.
  intros (B & H & Hc & HB) Ha Hacc. pose proof H as [H1 H2 H3 H4 H5 H6 H7 H8 H9 H10 H11 H12].
  destruct (H11 w) as (t & Et). destruct (HMC_add_enters s a w t H1 Et Hacc) as (s' & i & nx & req & resp & E & He & Q1 & Q2 & Q3 & Q4 & Q5 & Q6).
  exists s'. split; [done|]. exists B. pose proof (entered_front _ _ _ _ _ _ H1 He) as Hf.
  destruct He as (q & qs & ages & Eq & Es & Eg & Hnx & ->). split; [|done].
  pose proof (channel_range _ a (jo_config _ _ H9) ltac:(lia)) as Hv. rewrite <- Q3 in Hv.
  assert (Hquad : 0 <= q_quad req < 4) by (rewrite Q4; apply Z.rem_bound_pos; lia).
  assert (Hi : 0 <= i < links_ s) by (apply vset_ok in Es as [Hi _]; destruct H1 as (_ & <- & _); exact Hi).
  assert (Hp : concat qs ≡ₚ req <| q_link := i |> :: concat (link_req_queues_ s)).
  { apply (vpush_concat _ _ i). unfold vpush, vupd. by rewrite Eq. }
  split; try done; simpl.
  - eapply Forall2_vset; [exact H4|exact Es|exact Eg|]. split; [lia|]. split; [|lia]. intros _ Hnil. by destruct q.
  - unfold reqs in *. simpl. rewrite Hp. simpl. apply Forall_cons. split; [|done]. unfold req_ok. simpl. rewrite Q1. split_and!; try done; lia.
  - unfold resps in *. simpl. rewrite fmap_app, <- app_assoc. rewrite Forall_app in H7. destruct H7 as [H7 H7'].
    apply Forall_app. split; [done|]. apply Forall_cons. split; [|done]. simpl. rewrite Q5. by split; simpl.
  - unfold reqs in *. simpl. rewrite fmap_app, H8, Hp. simpl. rewrite Q1.
    assert (Er : p_resp_id resp = a) by (rewrite Q5; done). rewrite Er. solve_Permutation.
  - by destruct H9.
Qed.

Lemma hmc_ready_weaken n m s : 0 <= m <= n -> hmc_ready n s -> hmc_ready m s.
Proof.
  intros Hm (B & H & (P1 & P2 & P3 & P4 & P5) & HB). exists B. split; [|split].
  - destruct H. split; try done. by eapply jedec_ok_weaken.
  - unfold clock_ok. split_and!; try done; lia.
  - unfold age_rate in *. pose proof (Z.div_pos 800 (ps_per_logic_ s) ltac:(lia) ltac:(lia)). nia.
Qed.

#[export] Instance hmc_total : DramTotal HMCMemorySystem.
Proof.
  refine {| dram_ready := hmc_ready |}.
  - intros n s a w _ _. by eexists.
  - intros n s a w Hs Ha Hacc. injection Hacc as Hacc. destruct (HMC_add_ok n s a w Hs Ha Hacc) as (s' & E & Hs').
    exists s'. split; [|done]. simpl. unfold hmc_add. by rewrite E.
  - intros n s Hn Hs. destruct (HMC_ClockTick_ok n s Hn Hs) as (s' & d & E & Hs').
    eexists _, _. split; [|exact Hs']. simpl. unfold hmc_tick. by rewrite E.
Defined.

(** ** A new system *)

(** A configuration with which a cube works for [n] cycles. *)
Record hmc_runnable (n : Z) (config : Config) : Prop := {
  hr_vaults : runnable config;
  hr_epoch : u64 (epoch_period config) <> 0;
  hr_block : block_size config ∈ [0; 32; 64; 128; 256];
  hr_links : 0 < num_links config;
  hr_cycles : forall d p, SetClockRatio config = Ok (d, p) -> 0 < p /\ 1 + 2 * (800 / p + 2) * n < 2 ^ 31;
  hr_n : 0 <= n < 2 ^ 50
}.

Lemma SetClockRatio_inv config d p : SetClockRatio config = Ok (d, p) -> d = 800 /\ p <= 800.
Proof.
  unfold SetClockRatio. intros H. apply bind_ok in H as (x & _ & H). apply bind_ok in H as (y & _ & H).
  case_decide; [done|]. injection H as <- <-. case_decide; lia.
Qed.

Lemma concat_replicate_nil {A} n : concat (replicate n ([] : list A)) = [].
Proof. by induction n. Qed.

Lemma ages_new {A} B n : 0 <= B -> Forall2 (age_ok (P := A) B) (replicate n []) (replicate n 0).
Proof. intros HB. apply Forall2_replicate. split; [lia|]. split; [lia|done]. Qed.

Lemma HMC_new_ok n config s : hmc_runnable n config -> HMC_new config = Ok s -> hmc_ready n s /\ front_ok s /\ hmc_pending s = [].
Proof.
  intros [Hrun Hep Hbl Hln Hcy Hn] H. unfold HMC_new in H. destruct (negb _); [done|].
  apply bind_ok in H as ([d p] & Er & H). destruct (Hcy _ _ Er) as [Hp HB]. destruct (SetClockRatio_inv _ _ _ Er) as [-> Hp'].
  case_decide as Hch; [done|]. apply bind_ok in H as (cs & Ec & H). case_decide; [done|]. injection H as <-.
  destruct (channels_new_ok config cs Hrun Hep ltac:(lia) Ec) as [Hb Hpend].
  lazymatch goal with |- hmc_ready _ ?s /\ _ => assert (Hf : front_ok s) end.
  { split_and!; simpl; try lia; apply vsize_replicate; lia. }
  split; [|split; [done|]]; [|unfold hmc_pending, resps; cbn [quad_resp_queues_ link_resp_queues_ resp_lookup_table_]; by rewrite !concat_replicate_nil].
  exists 1. split; [|split; [unfold clock_ok; simpl; split_and!; lia|unfold age_rate; simpl; exact HB]].
  split; try done; simpl.
  - by rewrite !vsize_replicate by lia.
  - by apply ages_new.
  - by apply (ages_new 1 4).
  - unfold reqs. simpl. by rewrite concat_replicate_nil.
  - unfold resps. simpl. by rewrite concat_replicate_nil.
  - unfold reqs. simpl. by rewrite Hpend, concat_replicate_nil.
  - apply (jedec_ok_weaken (2 ^ 63)); [lia|done].
  - intros w. unfold block_request. set_unfold. destruct Hbl as [->|[->|[->|[->|[->|[]]]]]]; by eexists.
Qed.

(** ** Runs *)
Definition hmc_log : Type := HMCMemorySystem * list (Z * bool) * list (Z * bool).

Definition hmc_step (e : sys_event) (l : hmc_log) : outcome hmc_log :=
  let '(s, accepted, returned) := l in
  match e with
  | SysTick => r ← HMC_ClockTick s; Ok (r.1, accepted, returned ++ r.2)
  | SysOffer a w =>
      if HMC_WillAcceptTransaction s a w then
        r ← HMC_AddTransaction s a w; Ok (r.2, if (r.1 : bool) then accepted ++ [(a, w)] else accepted, returned)
      else Ok l
  end.

Definition hmc_run (evs : list sys_event) (l : hmc_log) : outcome hmc_log := for_each hmc_step evs l.

Definition hmc_event_ok (e : sys_event) : Prop := match e with SysOffer a _ => 0 <= a < 2 ^ 64 | SysTick => True end.

Definition hmc_run_inv (n : Z) (l : hmc_log) : Prop :=
  let '(s, accepted, returned) := l in hmc_ready n s /\ front_ok s /\ accepted ≡ₚ returned ++ hmc_pending s.

Lemma hmc_step_ok n e l : 0 < n -> hmc_event_ok e -> hmc_run_inv n l -> exists l', hmc_step e l = Ok l' /\ hmc_run_inv (n - 1) l'.
Proof.
  intros Hn He. destruct l as [[s acc] ret]. intros (Hs & Hf & Hbal). destruct e as [|a w]; cbn.
  - destruct (HMC_ClockTick_ok n s Hn Hs) as (s' & d & E & Hs'). rewrite E. cbn [mbind outcome_bind]. eexists. split; [reflexivity|].
    apply HMC_tick_conserves in E as [E1 E2]. split; [done|]. split; [by eapply front_of_ok|]. simpl. by rewrite Hbal, <- app_assoc, E2.
  - destruct (HMC_WillAcceptTransaction s a w) eqn:Ea.
    + destruct (HMC_add_ok n s a w Hs He Ea) as (s' & E & Hs'). rewrite E. cbn [mbind outcome_bind]. eexists. split; [reflexivity|].
      destruct (HMC_add_conserves _ _ _ _ _ Hf Ea E) as (_ & Hf' & Hp). simpl. split; [eapply hmc_ready_weaken; [|exact Hs']; lia|].
      split; [done|]. rewrite Hp, Hbal. solve_Permutation.
    + eexists. split; [reflexivity|]. split; [eapply hmc_ready_weaken; [|exact Hs]; lia|done].
Qed.

Lemma hmc_run_ok evs : forall n l,
  Forall hmc_event_ok evs -> Z.of_nat (length evs) <= n -> hmc_run_inv n l ->
  exists l', hmc_run evs l = Ok l' /\ hmc_run_inv (n - Z.of_nat (length evs)) l'.
Proof.
  induction evs as [|e evs IH]; intros n l He Hn Hl; unfold hmc_run in *; cbn [for_each length] in *.
  - exists l. split; [done|]. by replace (n - Z.of_nat 0) with n by lia.
  - apply Forall_cons in He as [He1 He]. destruct (hmc_step_ok n e l ltac:(lia) He1 Hl) as (l1 & E & H1). rewrite E. cbn [mbind outcome_bind].
    destruct (IH (n - 1) l1 He ltac:(lia) H1) as (l' & E' & H'). exists l'. split; [done|].
    by replace (n - Z.of_nat (S (length evs))) with (n - 1 - Z.of_nat (length evs)) by lia.
Qed.

(** C33. The hybrid memory cube never fails and loses nothing: every sequence of DRAM
    cycles and offers runs through, and the accepted transactions are exactly those
    that have been called back and those with a response still to be delivered.
    In every state the lookup table holds one response for each request on its way
    to a vault and each transaction inside the vaults, so that no completion of a
    vault misses its response. *)
Theorem hmc_system_safe n config s0 evs :
  hmc_runnable n config -> HMC_new config = Ok s0 -> Forall hmc_event_ok evs -> Z.of_nat (length evs) <= n ->
  exists s accepted returned,
    hmc_run evs (s0, [], []) = Ok (s, accepted, returned) /\ accepted ≡ₚ returned ++ hmc_pending s /\
    (resp_lookup_table_ s).*1 ≡ₚ (q_mem_operand <$> reqs s) ++ (system_pending (h_base s)).*1.
Proof.
  intros Hc Hnew He Hn. destruct (HMC_new_ok n config s0 Hc Hnew) as (H1 & H2 & H3).
  destruct (hmc_run_ok evs n (s0, [], []) He Hn) as ([[s acc] ret] & E & (B & Hok & _) & _ & Hbal).
  { split; [done|]. split; [done|]. by rewrite H3. }
  exists s, acc, ret. split; [done|]. split; [done|]. by destruct Hok.
Qed.

(** ** Witness: configs/HMC_2GB_4Lx16.ini, two million cycles *)
Lemma hmc_loads : Config_new hmc_reader = Ok hmc_config.
Proof. vm_compute. reflexivity. Qed.

Lemma hmc_config_runnable : hmc_runnable 2000000 hmc_config.
Proof.
  split.
  - split; [exact (Config_new_mapped _ _ hmc_loads)|split; cbn; lia|done|done| |done].
    intros r H. vm_compute in H. injection H as <-. by vm_compute.
  - vm_compute. discriminate.
  - right. right. left.
  - reflexivity.
  - intros d p H. vm_compute in H. injection H as <- <-. split; reflexivity.
  - split; [discriminate|reflexivity].
Qed.

Lemma hmc_new : exists s0, HMC_new hmc_config = Ok s0.
Proof.
  assert (H : match HMC_new hmc_config with Ok _ => true | Fault _ => false end = true) by (vm_compute; reflexivity).
  destruct (HMC_new hmc_config) as [s0|]; [by exists s0|discriminate H].
Qed.

Definition demo_hmc_events : list sys_event :=
  [SysOffer 0 false; SysOffer 64 false; SysOffer 4096 true] ++ replicate 100 SysTick.

Lemma hmc_system_safe_witness :
  exists s0 s accepted returned, HMC_new hmc_config = Ok s0 /\
    hmc_run demo_hmc_events (s0, [], []) = Ok (s, accepted, returned) /\ accepted ≡ₚ returned ++ hmc_pending s.
Proof.
  destruct hmc_new as (s0 & E).
  destruct (hmc_system_safe 2000000 hmc_config s0 demo_hmc_events hmc_config_runnable E) as (s & acc & ret & H1 & H2 & _).
  - unfold demo_hmc_events. repeat (apply Forall_cons; split; [first [exact I | split; [discriminate|reflexivity]]|]). apply Forall_nil. exact I.
  - vm_compute. discriminate.
  - exists s0, s, acc, ret. split; [exact E|]. split; [exact H1|exact H2].
Defined.

(** In this run all three transactions come back. *)
Example demo_hmc_run :
  (r ← (s0 ← HMC_new hmc_config; hmc_run demo_hmc_events (s0, [], [])); Ok (r.2, hmc_pending r.1.1)) =
  Ok ([(4096, true); (64, false); (0, false)], []).
Proof. vm_compute. reflexivity. Qed.

