(* ===== verification/MemorySystem.v ===== *)
(** * The memory system (DRAMsim3/src/memory_system.cc)

    [MemorySystem] loads its configuration file and forwards every call to a JEDEC
    system or to a hybrid memory cube.  It is the memory the accelerator uses: an
    instance of [DramBackend] whose laws follow from those of the two systems. *)

From stdpp Require Import base tactics list list_numbers numbers strings gmap.
From Stdlib Require Import ZArith Lia.
From S2P Require Import Prelude IniReader Inputs IniParser DramConfig ControllerSafety DramSystem DramInterface Common Hmc HmcSafety.

(** The constructor of [Config]: only a file that cannot be opened is an error. *)
Definition Config_load (file : option string) : outcome Config :=
  let '(error, reader) := INIReader_new file in
  if decide (error < 0) then Fault AbruptExit else Config_new reader.

(** [dram_system_], a pointer to one of the two classes. *)
Inductive MemorySystem := JedecSystem (s : JedecDRAMSystem) | HMCSystem (s : HMCMemorySystem).

Definition MemorySystem_new (config : Config) : outcome MemorySystem :=
  if IsHMC (protocol config) then s ← HMC_new config; Ok (HMCSystem s)
  else s ← Jedec_new config; Ok (JedecSystem s).

Definition GetMemorySystem (fs : string -> option string) (config_file : string) : outcome MemorySystem :=
  config ← Config_load (fs config_file);
  MemorySystem_new config.

Definition config_of (m : MemorySystem) : Config :=
  match m with JedecSystem s => j_config s | HMCSystem s => j_config (h_base s) end.

Definition GetBusBits (m : MemorySystem) : Z := bus_width (config_of m).
Definition GetBurstLength (m : MemorySystem) : Z := BL (config_of m).
Definition GetQueueSize (m : MemorySystem) : Z := trans_queue_size (config_of m).

Definition MS_ClockTick (m : MemorySystem) : outcome (MemorySystem * list (Z * bool)) :=
  match m with
  | JedecSystem s => '(s, done) ← Jedec_ClockTick s; Ok (JedecSystem s, done)
  | HMCSystem s => '(s, done) ← HMC_ClockTick s; Ok (HMCSystem s, done)
  end.

Definition MS_WillAcceptTransaction (m : MemorySystem) (hex_addr : Z) (is_write : bool) : outcome bool :=
  match m with
  | JedecSystem s => Jedec_WillAcceptTransaction s hex_addr is_write
  | HMCSystem s => Ok (HMC_WillAcceptTransaction s hex_addr is_write)
  end.

Definition MS_AddTransaction (m : MemorySystem) (hex_addr : Z) (is_write : bool) : outcome (bool * MemorySystem) :=
  match m with
  | JedecSystem s => '(ok, s) ← Jedec_AddTransaction s hex_addr is_write; Ok (ok, JedecSystem s)
  | HMCSystem s => '(ok, s) ← HMC_AddTransaction s hex_addr is_write; Ok (ok, HMCSystem s)
  end.

Definition MS_ResetStats (m : MemorySystem) : outcome MemorySystem :=
  match m with
  | JedecSystem s => s ← Base_ResetStats s; Ok (JedecSystem s)
  | HMCSystem s => b ← Base_ResetStats (h_base s); Ok (HMCSystem (s <| h_base := b |>))
  end.

(** ** The interface of the accelerator *)
#[export] Instance memory_backend : DramBackend MemorySystem := {|
  dram_will_accept := MS_WillAcceptTransaction;
  dram_add := fun m a w => r ← MS_AddTransaction m a w; Ok r.2;
  dram_tick := fun m => r ← MS_ClockTick m; Ok (r.1, fmap (M := list) to_trans r.2)
|}.

(** A call of the front is a call of the system behind it. *)
Lemma ms_add_jedec s a w m : dram_add (JedecSystem s) a w = Ok m -> exists s', dram_add s a w = Ok s' /\ m = JedecSystem s'.
Proof.
  simpl. intros H. apply bind_ok in H as ([ok m1] & E & H). apply bind_ok in E as ([ok' s'] & E & E'). injection E' as <- <-.
  injection H as <-. exists s'. unfold jedec_add. by rewrite E.
Qed.

Lemma ms_add_hmc s a w m : dram_add (HMCSystem s) a w = Ok m -> exists s', dram_add s a w = Ok s' /\ m = HMCSystem s'.
Proof.
  simpl. intros H. apply bind_ok in H as ([ok m1] & E & H). apply bind_ok in E as ([ok' s'] & E & E'). injection E' as <- <-.
  injection H as <-. exists s'. unfold hmc_add. by rewrite E.
Qed.

Lemma ms_tick_jedec s m done : dram_tick (JedecSystem s) = Ok (m, done) -> exists s', dram_tick s = Ok (s', done) /\ m = JedecSystem s'.
Proof.
  simpl. intros H. apply bind_ok in H as ([m1 d] & E & H). apply bind_ok in E as ([s' d'] & E & E'). injection E' as <- <-.
  injection H as <- <-. exists s'. unfold jedec_tick. by rewrite E.
Qed.

Lemma ms_tick_hmc s m done : dram_tick (HMCSystem s) = Ok (m, done) -> exists s', dram_tick s = Ok (s', done) /\ m = HMCSystem s'.
Proof.
  simpl. intros H. apply bind_ok in H as ([m1 d] & E & H). apply bind_ok in E as ([s' d'] & E & E'). injection E' as <- <-.
  injection H as <- <-. exists s'. unfold hmc_tick. by rewrite E.
Qed.

#[export] Instance memory_laws : DramLaws MemorySystem.
Proof.
  refine {| dram_inv := fun m => match m with JedecSystem s => dram_inv s | HMCSystem s => dram_inv s end;
            dram_pending := fun m => match m with JedecSystem s => dram_pending s | HMCSystem s => dram_pending s end |}.
  - intros [s|s] a w m' Hi Ha Hacc H.
    + apply ms_add_jedec in H as (s' & E & ->). by eapply dram_add_law.
    + apply ms_add_hmc in H as (s' & E & ->). by eapply dram_add_law.
  - intros [s|s] m' done Hi H.
    + apply ms_tick_jedec in H as (s' & E & ->). by eapply dram_tick_law.
    + apply ms_tick_hmc in H as (s' & E & ->). by eapply dram_tick_law.
Defined.

#[export] Instance memory_total : DramTotal MemorySystem.
Proof.
  refine {| dram_ready := fun n m => match m with JedecSystem s => dram_ready n s | HMCSystem s => dram_ready n s end |}.
  - intros n [s|s] a w Hs Ha; [exact (dram_accept_total n s a w Hs Ha)|by eexists].
  - intros n [s|s] a w Hs Ha Hacc.
    + destruct (dram_add_total n s a w Hs Ha Hacc) as (s' & E & Hs'). simpl in E. unfold jedec_add in E. apply bind_ok in E as ([ok s1] & E & H).
      exists (JedecSystem s'). split; [|done]. simpl. rewrite E. cbn [mbind outcome_bind]. by injection H as <-.
    + destruct (dram_add_total n s a w Hs Ha Hacc) as (s' & E & Hs'). simpl in E. unfold hmc_add in E. apply bind_ok in E as ([ok s1] & E & H).
      exists (HMCSystem s'). split; [|done]. simpl. rewrite E. cbn [mbind outcome_bind]. by injection H as <-.
  - intros n [s|s] Hn Hs.
    + destruct (dram_tick_total n s Hn Hs) as (s' & done & E & Hs'). simpl in E. unfold jedec_tick in E. apply bind_ok in E as ([s1 d] & E & H).
      exists (JedecSystem s'), done. split; [|done]. simpl. rewrite E. cbn [mbind outcome_bind]. by injection H as <- <-.
    + destruct (dram_tick_total n s Hn Hs) as (s' & done & E & Hs'). simpl in E. unfold hmc_tick in E. apply bind_ok in E as ([s1 d] & E & H).
      exists (HMCSystem s'), done. split; [|done]. simpl. rewrite E. cbn [mbind outcome_bind]. by injection H as <- <-.
Defined.

(** A configuration with which the memory works for [n] cycles. *)
Definition memory_runnable (n : Z) (config : Config) : Prop :=
  if IsHMC (protocol config) then hmc_runnable n config
  else runnable config /\ u64 (epoch_period config) <> 0 /\ 0 <= n <= 2 ^ 63.

Lemma MemorySystem_new_ok n config m :
  memory_runnable n config -> MemorySystem_new config = Ok m -> dram_inv m /\ dram_pending m = [] /\ dram_ready n m.
Proof.
  unfold memory_runnable, MemorySystem_new. destruct (IsHMC _).
  - intros Hr H. apply bind_ok in H as (s & E & H). injection H as <-.
    destruct (HMC_new_ok n config s Hr E) as (H1 & H2 & H3). split; [done|]. split; [|done]. simpl. by rewrite H3.
  - intros (Hr & He & Hn) H. apply bind_ok in H as (s & E & H). injection H as <-.
    destruct (Jedec_new_ok config s Hr He E) as (H1 & H2 & _). split; [done|]. split; [simpl; by rewrite H2|].
    by eapply jedec_ok_weaken.
Qed.

(** ** configs/HBM2_8Gb_x128.ini, the file *)
Definition hbm2_file : string :=
"[dram_structure]
protocol = HBM
bankgroups = 4
banks_per_group = 4
rows = 32768
columns = 64
device_width = 128
BL = 4
num_dies = 4

[timing]
tCK = 1
CL = 14
CWL = 4
tRCDRD = 14
tRCDWR = 14
tRP = 14
tRAS = 34
tRFC = 260
tREFI = 3900
tREFIb = 128
tRPRE = 1
tWPRE = 1
tRRD_S = 4
tRRD_L = 6
tWTR_S = 6
tWTR_L = 8
tFAW = 30
tWR = 16
tCCD_S = 1
tCCD_L = 2
tXS = 268
tCKE = 8
tCKSRE = 10
tXP = 8
tRTP_L = 6
tRTP_S = 4

[power]
VDD = 1.2
IDD0 = 65
IDD2P = 28
IDD2N = 40
IDD3P = 40
IDD3N = 55
IDD4W = 500
IDD4R = 390
IDD5AB = 250
IDD6x = 31

[system]
channel_size = 1024
channels = 8
bus_width = 128
address_mapping = rorabgbachco
queue_structure = PER_BANK
row_buf_policy = OPEN_PAGE
cmd_queue_size = 8
trans_queue_size = 32
unified_queue = False

[other]
epoch_period = 1000000
output_level = 1
".

Lemma hbm2_file_loads : Config_load (Some hbm2_file) = Ok hbm2_config.
Proof. vm_compute. reflexivity. Qed.
