(* ===== verification/Cpu.v ===== *)
(** * DRAMsim3: the stand-alone drivers (DRAMsim3/src/cpu.cc, cpu.h, main.cc)

    The three traffic generators of [dramsim3main]: random requests, a stream of
    array additions and the replay of a trace file, each driving a [MemorySystem].
    The random numbers are those of [std::mt19937_64]; the trace is read with the
    formatted input of [std::istream].  A cycle returns the transactions it adds. *)

From stdpp Require Import base tactics list list_numbers numbers strings gmap.
From Stdlib Require Import ZArith Lia Ascii.
From S2P Require Import Prelude DramCommon IniReader Inputs DramConfig ControllerSafety DramSystem DramInterface Common Hmc HmcSafety MemorySystem.

(** ** [std::mt19937_64]: the last 312 words of the sequence, oldest first *)
Definition mt19937_64 : Type := list Z.

Fixpoint mt_seed (n : nat) (i x : Z) : list Z :=
  match n with
  | O => []
  | S n => x :: mt_seed n (i + 1) (u64 (6364136223846793005 * Z.lxor x (Z.shiftr x 62) + (i + 1)))
  end.

(** The default seed is 5489. *)
Definition mt_new : mt19937_64 := mt_seed 312 0 5489.

Definition mt_temper (x : Z) : Z :=
  let x := Z.lxor x (Z.land (Z.shiftr x 29) 0x5555555555555555) in
  let x := Z.lxor x (Z.land (u64 (Z.shiftl x 17)) 0x71d67fffeda60000) in
  let x := Z.lxor x (Z.land (u64 (Z.shiftl x 37)) 0xfff7eee000000000) in
  Z.lxor x (Z.shiftr x 43).

(** [gen()] *)
Definition mt_gen (g : mt19937_64) : Z * mt19937_64 :=
  let x0 := nth 0 g 0 in
  let x1 := nth 1 g 0 in
  let xm := nth 156 g 0 in
  let y := Z.lor (Z.land x0 (u64_max - 0x7fffffff)) (Z.land x1 0x7fffffff) in
  let x := Z.lxor xm (Z.lxor (Z.shiftr y 1) (if Z.testbit y 0 then 0xb5026f5aa96619e9 else 0)) in
  (u64 (mt_temper x), tail g ++ [x]).

(** ** The drivers *)

(** [if (WillAcceptTransaction(a, w)) AddTransaction(a, w)]: whether it was added. *)
Definition offer (a : Z) (w : bool) (m : MemorySystem) : outcome (bool * MemorySystem) :=
  ok ← MS_WillAcceptTransaction m a w;
  if (ok : bool) then '(_, m) ← MS_AddTransaction m a w; Ok (true, m) else Ok (false, m).

Record RandomCPU := mkRandomCPU {
  rc_mem : MemorySystem;
  rc_clk : Z;
  last_addr_ : Z;
  last_write_ : bool;
  rc_gen : mt19937_64;
  rc_get_next : bool
}.

Definition RandomCPU_new (m : MemorySystem) : RandomCPU := mkRandomCPU m 0 0 false mt_new true.

Definition RandomCPU_ClockTick (c : RandomCPU) : outcome (RandomCPU * list (Z * bool)) :=
  '(m, _) ← MS_ClockTick (rc_mem c);
  let '(a, w, g) :=
    if rc_get_next c then
      let '(a, g) := mt_gen (rc_gen c) in
      let '(r, g) := mt_gen g in (a, bool_decide (r mod 3 = 0), g)
    else (last_addr_ c, last_write_ c, rc_gen c) in
  '(ok, m) ← offer a w m;
  Ok (mkRandomCPU m (u64 (rc_clk c + 1)) a w g ok, if (ok : bool) then [(a, w)] else []).

Record StreamCPU := mkStreamCPU {
  sc_mem : MemorySystem;
  sc_clk : Z;
  addr_a_ : Z;
  addr_b_ : Z;
  addr_c_ : Z;
  offset_ : Z;
  sc_gen : mt19937_64;
  inserted_a_ : bool;
  inserted_b_ : bool;
  inserted_c_ : bool
}.

Definition array_size_ : Z := Z.shiftl 2 20.
Definition stride_ : Z := 64.

Definition StreamCPU_new (m : MemorySystem) : StreamCPU := mkStreamCPU m 0 0 0 0 0 mt_new false false false.

(** One of the three insertions. *)
Definition insert_once (inserted : bool) (a : Z) (w : bool) (m : MemorySystem) : outcome (bool * MemorySystem * list (Z * bool)) :=
  if inserted then Ok (true, m, [])
  else '(ok, m) ← offer a w m; Ok (ok, m, if (ok : bool) then [(a, w)] else []).

Definition StreamCPU_ClockTick (c : StreamCPU) : outcome (StreamCPU * list (Z * bool)) :=
  '(m, _) ← MS_ClockTick (sc_mem c);
  let '(a, b, d, off, g) :=
    if decide (offset_ c >= array_size_ \/ sc_clk c = 0) then
      let '(a, g) := mt_gen (sc_gen c) in
      let '(b, g) := mt_gen g in
      let '(d, g) := mt_gen g in (a, b, d, 0, g)
    else (addr_a_ c, addr_b_ c, addr_c_ c, offset_ c, sc_gen c) in
  '(ia, m, la) ← insert_once (inserted_a_ c) (u64 (a + off)) false m;
  '(ib, m, lb) ← insert_once (inserted_b_ c) (u64 (b + off)) false m;
  '(ic, m, lc) ← insert_once (inserted_c_ c) (u64 (d + off)) true m;
  let all := (ia : bool) && (ib : bool) && (ic : bool) in
  let clk := u64 (sc_clk c + 1) in
  let added := la ++ lb ++ lc in
  if all then Ok (mkStreamCPU m clk a b d (u64 (off + stride_)) g false false false, added)
  else Ok (mkStreamCPU m clk a b d off g ia ib ic, added).

(** ** Formatted input *)
Record fstream := mkFstream { f_rest : string; f_eof : bool; f_fail : bool }.

(** The sentry: skips white space; at the end of the file the stream fails. *)
Definition sentry (st : fstream) : option fstream * fstream :=
  if f_eof st || f_fail st then (None, mkFstream (f_rest st) (f_eof st) true)
  else
    match skip_space (f_rest st) with
    | EmptyString => (None, mkFstream EmptyString true true)
    | s => (Some (mkFstream s false false), st)
    end.

(** Digits of the base, the number they spell and the rest. *)
Fixpoint take_digits (base : Z) (s : string) (n : Z) (used : nat) : nat * Z * string :=
  match s with
  | EmptyString => (used, n, EmptyString)
  | String c t =>
      match digit_in base c with
      | Some d => take_digits base t (n * base + d) (S used)
      | None => (used, n, s)
      end
  end.

Definition hex_prefix (base : Z) (s : string) : string :=
  match s with
  | String "0" (String x t) => if bool_decide (base = 16 /\ (x = "x"%char \/ x = "X"%char)) then t else s
  | _ => s
  end.

Definition take_sign (s : string) : bool * string :=
  match s with
  | String "-" t => (true, t)
  | String "+" t => (false, t)
  | _ => (false, s)
  end.

Definition at_rest (s : string) (fail : bool) : fstream := mkFstream s (bool_decide (s = EmptyString)) fail.

(** [is >> value] for [uint64_t]: the new value, if it is changed, and the stream. *)
Definition read_u64 (base : Z) (st : fstream) : option Z * fstream :=
  match sentry st with
  | (None, st) => (None, st)
  | (Some st, _) =>
      let '(neg, s) := take_sign (f_rest st) in
      let '(used, n, s) := take_digits base (hex_prefix base s) 0 0 in
      if decide (used = 0%nat) then (Some 0, at_rest s true)
      else if decide (n < 2 ^ 64) then (Some (if (neg : bool) then u64 (- n) else n), at_rest s false)
      else (Some u64_max, at_rest s true)
  end.

(** The characters up to white space. *)
Fixpoint take_word (s : string) : string * string :=
  match s with
  | EmptyString => (EmptyString, EmptyString)
  | String c t => if is_space c then (EmptyString, s) else let '(w, r) := take_word t in (String c w, r)
  end.

(** [is >> word] into an empty string. *)
Definition read_word (st : fstream) : string * fstream :=
  match sentry st with
  | (None, st) => (EmptyString, st)
  | (Some st, _) => let '(w, s) := take_word (f_rest st) in (w, at_rest s false)
  end.

Definition write_types : list string := ["WRITE"; "write"; "P_MEM_WR"; "BOFF"]%string.

(** [is >> trans]; [None] is a transaction whose members have not been set. *)
Definition read_trans (trans : option DTrans) (st : fstream) : option DTrans * fstream :=
  let '(a, st) := read_u64 16 st in
  let '(op, st) := read_word st in
  let '(cy, st) := read_u64 10 st in
  let w := bool_decide (op ∈ write_types) in
  (match trans, a, cy with
   | Some t, _, _ => Some (mkDTrans (default (dt_addr t) a) (default (dt_added t) cy) (dt_complete t) w)
   | None, Some a, Some cy => Some (mkDTrans a cy 0 w)
   | None, _, _ => None
   end, st).

Record TraceBasedCPU := mkTraceCPU {
  tc_mem : MemorySystem;
  tc_clk : Z;
  trace_file_ : fstream;
  trans_ : option DTrans;
  tc_get_next : bool
}.

Definition TraceBasedCPU_new (m : MemorySystem) (trace_file : option string) : outcome TraceBasedCPU :=
  match trace_file with
  | None => Fault AbruptExit
  | Some s => Ok (mkTraceCPU m 0 (mkFstream s false false) None true)
  end.

Definition TraceBasedCPU_ClockTick (c : TraceBasedCPU) : outcome (TraceBasedCPU * list (Z * bool)) :=
  '(m, _) ← MS_ClockTick (tc_mem c);
  let clk := u64 (tc_clk c + 1) in
  if f_eof (trace_file_ c) then Ok (mkTraceCPU m clk (trace_file_ c) (trans_ c) (tc_get_next c), [])
  else
    let '(tr, st) := if tc_get_next c then read_trans (trans_ c) (trace_file_ c) else (trans_ c, trace_file_ c) in
    match tr with
    | None => Fault Undefined
    | Some t =>
        if decide (dt_added t <= tc_clk c) then
          '(ok, m) ← offer (dt_addr t) (dt_is_write t) m;
          Ok (mkTraceCPU m clk st tr ok, if (ok : bool) then [(dt_addr t, dt_is_write t)] else [])
        else Ok (mkTraceCPU m clk st tr false, [])
    end.

(** [for (clk = 0; clk < cycles; clk++) cpu->ClockTick()] with all that is added. *)
Fixpoint run_cpu {C : Type} (tick : C -> outcome (C * list (Z * bool))) (cycles : nat) (c : C) : outcome (C * list (Z * bool)) :=
  match cycles with
  | O => Ok (c, [])
  | S cycles => '(c, l) ← tick c; '(c, l') ← run_cpu tick cycles c; Ok (c, l ++ l')
  end.

(** [main] behind the parser of its arguments: the transactions added in [cycles]
    cycles.  A trace file takes precedence over the kind of stream. *)
Definition dramsim_main (fs : string -> option string) (config_file trace_file stream_type : string) (cycles : nat)
    : outcome (list (Z * bool)) :=
  if decide (config_file = EmptyString) then Fault ExitFailure
  else
    m ← GetMemorySystem fs config_file;
    if decide (trace_file <> EmptyString) then
      c ← TraceBasedCPU_new m (fs trace_file);
      r ← run_cpu TraceBasedCPU_ClockTick cycles c; Ok r.2
    else if decide (stream_type = "stream"%string \/ stream_type = "s"%string) then
      r ← run_cpu StreamCPU_ClockTick cycles (StreamCPU_new m); Ok r.2
    else r ← run_cpu RandomCPU_ClockTick cycles (RandomCPU_new m); Ok r.2.

(** The value of the 10000th call that the C++ standard requires. *)
Example mt_10000 : (mt_gen (Nat.iter 9999 (fun g => (mt_gen g).2) mt_new)).1 = 9981545732273789042.
Proof. vm_compute. reflexivity. Qed.

(** ** The drivers never fail *)
Lemma offer_ok n m a w : dram_ready n m -> 0 <= a < 2 ^ 64 -> exists ok m', offer a w m = Ok (ok, m') /\ dram_ready n m'.
Proof.
  intros Hm Ha. unfold offer. destruct (dram_accept_total n m a w Hm Ha) as (ok & E). simpl in E. rewrite E. cbn [mbind outcome_bind].
  destruct ok; [|by exists false, m]. destruct (dram_add_total n m a w Hm Ha E) as (m' & E' & Hm'). simpl in E'.
  apply bind_ok in E' as ([ok m1] & E' & H). injection H as <-. rewrite E'. by exists true, m1.
Qed.

Lemma tick_ready n m : 0 < n -> dram_ready n m -> exists m' done, MS_ClockTick m = Ok (m', done) /\ dram_ready (n - 1) m'.
Proof.
  intros Hn Hm. destruct (dram_tick_total n m Hn Hm) as (m' & d & E & Hm'). simpl in E. apply bind_ok in E as ([m1 d1] & E & H).
  injection H as <- _. by exists m1, d1.
Qed.

Lemma mt_gen_range g : 0 <= (mt_gen g).1 < 2 ^ 64.
Proof. apply u64_range. Qed.

Lemma random_tick_ok n c : 0 < n -> dram_ready n (rc_mem c) -> 0 <= last_addr_ c < 2 ^ 64 ->
  exists c' l, RandomCPU_ClockTick c = Ok (c', l) /\ dram_ready (n - 1) (rc_mem c') /\ 0 <= last_addr_ c' < 2 ^ 64.
Proof.
  intros Hn Hm Ha. unfold RandomCPU_ClockTick. destruct (tick_ready n _ Hn Hm) as (m & d & E & Hm'). rewrite E. cbn [mbind outcome_bind].
  pose proof (mt_gen_range (rc_gen c)) as Hg. destruct (mt_gen (rc_gen c)) as [a g]. destruct (mt_gen g) as [r g'].
  assert (Hoff : forall x w, 0 <= x < 2 ^ 64 -> exists ok m', offer x w m = Ok (ok, m') /\ dram_ready (n - 1) m') by (intros; by apply offer_ok).
  destruct (rc_get_next c).
  - destruct (Hoff a (bool_decide (r mod 3 = 0)) Hg) as (ok & m' & E' & Hr). rewrite E'. by eexists _, _.
  - destruct (Hoff (last_addr_ c) (last_write_ c) Ha) as (ok & m' & E' & Hr). rewrite E'. by eexists _, _.
Qed.

Lemma insert_once_ok n ins m a w : dram_ready n m -> exists ok m' l, insert_once ins (u64 a) w m = Ok (ok, m', l) /\ dram_ready n m'.
Proof.
  intros Hm. unfold insert_once. destruct ins; [by eexists _, _, _|].
  destruct (offer_ok n m (u64 a) w Hm (u64_range a)) as (ok & m' & E & Hm'). rewrite E. by eexists _, _, _.
Qed.

Lemma stream_tick_ok n c : 0 < n -> dram_ready n (sc_mem c) ->
  exists c' l, StreamCPU_ClockTick c = Ok (c', l) /\ dram_ready (n - 1) (sc_mem c').
Proof.
  intros Hn Hm. unfold StreamCPU_ClockTick. destruct (tick_ready n _ Hn Hm) as (m & d & E & Hm'). rewrite E. cbn [mbind outcome_bind].
  destruct (mt_gen (sc_gen c)) as [a1 g1]. destruct (mt_gen g1) as [a2 g2]. destruct (mt_gen g2) as [a3 g3].
  destruct (if decide _ then (a1, a2, a3, 0, g3) else _) as [[[[a b] x] off] g].
  destruct (insert_once_ok _ (inserted_a_ c) m (a + off) false Hm') as (ia & m1 & la & E1 & H1). rewrite E1. cbn [mbind outcome_bind].
  destruct (insert_once_ok _ (inserted_b_ c) m1 (b + off) false H1) as (ib & m2 & lb & E2 & H2). rewrite E2. cbn [mbind outcome_bind].
  destruct (insert_once_ok _ (inserted_c_ c) m2 (x + off) true H2) as (ic & m3 & lc & E3 & H3). rewrite E3. cbn [mbind outcome_bind].
  destruct (_ && _); by eexists _, _.
Qed.

(** A cycle that keeps an invariant of the remaining cycles and of what has been
    added runs on. *)
Lemma run_cpu_ok {C} (tick : C -> outcome (C * list (Z * bool))) (P : Z -> C -> list (Z * bool) -> Prop) :
  (forall n c acc, 0 < n -> P n c acc -> exists c' l, tick c = Ok (c', l) /\ P (n - 1) c' (acc ++ l)) ->
  forall k n c acc, Z.of_nat k <= n -> P n c acc ->
    exists c' l, run_cpu tick k c = Ok (c', l) /\ P (n - Z.of_nat k) c' (acc ++ l).
Proof.
  intros Ht. induction k as [|k IH]; intros n c acc Hn Hc; cbn [run_cpu].
  - exists c, []. split; [done|]. rewrite app_nil_r. by replace (n - Z.of_nat 0) with n by lia.
  - destruct (Ht n c acc ltac:(lia) Hc) as (c1 & l1 & E1 & H1). rewrite E1. cbn [mbind outcome_bind].
    destruct (IH (n - 1) c1 (acc ++ l1) ltac:(lia) H1) as (c2 & l2 & E2 & H2). rewrite E2. cbn [mbind outcome_bind].
    eexists _, _. split; [reflexivity|]. rewrite app_assoc. by replace (n - Z.of_nat (S k)) with (n - 1 - Z.of_nat k) by lia.
Qed.

(** ** Traces *)

(** The number a whole word spells. *)
Definition number (base : Z) (s : string) : option Z :=
  let '(neg, s) := take_sign s in
  match take_digits base (hex_prefix base s) 0 0 with
  | (S _, n, EmptyString) => if decide (n < 2 ^ 64) then Some (if (neg : bool) then u64 (- n) else n) else None
  | _ => None
  end.

(** A word without white space. *)
Fixpoint solid (s : string) : Prop :=
  match s with EmptyString => True | String c t => is_space c = false /\ solid t end.

Lemma digit_not_space base c : is_space c = true -> digit_in base c = None.
Proof.
  unfold is_space, digit_in, digit. intros H%bool_decide_eq_true. repeat (rewrite decide_False by lia). done.
Qed.

Lemma take_digits_app base s c t : forall n u u' v, is_space c = true ->
  take_digits base s n u = (u', v, EmptyString) -> take_digits base (s +:+ String c t) n u = (u', v, String c t).
Proof.
  induction s as [|d s IH]; intros n u u' v Hc H.
  - change (EmptyString +:+ String c t) with (String c t). cbn [take_digits] in *. rewrite digit_not_space by done. by injection H as -> ->.
  - rewrite string_app_cons. cbn [take_digits] in *. destruct (digit_in base d); [by apply IH|done].
Qed.

Lemma hex_prefix_app base s c t : s <> EmptyString -> is_space c = true ->
  hex_prefix base (s +:+ String c t) = hex_prefix base s +:+ String c t.
Proof.
  intros Hs Hc. destruct s as [|d s]; [done|]. rewrite string_app_cons.
  assert (Hx : bool_decide (base = 16 /\ (c = "x"%char \/ c = "X"%char)) = false).
  { apply bool_decide_eq_false. by intros [_ [-> | ->]]. }
  destruct s as [|e s].
  - change (EmptyString +:+ String c t) with (String c t). unfold hex_prefix. rewrite Hx. repeat case_match; done.
  - rewrite string_app_cons. unfold hex_prefix. repeat case_match; rewrite ?string_app_cons; done.
Qed.

Lemma take_sign_app s u : s <> EmptyString ->
  take_sign (s +:+ u) = ((take_sign s).1, (take_sign s).2 +:+ u).
Proof.
  intros Hs. destruct s as [|d s]; [done|]. rewrite string_app_cons. unfold take_sign. repeat case_match; rewrite ?string_app_cons; done.
Qed.

(** Input that begins, behind white space, with the word [s]. *)
Definition next_word (st : fstream) (s rest : string) : Prop :=
  f_eof st = false /\ f_fail st = false /\ s <> EmptyString /\ skip_space (f_rest st) = s +:+ rest.

Lemma sentry_word st s rest : next_word st s rest -> (sentry st).1 = Some (mkFstream (s +:+ rest) false false).
Proof.
  intros (E1 & E2 & Hs & E3). unfold sentry. rewrite E1, E2, E3. cbn [orb]. destruct s as [|c s]; [done|]. by rewrite string_app_cons.
Qed.

Lemma read_u64_word base st s c t v : next_word st s (String c t) -> is_space c = true -> number base s = Some v ->
  read_u64 base st = (Some v, mkFstream (String c t) false false).
Proof.
  intros Hw Hc Hn. pose proof Hw as (_ & _ & Hs & _). apply sentry_word in Hw. unfold read_u64. destruct (sentry st) as [o st']. simpl in Hw. subst o.
  cbn [f_rest]. rewrite take_sign_app by done. unfold number in Hn. destruct (take_sign s) as [neg s1]. cbn [fst snd].
  destruct (take_digits base (hex_prefix base s1) 0 0) as [[u n] r] eqn:E. destruct u as [|u]; [done|]. destruct r; [|done].
  assert (Hs1 : s1 <> EmptyString) by (intros ->; discriminate E).
  rewrite hex_prefix_app, (take_digits_app _ _ _ _ _ _ _ _ Hc E) by done. rewrite decide_False by done.
  destruct (decide (n < 2 ^ 64)); [|done]. injection Hn as <-. done.
Qed.

Lemma take_word_solid s c t : solid s -> is_space c = true -> take_word (s +:+ String c t) = (s, String c t).
Proof.
  intros Hs Hc. induction s as [|d s IH]; [change (EmptyString +:+ String c t) with (String c t); simpl; by rewrite Hc|].
  destruct Hs as [Hd Hs]. rewrite string_app_cons. simpl. by rewrite Hd, IH.
Qed.

Lemma read_word_word st s c t : next_word st s (String c t) -> solid s -> is_space c = true ->
  read_word st = (s, mkFstream (String c t) false false).
Proof.
  intros Hw Hs Hc. apply sentry_word in Hw. unfold read_word. destruct (sentry st) as [o st']. simpl in Hw. subst o. cbn [f_rest].
  by rewrite take_word_solid.
Qed.

(** A line of a trace file: the words for address, operation and cycle. *)
Record trace_line := mkLine { tl_addr : string; tl_op : string; tl_cycle : string }.

Definition line_text (x : trace_line) : string := tl_addr x +:+ String " " (tl_op x +:+ String " " (tl_cycle x +:+ String newline EmptyString)).

Fixpoint trace_text (l : list trace_line) : string :=
  match l with [] => EmptyString | x :: l => line_text x +:+ trace_text l end.

Definition line_write (x : trace_line) : bool := bool_decide (tl_op x ∈ write_types).
Definition line_addr (x : trace_line) : Z := default 0 (number 16 (tl_addr x)).
Definition line_cycle (x : trace_line) : Z := default 0 (number 10 (tl_cycle x)).
Definition line_request (x : trace_line) : Z * bool := (line_addr x, line_write x).

Definition word_ok (s : string) : Prop := s <> EmptyString /\ solid s.

Definition line_ok (x : trace_line) : Prop :=
  word_ok (tl_addr x) /\ word_ok (tl_op x) /\ word_ok (tl_cycle x) /\
  is_Some (number 16 (tl_addr x)) /\ is_Some (number 10 (tl_cycle x)).

Lemma number_range base s v : 0 <= base -> number base s = Some v -> 0 <= v < 2 ^ 64.
Proof.
  intros Hb H. unfold number in H. destruct (take_sign s) as [neg s1].
  destruct (take_digits base (hex_prefix base s1) 0 0) as [[u n] r] eqn:E. destruct u; [done|]. destruct r; [|done].
  destruct (decide (n < 2 ^ 64)); [|done]. injection H as <-. destruct neg; [apply u64_range|].
  assert (Hn : forall s n0 u0 u1 n1 r, 0 <= n0 -> take_digits base s n0 u0 = (u1, n1, r) -> 0 <= n1).
  { induction s0 as [|c s0 IH]; intros n0 u0 u1 n1 r H0 Ht; cbn [take_digits] in Ht; [by injection Ht as _ <- _|].
    destruct (digit_in base c) as [d|] eqn:Ed; [|by injection Ht as _ <- _].
    assert (0 <= d) by (unfold digit_in, digit in Ed; repeat case_decide; simplify_eq; lia). eapply IH; [|exact Ht]. nia. }
  pose proof (Hn _ _ _ _ _ _ (Z.le_refl 0) E). lia.
Qed.

Lemma solid_skip s u : word_ok s -> skip_space (s +:+ u) = s +:+ u.
Proof. intros [Hs Hd]. destruct s as [|c s]; [done|]. rewrite string_app_cons. simpl. destruct Hd as [-> _]. done. Qed.

(** Reading a line, from the start of the file or behind the previous newline. *)
Lemma read_line tr (ws : string) x rest : line_ok x -> ws = EmptyString \/ ws = String newline EmptyString ->
  exists cc, read_trans tr (mkFstream (ws +:+ (line_text x +:+ rest)) false false) =
    (Some (mkDTrans (line_addr x) (line_cycle x) cc (line_write x)), mkFstream (String newline rest) false false).
Proof.
  intros (H1 & H2 & H3 & (a & Ea) & (cy & Ec)) Hws. unfold line_text. rewrite !string_app_assoc, !string_app_cons, !string_app_assoc, !string_app_cons, string_app_assoc, string_app_cons.
  change (EmptyString +:+ rest) with rest. unfold read_trans.
  rewrite (read_u64_word 16 _ (tl_addr x) " " (tl_op x +:+ String " " (tl_cycle x +:+ String newline rest)) a); [|split_and!; try done; [apply H1|]|done|done].
  2: { cbn [f_rest]. destruct Hws as [-> | ->].
       - change (EmptyString +:+ ?u) with u. by apply solid_skip.
       - rewrite string_app_cons. cbn [skip_space]. change (EmptyString +:+ ?u) with u. by apply solid_skip. }
  rewrite (read_word_word _ (tl_op x) " " (tl_cycle x +:+ String newline rest)); [|split_and!; try done; [apply H2|]|apply H2|done].
  2: { cbn [f_rest skip_space]. by apply solid_skip. }
  rewrite (read_u64_word 10 _ (tl_cycle x) newline rest cy); [|split_and!; try done; [apply H3|]|done|done].
  2: { cbn [f_rest skip_space]. by apply solid_skip. }
  unfold line_addr, line_cycle. rewrite Ea, Ec. cbn [default]. destruct tr; by eexists.
Qed.

(** At the end of the file nothing is read, but the operation becomes a read. *)
Lemma read_end t (ws : string) : ws = EmptyString \/ ws = String newline EmptyString ->
  read_trans (Some t) (mkFstream ws false false) = (Some (mkDTrans (dt_addr t) (dt_added t) (dt_complete t) false), mkFstream EmptyString true true).
Proof. intros [-> | ->]; reflexivity. Qed.

Section replay.
Context (l : list trace_line).
Hypothesis Hl : Forall line_ok l.
Hypothesis Hne : l <> [].

Definition gap (ws : string) : Prop := ws = EmptyString \/ ws = String newline EmptyString.

(** Between two lines: [fin] has been added, [todo] is still in the file. *)
Definition between (fin todo : list trace_line) (c : TraceBasedCPU) (acc : list (Z * bool)) : Prop :=
  tc_get_next c = true /\ (exists ws, gap ws /\ trace_file_ c = mkFstream (ws +:+ trace_text todo) false false) /\
  acc = line_request <$> fin /\ (forall x, last fin = Some x -> exists t, trans_ c = Some t /\ dt_addr t = line_addr x).

(** The line [x] has been read and waits for its cycle or for the memory. *)
Definition held (fin : list trace_line) (x : trace_line) (todo : list trace_line) (c : TraceBasedCPU) (acc : list (Z * bool)) : Prop :=
  tc_get_next c = false /\ trace_file_ c = mkFstream (String newline (trace_text todo)) false false /\
  (exists t, trans_ c = Some t /\ dt_addr t = line_addr x /\ dt_is_write t = line_write x) /\ acc = line_request <$> fin.

(** The file is at its end. *)
Definition ended_trace (c : TraceBasedCPU) (acc : list (Z * bool)) : Prop :=
  f_eof (trace_file_ c) = true /\
  (acc = line_request <$> l \/ exists x, last l = Some x /\ acc = (line_request <$> l) ++ [(line_addr x, false)]).

Definition trace_inv (n : Z) (c : TraceBasedCPU) (acc : list (Z * bool)) : Prop :=
  dram_ready n (tc_mem c) /\
  ((exists fin todo, l = fin ++ todo /\ between fin todo c acc) \/
   (exists fin x todo, l = fin ++ x :: todo /\ held fin x todo c acc) \/ ended_trace c acc).

Lemma line_in fin x todo : l = fin ++ x :: todo -> line_ok x /\ 0 <= line_addr x < 2 ^ 64.
Proof.
  intros E. rewrite E in Hl. apply Forall_app in Hl as [_ Hx]. apply Forall_cons in Hx as [Hx _]. split; [done|].
  destruct Hx as (_ & _ & _ & (a & Ea) & _). unfold line_addr. rewrite Ea. by eapply number_range; [|exact Ea].
Qed.

(** A transaction that has been read is added or held. *)
Lemma try_add n m clk fin x todo t acc :
  l = fin ++ x :: todo -> dram_ready n m -> dt_addr t = line_addr x -> dt_is_write t = line_write x -> acc = line_request <$> fin ->
  exists c' d, (if decide (dt_added t <= clk) then
      '(ok, m) ← offer (dt_addr t) (dt_is_write t) m;
      Ok (mkTraceCPU m (u64 (clk + 1)) (mkFstream (String newline (trace_text todo)) false false) (Some t) ok,
          if (ok : bool) then [(dt_addr t, dt_is_write t)] else [])
    else Ok (mkTraceCPU m (u64 (clk + 1)) (mkFstream (String newline (trace_text todo)) false false) (Some t) false, [])) = Ok (c', d) /\
    trace_inv n c' (acc ++ d).
Proof.
  intros E Hm Ea Ew Hacc. destruct (line_in _ _ _ E) as [_ Hr].
  assert (Hheld : forall m', dram_ready n m' -> trace_inv n
      (mkTraceCPU m' (u64 (clk + 1)) (mkFstream (String newline (trace_text todo)) false false) (Some t) false) (acc ++ [])).
  { intros m' Hm'. split; [done|]. right. left. exists fin, x, todo. split; [done|]. rewrite app_nil_r. split_and!; try done. by exists t. }
  case_decide; [|by eexists _, _; split; [reflexivity|]; apply Hheld].
  destruct (offer_ok n m (dt_addr t) (dt_is_write t) Hm) as (ok & m' & Eo & Hm'); [by rewrite Ea|]. rewrite Eo. cbn [mbind outcome_bind].
  eexists _, _. split; [reflexivity|]. destruct ok; [|by apply Hheld]. split; [done|]. left. exists (fin ++ [x]), todo.
  split; [by rewrite <- app_assoc|]. split_and!; [done| | |].
  - exists (String newline EmptyString). split; [by right|]. by rewrite string_app_cons.
  - rewrite Hacc, fmap_app. simpl. unfold line_request. by rewrite Ea, Ew.
  - intros y Hy. rewrite last_snoc in Hy. injection Hy as <-. by exists t.
Qed.

Lemma trace_tick n c acc : 0 < n -> trace_inv n c acc -> exists c' d, TraceBasedCPU_ClockTick c = Ok (c', d) /\ trace_inv (n - 1) c' (acc ++ d).
Proof.
  intros Hn [Hm Hc]. unfold TraceBasedCPU_ClockTick. destruct (tick_ready n _ Hn Hm) as (m & d0 & E0 & Hm'). rewrite E0. cbn [mbind outcome_bind].
  destruct Hc as [(fin & todo & E & Hg & (ws & Hws & Ef) & Hacc & Hlast)|[(fin & x & todo & E & Hg & Ef & (t & Et & Ea & Ew) & Hacc)|[He Hacc]]].
  - rewrite Ef. cbn [f_eof]. rewrite Hg. destruct todo as [|x todo].
    + rewrite app_nil_r in E. cbn [trace_text]. rewrite string_app_nil. destruct (last fin) as [x|] eqn:El; [|by apply last_None in El; subst].
      destruct (Hlast x eq_refl) as (t & Et & Ea). rewrite Et, read_end by done. cbn [dt_added dt_addr dt_is_write].
      assert (Hx : l = fin) by done. assert (Hr : 0 <= line_addr x < 2 ^ 64).
      { apply last_Some in El as (l' & El). eapply (line_in l' x []). congruence. }
      assert (Hend : forall m' clk tr g, dram_ready (n - 1) m' -> trace_inv (n - 1) (mkTraceCPU m' clk (mkFstream EmptyString true true) tr g) (acc ++ [])).
      { intros m' clk tr g Hr'. split; [done|]. right. right. split; [done|]. left. by rewrite app_nil_r, Hacc, Hx. }
      case_decide; [|by eexists _, _; split; [reflexivity|]; apply Hend].
      destruct (offer_ok _ m (dt_addr t) false Hm') as (ok & m' & Eo & Hm2); [by rewrite Ea|]. rewrite Eo. cbn [mbind outcome_bind].
      eexists _, _. split; [reflexivity|]. destruct ok; [|by apply Hend]. split; [done|]. right. right. split; [done|]. right.
      exists x. rewrite Hx. split; [done|]. by rewrite Hacc, Ea.
    + destruct (line_in _ _ _ E) as [Hok _]. cbn [trace_text]. destruct (read_line (trans_ c) ws x (trace_text todo) Hok Hws) as (cc & ->).
      by apply (try_add _ m _ fin x todo (mkDTrans (line_addr x) (line_cycle x) cc (line_write x)) acc E Hm').
  - rewrite Ef. cbn [f_eof]. rewrite Hg, Et. by apply (try_add _ m _ fin x todo t acc E Hm').
  - rewrite He. eexists _, _. split; [reflexivity|]. rewrite app_nil_r. split; [done|]. right. right. by split.
Qed.
End replay.

Lemma trace_inv_prefix l n c acc x : last l = Some x -> trace_inv l n c acc -> acc `prefix_of` (line_request <$> l) ++ [(line_addr x, false)].
Proof.
  intros Hx [_ [(fin & todo & -> & _ & _ & -> & _)|[(fin & y & todo & -> & _ & _ & _ & ->)|[_ [->|(y & Hy & ->)]]]]].
  - rewrite fmap_app, <- app_assoc. by apply prefix_app_r.
  - rewrite fmap_app, <- app_assoc. by apply prefix_app_r.
  - by apply prefix_app_r.
  - assert (y = x) as -> by congruence. done.
Qed.

Lemma drivers_run m n k l x :
  dram_ready n m -> Z.of_nat k <= n -> Forall line_ok l -> last l = Some x ->
  (exists c added, run_cpu RandomCPU_ClockTick k (RandomCPU_new m) = Ok (c, added)) /\
  (exists c added, run_cpu StreamCPU_ClockTick k (StreamCPU_new m) = Ok (c, added)) /\
  exists c0 c added, TraceBasedCPU_new m (Some (trace_text l)) = Ok c0 /\
    run_cpu TraceBasedCPU_ClockTick k c0 = Ok (c, added) /\ added `prefix_of` (line_request <$> l) ++ [(line_addr x, false)].
Proof.
  intros Hm Hk Hl Hx. split; [|split].
  - destruct (run_cpu_ok RandomCPU_ClockTick (fun n c _ => dram_ready n (rc_mem c) /\ 0 <= last_addr_ c < 2 ^ 64)) with (k := k) (n := n) (c := RandomCPU_new m) (acc := @nil (Z * bool))
      as (c & a & E & _); [|done|split; [done|split; done]|by eexists _, _].
    intros n' c acc Hn [H1 H2]. by apply random_tick_ok.
  - destruct (run_cpu_ok StreamCPU_ClockTick (fun n c _ => dram_ready n (sc_mem c))) with (k := k) (n := n) (c := StreamCPU_new m) (acc := @nil (Z * bool))
      as (c & a & E & _); [|done|done|by eexists _, _].
    intros n' c acc Hn H1. by apply stream_tick_ok.
  - eexists. destruct (run_cpu_ok TraceBasedCPU_ClockTick (trace_inv l)) with (k := k) (n := n)
      (c := mkTraceCPU m 0 (mkFstream (trace_text l) false false) None true) (acc := @nil (Z * bool)) as (c & a & E & Hinv).
    + intros n' c acc Hn Hi. apply trace_tick; [done| |done|done]. intros ->. done.
    + done.
    + split; [done|]. left. exists [], l. split; [done|]. split_and!; try done. exists EmptyString. split; [by left|done].
    + exists c, a. split; [reflexivity|]. split; [exact E|]. exact (trace_inv_prefix _ _ _ _ _ Hx Hinv).
Qed.


(** ** Witness: three lines of tests/example.trace on HBM2 *)
Definition demo_trace : list trace_line :=
  [mkLine "0x2000D5C0" "READ" "1"; mkLine "0x1FF96FC0" "WRITE" "2"; mkLine "0x2000D600" "READ" "4"]%string.

Definition cpu_fs (path : string) : option string :=
  if decide (path = "hbm.ini"%string) then Some hbm2_file
  else if decide (path = "a.trace"%string) then Some (trace_text demo_trace)
  else if decide (path = "b.trace"%string) then Some "0x40 READ 1"%string
  else None.


(** The additional read happens; and a last line without its newline is dropped when
    its cycle has not come yet. *)
Example trace_ends :
  dramsim_main cpu_fs "hbm.ini" "a.trace" EmptyString 20 =
    Ok [(0x2000D5C0, false); (0x1FF96FC0, true); (0x2000D600, false); (0x2000D600, false)] /\
  dramsim_main cpu_fs "hbm.ini" "b.trace" EmptyString 20 = Ok [].
Proof. vm_compute. split; reflexivity. Qed.
