(* ===== verification/Memory.v ===== *)
(** * The memory front end (src/memory.cc)

    [Memory] queues the requests of the accelerator, hands them to the DRAM
    simulator and sorts the completed reads into one reply queue per engine and
    one feature queue.  The DRAM simulator is used through the interface
    [DramBackend]; [DramLaws] states what it promises: it loses and invents no
    transaction.  The globals [tq_get], [xw_get], [total_write] and [cycle] that
    the file updates are part of the state. *)

From stdpp Require Import base tactics list list_numbers numbers strings gmap.
From Stdlib Require Import ZArith Lia.
From S2P Require Import Prelude Common Layout DramInterface IdealDram.

Section memory.
Context {D : Type} `{DramBackend D}.

Record Memory := mkMemory {
  mem : D;
  rq : list (list R_TYPE);
  fq : list Z;
  tq : list Transaction;
  g_access : Z;
  f_frag_access : Z;
  f_ele_access : Z;
  o_access : Z;
  tq_get : Z;
  xw_get : Z;
  total_write : Z;
  cycle : Z
}.

#[export] Instance Memory_fields : Fields Memory := fun m =>
  mkMemory (mem m) (rq m) (fq m) (tq m) (g_access m) (f_frag_access m) (f_ele_access m)
    (o_access m) (tq_get m) (xw_get m) (total_write m) (cycle m).

(** The constructor; [d] is what [GetMemorySystem] returns, the globals are zero
    except [total_write], which the preprocessor has computed. *)
Definition Memory_new (env : Env) (d : D) (total : Z) : Memory :=
  mkMemory d (replicate (Z.to_nat (n_of_engine (arch_info env))) []) [] [] 0 0 0 0 0 0 total 0.

Definition AddTransaction (t : Transaction) (m : Memory) : Memory :=
  m <| tq := tq m ++ [t] |> <| tq_get := u64 (tq_get m + 1) |>.

(** The [while] loop: hand over from the front until the queue is empty or the
    DRAM simulator refuses. *)
Fixpoint consume (q : list Transaction) (d : D) : outcome (list Transaction * D) :=
  match q with
  | [] => Ok ([], d)
  | t :: q' =>
      ok ← dram_will_accept d (t_address t) (t_is_write t);
      if (ok : bool) then d' ← dram_add d (t_address t) (t_is_write t); consume q' d'
      else Ok (q, d)
  end.

Definition ConsumeTransaction (m : Memory) : outcome Memory :=
  '(q, d) ← consume (tq m) (mem m);
  Ok (m <| tq := q |> <| mem := d |>).

Definition WillAcceptTransaction (m : Memory) : bool := vsize (tq m) <? REQUEST_LIMIT.

(** The type of a graph address below the feature region. *)
Definition graph_type (a : ArchInfo) (address : Z) : R_TYPE :=
  if address <? a_row_addr_start a then Value
  else if address <? a_col_addr_start a then Row
  else Column.

Definition in_region (type : R_TYPE) (address : Z) (d : DataIndex) : bool :=
  match type with
  | Value => (value_addr_start d <=? address) && (address <? value_addr_end d)
  | Row => (row_addr_start d <=? address) && (address <? row_addr_end d)
  | Column => (col_addr_start d <=? address) && (address <? col_addr_end d)
  | Empty => false
  end.

(** The search loop for [id]; without a hit the variable stays uninitialised. *)
Fixpoint find_engine (type : R_TYPE) (address : Z) (idx : list DataIndex) (i : Z) : option Z :=
  match idx with
  | [] => None
  | d :: idx => if in_region type address d then Some i else find_engine type address idx (i + 1)
  end.

Definition ReadCompleteCallback (env : Env) (address : Z) (m : Memory) : outcome Memory :=
  let a := arch_info env in
  let f_addr_start := xw_ele_addr_start a in
  if (d_value_addr_start a <=? address) && (address <? f_addr_start) then
    let type := graph_type a address in
    match find_engine type address (take (Z.to_nat (n_of_engine a)) (data_index env)) 0 with
    | None => Fault Undefined
    | Some id =>
        q ← vpush (rq m) id type;
        Ok (m <| g_access := u64 (g_access m + 1) |> <| rq := q |>)
    end
  else if f_addr_start <=? address then
    Ok (m <| f_ele_access := u64 (f_ele_access m + 1) |> <| xw_get := u64 (xw_get m + 1) |>
          <| fq := fq m ++ [address] |>)
  else Ok m.

Definition WriteCompleteCallback (address : Z) (m : Memory) : Memory :=
  m <| o_access := u64 (o_access m + 1) |> <| total_write := u64 (total_write m - 1) |>.

Definition callback (env : Env) (t : Transaction) (m : Memory) : outcome Memory :=
  if t_is_write t then Ok (WriteCompleteCallback (t_address t) m)
  else ReadCompleteCallback env (t_address t) m.

Definition UpdateCycle (env : Env) (m : Memory) : outcome Memory :=
  '(d, done) ← dram_tick (mem m);
  m ← for_each (callback env) done (m <| mem := d |>);
  Ok (m <| cycle := u64 (cycle m + 1) |>).

(** [GetGraph(id)] *)
Definition GetGraph (id : Z) (m : Memory) : outcome (R_TYPE * Memory) :=
  q ← vget (rq m) id;
  match q with
  | [] => Ok (Empty, m)
  | r :: q' => rqs ← vset (rq m) id q'; Ok (r, m <| rq := rqs |>)
  end.

Definition GetFeature (m : Memory) : Z * Memory :=
  match fq m with
  | [] => (u64_max, m)
  | a :: q => (a, m <| fq := q |>)
  end.
End memory.
Arguments Memory D : clear implicits.
Arguments mkMemory {D}.

(** ** Routing of completed reads *)
Section routing.
Context {D : Type} `{DramBackend D} (env : Env) `{!Layout (arch_info env) (data_index env)}.
Let a : ArchInfo := arch_info env.
Let n : Z := n_of_engine a.

Lemma find_engine_first type addr l (k i : Z) :
  0 <= i < vsize l ->
  (exists d, vget l i = Ok d /\ in_region type addr d = true) ->
  (forall j d, 0 <= j < i -> vget l j = Ok d -> in_region type addr d = false) ->
  find_engine type addr l k = Some (k + i).
Proof.
  revert k i. induction l as [|d l IH]; intros k i Hi (d' & Hd' & Hr) Hb.
  { unfold vsize in Hi. simpl in Hi. lia. }
  simpl. destruct (decide (i = 0)) as [->|Hi0].
  - apply vget_ok in Hd' as [_ Hd']. simpl in Hd'. injection Hd' as ->. rewrite Hr. f_equal. lia.
  - rewrite (Hb 0 d) by (lia || done). rewrite (IH (k + 1) (i - 1)); [f_equal; lia| | |].
    + unfold vsize in *. simpl in Hi. lia.
    + exists d'. split; [|done]. apply vget_ok in Hd' as [_ Hd']. apply vget_ok. split; [lia|].
      by replace (Z.to_nat i) with (S (Z.to_nat (i - 1))) in Hd' by lia.
    + intros j d0 Hj Hd0. apply (Hb (j + 1) d0); [lia|]. apply vget_ok in Hd0 as [_ Hd0].
      apply vget_ok. split; [lia|]. by replace (Z.to_nat (j + 1)) with (S (Z.to_nat j)) by lia.
Qed.

(** The bounds of the region of a type, of an engine and of the whole array. *)
Definition start_of (type : R_TYPE) (d : DataIndex) : Z :=
  match type with Value => value_addr_start d | Row => row_addr_start d | _ => col_addr_start d end.
Definition stop_of (type : R_TYPE) (d : DataIndex) : Z :=
  match type with Value => value_addr_end d | Row => row_addr_end d | _ => col_addr_end d end.
Definition array_lo (type : R_TYPE) : Z :=
  match type with Value => d_value_addr_start a | Row => a_row_addr_start a | _ => a_col_addr_start a end.
Definition array_hi (type : R_TYPE) : Z :=
  match type with Value => a_row_addr_start a | Row => a_col_addr_start a | _ => xw_ele_addr_start a end.

Lemma in_region_spec type addr d :
  type <> Empty -> in_region type addr d = true <-> start_of type d <= addr < stop_of type d.
Proof.
  destruct type; intros Ht; [..|done]; unfold in_region; simpl;
    rewrite andb_true_iff, Z.leb_le, Z.ltb_lt; done.
Qed.

Lemma array_regions type :
  type <> Empty -> exists E, data_index env = tab n E /\
    regions_ok n (array_lo type) (array_hi type) (fun e => start_of type (E e)) (fun e => stop_of type (E e)).
Proof.
  intros Ht. destruct lay_value as (E & HE & Hv & Hr & Hc). exists E. split; [exact HE|].
  destruct type; [exact Hr|exact Hc|exact Hv|done].
Qed.

Lemma graph_type_of type addr :
  type <> Empty -> array_lo type <= addr < array_hi type ->
  graph_type a addr = type /\ d_value_addr_start a <= addr < xw_ele_addr_start a.
Proof.
  intros Ht Ha. destruct lay_order as (H0 & H1 & H2 & H3 & _). fold a in H0, H1, H2, H3.
  unfold graph_type. destruct type; simpl in Ha; [..|done];
    destruct (Z.ltb_spec0 addr (a_row_addr_start a));
    destruct (Z.ltb_spec0 addr (a_col_addr_start a)); lia || (split; [done|lia]).
Qed.

(** The search for the owner of a line of a region finds it. *)
Lemma find_engine_region type e d addr :
  type <> Empty -> 0 <= e < n -> vget (data_index env) e = Ok d -> start_of type d <= addr < stop_of type d ->
  graph_type a addr = type /\ d_value_addr_start a <= addr < xw_ele_addr_start a /\
  find_engine type addr (take (Z.to_nat n) (data_index env)) 0 = Some e.
Proof.
  intros Ht He Hd Ha. destruct (array_regions type Ht) as (E & HE & Hr).
  rewrite HE, vget_tab in Hd by done. injection Hd as <-.
  pose proof (reg_lo _ _ _ _ _ Hr e He). pose proof (reg_hi _ _ _ _ _ Hr e He). cbv beta in *.
  destruct (graph_type_of type addr Ht ltac:(lia)) as [Hty Hg]. split; [done|]. split; [done|].
  rewrite HE, (take_ge (tab n E)) by (rewrite tab_length; lia).
  rewrite (find_engine_first type addr (tab n E) 0 e); [done|..].
  - rewrite vsize_tab by lia. done.
  - exists (E e). rewrite vget_tab by done. split; [done|]. by apply in_region_spec.
  - intros j d0 Hj [Hj' ->]%vget_tab_inv. apply not_true_iff_false.
    rewrite in_region_spec by done. apply (regions_first _ _ _ _ _ e j addr Hr He Hj Ha).
Qed.

(** A completed graph read goes to the queue of the engine that owns the line. *)
Lemma read_callback_graph type e d addr (m : Memory D) :
  type <> Empty -> 0 <= e < n -> vget (data_index env) e = Ok d ->
  start_of type d <= addr < stop_of type d -> vsize (rq m) = n ->
  exists q, vget (rq m) e = Ok q /\
  ReadCompleteCallback env addr m =
  Ok (m <| g_access := u64 (g_access m + 1) |>
        <| rq := <[Z.to_nat e := q ++ [type]]> (rq m) |>).
Proof.
  intros Ht He Hd Ha Hq. destruct (find_engine_region type e d addr Ht He Hd Ha) as (Hty & Hg & Hf).
  destruct (vget_total (rq m) e) as [q Hqe]; [lia|]. exists q. split; [done|].
  unfold ReadCompleteCallback. fold a.
  rewrite (proj2 (Z.leb_le _ _)), (proj2 (Z.ltb_lt _ _)) by lia. cbn [andb].
  rewrite Hty. fold n. rewrite Hf. unfold vpush, vupd. rewrite Hqe. cbn [mbind outcome_bind].
  unfold vset. by rewrite decide_True by (unfold vsize in Hq; lia).
Qed.

Lemma read_callback_feature addr (m : Memory D) :
  xw_ele_addr_start a <= addr ->
  ReadCompleteCallback env addr m =
  Ok (m <| f_ele_access := u64 (f_ele_access m + 1) |> <| xw_get := u64 (xw_get m + 1) |>
        <| fq := fq m ++ [addr] |>).
Proof.
  intros Ha. unfold ReadCompleteCallback. fold a.
  destruct (Z.ltb_spec0 addr (xw_ele_addr_start a)); [lia|]. rewrite andb_false_r.
  by rewrite (proj2 (Z.leb_le _ _)) by lia.
Qed.
End routing.

(** ** Accounting: every issued transaction is queued, in the DRAM or counted *)
Definition addr_ok (t : Transaction) : Prop := 0 <= t_address t < 2 ^ 64.

(** The completed writes, graph reads and feature reads of a list. *)
Definition is_output (t : Transaction) : bool := t_is_write t.
Definition is_graph (env : Env) (t : Transaction) : bool :=
  negb (t_is_write t) && (t_address t <? xw_ele_addr_start (arch_info env)).
Definition is_feature (env : Env) (t : Transaction) : bool :=
  negb (t_is_write t) && (xw_ele_addr_start (arch_info env) <=? t_address t).

Definition count (P : Transaction -> bool) (l : list Transaction) : Z := vsize (filter P l).

Lemma count_nil P : count P [] = 0.
Proof. done. Qed.

Lemma count_snoc P l t : count P (l ++ [t]) = count P l + (if P t then 1 else 0).
Proof.
  unfold count. rewrite filter_app, vsize_app. f_equal.
  destruct (P t) eqn:E.
  - rewrite filter_cons_True by (by rewrite E). done.
  - rewrite filter_cons_False by (rewrite E; auto). done.
Qed.

Lemma u64_sub_l x y : u64 (u64 x - y) = u64 (x - y).
Proof. unfold u64. by rewrite Zminus_mod_idemp_l by lia. Qed.

Section accounting.
Context {D : Type} `{DramLaws D} (env : Env) (T : Z).

(** Every state the memory reaches, with the transactions issued so far. *)
Inductive mem_run : list Transaction -> Memory D -> Prop :=
  | run_new d : dram_inv d -> dram_pending d = [] -> mem_run [] (Memory_new env d (u64 T))
  | run_add h m t : mem_run h m -> addr_ok t -> mem_run (h ++ [t]) (AddTransaction t m)
  | run_consume h m m' : mem_run h m -> ConsumeTransaction m = Ok m' -> mem_run h m'
  | run_tick h m m' : mem_run h m -> UpdateCycle env m = Ok m' -> mem_run h m'
  | run_graph h m id r m' : mem_run h m -> GetGraph id m = Ok (r, m') -> mem_run h m'
  | run_feature h m : mem_run h m -> mem_run h (GetFeature m).2.

(** The counters show the completed transactions [c]. *)
Record counted (c : list Transaction) (m : Memory D) : Prop := {
  cnt_o : o_access m = u64 (count is_output c);
  cnt_total : total_write m = u64 (T - count is_output c);
  cnt_g : g_access m = u64 (count (is_graph env) c);
  cnt_f : f_ele_access m = u64 (count (is_feature env) c)
}.

Lemma callback_counted c t m m' :
  d_value_addr_start (arch_info env) = 0 -> addr_ok t -> counted c m ->
  callback env t m = Ok m' ->
  counted (c ++ [t]) m' /\ tq m' = tq m /\ mem m' = mem m /\ tq_get m' = tq_get m.
Proof.
  intros Hv Ht [Ho Htot Hg Hf] Hc. unfold callback in Hc.
  assert (Hb : is_output t = t_is_write t) by done.
  destruct (t_is_write t) eqn:Hw.
  - assert (is_graph env t = false) as Hb1 by (unfold is_graph; by rewrite Hw).
    assert (is_feature env t = false) as Hb2 by (unfold is_feature; by rewrite Hw).
    injection Hc as <-. split; [|done].
    split; simpl; rewrite count_snoc, ?Hb, ?Hb1, ?Hb2, ?Z.add_0_r; try done.
    + by rewrite Ho, u64_add_l.
    + rewrite Htot, u64_sub_l. f_equal. lia.
  - unfold ReadCompleteCallback in Hc. rewrite Hv in Hc.
    rewrite (proj2 (Z.leb_le _ _)) in Hc by apply Ht. cbn [andb] in Hc.
    assert (Hb1 : is_graph env t = (t_address t <? xw_ele_addr_start (arch_info env)))
      by (unfold is_graph; by rewrite Hw).
    assert (Hb2 : is_feature env t = (xw_ele_addr_start (arch_info env) <=? t_address t))
      by (unfold is_feature; by rewrite Hw).
    destruct (Z.ltb_spec0 (t_address t) (xw_ele_addr_start (arch_info env))) as [Hl|Hl].
    + rewrite (proj2 (Z.leb_gt _ _)) in Hb2 by lia.
      destruct (find_engine _ _ _ _) as [id|]; [|done]. ok_inv Hc. split; [|done].
      split; simpl; rewrite count_snoc, ?Hb, ?Hb1, ?Hb2, ?Z.add_0_r; try done.
      by rewrite Hg, u64_add_l.
    + rewrite (proj2 (Z.leb_le _ _)) in Hb2, Hc by lia. injection Hc as <-. split; [|done].
      split; simpl; rewrite count_snoc, ?Hb, ?Hb1, ?Hb2, ?Z.add_0_r; try done.
      by rewrite Hf, u64_add_l.
Qed.

Lemma callbacks_counted done c m m' :
  d_value_addr_start (arch_info env) = 0 -> Forall addr_ok done -> counted c m ->
  for_each (callback env) done m = Ok m' ->
  counted (c ++ done) m' /\ tq m' = tq m /\ mem m' = mem m /\ tq_get m' = tq_get m.
Proof.
  intros Hv. revert c m. induction done as [|t done IH]; simpl; intros c m Hd Hc Hr.
  - injection Hr as <-. by rewrite app_nil_r.
  - ok_inv Hr. apply Forall_cons in Hd as [Ht Hd].
    destruct (callback_counted c t m r Hv Ht Hc E) as (Hc' & E1 & E2 & E3).
    destruct (IH _ _ Hd Hc' Hr) as (Hc'' & F1 & F2 & F3).
    rewrite <- app_assoc in Hc''. split_and!; congruence || done.
Qed.

Lemma consume_ok q d q' d' :
  dram_inv d -> Forall addr_ok q -> consume q d = Ok (q', d') ->
  dram_inv d' /\ q' ++ dram_pending d' ≡ₚ q ++ dram_pending d /\ q' `suffix_of` q.
Proof.
  revert d. induction q as [|t q IH]; simpl; intros d Hd Hq Hc.
  - injection Hc as <- <-. done.
  - apply Forall_cons in Hq as [Ht Hq]. apply bind_ok in Hc as (ok & Hw & Hc). destruct ok.
    + apply bind_ok in Hc as (d1 & Ha & Hc).
      destruct (dram_add_law d _ _ d1 Hd Ht Hw Ha) as [Hd1 Hp].
      destruct (IH d1 Hd1 Hq Hc) as (Hd' & Hp' & Hs). split_and!; [done| |].
      * rewrite Hp', Hp. destruct t. simpl. symmetry. apply Permutation_middle.
      * by apply suffix_cons_r.
    + injection Hc as <- <-. done.
Qed.

(** Where the issued transactions are. *)
Definition settled (h : list Transaction) (m : Memory D) : Prop :=
  dram_inv (mem m) /\ Forall addr_ok h /\ tq_get m = u64 (vsize h) /\
  exists c, h ≡ₚ c ++ tq m ++ dram_pending (mem m) /\ counted c m.

Lemma settled_frame h m m' :
  settled h m -> mem m' = mem m -> tq m' = tq m -> tq_get m' = tq_get m ->
  o_access m' = o_access m -> total_write m' = total_write m ->
  g_access m' = g_access m -> f_ele_access m' = f_ele_access m -> settled h m'.
Proof.
  intros (Hd & Hh & Ht & c & Hc & [Ho Htot Hg Hf]) E1 E2 E3 E4 E5 E6 E7.
  split_and!; [congruence|done|congruence|]. exists c. rewrite E1, E2. split; [done|].
  split; congruence.
Qed.

Lemma settled_add h m t : addr_ok t -> settled h m -> settled (h ++ [t]) (AddTransaction t m).
Proof.
  intros Ht (Hd & Hh & Hg & c & Hc & Hn). split_and!; simpl.
  - done.
  - apply Forall_app. split; [done|]. by apply Forall_singleton.
  - rewrite Hg, u64_add_l, vsize_app. done.
  - exists c. split; [|by destruct Hn].
    rewrite Hc, <- !app_assoc. by rewrite (Permutation_app_comm (dram_pending _) [t]).
Qed.

Lemma settled_consume h m m' : settled h m -> ConsumeTransaction m = Ok m' -> settled h m'.
Proof.
  intros (Hd & Hh & Hg & c & Hc & Hn) Hm. unfold ConsumeTransaction in Hm.
  apply bind_ok in Hm as ([q d] & Hq & Hm). injection Hm as <-.
  assert (Hall : Forall addr_ok (c ++ tq m ++ dram_pending (mem m))) by (by rewrite <- Hc).
  apply Forall_app in Hall as [_ [Hall _]%Forall_app].
  destruct (consume_ok _ _ _ _ Hd Hall Hq) as (Hd' & Hp & _). split_and!; simpl; try done.
  exists c. split; [by rewrite Hp|by destruct Hn].
Qed.

Lemma settled_tick h m m' :
  d_value_addr_start (arch_info env) = 0 -> settled h m -> UpdateCycle env m = Ok m' -> settled h m'.
Proof.
  intros Hv (Hd & Hh & Hg & c & Hc & Hn) Hm. unfold UpdateCycle in Hm.
  apply bind_ok in Hm as ([d done] & Ht & Hm). apply bind_ok in Hm as (m1 & Hf & Hm).
  injection Hm as <-. destruct (dram_tick_law _ _ _ Hd Ht) as [Hd' Hp].
  assert (Hall : Forall addr_ok (c ++ tq m ++ done ++ dram_pending d)) by (by rewrite Hp, <- Hc).
  apply Forall_app in Hall as [_ [_ [Hall _]%Forall_app]%Forall_app].
  destruct (callbacks_counted done c (m <| mem := d |>) m1 Hv Hall) as (Hc1 & E1 & E2 & E3);
    [by destruct Hn|exact Hf|]. simpl in *. split_and!; simpl; try congruence.
  exists (c ++ done). split; [|by destruct Hc1]. rewrite E1, E2, Hc, <- Hp.
  rewrite <- app_assoc. apply Permutation_app_head. rewrite !app_assoc.
  apply Permutation_app_tail, Permutation_app_comm.
Qed.

Lemma settled_graph h m id r m' : settled h m -> GetGraph id m = Ok (r, m') -> settled h m'.
Proof.
  intros Hs Hm. unfold GetGraph in Hm. apply bind_ok in Hm as (q & _ & Hm).
  destruct q; [by injection Hm as <- <-|]. apply bind_ok in Hm as (q' & _ & Hm).
  injection Hm as <- <-. by apply (settled_frame h m).
Qed.

Lemma settled_feature h m : settled h m -> settled h (GetFeature m).2.
Proof.
  intros Hs. unfold GetFeature. destruct (fq m); [done|]. by apply (settled_frame h m).
Qed.

Lemma settled_new d :
  dram_inv d -> dram_pending d = [] -> settled [] (Memory_new env d (u64 T)).
Proof.
  intros Hd Hp. split_and!; simpl; [done|by constructor|done|].
  exists []. rewrite Hp. split; [done|]. split; simpl; rewrite ?count_nil; try done.
  by rewrite Z.sub_0_r.
Qed.

Lemma mem_run_settled h m :
  d_value_addr_start (arch_info env) = 0 -> mem_run h m -> settled h m.
Proof.
  intros Hv. induction 1;
    eauto using settled_new, settled_add, settled_consume, settled_tick, settled_graph, settled_feature.
Qed.
End accounting.

(** ** The properties *)

(** a completed read is routed to the component that issued it: a line of
    the value, row-pointer or column-index region of engine [e] to the reply
    queue of [e] with its type and to no other queue, a line of the feature
    region to the feature queue. *)
Theorem read_replies_routed {D : Type} (env : Env) (m : Memory D) (type : R_TYPE) (e a : Z)
    (d : DataIndex) (L : Layout (arch_info env) (data_index env)) :
  vsize (rq m) = n_of_engine (arch_info env) ->
  (type <> Empty -> 0 <= e < n_of_engine (arch_info env) -> vget (data_index env) e = Ok d ->
   start_of type d <= a < stop_of type d ->
   exists m' q, ReadCompleteCallback env a m = Ok m' /\
     vget (rq m) e = Ok q /\ vget (rq m') e = Ok (q ++ [type]) /\
     (forall e', e' <> e -> vget (rq m') e' = vget (rq m) e') /\
     fq m' = fq m /\ g_access m' = u64 (g_access m + 1)) /\
  (xw_ele_addr_start (arch_info env) <= a ->
   exists m', ReadCompleteCallback env a m = Ok m' /\
     rq m' = rq m /\ fq m' = fq m ++ [a] /\ f_ele_access m' = u64 (f_ele_access m + 1)).
Proof.
  intros Hq. split.
  - intros Ht He Hd Ha.
    destruct (read_callback_graph env type e d a m Ht He Hd Ha Hq) as (q & Hqe & Hc).
    assert (Hset : vset (rq m) e (q ++ [type]) = Ok (<[Z.to_nat e := q ++ [type]]> (rq m)))
      by (apply vset_ok; split; [lia|done]).
    eexists _, q. split; [exact Hc|]. simpl. split_and!; try done.
    + by apply (vget_vset_eq (rq m)).
    + intros e' He'. by apply (vget_vset_ne (rq m) _ e e' (q ++ [type])).
  - intros Ha. eexists. split; [by apply read_callback_feature|]. done.
Qed.

(** C18: at any point of a run, whatever conserving DRAM system is attached, the
    issued transactions are exactly the completed ones, the queued ones and the
    ones inside the DRAM; the access counters give the completed writes, graph
    reads and feature reads, [tq_get] the issued transactions, and
    [total_write] the outputs still to be written. *)
Theorem memory_accounting {D : Type} `{DramLaws D} (env : Env) (T : Z)
    (h : list Transaction) (m : Memory D) :
  d_value_addr_start (arch_info env) = 0 -> mem_run env T h m ->
  tq_get m = u64 (vsize h) /\
  exists c, h ≡ₚ c ++ tq m ++ dram_pending (mem m) /\
    o_access m = u64 (count is_output c) /\
    total_write m = u64 (T - count is_output c) /\
    g_access m = u64 (count (is_graph env) c) /\
    f_ele_access m = u64 (count (is_feature env) c).
Proof.
  intros Hv Hr. destruct (mem_run_settled env T h m Hv Hr) as (_ & _ & Hg & c & Hc & []).
  split; [done|]. by exists c.
Qed.

(** ** Witnesses *)
Definition demo_index (e : Z) : DataIndex :=
  mkDataIndex (64 * e) (64 * e + 64) (128 + 64 * e) (192 + 64 * e) (256 + 64 * e) (320 + 64 * e) 2 0 2.

Definition demo_env : Env :=
  mkEnv (mkArchInfo 2 512 2 4 1 1 1 32 MAT GCN 0 128 256 384 512 "HBM2" "out")
        (mkDataInfo 4 4 4 16 16 16 1 1 5 4) (tab 2 demo_index)
        [[0; 2; 2]; [0; 1; 3]] [[1; 2]; [0; 3; 0]] [[384]; [448]; [384]; [448]].

Lemma demo_layout : Layout (arch_info demo_env) (data_index demo_env).
Proof.
  split; simpl; [reflexivity| |lia]. exists demo_index.
  split_and!; [reflexivity|..]; split; simpl; intros e He; try lia; exists 1;
    unfold CACHE_LINE_BYTE; lia.
Qed.

Lemma read_replies_routed_witness :
  exists m', ReadCompleteCallback demo_env 320 (Memory_new demo_env (Ideal_new 3) 4) = Ok m' /\
    vget (rq m') 1 = Ok [Column] /\ vget (rq m') 0 = Ok [].
Proof.
  destruct (proj1 (read_replies_routed demo_env (Memory_new demo_env (Ideal_new 3) 4) Column 1 320
    (demo_index 1) demo_layout eq_refl) ltac:(discriminate) ltac:(done) eq_refl ltac:(done))
    as (m' & q & Hc & Hq & Hq1 & Hq0 & _).
  exists m'. split; [exact Hc|]. rewrite Hq1, (Hq0 0) by done.
  vm_compute in Hq. injection Hq as <-. split; reflexivity.
Defined.

(** Two requests, the first one handed to the ideal memory. *)
Definition demo_handed : Memory IdealDRAMSystem :=
  (AddTransaction (mkTransaction 0 READ) (Memory_new demo_env (Ideal_new 3) 4))
    <| tq := [] |> <| mem := Ideal_AddTransaction (Ideal_new 3) 0 READ |>.

Lemma memory_accounting_witness :
  let h := [mkTransaction 0 READ; mkTransaction 512 WRITE] in
  let m := AddTransaction (mkTransaction 512 WRITE) demo_handed in
  mem_run demo_env 4 h m /\ tq_get m = 2 /\ exists c, h ≡ₚ c ++ tq m ++ dram_pending (mem m).
Proof.
  intros h m. assert (Hr : mem_run demo_env 4 h m).
  { apply (run_add demo_env 4 [mkTransaction 0 READ] demo_handed); [|split; done].
    apply (run_consume _ _ _ (AddTransaction (mkTransaction 0 READ)
      (Memory_new demo_env (Ideal_new 3) 4))); [|reflexivity].
    apply (run_add demo_env 4 [] (Memory_new demo_env (Ideal_new 3) 4)); [|split; done].
    exact (run_new demo_env 4 (Ideal_new 3) I eq_refl). }
  split; [exact Hr|].
  destruct (memory_accounting demo_env 4 h m eq_refl Hr) as (Hg & c & Hc & _).
  split; [exact Hg|]. exists c. exact Hc.
Defined.
