(* ===== verification/GraphReader.v ===== *)
(** * The graph reader of an engine (src/g_reader.cc)

    [VertexRequest] and [EdgeRequest] stream the lines of the engine's CSR
    arrays, [bf] times over; [GraphReceive] tracks how far the arrays have
    arrived; [NextFeature] hands the edges to the feature reader as they become
    known.  The record has the fields of [GR_STAT], [GR_FLAG] and the counters
    of the class. *)

From stdpp Require Import base tactics list list_numbers numbers strings gmap.
From Stdlib Require Import ZArith Lia.
From S2P Require Import Prelude Common Float32 Csr Layout DramInterface IdealDram Memory.

Record GraphReader := mkGraphReader {
  row_end_idx : Z;
  col_end_idx : Z;
  val_end_idx : Z;
  cur_row_idx : Z;
  cur_col_idx : Z;
  cur_val_idx : Z;
  row_overflow : Z;
  col_overflow : Z;
  val_overflow : Z;
  remain_edge : Z;
  next_v_addr : Z;
  next_e_addr : Z;
  next_val_addr : Z;
  v_req_over : bool;
  e_req_over : bool;
  v_reci_over : bool;
  e_reci_over : bool;
  val_reci_over : bool;
  reci_over : bool;
  pass_over : bool;
  v_req_count : Z;
  e_req_count : Z;
  v_reci_count : Z;
  e_reci_count : Z;
  val_reci_count : Z;
  g_pass_count : Z
}.

#[export] Instance GraphReader_fields : Fields GraphReader := fun g =>
  mkGraphReader (row_end_idx g) (col_end_idx g) (val_end_idx g) (cur_row_idx g) (cur_col_idx g)
    (cur_val_idx g) (row_overflow g) (col_overflow g) (val_overflow g) (remain_edge g)
    (next_v_addr g) (next_e_addr g) (next_val_addr g) (v_req_over g) (e_req_over g)
    (v_reci_over g) (e_reci_over g) (val_reci_over g) (reci_over g) (pass_over g)
    (v_req_count g) (e_req_count g) (v_reci_count g) (e_reci_count g) (val_reci_count g)
    (g_pass_count g).

Section graph_reader.
Context (env : Env) (id : Z).

(** The constructor. *)
Definition GraphReader_new : outcome GraphReader :=
  d ← vget (data_index env) id;
  let g := mkGraphReader 0 0 0 1 0 0 0 0 0 0
             (row_addr_start d) (col_addr_start d) (value_addr_start d)
             false false false false false false false 0 0 0 0 0 0 in
  match gnn_mode (arch_info env) with
  | OTHER =>
      cols ← vget (col_idx env) id;
      Ok (g <| val_overflow := bf (arch_info env) |> <| val_reci_over := true |>
            <| val_end_idx := vsize cols |>)
  | GCN => Ok g
  end.

Definition VertexRequest {D} (m : Memory D) (g : GraphReader) : outcome (Memory D * GraphReader) :=
  if WillAcceptTransaction m then
    d ← vget (data_index env) id;
    let m := AddTransaction (mkTransaction (next_v_addr g) READ) m in
    let g := g <| next_v_addr := u64 (next_v_addr g + CACHE_LINE_BYTE) |> in
    if decide (next_v_addr g = row_addr_end d) then
      let g := g <| v_req_count := v_req_count g + 1 |> <| next_v_addr := row_addr_start d |> in
      Ok (m, if decide (v_req_count g = bf (arch_info env)) then g <| v_req_over := true |> else g)
    else Ok (m, g)
  else Ok (m, g).

Definition EdgeRequest {D} (m : Memory D) (g : GraphReader) : outcome (Memory D * GraphReader) :=
  if WillAcceptTransaction m then
    d ← vget (data_index env) id;
    let m := AddTransaction (mkTransaction (next_e_addr g) READ) m in
    let '(m, g) :=
      match gnn_mode (arch_info env) with
      | GCN => (AddTransaction (mkTransaction (next_val_addr g) READ) m,
                g <| next_val_addr := u64 (next_val_addr g + CACHE_LINE_BYTE) |>)
      | OTHER => (m, g)
      end in
    let g := g <| next_e_addr := u64 (next_e_addr g + CACHE_LINE_BYTE) |> in
    if decide (next_e_addr g = col_addr_end d) then
      let g := g <| e_req_count := e_req_count g + 1 |> <| next_e_addr := col_addr_start d |> in
      let g := match gnn_mode (arch_info env) with
               | GCN => g <| next_val_addr := value_addr_start d |>
               | OTHER => g
               end in
      Ok (m, if decide (e_req_count g = bf (arch_info env)) then g <| e_req_over := true |> else g)
    else Ok (m, g)
  else Ok (m, g).

(** One line of an array of [size] entries arrives: the new end index, overflow
    count and receive count. *)
Definition advance (size end_idx overflow reci_count : Z) : Z * Z * Z :=
  let '(overflow, end_idx) :=
    if decide (end_idx = size) then (overflow + 1, 0) else (overflow, end_idx) in
  let end_idx := end_idx + CACHE_LINE_COUNT in
  if decide (size <= end_idx) then (size, overflow, reci_count + 1)
  else (end_idx, overflow, reci_count).

(** The effect of a reply on the reader.  The [over] flag of an array is set in
    the step in which its receive count becomes [bf]. *)
Definition receive (reci : R_TYPE) (g : GraphReader) : outcome GraphReader :=
  rows ← vget (row_ptr env) id;
  cols ← vget (col_idx env) id;
  let n_bf := bf (arch_info env) in
  let g :=
    match reci with
    | Common.Row =>
        let '(e, o, c) := advance (vsize rows) (row_end_idx g) (row_overflow g) (v_reci_count g) in
        g <| row_end_idx := e |> <| row_overflow := o |> <| v_reci_count := c |>
          <| v_reci_over := v_reci_over g || (bool_decide (c = n_bf) && bool_decide (e = vsize rows)) |>
    | Common.Column =>
        let '(e, o, c) := advance (vsize cols) (col_end_idx g) (col_overflow g) (e_reci_count g) in
        g <| col_end_idx := e |> <| col_overflow := o |> <| e_reci_count := c |>
          <| e_reci_over := e_reci_over g || (bool_decide (c = n_bf) && bool_decide (e = vsize cols)) |>
    | Common.Value =>
        let '(e, o, c) := advance (vsize cols) (val_end_idx g) (val_overflow g) (val_reci_count g) in
        g <| val_end_idx := e |> <| val_overflow := o |> <| val_reci_count := c |>
          <| val_reci_over := val_reci_over g || (bool_decide (c = n_bf) && bool_decide (e = vsize cols)) |>
    | Common.Empty => g
    end in
  Ok (if v_reci_over g && e_reci_over g && val_reci_over g then g <| reci_over := true |> else g).

Definition GraphReceive {D} (m : Memory D) (g : GraphReader) : outcome (Memory D * GraphReader) :=
  '(reci, m) ← GetGraph id m;
  g ← receive reci g;
  Ok (m, g).

(** The [while (remain_edge == 0)] loop of [NextFeature].  Every round consumes a
    row or an overflow, so [skip_fuel] rounds are enough; [skip_rows_ok]
    proves it, so the last branch is never taken. *)
Fixpoint skip_rows (fuel : nat) (rows : list Z) (g : GraphReader) : outcome GraphReader :=
  match fuel with
  | O => Fault Undefined
  | S fuel =>
      if decide (remain_edge g = 0) then
        if decide (cur_row_idx g = vsize rows /\ row_overflow g = 0) then Ok g
        else
          let g := if decide (cur_row_idx g = vsize rows /\ row_overflow g > 0)
                   then g <| cur_row_idx := 1 |> <| row_overflow := row_overflow g - 1 |> else g in
          e1 ← vget rows (cur_row_idx g);
          e0 ← vget rows (cur_row_idx g - 1);
          let g := g <| remain_edge := e1 - e0 |> <| cur_row_idx := cur_row_idx g + 1 |> in
          if decide (cur_row_idx g = row_end_idx g /\ row_overflow g = 0) then Ok g
          else skip_rows fuel rows g
      else Ok g
  end.

Definition skip_fuel (rows : list Z) (g : GraphReader) : nat :=
  S (Z.to_nat ((row_overflow g + 1) * vsize rows - cur_row_idx g)).

(** The dummy [{id, false, -1, -1}]. *)
Definition no_edge : EdgeInfo := mkEdgeInfo id false (-1) (-1).

Definition NextFeature (g : GraphReader) : outcome (EdgeInfo * GraphReader) :=
  rows ← vget (row_ptr env) id;
  cols ← vget (col_idx env) id;
  let n_bf := bf (arch_info env) in
  if decide (cur_col_idx g = vsize cols /\ g_pass_count g = n_bf - 1) then
    Ok (no_edge, g <| pass_over := true |>)
  else
    g ← (if decide (cur_row_idx g < row_end_idx g \/ row_overflow g > 0)
         then skip_rows (skip_fuel rows g) rows g else Ok g);
    if decide (remain_edge g > 0 /\
               (cur_col_idx g < col_end_idx g \/ col_overflow g > 0) /\
               (cur_val_idx g < val_end_idx g \/ val_overflow g > 0)) then
      let at_end := bool_decide (cur_col_idx g = vsize cols) in
      let g := if at_end && bool_decide (col_overflow g > 0)
               then g <| cur_col_idx := 0 |> <| cur_val_idx := 0 |>
                      <| col_overflow := col_overflow g - 1 |> <| val_overflow := val_overflow g - 1 |>
                      <| g_pass_count := g_pass_count g + 1 |>
               else g in
      if at_end && bool_decide (g_pass_count g = n_bf)
      then Ok (no_edge, g <| pass_over := true |>)
      else
        dst ← vget cols (cur_col_idx g);
        let g := g <| cur_col_idx := cur_col_idx g + 1 |> <| cur_val_idx := cur_val_idx g + 1 |>
                   <| remain_edge := remain_edge g - 1 |> in
        Ok (mkEdgeInfo id (bool_decide (remain_edge g = 0)) dst (g_pass_count g), g)
    else Ok (no_edge, g).
End graph_reader.

(** ** Arrival of an array: after [k] lines the reader has [total] whole copies
    behind it and [end_idx] entries of the next one. *)
Section arrival.
Context (size : Z).
Hypothesis Hsize : 0 < size.
Let L : Z := cdiv size CACHE_LINE_COUNT.

Definition arrived (k end_idx total reci_count : Z) : Prop :=
  (k = 0 /\ end_idx = 0 /\ total = 0 /\ reci_count = 0) \/
  exists j, 1 <= j <= L /\ 0 <= total /\ k = total * L + j /\
    end_idx = Z.min size (CACHE_LINE_COUNT * j) /\
    reci_count = total + (if decide (j = L) then 1 else 0).

Lemma arrived_0 : arrived 0 0 0 0.
Proof. by left. Qed.

Lemma arrived_range k e t c : arrived k e t c -> 0 <= e <= size /\ 0 <= t /\ 0 <= k.
Proof.
  unfold CACHE_LINE_COUNT. intros [(-> & -> & -> & _)|(j & Hj & Ht & -> & -> & _)]; [lia|].
  unfold CACHE_LINE_COUNT. nia.
Qed.

(** Once a copy is complete, the next one has at least one line. *)
Lemma arrived_wrapped k e t c : arrived k e t c -> 0 < t -> Z.min size CACHE_LINE_COUNT <= e.
Proof.
  intros [(_ & _ & -> & _)|(j & Hj & _ & _ & -> & _)] Ht; [lia|]. unfold CACHE_LINE_COUNT. lia.
Qed.

Lemma arrived_advance k e o t c e' o' c' :
  arrived k e (o + t) c -> advance size e o c = (e', o', c') -> arrived (k + 1) e' (o' + t) c'.
Proof.
  intros Ha Hadv. pose proof (cdiv_spec size CACHE_LINE_COUNT eq_refl) as HL. fold L in HL.
  unfold advance in Hadv. right.
  destruct Ha as [(-> & -> & Ht & ->)|(j & Hj & Ht & -> & -> & ->)].
  - rewrite decide_False in Hadv by lia. exists 1.
    destruct (decide (size <= 0 + CACHE_LINE_COUNT)); injection Hadv as <- <- <-.
    + assert (L = 1) by (unfold CACHE_LINE_COUNT in *; lia).
      split_and!; try lia. rewrite decide_True by lia. lia.
    + split_and!; try (unfold CACHE_LINE_COUNT in *; lia).
      rewrite decide_False by (unfold CACHE_LINE_COUNT in *; lia). lia.
  - destruct (decide (j = L)) as [->|Hne].
    + rewrite Z.min_l, decide_True in Hadv by (done || lia). exists 1.
      destruct (decide (size <= 0 + CACHE_LINE_COUNT)); injection Hadv as <- <- <-.
      * assert (L = 1) by (unfold CACHE_LINE_COUNT in *; lia).
        split_and!; try lia. rewrite decide_True by lia. lia.
      * split_and!; try (unfold CACHE_LINE_COUNT in *; lia).
        rewrite decide_False by (unfold CACHE_LINE_COUNT in *; lia). lia.
    + assert (CACHE_LINE_COUNT * j < size) by (unfold CACHE_LINE_COUNT in *; lia).
      rewrite Z.min_r, decide_False in Hadv by lia. exists (j + 1).
      destruct (decide (size <= CACHE_LINE_COUNT * j + CACHE_LINE_COUNT)); injection Hadv as <- <- <-.
      * assert (j + 1 = L) by (unfold CACHE_LINE_COUNT in *; lia).
        split_and!; try (unfold CACHE_LINE_COUNT in *; lia). rewrite decide_True by lia. lia.
      * split_and!; try (unfold CACHE_LINE_COUNT in *; lia).
        rewrite decide_False by (unfold CACHE_LINE_COUNT in *; lia). lia.
Qed.

(** All lines of [n] copies. *)
Lemma arrived_all n k e t c :
  arrived k e t c -> 0 < n -> k = n * L -> e = size /\ t = n - 1 /\ c = n.
Proof.
  pose proof (cdiv_spec size CACHE_LINE_COUNT eq_refl) as HL. fold L in HL.
  intros [(-> & _)|(j & Hj & Ht & -> & -> & ->)] Hn E; [nia|].
  assert (t = n - 1) as -> by nia. assert (j = L) as -> by nia.
  rewrite decide_True by done. unfold CACHE_LINE_COUNT in *. lia.
Qed.
End arrival.

(** ** The stream of edges an engine must produce *)
Section stream.
Context (env : Env) (id : Z) (rows : list (list Z)).
Let nbf : Z := bf (arch_info env).
Let En : Z := edges rows.
Let Rn : Z := vsize rows + 1.

Definition row_stream (f : Z) (r : list Z) : list EdgeInfo :=
  imap (fun j c => mkEdgeInfo id (bool_decide (S j = length r)) c f) r.
Definition pass_stream (f : Z) : list EdgeInfo := concat (row_stream f <$> rows).
(** [bf] passes over the rows, each pass a fold of the features. *)
Definition stream : list EdgeInfo := concat (pass_stream <$> seqZ 0 nbf).

Lemma row_stream_length f r : length (row_stream f r) = length r.
Proof. apply length_imap. Qed.

Lemma row_streams_length f l : length (concat (row_stream f <$> l)) = length (concat l).
Proof.
  induction l as [|r l IH]; [done|]. rewrite fmap_cons. cbn [concat].
  by rewrite !length_app, row_stream_length, IH.
Qed.

Lemma pass_stream_length f : Z.of_nat (length (pass_stream f)) = En.
Proof. unfold pass_stream. by rewrite row_streams_length. Qed.

Lemma passes_length l : Z.of_nat (length (concat (pass_stream <$> l))) = vsize l * En.
Proof.
  unfold vsize. induction l as [|f l IH]; [done|]. rewrite fmap_cons. cbn [concat].
  rewrite length_app, Nat2Z.inj_add, IH, pass_stream_length. simpl length. lia.
Qed.

Lemma stream_length : 0 <= nbf -> Z.of_nat (length stream) = nbf * En.
Proof. intros H. unfold stream. rewrite passes_length. unfold vsize. by rewrite length_seqZ, Z2Nat.id. Qed.

(** The edge at position [j] of row [i] of pass [f]. *)
Lemma stream_lookup f i r j c :
  0 <= f < nbf -> rows !! i = Some r -> r !! j = Some c ->
  stream !! Z.to_nat (f * En + edges (take i rows) + Z.of_nat j) =
  Some (mkEdgeInfo id (bool_decide (S j = length r)) c f).
Proof.
  intros Hf Hi Hj. pose proof (lookup_lt_Some _ _ _ Hj) as Hl.
  assert (Hs : (pass_stream <$> seqZ 0 nbf) !! Z.to_nat f = Some (pass_stream f)).
  { rewrite list_lookup_fmap, lookup_seqZ_lt by lia. simpl. do 2 f_equal. lia. }
  assert (Hp : pass_stream f !! (length (concat (row_stream f <$> take i rows)) + j)%nat =
    Some (mkEdgeInfo id (bool_decide (S j = length r)) c f)).
  { unfold pass_stream. rewrite fmap_take, (concat_lookup _ i (row_stream f r)).
    - unfold row_stream. rewrite list_lookup_imap, Hj. done.
    - by rewrite list_lookup_fmap, Hi.
    - by rewrite row_stream_length. }
  rewrite row_streams_length in Hp.
  pose proof (concat_lookup _ _ _ _ Hs (lookup_lt_Some _ _ _ Hp)) as Hc.
  rewrite Hp in Hc. unfold stream. rewrite <- Hc. f_equal. apply Nat2Z.inj.
  rewrite Nat2Z.inj_add, <- fmap_take, passes_length. unfold vsize.
  rewrite length_take, length_seqZ. unfold edges, vsize.
  assert (0 <= En) by (unfold En, edges, vsize; lia).
  assert (0 <= f * En) by (apply Z.mul_nonneg_nonneg; lia).
  rewrite Z2Nat.id by lia. rewrite Nat2Z.inj_add. rewrite Nat.min_l by lia. unfold En. lia.
Qed.

(** The edges before row [i]. *)
Definition off (i : Z) : Z := edges (take (Z.to_nat i) rows).

Lemma off_0 : off 0 = 0.
Proof. done. Qed.

Lemma off_all : off (vsize rows) = En.
Proof. unfold off, vsize. rewrite Nat2Z.id, take_ge by lia. done. Qed.

Lemma off_mono i j : i <= j -> off i <= off j.
Proof. intros. apply edges_take_mono. lia. Qed.

(** ** The invariant: [kr], [kc], [kv] lines of each array have arrived, the row
    side is in pass [rp]. *)
Record gr_inv (kr kc kv rp : Z) (g : GraphReader) : Prop := {
  gi_cur_row : 1 <= cur_row_idx g <= Rn;
  gi_row_overflow : 0 <= row_overflow g;
  gi_row_ahead : row_overflow g = 0 -> cur_row_idx g <= Z.max 1 (row_end_idx g);
  gi_rows : arrived Rn kr (row_end_idx g) (row_overflow g + rp) (v_reci_count g);
  gi_rp : 0 <= rp;
  gi_cur_col : 0 <= cur_col_idx g <= En;
  gi_col_overflow : 0 <= col_overflow g;
  gi_col_ahead : col_overflow g = 0 -> cur_col_idx g <= col_end_idx g;
  gi_cols : arrived En kc (col_end_idx g) (col_overflow g + g_pass_count g) (e_reci_count g);
  gi_cur_val : cur_val_idx g = cur_col_idx g;
  gi_val_overflow : 0 <= val_overflow g;
  gi_vals : match gnn_mode (arch_info env) with
            | GCN => arrived En kv (val_end_idx g) (val_overflow g + g_pass_count g) (val_reci_count g)
            | OTHER => nbf <= val_overflow g + g_pass_count g /\ val_end_idx g <= En
            end;
  gi_remain : 0 <= remain_edge g;
  gi_in_row : 0 < remain_edge g -> 2 <= cur_row_idx g /\
    remain_edge g <= off (cur_row_idx g - 1) - off (cur_row_idx g - 2);
  gi_pass : 0 <= g_pass_count g <= nbf - 1;
  gi_sync : rp * En + off (cur_row_idx g - 1) = g_pass_count g * En + cur_col_idx g + remain_edge g
}.

(** The number of edges passed on. *)
Definition passed (g : GraphReader) : Z := g_pass_count g * En + cur_col_idx g.

Hypothesis Hbf : 0 < nbf.
Hypothesis HEn : 0 < En.

Lemma rows_nonempty : 2 <= Rn.
Proof.
  unfold Rn, vsize. destruct rows; simpl; [|lia]. unfold En in HEn. rewrite edges_nil in HEn. lia.
Qed.

Lemma gi_row_next kr kc kv rp g :
  gr_inv kr kc kv rp g -> row_overflow g > 0 -> 2 <= row_end_idx g.
Proof.
  intros I Ho. pose proof rows_nonempty. pose proof (gi_rp _ _ _ _ _ I).
  pose proof (arrived_wrapped Rn _ _ _ _ (gi_rows _ _ _ _ _ I) ltac:(lia)).
  unfold CACHE_LINE_COUNT in *. lia.
Qed.

(** Reading the next row off the offsets. *)
Definition take_row (g : GraphReader) : GraphReader :=
  g <| remain_edge := off (cur_row_idx g) - off (cur_row_idx g - 1) |>
    <| cur_row_idx := cur_row_idx g + 1 |>.

Definition wrap_row (g : GraphReader) : GraphReader :=
  g <| cur_row_idx := 1 |> <| row_overflow := row_overflow g - 1 |>.

Lemma wrap_row_inv kr kc kv rp g :
  gr_inv kr kc kv rp g -> remain_edge g = 0 -> cur_row_idx g = Rn -> row_overflow g > 0 ->
  gr_inv kr kc kv (rp + 1) (wrap_row g) /\ cur_row_idx (wrap_row g) < row_end_idx (wrap_row g).
Proof.
  intros I Hr Hc Ho. pose proof (gi_row_next _ _ _ _ _ I Ho). pose proof rows_nonempty.
  destruct I. split; [|simpl; lia]. split; simpl; try done; try lia.
  - by replace (row_overflow g - 1 + (rp + 1)) with (row_overflow g + rp) by lia.
  - rewrite Hc in gi_sync0. replace (Rn - 1) with (vsize rows) in gi_sync0 by (unfold Rn; lia).
    rewrite off_all in gi_sync0. rewrite Z.sub_diag, off_0. lia.
Qed.

Lemma take_row_inv kr kc kv rp g :
  gr_inv kr kc kv rp g -> remain_edge g = 0 -> cur_row_idx g < Rn ->
  (cur_row_idx g < row_end_idx g \/ row_overflow g > 0) -> gr_inv kr kc kv rp (take_row g).
Proof.
  intros I Hr Hc Ha. destruct I. split; simpl; try done; try lia.
  - pose proof (off_mono (cur_row_idx g - 1) (cur_row_idx g)). lia.
  - intros _. replace (cur_row_idx g + 1 - 1) with (cur_row_idx g) by lia.
    replace (cur_row_idx g + 1 - 2) with (cur_row_idx g - 1) by lia. lia.
  - replace (cur_row_idx g + 1 - 1) with (cur_row_idx g) by lia. lia.
Qed.

Lemma skip_rows_ok kr kc kv fuel rp g :
  gr_inv kr kc kv rp g -> (cur_row_idx g < row_end_idx g \/ row_overflow g > 0) ->
  (row_overflow g + 1) * Rn - cur_row_idx g < Z.of_nat fuel ->
  exists g' rp', skip_rows fuel (offsets rows) g = Ok g' /\ gr_inv kr kc kv rp' g' /\
    (exists a b c, g' = g <| cur_row_idx := a |> <| row_overflow := b |> <| remain_edge := c |>) /\
    row_overflow g' + rp' = row_overflow g + rp /\
    (0 < remain_edge g' \/ (cur_row_idx g' = row_end_idx g' /\ row_overflow g' = 0)).
Proof.
  revert rp g. induction fuel as [|fuel IH]; intros rp g I Ha Hf.
  { destruct I. nia. }
  cbn [skip_rows]. pose proof (gi_cur_row _ _ _ _ _ I) as Hcr.
  pose proof (gi_row_overflow _ _ _ _ _ I) as Hov.
  assert (Hend : row_end_idx g <= Rn).
  { pose proof rows_nonempty. destruct (arrived_range Rn ltac:(lia) _ _ _ _ (gi_rows _ _ _ _ _ I)). lia. }
  destruct (decide (remain_edge g = 0)) as [Hr|Hr].
  2: { exists g, rp. split_and!; try done.
       - exists (cur_row_idx g), (row_overflow g), (remain_edge g). by destruct g.
       - left. pose proof (gi_remain _ _ _ _ _ I). lia. }
  replace (vsize (offsets rows)) with Rn by (by rewrite vsize_offsets).
  rewrite decide_False by lia.
  set (g1 := if decide (cur_row_idx g = Rn /\ row_overflow g > 0) then _ else g).
  set (rp1 := if decide (cur_row_idx g = Rn /\ row_overflow g > 0) then rp + 1 else rp).
  assert (H1 : gr_inv kr kc kv rp1 g1 /\ cur_row_idx g1 < Rn /\ remain_edge g1 = 0 /\
    (cur_row_idx g1 < row_end_idx g1 \/ row_overflow g1 > 0) /\
    (exists a b c, g1 = g <| cur_row_idx := a |> <| row_overflow := b |> <| remain_edge := c |>) /\
    row_overflow g1 + rp1 = row_overflow g + rp /\
    (row_overflow g1 + 1) * Rn - cur_row_idx g1 <= (row_overflow g + 1) * Rn - cur_row_idx g).
  { unfold g1, rp1. destruct (decide _) as [[Hc Ho]|Hn].
    - pose proof rows_nonempty. destruct (wrap_row_inv _ _ _ _ _ I Hr Hc Ho). simpl. split_and!; try done; try lia.
      + simpl in *. lia.
      + exists 1, (row_overflow g - 1), (remain_edge g). by destruct g.
    - split_and!; try done; try lia. exists (cur_row_idx g), (row_overflow g), (remain_edge g). by destruct g. }
  clearbody g1 rp1. destruct H1 as (I1 & Hc1 & Hr1 & Ha1 & (a1 & b1 & c1 & E1) & Ho1 & Hm1).
  pose proof (gi_cur_row _ _ _ _ _ I1) as Hcr1.
  rewrite !vget_offsets by (unfold Rn in *; lia). cbn [mbind outcome_bind].
  change (edges (take (Z.to_nat (cur_row_idx g1)) rows)) with (off (cur_row_idx g1)).
  change (edges (take (Z.to_nat (cur_row_idx g1 - 1)) rows)) with (off (cur_row_idx g1 - 1)).
  change (g1 <| remain_edge := _ |> <| cur_row_idx := _ |>) with (take_row g1).
  pose proof (take_row_inv _ _ _ _ _ I1 Hr1 Hc1 Ha1) as I2.
  assert (E2 : exists a b c, take_row g1 = g <| cur_row_idx := a |> <| row_overflow := b |> <| remain_edge := c |>).
  { subst g1. unfold take_row. simpl. by eexists _, _, _. }
  destruct (decide (cur_row_idx (take_row g1) = row_end_idx (take_row g1) /\ row_overflow (take_row g1) = 0))
    as [[Hs1 Hs2]|Hs].
  - exists (take_row g1), rp1. split_and!; try done. by right.
  - destruct (IH rp1 (take_row g1) I2) as (g' & rp' & Hg' & I' & (a & b & c & E') & Ho' & Hp').
    + pose proof (gi_row_ahead _ _ _ _ _ I2). pose proof (gi_row_overflow _ _ _ _ _ I2). simpl in *. lia.
    + simpl. lia.
    + exists g', rp'. split_and!; try done.
      * destruct E2 as (a2 & b2 & c2 & E2). rewrite E2 in E'. eexists _, _, _. exact E'.
      * simpl in Ho'. lia.
Qed.

(** Where the row side stands while a row is being passed. *)
Lemma in_row kr kc kv rp g :
  gr_inv kr kc kv rp g -> 0 < remain_edge g ->
  let x := off (cur_row_idx g - 1) - remain_edge g in
  (exists i r j c, rows !! i = Some r /\ r !! j = Some c /\
     x = edges (take i rows) + Z.of_nat j /\ vget (concat rows) x = Ok c /\
     bool_decide (S j = length r) = bool_decide (remain_edge g - 1 = 0)) /\
  0 <= x < En /\
  (cur_col_idx g < En -> x = cur_col_idx g /\ rp = g_pass_count g) /\
  (cur_col_idx g = En -> x = 0 /\ rp = g_pass_count g + 1).
Proof.
  intros I Hr x. destruct (gi_in_row _ _ _ _ _ I Hr) as [H2 Hle].
  pose proof (gi_cur_row _ _ _ _ _ I) as Hcr. pose proof (gi_sync _ _ _ _ _ I) as Hs.
  pose proof (gi_cur_col _ _ _ _ _ I) as Hcc.
  set (i := Z.to_nat (cur_row_idx g - 2)).
  destruct (lookup_lt_is_Some_2 rows i) as [r Hi]; [unfold i, Rn, vsize in *; lia|].
  assert (E1 : off (cur_row_idx g - 1) = off (cur_row_idx g - 2) + vsize r).
  { unfold off. fold i. replace (Z.to_nat (cur_row_idx g - 1)) with (S i) by (unfold i; lia).
    by apply edges_take_S. }
  set (j := Z.to_nat (x - off (cur_row_idx g - 2))).
  assert (Hx : x = off (cur_row_idx g - 2) + Z.of_nat j) by (unfold j, x; lia).
  assert (Hj : (j < length r)%nat) by (unfold vsize in *; lia).
  destruct (lookup_lt_is_Some_2 r j Hj) as [c Hc].
  assert (Hx0 : 0 <= x < En).
  { pose proof (off_mono 0 (cur_row_idx g - 2) ltac:(lia)) as Hm. rewrite off_0 in Hm.
    pose proof (off_mono (cur_row_idx g - 1) (vsize rows) ltac:(unfold Rn in Hcr; lia)) as Hm'.
    rewrite off_all in Hm'. lia. }
  split; [|split; [done|]].
  - exists i, r, j, c. split_and!; try done.
    + apply vget_ok. split; [lia|]. rewrite <- Hc, <- (concat_lookup rows i r j Hi Hj).
      f_equal. unfold off, edges, vsize in Hx. fold i in Hx. lia.
    + apply bool_decide_ext. unfold vsize in *. lia.
  - split; intros Hc'.
    + assert (rp = g_pass_count g) by (unfold x in Hx0; nia). subst rp. unfold x. lia.
    + assert (rp = g_pass_count g + 1) by (unfold x in Hx0; nia). subst rp. unfold x. lia.
Qed.

Hypothesis Hrp : vget (row_ptr env) id = Ok (offsets rows).
Hypothesis Hci : vget (col_idx env) id = Ok (concat rows).

(** Going on to the next edge inside a pass. *)
Definition step_edge (g : GraphReader) : GraphReader :=
  g <| cur_col_idx := cur_col_idx g + 1 |> <| cur_val_idx := cur_val_idx g + 1 |>
    <| remain_edge := remain_edge g - 1 |>.

Definition wrap_col (g : GraphReader) : GraphReader :=
  g <| cur_col_idx := 0 |> <| cur_val_idx := 0 |>
    <| col_overflow := col_overflow g - 1 |> <| val_overflow := val_overflow g - 1 |>
    <| g_pass_count := g_pass_count g + 1 |>.

(** [NextFeature] after the row loop. *)
Definition emit (g : GraphReader) : outcome (EdgeInfo * GraphReader) :=
  if decide (remain_edge g > 0 /\
             (cur_col_idx g < col_end_idx g \/ col_overflow g > 0) /\
             (cur_val_idx g < val_end_idx g \/ val_overflow g > 0)) then
    let at_end := bool_decide (cur_col_idx g = En) in
    let g := if at_end && bool_decide (col_overflow g > 0) then wrap_col g else g in
    if at_end && bool_decide (g_pass_count g = nbf)
    then Ok (no_edge id, g <| pass_over := true |>)
    else
      dst ← vget (concat rows) (cur_col_idx g);
      Ok (mkEdgeInfo id (bool_decide (remain_edge g - 1 = 0)) dst (g_pass_count g), step_edge g)
  else Ok (no_edge id, g).

Lemma NextFeature_emit g :
  ~ (cur_col_idx g = En /\ g_pass_count g = nbf - 1) ->
  NextFeature env id g =
    (g ← (if decide (cur_row_idx g < row_end_idx g \/ row_overflow g > 0)
          then skip_rows (skip_fuel (offsets rows) g) (offsets rows) g else Ok g);
     emit g).
Proof.
  intros Hn. unfold NextFeature. rewrite Hrp, Hci. cbn [mbind outcome_bind].
  by rewrite decide_False.
Qed.

Lemma step_edge_inv kr kc kv rp g :
  gr_inv kr kc kv rp g -> 0 < remain_edge g -> cur_col_idx g < En ->
  (cur_col_idx g < col_end_idx g \/ col_overflow g > 0) -> gr_inv kr kc kv rp (step_edge g).
Proof. intros I Hr Hc Ha. destruct I. split; simpl; try done; lia. Qed.

Lemma wrap_col_inv kr kc kv rp g :
  gr_inv kr kc kv rp g -> cur_col_idx g = En -> g_pass_count g <> nbf - 1 ->
  col_overflow g > 0 -> (cur_val_idx g < val_end_idx g \/ val_overflow g > 0) ->
  gr_inv kr kc kv rp (wrap_col g) /\ 0 < col_end_idx g.
Proof.
  intros I Hc Hg Ho Hv. pose proof (gi_pass _ _ _ _ _ I) as Hp.
  pose proof (arrived_wrapped En _ _ _ _ (gi_cols _ _ _ _ _ I) ltac:(lia)) as Hce.
  unfold CACHE_LINE_COUNT in Hce.
  assert (Hve : val_end_idx g <= En).
  { pose proof (gi_vals _ _ _ _ _ I) as H. destruct (gnn_mode _); [|lia].
    apply arrived_range in H; lia. }
  destruct I. split; [|lia]. split; simpl; try done; try lia.
  - replace (col_overflow g - 1 + (g_pass_count g + 1)) with (col_overflow g + g_pass_count g) by lia. done.
  - replace (val_overflow g - 1 + (g_pass_count g + 1)) with (val_overflow g + g_pass_count g) by lia. done.
Qed.

Lemma emit_ok kr kc kv rp g :
  gr_inv kr kc kv rp g -> ~ (cur_col_idx g = En /\ g_pass_count g = nbf - 1) ->
  let ready := 0 < remain_edge g /\ (cur_col_idx g < col_end_idx g \/ col_overflow g > 0) /\
               (cur_val_idx g < val_end_idx g \/ val_overflow g > 0) in
  (~ ready /\ emit g = Ok (no_edge id, g)) \/
  (ready /\ exists ei g', emit g = Ok (ei, g') /\ gr_inv kr kc kv rp g' /\
     stream !! Z.to_nat (passed g) = Some ei /\ passed g' = passed g + 1 /\ pass_over g' = pass_over g).
Proof.
  intros I Hn ready. unfold emit. destruct (decide _) as [(Hr & Hc & Hv)|Hd].
  2: { left. split; [|done]. unfold ready. intros (? & ? & ?). apply Hd. split_and!; try done. lia. }
  right. split; [unfold ready; split_and!; try done; lia|].
  destruct (in_row _ _ _ _ _ I ltac:(lia)) as ((i & r & j & c & Hi & Hj & Hx & Hcx & Hl) & Hx0 & Hlt & Heq).
  pose proof (gi_pass _ _ _ _ _ I) as Hp. pose proof (gi_cur_col _ _ _ _ _ I) as Hcc.
  destruct (decide (cur_col_idx g = En)) as [HE|HE].
  - destruct (Heq HE) as [Ex Erp]. rewrite bool_decide_eq_true_2 by done.
    assert (Hce : col_end_idx g <= En).
    { pose proof (arrived_range En HEn _ _ _ _ (gi_cols _ _ _ _ _ I)). lia. }
    rewrite (bool_decide_eq_true_2 (col_overflow g > 0)) by lia. cbn [andb].
    destruct (wrap_col_inv _ _ _ _ _ I HE ltac:(lia) ltac:(lia) Hv) as [Iw Hpos].
    rewrite bool_decide_eq_false_2 by (simpl; lia).
    assert (E0 : cur_col_idx (wrap_col g) = 0) by done. rewrite E0.
    rewrite Ex in Hcx. rewrite Hcx. cbn [mbind outcome_bind].
    eexists _, (step_edge (wrap_col g)). split; [reflexivity|]. split_and!.
    + apply step_edge_inv; simpl; try done; lia.
    + simpl. rewrite <- Hl. unfold passed. rewrite HE.
      replace (g_pass_count g * En + En) with ((g_pass_count g + 1) * En + edges (take i rows) + Z.of_nat j) by lia.
      apply stream_lookup; done || lia.
    + unfold passed. simpl. lia.
    + done.
  - destruct (Hlt ltac:(lia)) as [Ex Erp]. rewrite bool_decide_eq_false_2 by done. cbn [andb].
    rewrite Ex in Hcx. rewrite Hcx. cbn [mbind outcome_bind].
    eexists _, (step_edge g). split; [reflexivity|]. split_and!.
    + apply step_edge_inv; try done; lia.
    + simpl. rewrite <- Hl. unfold passed.
      replace (g_pass_count g * En + cur_col_idx g) with (g_pass_count g * En + edges (take i rows) + Z.of_nat j) by lia.
      apply stream_lookup; done || lia.
    + unfold passed. simpl. lia.
    + done.
Qed.

(** Every line of every pass has arrived. *)
Definition all_arrived (kr kc kv : Z) : Prop :=
  kr = nbf * cdiv Rn CACHE_LINE_COUNT /\ kc = nbf * cdiv En CACHE_LINE_COUNT /\
  (gnn_mode (arch_info env) = GCN -> kv = nbf * cdiv En CACHE_LINE_COUNT).

Lemma passed_bound kr kc kv rp g : gr_inv kr kc kv rp g -> 0 <= passed g <= nbf * En.
Proof. intros []. unfold passed. nia. Qed.

Lemma col_ready kr kc kv rp g :
  gr_inv kr kc kv rp g -> all_arrived kr kc kv -> passed g < nbf * En ->
  (cur_col_idx g < col_end_idx g \/ col_overflow g > 0) /\
  (cur_val_idx g < val_end_idx g \/ val_overflow g > 0).
Proof.
  intros I (_ & Hkc & Hkv) Hp. unfold passed in Hp.
  destruct (arrived_all En HEn nbf _ _ _ _ (gi_cols _ _ _ _ _ I) Hbf Hkc) as (E1 & E2 & _).
  pose proof (gi_vals _ _ _ _ _ I) as Hv. destruct I.
  assert (cur_col_idx g < En \/ g_pass_count g < nbf - 1) by nia.
  split; [lia|]. destruct (gnn_mode (arch_info env)); [|lia].
  destruct (arrived_all En HEn nbf _ _ _ _ Hv Hbf (Hkv eq_refl)) as (E3 & E4 & _). lia.
Qed.

Lemma next_feature_inv kr kc kv rp g :
  gr_inv kr kc kv rp g ->
  exists ei g' rp', NextFeature env id g = Ok (ei, g') /\ gr_inv kr kc kv rp' g' /\
    ((passed g = nbf * En /\ ei = no_edge id /\ passed g' = passed g /\ pass_over g' = true) \/
     (passed g < nbf * En /\ pass_over g' = pass_over g /\
      ((ei = no_edge id /\ passed g' = passed g /\ ~ all_arrived kr kc kv) \/
       (stream !! Z.to_nat (passed g) = Some ei /\ passed g' = passed g + 1)))).
Proof.
  intros I. destruct (decide (cur_col_idx g = En /\ g_pass_count g = nbf - 1)) as [[Hc Hg]|Hn].
  - exists (no_edge id), (g <| pass_over := true |>), rp. split.
    { unfold NextFeature. rewrite Hrp, Hci. cbn [mbind outcome_bind]. by rewrite decide_True. }
    split; [by destruct I|]. left. unfold passed. simpl. split_and!; try done. lia.
  - rewrite (NextFeature_emit g Hn).
    assert (Hlt : passed g < nbf * En) by (destruct I; unfold passed; nia).
    assert (Hrow : exists g1 rp1,
      (if decide (cur_row_idx g < row_end_idx g \/ row_overflow g > 0)
       then skip_rows (skip_fuel (offsets rows) g) (offsets rows) g else Ok g) = Ok g1 /\
      gr_inv kr kc kv rp1 g1 /\ passed g1 = passed g /\ cur_col_idx g1 = cur_col_idx g /\
      g_pass_count g1 = g_pass_count g /\ pass_over g1 = pass_over g /\
      (0 < remain_edge g1 \/ (row_overflow g1 = 0 /\ row_end_idx g1 <= cur_row_idx g1))).
    { destruct (decide _) as [Ha|Ha].
      - destruct (skip_rows_ok kr kc kv (skip_fuel (offsets rows) g) rp g I Ha)
          as (g1 & rp1 & Hs & I1 & (a & b & c & E1) & _ & Hpost).
        { unfold skip_fuel. rewrite vsize_offsets. fold Rn. destruct I. nia. }
        exists g1, rp1. split; [done|]. split; [done|].
        assert (passed g1 = passed g /\ cur_col_idx g1 = cur_col_idx g /\
          g_pass_count g1 = g_pass_count g /\ pass_over g1 = pass_over g) by (by subst g1).
        split_and!; [naive_solver..|]. lia.
      - exists g, rp. split_and!; try done. pose proof (gi_row_overflow _ _ _ _ _ I). lia. }
    destruct Hrow as (g1 & rp1 & -> & I1 & Hp1 & Hc1 & Hg1 & Ho1 & Hpost). cbn [mbind outcome_bind].
    destruct (emit_ok _ _ _ _ _ I1 ltac:(lia)) as [[Hnr ->]|(_ & ei & g' & -> & I' & Hst & Hp' & Ho')].
    + exists (no_edge id), g1, rp1. split; [done|]. split; [done|]. right. split_and!; try done.
      left. split_and!; try done. intros Hall. apply Hnr.
      split; [|apply (col_ready _ _ _ _ _ I1 Hall); lia].
      destruct Hpost as [|[Ho He]]; [done|]. destruct Hall as (Hkr & _ & _). pose proof rows_nonempty.
      destruct (arrived_all Rn ltac:(lia) nbf _ _ _ _ (gi_rows _ _ _ _ _ I1) Hbf Hkr) as (E1 & E2 & _).
      pose proof (gi_cur_row _ _ _ _ _ I1). pose proof (gi_sync _ _ _ _ _ I1) as Hs.
      replace (cur_row_idx g1 - 1) with (vsize rows) in Hs by (unfold Rn in *; lia).
      rewrite off_all in Hs. unfold passed in Hp1, Hlt. rewrite Hc1, Hg1 in Hs. nia.
    + exists ei, g', rp1. split; [done|]. split; [done|]. right. rewrite Hp1 in Hst.
      split_and!; [done|congruence|]. right. split; [done|lia].
Qed.

Lemma receive_inv kr kc kv rp g t :
  gr_inv kr kc kv rp g ->
  exists g', receive env id t g = Ok g' /\ passed g' = passed g /\ pass_over g' = pass_over g /\
    gr_inv (kr + (if decide (t = Common.Row) then 1 else 0))
           (kc + (if decide (t = Common.Column) then 1 else 0))
           (kv + (if decide (t = Common.Value) then 1 else 0)) rp g'.
Proof.
  intros I. pose proof rows_nonempty as Hrn. unfold receive. rewrite Hrp, Hci. cbn [mbind outcome_bind].
  eexists. split; [reflexivity|].
  assert (Hover : forall (b : bool) g1, (passed g1 = passed g /\ pass_over g1 = pass_over g) ->
    gr_inv (kr + (if decide (t = Common.Row) then 1 else 0))
           (kc + (if decide (t = Common.Column) then 1 else 0))
           (kv + (if decide (t = Common.Value) then 1 else 0)) rp g1 ->
    let g' := if b then g1 <| reci_over := true |> else g1 in
    passed g' = passed g /\ pass_over g' = pass_over g /\
    gr_inv (kr + (if decide (t = Common.Row) then 1 else 0))
           (kc + (if decide (t = Common.Column) then 1 else 0))
           (kv + (if decide (t = Common.Value) then 1 else 0)) rp g').
  { intros b g1 [Hp Ho] I1. destruct b; simpl; (split; [done|split; [done|]]); [by destruct I1|done]. }
  assert (HR : vsize (offsets rows) = Rn) by apply vsize_offsets.
  assert (HE : vsize (concat rows) = En) by done. rewrite HR, HE.
  apply Hover; clear Hover.
  - destruct t; repeat case_match; split; reflexivity.
  - destruct t; simpl.
    + destruct (advance Rn (row_end_idx g) (row_overflow g) (v_reci_count g)) as [[e o] c] eqn:Ha.
      assert (Hrow := arrived_advance Rn ltac:(lia) _ _ _ _ _ _ _ _ (gi_rows _ _ _ _ _ I) Ha).
      assert (Hcmp : row_overflow g <= o /\ (o = 0 -> row_end_idx g <= e)).
      { pose proof (arrived_range Rn ltac:(lia) _ _ _ _ (gi_rows _ _ _ _ _ I)).
        pose proof (gi_row_overflow _ _ _ _ _ I).
        unfold advance, CACHE_LINE_COUNT in Ha. repeat case_decide; injection Ha as <- <- <-; lia. }
      rewrite !Z.add_0_r. destruct I. split; simpl; try done; lia.
    + destruct (advance En (col_end_idx g) (col_overflow g) (e_reci_count g)) as [[e o] c] eqn:Ha.
      assert (Hcol := arrived_advance En HEn _ _ _ _ _ _ _ _ (gi_cols _ _ _ _ _ I) Ha).
      assert (Hcmp : col_overflow g <= o /\ (o = 0 -> col_end_idx g <= e)).
      { pose proof (arrived_range En HEn _ _ _ _ (gi_cols _ _ _ _ _ I)).
        pose proof (gi_col_overflow _ _ _ _ _ I).
        unfold advance, CACHE_LINE_COUNT in Ha. repeat case_decide; injection Ha as <- <- <-; lia. }
      rewrite !Z.add_0_r. destruct I. split; simpl; try done; lia.
    + destruct (advance En (val_end_idx g) (val_overflow g) (val_reci_count g)) as [[e o] c] eqn:Ha.
      assert (Hcmp : val_overflow g <= o /\ e <= En).
      { pose proof (gi_val_overflow _ _ _ _ _ I).
        unfold advance, CACHE_LINE_COUNT in Ha. repeat case_decide; injection Ha as <- <- <-; lia. }
      rewrite !Z.add_0_r. pose proof (gi_vals _ _ _ _ _ I) as Hv. destruct I. split; simpl; try done; try lia.
      destruct (gnn_mode (arch_info env)); [|lia].
      by apply (arrived_advance En HEn _ _ _ _ _ _ _ _ Hv Ha).
    + by rewrite !Z.add_0_r.
Qed.

(** The requests do not touch the reading side. *)
Definition same_side (g g' : GraphReader) : Prop :=
  row_end_idx g' = row_end_idx g /\ col_end_idx g' = col_end_idx g /\ val_end_idx g' = val_end_idx g /\
  cur_row_idx g' = cur_row_idx g /\ cur_col_idx g' = cur_col_idx g /\ cur_val_idx g' = cur_val_idx g /\
  row_overflow g' = row_overflow g /\ col_overflow g' = col_overflow g /\
  val_overflow g' = val_overflow g /\ remain_edge g' = remain_edge g /\
  v_reci_count g' = v_reci_count g /\ e_reci_count g' = e_reci_count g /\
  val_reci_count g' = val_reci_count g /\ g_pass_count g' = g_pass_count g /\ pass_over g' = pass_over g.

Lemma same_side_inv kr kc kv rp g g' :
  same_side g g' -> gr_inv kr kc kv rp g -> gr_inv kr kc kv rp g' /\ passed g' = passed g.
Proof.
  intros (E1 & E2 & E3 & E4 & E5 & E6 & E7 & E8 & E9 & E10 & E11 & E12 & E13 & E14 & _) [].
  split; [|unfold passed; congruence].
  split; rewrite ?E1, ?E2, ?E3, ?E4, ?E5, ?E6, ?E7, ?E8, ?E9, ?E10, ?E11, ?E12, ?E13, ?E14; done.
Qed.

Lemma VertexRequest_side {D} (m m' : Memory D) g g' :
  VertexRequest env id m g = Ok (m', g') -> same_side g g'.
Proof.
  unfold VertexRequest. destruct (WillAcceptTransaction m); [|by intros [= <- <-]].
  intros H. apply bind_ok in H as (d & _ & H). repeat case_decide; injection H as <- <-; done.
Qed.

Lemma EdgeRequest_side {D} (m m' : Memory D) g g' :
  EdgeRequest env id m g = Ok (m', g') -> same_side g g'.
Proof.
  unfold EdgeRequest. destruct (WillAcceptTransaction m); [|by intros [= <- <-]].
  intros H. apply bind_ok in H as (d & _ & H).
  destruct (gnn_mode _); repeat case_decide; injection H as <- <-; done.
Qed.

(** The states of a reader: [kr], [kc], [kv] replies of each kind have arrived
    and [out] has been passed to the feature reader, in any order of requests,
    replies and [NextFeature] calls.  A result with [dst = -1] is not passed on. *)
Inductive gr_run {D} : Z -> Z -> Z -> list EdgeInfo -> GraphReader -> Prop :=
  | gr_new g : GraphReader_new env id = Ok g -> gr_run 0 0 0 [] g
  | gr_vertex kr kc kv out g (m m' : Memory D) g' :
      gr_run kr kc kv out g -> VertexRequest env id m g = Ok (m', g') -> gr_run kr kc kv out g'
  | gr_edge kr kc kv out g (m m' : Memory D) g' :
      gr_run kr kc kv out g -> EdgeRequest env id m g = Ok (m', g') -> gr_run kr kc kv out g'
  | gr_receive kr kc kv out g t g' :
      gr_run kr kc kv out g -> receive env id t g = Ok g' ->
      gr_run (kr + (if decide (t = Common.Row) then 1 else 0))
             (kc + (if decide (t = Common.Column) then 1 else 0))
             (kv + (if decide (t = Common.Value) then 1 else 0)) out g'
  | gr_next kr kc kv out g ei g' :
      gr_run kr kc kv out g -> NextFeature env id g = Ok (ei, g') ->
      gr_run kr kc kv (if decide (ei_dst ei = -1) then out else out ++ [ei]) g'.

Hypothesis Hcols : forall r c, r ∈ rows -> c ∈ r -> 0 <= c.

Lemma stream_dst k ei : stream !! k = Some ei -> ei_dst ei <> -1.
Proof.
  intros H%list_elem_of_lookup_2. unfold stream in H.
  apply list_elem_of_In, in_concat in H as (l & Hl & H).
  apply list_elem_of_In, list_elem_of_fmap in Hl as (f & -> & _).
  apply in_concat in H as (l & Hl & H).
  apply list_elem_of_In, list_elem_of_fmap in Hl as (r & -> & Hr).
  apply list_elem_of_In, list_elem_of_lookup_1 in H as (j & Hj).
  unfold row_stream in Hj. rewrite list_lookup_imap in Hj.
  destruct (r !! j) as [c|] eqn:Hc; [|done]. injection Hj as <-. simpl.
  specialize (Hcols r c Hr (list_elem_of_lookup_2 _ _ _ Hc)). lia.
Qed.

Lemma gr_new_inv g : GraphReader_new env id = Ok g -> gr_inv 0 0 0 0 g /\ passed g = 0 /\ pass_over g = false.
Proof.
  intros H. pose proof rows_nonempty. unfold GraphReader_new in H. apply bind_ok in H as (d & _ & H).
  destruct (gnn_mode (arch_info env)) eqn:Hm.
  - injection H as <-. split; [|done].
    split; simpl; rewrite ?Hm; try done; try lia; try apply arrived_0. 
  - rewrite Hci in H. injection H as <-. split; [|done].
    split; simpl; rewrite ?Hm; try done; try lia; try apply arrived_0.
    change (vsize (concat rows)) with En. fold nbf. lia.
Qed.

(** What holds of every state of a run. *)
Lemma gr_run_inv {D} kr kc kv out g :
  gr_run (D := D) kr kc kv out g ->
  (exists rp, gr_inv kr kc kv rp g) /\ out = take (Z.to_nat (passed g)) stream /\
  (pass_over g = true -> passed g = nbf * En).
Proof.
  induction 1 as [g Hn|kr kc kv out g m m' g' _ IH Hs|kr kc kv out g m m' g' _ IH Hs
                 |kr kc kv out g t g' _ IH Hr|kr kc kv out g ei g' _ IH Hn].
  - destruct (gr_new_inv g Hn) as (I & Hp & Ho). rewrite Hp, Ho. split; [eauto|done].
  - apply VertexRequest_side in Hs as Hs'. destruct IH as ([rp I] & Ho & Hpo).
    destruct (same_side_inv _ _ _ _ _ _ Hs' I) as [I' Hp]. rewrite Hp. split; [eauto|].
    split; [done|]. intros E. apply Hpo. unfold same_side in Hs'. intuition congruence.
  - apply EdgeRequest_side in Hs as Hs'. destruct IH as ([rp I] & Ho & Hpo).
    destruct (same_side_inv _ _ _ _ _ _ Hs' I) as [I' Hp]. rewrite Hp. split; [eauto|].
    split; [done|]. intros E. apply Hpo. unfold same_side in Hs'. intuition congruence.
  - destruct IH as ([rp I] & Ho & Hpo). destruct (receive_inv _ _ _ _ _ t I) as (g1 & Hg1 & Hp & Hov & I').
    rewrite Hg1 in Hr. injection Hr as <-. rewrite Hp, Hov. eauto.
  - destruct IH as ([rp I] & Ho & Hpo).
    destruct (next_feature_inv _ _ _ _ _ I) as (ei1 & g1 & rp' & Hn1 & I' & Hcase).
    rewrite Hn1 in Hn. injection Hn as <- <-. split; [eauto|].
    destruct Hcase as [(Hp & -> & Hp' & _)|(Hlt & Hov & [(-> & Hp' & _)|(Hst & Hp')])]; rewrite Hp'.
    + rewrite decide_True by done. split; [done|]. intros _. exact Hp.
    + rewrite decide_True by done. split; [done|]. rewrite Hov. exact Hpo.
    + rewrite decide_False by (by eapply stream_dst). pose proof (passed_bound _ _ _ _ _ I).
      split.
      * rewrite Ho. replace (Z.to_nat (passed g + 1)) with (S (Z.to_nat (passed g))) by lia.
        symmetry. by apply take_S_r.
      * rewrite Hov. intros Hx. apply Hpo in Hx. lia.
Qed.

(** Calling [NextFeature] [n] times, keeping the edges it passes on. *)
Fixpoint drain (n : nat) (g : GraphReader) : outcome (list EdgeInfo * GraphReader) :=
  match n with
  | O => Ok ([], g)
  | S n =>
      '(ei, g) ← NextFeature env id g;
      '(out, g) ← drain n g;
      Ok (if decide (ei_dst ei = -1) then out else ei :: out, g)
  end.

Lemma drain_all kr kc kv rp g n :
  gr_inv kr kc kv rp g -> all_arrived kr kc kv -> passed g + Z.of_nat n <= nbf * En ->
  exists g' rp', drain n g = Ok (take n (drop (Z.to_nat (passed g)) stream), g') /\
    gr_inv kr kc kv rp' g' /\ passed g' = passed g + Z.of_nat n.
Proof.
  revert rp g. induction n as [|n IH]; intros rp g I Ha Hn.
  { exists g, rp. split; [done|]. split; [done|lia]. }
  pose proof (passed_bound _ _ _ _ _ I) as Hb.
  destruct (next_feature_inv _ _ _ _ _ I) as (ei & g1 & rp1 & Hn1 & I1 & Hcase).
  destruct Hcase as [(Hp & _)|(Hlt & _ & [(_ & _ & Hna)|(Hst & Hp1)])]; [lia|done|].
  destruct (IH rp1 g1 I1 Ha ltac:(lia)) as (g' & rp' & Hd & I' & Hp').
  exists g', rp'. cbn [drain]. rewrite Hn1. cbn [mbind outcome_bind]. rewrite Hd. cbn [mbind outcome_bind].
  rewrite decide_False by (by eapply stream_dst). split; [|split; [done|lia]].
  do 2 f_equal. rewrite Hp1. replace (Z.to_nat (passed g + 1)) with (S (Z.to_nat (passed g))) by lia.
  by rewrite (drop_S stream ei (Z.to_nat (passed g))) by done.
Qed.
End stream.

(** ** The request addresses *)
Section requests.
Context (env : Env) (id : Z) (d : DataIndex) (Lr Lc : Z).
Let nbf : Z := bf (arch_info env).
Hypothesis Hbf : 0 < nbf.
Hypothesis Hd : vget (data_index env) id = Ok d.
Hypothesis HLr : 0 < Lr.
Hypothesis HLc : 0 < Lc.
Hypothesis Hrow : 0 <= row_addr_start d /\ row_addr_end d = row_addr_start d + CACHE_LINE_BYTE * Lr /\
  row_addr_end d < 2 ^ 64.
Hypothesis Hcol : 0 <= col_addr_start d /\ col_addr_end d = col_addr_start d + CACHE_LINE_BYTE * Lc /\
  col_addr_end d < 2 ^ 64.
Hypothesis Hval : 0 <= value_addr_start d /\ value_addr_end d = value_addr_start d + CACHE_LINE_BYTE * Lc /\
  value_addr_end d < 2 ^ 64.

(** Line [k] of an array of [L] lines read over and over. *)
Definition line_of (start L k : Z) : Z := start + CACHE_LINE_BYTE * (k mod L).

Lemma line_of_succ start L k :
  0 < L -> 0 <= k ->
  (line_of start L k + CACHE_LINE_BYTE = start + CACHE_LINE_BYTE * L /\
   (k + 1) / L = k / L + 1 /\ line_of start L (k + 1) = start) \/
  (line_of start L k + CACHE_LINE_BYTE <> start + CACHE_LINE_BYTE * L /\
   line_of start L k + CACHE_LINE_BYTE < start + CACHE_LINE_BYTE * L /\
   (k + 1) / L = k / L /\ line_of start L (k + 1) = line_of start L k + CACHE_LINE_BYTE).
Proof.
  intros HL Hk. unfold line_of, CACHE_LINE_BYTE. pose proof (Z.div_mod k L ltac:(lia)) as Hdm.
  pose proof (Z.mod_pos_bound k L HL) as Hm.
  destruct (decide (k mod L = L - 1)) as [E|E].
  - left. assert ((k + 1) / L = k / L + 1 /\ (k + 1) mod L = 0) as [-> ->]; [|lia].
    split; symmetry; [apply (Z.div_unique _ _ _ 0)|apply (Z.mod_unique _ _ (k / L + 1))]; try left; lia.
  - right. assert ((k + 1) / L = k / L /\ (k + 1) mod L = k mod L + 1) as [-> ->]; [|lia].
    split; symmetry; [apply (Z.div_unique _ _ _ (k mod L + 1))|apply (Z.mod_unique _ _ (k / L))]; try left; lia.
Qed.

(** The request side after [kr] row-pointer and [kc] column-index requests. *)
Record req_inv (kr kc : Z) (g : GraphReader) : Prop := {
  ri_v : 0 <= kr <= nbf * Lr;
  ri_v_addr : next_v_addr g = line_of (row_addr_start d) Lr kr;
  ri_v_count : v_req_count g = kr / Lr;
  ri_v_over : v_req_over g = bool_decide (kr = nbf * Lr);
  ri_e : 0 <= kc <= nbf * Lc;
  ri_e_addr : next_e_addr g = line_of (col_addr_start d) Lc kc;
  ri_val_addr : gnn_mode (arch_info env) = GCN -> next_val_addr g = line_of (value_addr_start d) Lc kc;
  ri_e_count : e_req_count g = kc / Lc;
  ri_e_over : e_req_over g = bool_decide (kc = nbf * Lc)
}.

Lemma copies_done L k : 0 < L -> 0 <= k <= nbf * L -> k / L = nbf -> k = nbf * L.
Proof. intros HL Hk Hq. pose proof (Z.mul_div_le k L HL). nia. Qed.

Lemma not_done L k : 0 < L -> 0 <= k -> k < nbf * L -> (k + 1) / L = k / L -> k + 1 <> nbf * L.
Proof.
  intros HL Hk Hlt Hq E. rewrite E, Z.div_mul in Hq by lia.
  pose proof (Z.div_lt_upper_bound k L nbf HL ltac:(lia)). lia.
Qed.

Lemma line_of_range start L k :
  0 < L -> start <= line_of start L k /\ line_of start L k + CACHE_LINE_BYTE <= start + CACHE_LINE_BYTE * L.
Proof.
  intros HL. unfold line_of, CACHE_LINE_BYTE. pose proof (Z.mod_pos_bound k L HL). lia.
Qed.

Lemma vertex_request_step {D} (m : Memory D) g kr kc :
  req_inv kr kc g -> v_req_over g = false -> WillAcceptTransaction m = true ->
  exists g', VertexRequest env id m g =
      Ok (AddTransaction (mkTransaction (line_of (row_addr_start d) Lr kr) READ) m, g') /\
    req_inv (kr + 1) kc g'.
Proof.
  intros I Ho Hw. destruct I. rewrite Ho in ri_v_over0. symmetry in ri_v_over0.
  apply bool_decide_eq_false in ri_v_over0. unfold VertexRequest. rewrite Hw, Hd.
  cbn [mbind outcome_bind].
  pose proof (line_of_range (row_addr_start d) Lr kr HLr) as Hr.
  destruct Hrow as (H0 & H1 & H2).
  assert (Uv : u64 (next_v_addr g + CACHE_LINE_BYTE) = line_of (row_addr_start d) Lr kr + CACHE_LINE_BYTE)
    by (rewrite ri_v_addr0; apply u64_small; unfold CACHE_LINE_BYTE in *; lia).
  simpl. rewrite Uv, ri_v_addr0.
  destruct (line_of_succ (row_addr_start d) Lr kr HLr ltac:(lia)) as [(E1 & E2 & E3)|(E1 & E1' & E2 & E3)].
  - rewrite decide_True by lia. eexists. split; [reflexivity|].
    destruct (decide (v_req_count g + 1 = bf (arch_info env))) as [Hc|Hc]; (split; simpl; try done; try lia).
    + symmetry. apply bool_decide_eq_true. apply copies_done; [done|lia|]. unfold nbf. lia.
    + rewrite Ho. symmetry. apply bool_decide_eq_false. intros E. apply Hc. rewrite ri_v_count0.
      rewrite <- E2, E, Z.div_mul by lia. done.
  - rewrite decide_False by lia. eexists. split; [reflexivity|]. split; simpl; try done; try lia.
    rewrite Ho. symmetry. apply bool_decide_eq_false. apply not_done; done || lia.
Qed.

(** The transactions of one [EdgeRequest]: the column line and, for GCN, the value line. *)
Definition edge_lines (kc : Z) : list Transaction :=
  mkTransaction (line_of (col_addr_start d) Lc kc) READ ::
  match gnn_mode (arch_info env) with
  | GCN => [mkTransaction (line_of (value_addr_start d) Lc kc) READ]
  | OTHER => []
  end.

Lemma edge_request_step {D} (m : Memory D) g kr kc :
  req_inv kr kc g -> e_req_over g = false -> WillAcceptTransaction m = true ->
  exists g', EdgeRequest env id m g =
      Ok (fold_left (fun m t => AddTransaction t m) (edge_lines kc) m, g') /\
    req_inv kr (kc + 1) g'.
Proof.
  intros I Ho Hw. destruct I. rewrite Ho in ri_e_over0. symmetry in ri_e_over0.
  apply bool_decide_eq_false in ri_e_over0. unfold EdgeRequest, edge_lines. rewrite Hw, Hd.
  cbn [mbind outcome_bind].
  pose proof (line_of_range (col_addr_start d) Lc kc HLc) as Hr.
  pose proof (line_of_range (value_addr_start d) Lc kc HLc) as Hr'.
  destruct Hcol as (H0 & H1 & H2), Hval as (H0' & H1' & H2').
  assert (Ue : u64 (next_e_addr g + CACHE_LINE_BYTE) = line_of (col_addr_start d) Lc kc + CACHE_LINE_BYTE)
    by (rewrite ri_e_addr0; apply u64_small; unfold CACHE_LINE_BYTE in *; lia).
  pose proof (line_of_succ (col_addr_start d) Lc kc HLc ltac:(lia)) as Hs.
  assert (over_split : forall g1 g2 : GraphReader,
    (kc + 1) / Lc = kc / Lc + 1 ->
    (e_req_count g + 1 = bf (arch_info env) -> kc + 1 = nbf * Lc -> req_inv kr (kc + 1) g1) ->
    (e_req_count g + 1 <> bf (arch_info env) -> kc + 1 <> nbf * Lc -> req_inv kr (kc + 1) g2) ->
    req_inv kr (kc + 1) (if decide (e_req_count g + 1 = bf (arch_info env)) then g1 else g2)).
  { intros g1 g2 E2 Hg1 Hg2. destruct (decide _) as [Hc|Hc].
    - apply Hg1; [done|]. apply copies_done; [done|lia|]. unfold nbf. lia.
    - apply Hg2; [done|]. intros E. apply Hc. rewrite ri_e_count0, <- E2, E, Z.div_mul by lia. done. }
  destruct (gnn_mode (arch_info env)) eqn:Hm.
  - specialize (ri_val_addr0 eq_refl).
    assert (Uv : u64 (next_val_addr g + CACHE_LINE_BYTE) = line_of (value_addr_start d) Lc kc + CACHE_LINE_BYTE)
      by (rewrite ri_val_addr0; apply u64_small; unfold CACHE_LINE_BYTE in *; lia).
    pose proof (line_of_succ (value_addr_start d) Lc kc HLc ltac:(lia)) as Hs'.
    simpl. rewrite Ue, Uv, ri_e_addr0, ri_val_addr0.
    destruct Hs as [(E1 & E2 & E3)|(E1 & E1' & E2 & E3)].
    + assert (E3v : line_of (value_addr_start d) Lc (kc + 1) = value_addr_start d) by (unfold line_of in *; lia).
      rewrite decide_True by lia. eexists. split; [reflexivity|].
      apply over_split; [done|..]; intros Hc Hov; (split; simpl; try done; try lia);
        rewrite ?Ho; symmetry; by (apply bool_decide_eq_true || apply bool_decide_eq_false).
    + rewrite decide_False by lia. eexists. split; [reflexivity|].
      split; simpl; try done; try lia.
      rewrite Ho. symmetry. apply bool_decide_eq_false, not_done; done || lia.
  - simpl. rewrite Ue, ri_e_addr0. destruct Hs as [(E1 & E2 & E3)|(E1 & E1' & E2 & E3)].
    + rewrite decide_True by lia. eexists. split; [reflexivity|].
      apply over_split; [done|..]; intros Hc Hov; (split; simpl; rewrite ?Hm; try done; try lia);
        rewrite ?Ho; symmetry; by (apply bool_decide_eq_true || apply bool_decide_eq_false).
    + rewrite decide_False by lia. eexists. split; [reflexivity|].
      split; simpl; rewrite ?Hm; try done; try lia.
      rewrite Ho. symmetry. apply bool_decide_eq_false, not_done; done || lia.
Qed.

(** Receiving and passing on do not touch the request side. *)
Definition same_requests (g g' : GraphReader) : Prop :=
  next_v_addr g' = next_v_addr g /\ next_e_addr g' = next_e_addr g /\
  next_val_addr g' = next_val_addr g /\ v_req_count g' = v_req_count g /\
  e_req_count g' = e_req_count g /\ v_req_over g' = v_req_over g /\ e_req_over g' = e_req_over g.

Lemma same_requests_inv kr kc g g' : same_requests g g' -> req_inv kr kc g -> req_inv kr kc g'.
Proof using Type.
  intros (E1 & E2 & E3 & E4 & E5 & E6 & E7) [].
  split; rewrite ?E1, ?E2, ?E3, ?E4, ?E5, ?E6, ?E7; done.
Qed.

Lemma receive_requests t g g' : receive env id t g = Ok g' -> same_requests g g'.
Proof using Type.
  intros H. unfold receive in H. apply bind_ok in H as (rows & _ & H).
  apply bind_ok in H as (cols & _ & H). injection H as <-.
  destruct t; repeat case_match; unfold same_requests; split_and!; reflexivity.
Qed.

Lemma skip_rows_requests fuel rows g g' : skip_rows fuel rows g = Ok g' -> same_requests g g'.
Proof using Type.
  clear Hrow Hcol Hval.
  revert g. induction fuel as [|fuel IH]; intros g H; [done|]. cbn [skip_rows] in H.
  destruct (decide (remain_edge g = 0)); [|by injection H as <-].
  destruct (decide _); [by injection H as <-|].
  set (g1 := if decide _ then _ else g) in H.
  assert (H1 : same_requests g g1) by (unfold g1; by destruct (decide _)).
  clearbody g1. apply bind_ok in H as (e1 & _ & H). apply bind_ok in H as (e0 & _ & H).
  destruct (decide _); [by injection H as <-|]. apply IH in H.
  unfold same_requests in *. simpl in H. intuition congruence.
Qed.

Lemma NextFeature_requests g ei g' : NextFeature env id g = Ok (ei, g') -> same_requests g g'.
Proof using Type.
  clear Hrow Hcol Hval.
  intros H. unfold NextFeature in H. apply bind_ok in H as (rows & _ & H).
  apply bind_ok in H as (cols & _ & H). destruct (decide _); [by injection H as <- <-|].
  apply bind_ok in H as (g1 & H1 & H).
  assert (Hs : same_requests g g1)
    by (destruct (decide _); [by eapply skip_rows_requests|by injection H1 as <-]).
  clear H1. destruct (decide _); [|by injection H as <- <-].
  set (g2 := if (_ && bool_decide (col_overflow g1 > 0)) then _ else g1) in H.
  assert (Hs2 : same_requests g1 g2) by (unfold g2; by destruct (_ && _)).
  clearbody g2. destruct (_ && _).
  - injection H as <- <-. unfold same_requests in *. simpl. intuition congruence.
  - apply bind_ok in H as (dst & _ & H). injection H as <- <-.
    unfold same_requests in *. simpl. intuition congruence.
Qed.

(** The states of the request side: [rs] and [es] are the transactions that the
    guarded [VertexRequest] and [EdgeRequest] calls have appended to the queue. *)
Inductive req_run {D} : list Transaction -> list Transaction -> GraphReader -> Prop :=
  | rq_new g : GraphReader_new env id = Ok g -> req_run [] [] g
  | rq_vertex rs es g (m m' : Memory D) g' new :
      req_run rs es g -> v_req_over g = false -> VertexRequest env id m g = Ok (m', g') ->
      tq m' = tq m ++ new -> req_run (rs ++ new) es g'
  | rq_edge rs es g (m m' : Memory D) g' new :
      req_run rs es g -> e_req_over g = false -> EdgeRequest env id m g = Ok (m', g') ->
      tq m' = tq m ++ new -> req_run rs (es ++ new) g'
  | rq_receive rs es g t g' : req_run rs es g -> receive env id t g = Ok g' -> req_run rs es g'
  | rq_next rs es g ei g' : req_run rs es g -> NextFeature env id g = Ok (ei, g') -> req_run rs es g'.

Definition row_lines (k : Z) : list Transaction :=
  (fun i => mkTransaction (line_of (row_addr_start d) Lr i) READ) <$> seqZ 0 k.
Definition all_edge_lines (k : Z) : list Transaction := concat (edge_lines <$> seqZ 0 k).

Lemma row_lines_snoc k :
  0 <= k -> row_lines (k + 1) = row_lines k ++ [mkTransaction (line_of (row_addr_start d) Lr k) READ].
Proof. intros. unfold row_lines. by rewrite seqZ_app, fmap_app, Z.add_0_l, seqZ_one by lia. Qed.

Lemma all_edge_lines_snoc k : 0 <= k -> all_edge_lines (k + 1) = all_edge_lines k ++ edge_lines k.
Proof.
  intros. unfold all_edge_lines. rewrite seqZ_app, fmap_app, Z.add_0_l, seqZ_one, concat_app by lia.
  simpl. by rewrite app_nil_r.
Qed.

Lemma fold_add_tq {D} l (m : Memory D) : tq (fold_left (fun m t => AddTransaction t m) l m) = tq m ++ l.
Proof.
  revert m. induction l as [|t l IH]; intros m; simpl; [by rewrite app_nil_r|].
  rewrite IH. simpl. by rewrite <- app_assoc.
Qed.

Lemma append_nothing (l new : list Transaction) : l = l ++ new -> new = [].
Proof. intros H. apply (app_inv_head l). by rewrite app_nil_r. Qed.

Lemma req_run_inv {D} rs es g :
  req_run (D := D) rs es g ->
  exists kr kc, req_inv kr kc g /\ rs = row_lines kr /\ es = all_edge_lines kc.
Proof.
  induction 1 as [g Hn|rs es g m m' g' new _ IH Ho Hv Ht|rs es g m m' g' new _ IH Ho He Ht
                 |rs es g t g' _ IH Hr|rs es g ei g' _ IH Hn].
  - exists 0, 0. split; [|done]. unfold GraphReader_new in Hn. rewrite Hd in Hn.
    assert (0 < nbf * Lr /\ 0 < nbf * Lc) as [H1 H2] by nia.
    assert (F : forall x, line_of x Lr 0 = x /\ line_of x Lc 0 = x)
      by (intros; unfold line_of; rewrite !Z.mod_0_l by lia; lia).
    destruct (F (row_addr_start d)), (F (col_addr_start d)), (F (value_addr_start d)).
    cbn [mbind outcome_bind] in Hn. destruct (gnn_mode (arch_info env)) eqn:Hm.
    + injection Hn as <-. split; simpl; rewrite ?Z.div_0_l by lia; try done; try lia.
      all: symmetry; apply bool_decide_eq_false; lia.
    + apply bind_ok in Hn as (cols & _ & Hn). injection Hn as <-.
      split; simpl; rewrite ?Z.div_0_l, ?Hm by lia; try done; try lia.
      all: symmetry; apply bool_decide_eq_false; lia.
  - destruct IH as (kr & kc & I & -> & ->). destruct (WillAcceptTransaction m) eqn:Hw.
    + destruct (vertex_request_step m g kr kc I Ho Hw) as (g1 & E & I1). rewrite E in Hv.
      injection Hv as <- <-. simpl in Ht. apply app_inv_head in Ht as <-.
      exists (kr + 1), kc. split; [done|]. split; [|done]. rewrite row_lines_snoc; [done|apply I].
    + unfold VertexRequest in Hv. rewrite Hw in Hv. injection Hv as <- <-.
      apply append_nothing in Ht as ->. exists kr, kc. by rewrite app_nil_r.
  - destruct IH as (kr & kc & I & -> & ->). destruct (WillAcceptTransaction m) eqn:Hw.
    + destruct (edge_request_step m g kr kc I Ho Hw) as (g1 & E & I1). rewrite E in He.
      assert (m' = fold_left (fun m t => AddTransaction t m) (edge_lines kc) m /\ g' = g1) as [-> ->]
        by (split; congruence).
      rewrite (fold_add_tq (edge_lines kc)) in Ht. apply app_inv_head in Ht as <-.
      exists kr, (kc + 1). split; [done|]. split; [done|]. rewrite all_edge_lines_snoc; [done|apply I].
    + unfold EdgeRequest in He. rewrite Hw in He. injection He as <- <-.
      apply append_nothing in Ht as ->. exists kr, kc. by rewrite app_nil_r.
  - destruct IH as (kr & kc & I & -> & ->). exists kr, kc. split; [|done].
    by eapply same_requests_inv; [eapply receive_requests|].
  - destruct IH as (kr & kc & I & -> & ->). exists kr, kc. split; [|done].
    by eapply same_requests_inv; [eapply NextFeature_requests|].
Qed.
End requests.

(** ** The properties *)

(** C13: in any interleaving of requests, replies and calls, [NextFeature] never
    reads out of range, and the edges it passes on are, in order, a prefix of
    [bf] copies of the engine's edges, each with the column index, the end mark
    of its row and the number of its pass; once [pass_over] is set the prefix is
    the whole stream. *)
Theorem graph_reader_streams {D : Type} (env : Env) (id : Z) (rows : list (list Z))
    (kr kc kv : Z) (out : list EdgeInfo) (g : GraphReader) :
  0 < bf (arch_info env) -> 0 < edges rows ->
  vget (row_ptr env) id = Ok (offsets rows) -> vget (col_idx env) id = Ok (concat rows) ->
  (forall r c, r ∈ rows -> c ∈ r -> 0 <= c) ->
  gr_run (D := D) env id kr kc kv out g ->
  (exists ei g', NextFeature env id g = Ok (ei, g')) /\
  out `prefix_of` stream env id rows /\
  (pass_over g = true -> out = stream env id rows).
Proof.
  intros Hbf HE Hrp Hci Hc Hr.
  destruct (gr_run_inv env id rows Hbf HE Hrp Hci Hc kr kc kv out g Hr) as ([rp I] & Ho & Hp).
  split; [|split].
  - destruct (next_feature_inv env id rows Hbf HE Hrp Hci _ _ _ _ _ I) as (ei & g' & rp' & Hn & _). eauto.
  - rewrite Ho. apply prefix_take.
  - intros E. rewrite Ho, (Hp E). apply take_ge.
    pose proof (stream_length env id rows ltac:(lia)). lia.
Qed.

(** once every line of every pass has arrived, the reader does not stall:
    the remaining edges come out, one per call, and the call after them sets
    [pass_over]. *)
Theorem graph_reader_completes {D : Type} (env : Env) (id : Z) (rows : list (list Z))
    (kr kc kv : Z) (out : list EdgeInfo) (g : GraphReader) :
  0 < bf (arch_info env) -> 0 < edges rows ->
  vget (row_ptr env) id = Ok (offsets rows) -> vget (col_idx env) id = Ok (concat rows) ->
  (forall r c, r ∈ rows -> c ∈ r -> 0 <= c) ->
  gr_run (D := D) env id kr kc kv out g -> all_arrived env rows kr kc kv ->
  exists rest g' g'',
    drain env id (Z.to_nat (bf (arch_info env) * edges rows) - length out) g = Ok (rest, g') /\
    out ++ rest = stream env id rows /\
    NextFeature env id g' = Ok (no_edge id, g'') /\ pass_over g'' = true.
Proof.
  intros Hbf HE Hrp Hci Hc Hr Ha.
  destruct (gr_run_inv env id rows Hbf HE Hrp Hci Hc kr kc kv out g Hr) as ([rp I] & Ho & Hp).
  pose proof (passed_bound env rows Hbf HE _ _ _ _ _ I) as Hb.
  pose proof (stream_length env id rows ltac:(lia)) as Hl.
  assert (Hlen : Z.of_nat (length out) = passed rows g) by (rewrite Ho, length_take; lia).
  set (n := (Z.to_nat (bf (arch_info env) * edges rows) - length out)%nat).
  destruct (drain_all env id rows Hbf HE Hrp Hci Hc _ _ _ _ _ n I Ha) as (g' & rp' & Hd & I' & Hp').
  { unfold n. lia. }
  destruct (next_feature_inv env id rows Hbf HE Hrp Hci _ _ _ _ _ I')
    as (ei & g'' & rp'' & Hn & _ & [(_ & -> & _ & Hov)|(Hlt & _)]); [|unfold n in Hp'; lia].
  exists (take n (drop (Z.to_nat (passed rows g)) (stream env id rows))), g', g''.
  split_and!; try done. rewrite Ho, (take_ge (drop _ _)) by (rewrite length_drop; unfold n; lia).
  apply take_drop.
Qed.

(** the request side asks for the lines of the engine's own regions only,
    in order, [bf] times over: row-pointer lines by [VertexRequest], column lines
    (each followed by its value line for GCN) by [EdgeRequest]; the [over] flags
    are set exactly when all of them have been requested. *)
Theorem graph_requests_in_order {D : Type} (env : Env) (id : Z) (d : DataIndex) (Lr Lc : Z)
    (rs es : list Transaction) (g : GraphReader) :
  0 < bf (arch_info env) -> vget (data_index env) id = Ok d -> 0 < Lr -> 0 < Lc ->
  (0 <= row_addr_start d /\ row_addr_end d = row_addr_start d + CACHE_LINE_BYTE * Lr /\ row_addr_end d < 2 ^ 64) ->
  (0 <= col_addr_start d /\ col_addr_end d = col_addr_start d + CACHE_LINE_BYTE * Lc /\ col_addr_end d < 2 ^ 64) ->
  (0 <= value_addr_start d /\ value_addr_end d = value_addr_start d + CACHE_LINE_BYTE * Lc /\
   value_addr_end d < 2 ^ 64) ->
  req_run (D := D) env id rs es g ->
  exists kr kc,
    0 <= kr <= bf (arch_info env) * Lr /\ 0 <= kc <= bf (arch_info env) * Lc /\
    rs = row_lines d Lr kr /\ es = all_edge_lines env d Lc kc /\
    (v_req_over g = true <-> kr = bf (arch_info env) * Lr) /\
    (e_req_over g = true <-> kc = bf (arch_info env) * Lc) /\
    Forall (fun t => row_addr_start d <= t_address t < row_addr_end d) rs.
Proof.
  intros Hbf Hd HLr HLc Hrow Hcol Hval Hr.
  destruct (req_run_inv env id d Lr Lc Hbf Hd HLr HLc Hrow Hcol Hval rs es g Hr) as (kr & kc & I & -> & ->).
  exists kr, kc. destruct I. rewrite ri_v_over0, ri_e_over0, !bool_decide_eq_true.
  assert (Forall (fun t => row_addr_start d <= t_address t < row_addr_end d) (row_lines d Lr kr)); [|tauto].
  - unfold row_lines. apply Forall_fmap, Forall_forall. intros k _. simpl.
    pose proof (Z.mod_pos_bound k Lr HLr). unfold line_of, CACHE_LINE_BYTE in *. lia.
Qed.

(** ** Witnesses: engine 1 of the two-engine environment, rows [[0]; [3; 0]] *)
Definition demo_gr : GraphReader :=
  mkGraphReader 0 0 0 1 0 0 0 0 0 0 192 320 64 false false false false false false false 0 0 0 0 0 0.

Lemma demo_gr_new : GraphReader_new demo_env 1 = Ok demo_gr.
Proof. reflexivity. Qed.

Definition demo_ready : GraphReader :=
  mkGraphReader 3 3 3 1 0 0 0 0 0 0 192 320 64 false false true true true true false 0 0 1 1 1 0.

Lemma demo_ready_run : gr_run (D := IdealDRAMSystem) demo_env 1 1 1 1 [] demo_ready.
Proof.
  refine (gr_receive demo_env 1 1 1 0 [] _ Common.Value _ _ _);
    [refine (gr_receive demo_env 1 1 0 0 [] _ Common.Column _ _ _);
      [refine (gr_receive demo_env 1 0 0 0 [] _ Common.Row _ _ _);
        [apply gr_new, demo_gr_new|]|]|]; vm_compute; reflexivity.
Qed.

Lemma demo_cols (r : list Z) (c : Z) : r ∈ [[0]; [3; 0]] -> c ∈ r -> 0 <= c.
Proof.
  intros Hr Hc. repeat (apply elem_of_cons in Hr as [->|Hr];
    [repeat (apply elem_of_cons in Hc as [->|Hc]; [lia|]); by apply not_elem_of_nil in Hc|]).
  by apply not_elem_of_nil in Hr.
Qed.

Lemma graph_reader_streams_witness :
  exists ei g', NextFeature demo_env 1 demo_ready = Ok (ei, g') /\ [] `prefix_of` stream demo_env 1 [[0]; [3; 0]].
Proof.
  destruct (graph_reader_streams demo_env 1 [[0]; [3; 0]] 1 1 1 [] demo_ready
    eq_refl eq_refl eq_refl eq_refl demo_cols demo_ready_run) as ((ei & g' & Hn) & Hp & _).
  exists ei, g'. split; [exact Hn|exact Hp].
Defined.

Lemma graph_reader_completes_witness :
  exists rest g', drain demo_env 1 3 demo_ready = Ok (rest, g') /\
    rest = [mkEdgeInfo 1 true 0 0; mkEdgeInfo 1 false 3 0; mkEdgeInfo 1 true 0 0].
Proof.
  destruct (graph_reader_completes demo_env 1 [[0]; [3; 0]] 1 1 1 [] demo_ready
    eq_refl eq_refl eq_refl eq_refl demo_cols demo_ready_run) as (rest & g' & g'' & Hd & Hs & _).
  { split_and!; [vm_compute; reflexivity..|intros _; vm_compute; reflexivity]. }
  exists rest, g'. split; [exact Hd|]. exact Hs.
Defined.

Lemma graph_requests_in_order_witness :
  exists kr kc, [] = row_lines (demo_index 1) 1 kr /\ [] = all_edge_lines demo_env (demo_index 1) 1 kc.
Proof.
  destruct (graph_requests_in_order (D := IdealDRAMSystem) demo_env 1 (demo_index 1) 1 1 [] [] demo_gr)
    as (kr & kc & _ & _ & Hr & He & _); [reflexivity..| | | | |].
  1-3: split_and!; vm_compute; (reflexivity || discriminate).
  - apply rq_new, demo_gr_new.
  - exists kr, kc. split; [exact Hr|exact He].
Defined.
