(* ===== verification/FeatureReader.v ===== *)
(** * The feature reader (src/f_reader.cc)

    One object serves all engines: per engine a queue [pq] of edges waiting for
    their features, the edge being read ([cur_f]) and a queue [ffq] of feature
    lines on their way to the engine's SIMD unit.  A queue entry is the address
    of a line, [1] for a line found in the cache, or [0] for the end of a row.
    [requested] is the set of lines asked from memory and not yet received.

    The operations work on the reader together with the objects it points to,
    the memory and the cache ([FS]). *)

From stdpp Require Import base tactics list list_numbers numbers strings gmap.
From Stdlib Require Import ZArith Lia.
From S2P Require Import Prelude Common Layout DramInterface IdealDram Memory Cache.

(** [FR_STAT] with its [F_STAT]. *)
Record FR_STAT := mkFR_STAT {
  f_is_last : bool;
  f_dst : Z;
  f_v_fold : Z;
  f_cur_col_idx : Z;
  pq_read_need : bool
}.

#[export] Instance FR_STAT_fields : Fields FR_STAT := fun s =>
  mkFR_STAT (f_is_last s) (f_dst s) (f_v_fold s) (f_cur_col_idx s) (pq_read_need s).

Record FeatureReader := mkFeatureReader {
  fr_mode : F_MODE;
  frs : list FR_STAT;
  pq : list (list EdgeInfo);
  ffq : list (list Z);
  requested : gset Z;
  f_pass_cnt : Z;
  f_pass : Z
}.

#[export] Instance FeatureReader_fields : Fields FeatureReader := fun r =>
  mkFeatureReader (fr_mode r) (frs r) (pq r) (ffq r) (requested r) (f_pass_cnt r) (f_pass r).

(** The reader and the objects behind its pointers. *)
Record FS (D : Type) := mkFS { s_mem : Memory D; s_cah : Cache; s_fr : FeatureReader }.
Arguments mkFS {D}.
Arguments s_mem {D}.
Arguments s_cah {D}.
Arguments s_fr {D}.

#[export] Instance FS_fields {D} : Fields (FS D) := fun s => mkFS (s_mem s) (s_cah s) (s_fr s).

Section feature_reader.
Context {D : Type} (env : Env).
Let a : ArchInfo := arch_info env.

(** The constructor; the global [f_pass] starts at zero. *)
Definition FeatureReader_new : FeatureReader :=
  let n := Z.to_nat (n_of_engine a) in
  mkFeatureReader X_CMP (replicate n (mkFR_STAT false (-1) 0 0 true)) (replicate n [])
    (replicate n []) ∅ 0 0.

Definition ModeChange (mode : F_MODE) (r : FeatureReader) : FeatureReader := r <| fr_mode := mode |>.

Definition EnterFtoList (ei : EdgeInfo) (r : FeatureReader) : outcome FeatureReader :=
  q ← vpush (pq r) (ei_id ei) ei;
  Ok (r <| pq := q |>).

(** [front] and [pop] of an empty queue are undefined. *)
Definition ConsumePendingQ (id : Z) (r : FeatureReader) : outcome FeatureReader :=
  q ← vget (pq r) id;
  match q with
  | [] => Fault Undefined
  | ei :: q' =>
      pq' ← vset (pq r) id q';
      frs' ← vset (frs r) id (mkFR_STAT (ei_is_last ei) (ei_dst ei) (ei_v_fold ei) 0 false);
      Ok (r <| pq := pq' |> <| frs := frs' |> <| f_pass := f_pass r + 1 |>)
  end.

Definition ReturnAddress (row col fold : Z) : outcome Z :=
  let dst := fold * urb a + col in
  r ← vget (x_to_addr env) row;
  vget r dst.

(** [if (!cah->Access(f_addr) && requested.find(f_addr) == requested.end())]:
    ask the memory for a line that is neither cached nor on its way. *)
Definition request_line (f_addr : Z) (s : FS D) : outcome (FS D) :=
  '(hit, c) ← Access a (s_cah s) f_addr;
  let s := s <| s_cah := c |> in
  Ok (if negb hit && bool_decide (f_addr ∉ requested (s_fr s)) then
        s <| s_fr := (s_fr s) <| requested := {[ f_addr ]} ∪ requested (s_fr s) |> |>
          <| s_mem := AddTransaction (mkTransaction f_addr READ) (s_mem s) |>
      else s).

Definition push_fq (id v : Z) (s : FS D) : outcome (FS D) :=
  q ← vpush (ffq (s_fr s)) id v;
  Ok (s <| s_fr := (s_fr s) <| ffq := q |> |>).

Definition get_stat (id : Z) (s : FS D) : outcome FR_STAT := vget (frs (s_fr s)) id.
Definition set_stat (id : Z) (f : FR_STAT) (s : FS D) : outcome (FS D) :=
  l ← vset (frs (s_fr s)) id f;
  Ok (s <| s_fr := (s_fr s) <| frs := l |> |>).

(** The edge is done: ask for the next one, mark the end of the row. *)
Definition finish_edge (id : Z) (st : FR_STAT) (s : FS D) : outcome (FS D) :=
  s ← set_stat id (st <| pq_read_need := true |>) s;
  if f_is_last st then push_fq id 0 s else Ok s.

Definition more_lines (st : FR_STAT) : bool :=
  let cur_urb := f_v_fold st * urb a + f_cur_col_idx st in
  bool_decide (cur_urb <> total_urb (data_info env) - 1) &&
  bool_decide (f_cur_col_idx st <> urb a - 1).

Definition read_x_cmp (id : Z) (s : FS D) : outcome (FS D) :=
  st ← get_stat id s;
  f_addr ← ReturnAddress (f_dst st) (f_cur_col_idx st) (f_v_fold st);
  s ← request_line f_addr s;
  '(hit, c) ← Access a (s_cah s) f_addr;
  let s := s <| s_cah := c |> in
  s ← push_fq id (if (hit : bool) then 1 else f_addr) s;
  if more_lines st then
    let st := st <| f_cur_col_idx := f_cur_col_idx st + 1 |> in
    next_f_addr ← ReturnAddress (f_dst st) (f_cur_col_idx st) (f_v_fold st);
    if decide (next_f_addr = 0) then finish_edge id (st <| f_cur_col_idx := urb a - 1 |>) s
    else set_stat id st s
  else finish_edge id st s.

Definition read_mat (id : Z) (s : FS D) : outcome (FS D) :=
  st ← get_stat id s;
  f_addr ← ReturnAddress (f_dst st) (f_cur_col_idx st) (f_v_fold st);
  s ← request_line f_addr s;
  s ← push_fq id f_addr s;
  if more_lines st then set_stat id (st <| f_cur_col_idx := f_cur_col_idx st + 1 |>) s
  else finish_edge id st s.

(** CSR and X_FULL_CMP: the row header first, then the lines of the row. *)
Definition read_list (id : Z) (s : FS D) : outcome (FS D) :=
  st ← get_stat id s;
  r ← vget (x_to_addr env) (f_dst st);
  '(go, st, s) ←
    (if decide (f_cur_col_idx st = 0) then
       f_addr ← vget r 0;
       '(hit, c) ← Access a (s_cah s) f_addr;
       let s := s <| s_cah := c |> in
       if (hit : bool) then Ok (true, st <| f_cur_col_idx := f_cur_col_idx st + 1 |>, s)
       else Ok (false, st,
         if bool_decide (f_addr ∉ requested (s_fr s)) then
           s <| s_fr := (s_fr s) <| requested := {[ f_addr ]} ∪ requested (s_fr s) |> |>
             <| s_mem := AddTransaction (mkTransaction f_addr READ) (s_mem s) |>
         else s)
     else Ok (true, st, s));
  if (go : bool) then
    s ← set_stat id st s;
    f_addr ← vget r (f_cur_col_idx st);
    s ← request_line f_addr s;
    s ← push_fq id f_addr s;
    if decide (f_cur_col_idx st <> vsize r - 1)
    then set_stat id (st <| f_cur_col_idx := f_cur_col_idx st + 1 |>) s
    else finish_edge id st s
  else Ok s.

Definition ReadNext (id : Z) (s : FS D) : outcome (FS D) :=
  q ← vget (ffq (s_fr s)) id;
  if bool_decide (256 <= vsize q) || negb (WillAcceptTransaction (s_mem s)) then Ok s else
  st ← get_stat id s;
  p ← vget (pq (s_fr s)) id;
  if pq_read_need st && bool_decide (p = []) then Ok s else
  s ← (if pq_read_need st then r ← ConsumePendingQ id (s_fr s); Ok (s <| s_fr := r |>) else Ok s);
  match fr_mode (s_fr s) with
  | X_CMP => read_x_cmp id s
  | MAT => read_mat id s
  | CSR | X_FULL_CMP => read_list id s
  end.

(** The [while (true)] loop: one round per received address; the value
    [numeric_limits<uint64_t>::max()] stands for an empty queue. *)
Fixpoint receive_all (q : list Z) (s : FS D) : outcome (FS D) :=
  match q with
  | [] => Ok s
  | address :: q' =>
      let s := s <| s_mem := (s_mem s) <| fq := q' |> |> in
      if decide (address = u64_max) then Ok s else
      c ← Insert a (s_cah s) address;
      receive_all q' (s <| s_cah := c |>
        <| s_fr := (s_fr s) <| requested := requested (s_fr s) ∖ {[ address ]} |>
                            <| f_pass_cnt := f_pass_cnt (s_fr s) + 1 |> |>)
  end.

Definition FeatureReceive (s : FS D) : outcome (FS D) := receive_all (fq (s_mem s)) s.

(** -1: nothing to pass, 1: a line passed, 0: a line and the end of its row. *)
Definition PassFtoSIMD (id : Z) (s : FS D) : outcome (Z * FS D) :=
  q ← vget (ffq (s_fr s)) id;
  match q with
  | [] => Ok (-1, s)
  | next :: q' =>
      '(ok, s) ← (if decide (next = 1) then Ok (true, s)
                  else '(hit, c) ← Access a (s_cah s) next; Ok (hit, s <| s_cah := c |>));
      if (ok : bool) then
        match q' with
        | 0 :: q'' => l ← vset (ffq (s_fr s)) id q''; Ok (0, s <| s_fr := (s_fr s) <| ffq := l |> |>)
        | _ => l ← vset (ffq (s_fr s)) id q'; Ok (1, s <| s_fr := (s_fr s) <| ffq := l |> |>)
        end
      else
        Ok (-1, if bool_decide (next ∉ requested (s_fr s)) then
                  s <| s_fr := (s_fr s) <| requested := {[ next ]} ∪ requested (s_fr s) |> |>
                    <| s_mem := AddTransaction (mkTransaction next READ) (s_mem s) |>
                else s)
  end.
End feature_reader.

(** ** Feature reads in flight *)
Section flight.
Context {D : Type} `{DramLaws D} (env : Env).

(** The addresses of the feature reads queued, inside the DRAM or completed but
    not yet collected. *)
Definition feature_reads (l : list Transaction) : list Z := t_address <$> filter (is_feature env) l.
Definition flight (m : Memory D) : list Z :=
  feature_reads (tq m ++ dram_pending (mem m)) ++ fq m.

Lemma feature_reads_perm l l' : l ≡ₚ l' -> feature_reads l ≡ₚ feature_reads l'.
Proof. intros Hp. unfold feature_reads. by rewrite Hp. Qed.

Lemma feature_reads_cons t l :
  feature_reads (t :: l) = if is_feature env t then t_address t :: feature_reads l else feature_reads l.
Proof.
  unfold feature_reads. rewrite filter_cons. destruct (is_feature env t).
  - by rewrite decide_True.
  - by rewrite decide_False by auto.
Qed.

Lemma flight_add t m :
  flight (AddTransaction t m) ≡ₚ if is_feature env t then t_address t :: flight m else flight m.
Proof.
  unfold flight. simpl. rewrite <- app_assoc.
  rewrite (feature_reads_perm (tq m ++ [t] ++ dram_pending (mem m)) (t :: tq m ++ dram_pending (mem m)))
    by (symmetry; apply Permutation_middle).
  rewrite feature_reads_cons. by destruct (is_feature env t).
Qed.

Lemma flight_consume m m' :
  dram_inv (mem m) -> Forall addr_ok (tq m) -> ConsumeTransaction m = Ok m' ->
  dram_inv (mem m') /\ Forall addr_ok (tq m') /\ flight m' ≡ₚ flight m /\ rq m' = rq m /\ fq m' = fq m.
Proof.
  intros Hi Ha Hm. unfold ConsumeTransaction in Hm. apply bind_ok in Hm as ([q d] & Hq & Hm).
  injection Hm as <-. destruct (consume_ok _ _ _ _ Hi Ha Hq) as (Hd & Hp & Hs). simpl.
  split_and!; try done.
  - destruct Hs as [k Hk]. rewrite Hk in Ha. by apply Forall_app in Ha as [_ ?].
  - unfold flight. simpl. by rewrite (feature_reads_perm _ _ Hp).
Qed.

(** What a completed transaction adds to the feature queue. *)
Lemma callback_fq t (m m' : Memory D) :
  d_value_addr_start (arch_info env) = 0 -> addr_ok t -> callback env t m = Ok m' ->
  fq m' = fq m ++ feature_reads [t] /\ tq m' = tq m /\ mem m' = mem m.
Proof.
  intros Hv Ht Hc. rewrite feature_reads_cons. unfold callback in Hc. unfold is_feature.
  destruct (t_is_write t); simpl; [injection Hc as <-; by rewrite app_nil_r|].
  unfold ReadCompleteCallback in Hc. rewrite Hv in Hc.
  rewrite (proj2 (Z.leb_le _ _)) in Hc by apply Ht. cbn [andb] in Hc.
  destruct (Z.ltb_spec0 (t_address t) (xw_ele_addr_start (arch_info env))).
  - destruct (find_engine _ _ _ _); [|done]. ok_inv Hc.
    rewrite (proj2 (Z.leb_gt _ _)) by lia. simpl. by rewrite app_nil_r.
  - rewrite (proj2 (Z.leb_le _ _)) in Hc |- * by lia. injection Hc as <-. done.
Qed.

Lemma callbacks_fq done (m m' : Memory D) :
  d_value_addr_start (arch_info env) = 0 -> Forall addr_ok done ->
  for_each (callback env) done m = Ok m' ->
  fq m' = fq m ++ feature_reads done /\ tq m' = tq m /\ mem m' = mem m.
Proof.
  intros Hv. revert m. induction done as [|t done IH]; intros m Hd Hf; cbn [for_each] in Hf.
  - injection Hf as <-. by rewrite app_nil_r.
  - apply bind_ok in Hf as (m1 & Hc & Hf). apply Forall_cons in Hd as [Ht Hd].
    destruct (callback_fq _ _ _ Hv Ht Hc) as (E1 & E2 & E3).
    destruct (IH _ Hd Hf) as (F1 & F2 & F3). split_and!; try congruence.
    rewrite F1, E1, !feature_reads_cons. destruct (is_feature env t); simpl; by rewrite <- app_assoc.
Qed.

Lemma flight_tick m m' :
  d_value_addr_start (arch_info env) = 0 -> dram_inv (mem m) -> Forall addr_ok (dram_pending (mem m)) ->
  UpdateCycle env m = Ok m' ->
  dram_inv (mem m') /\ Forall addr_ok (dram_pending (mem m')) /\ flight m' ≡ₚ flight m /\ tq m' = tq m.
Proof.
  intros Hv Hi Ha Hm. unfold UpdateCycle in Hm.
  apply bind_ok in Hm as ([d done] & Ht & Hm). apply bind_ok in Hm as (m1 & Hf & Hm). injection Hm as <-.
  destruct (dram_tick_law _ _ _ Hi Ht) as [Hd Hp]. rewrite <- Hp in Ha. apply Forall_app in Ha as [Ha1 Ha2].
  destruct (callbacks_fq _ _ _ Hv Ha1 Hf) as (E1 & E2 & E3). simpl in *. rewrite E3.
  split_and!; try done. unfold flight. simpl. rewrite E1, E2, ?E3.
  rewrite (feature_reads_perm (tq m ++ dram_pending (mem m)) (tq m ++ done ++ dram_pending d)) by (by rewrite Hp).
  unfold feature_reads. rewrite !filter_app, !fmap_app. rewrite <- !app_assoc. apply Permutation_app_head.
  rewrite (Permutation_app_comm (fq m)), !app_assoc. apply Permutation_app_tail, Permutation_app_comm.
Qed.
End flight.

Lemma vset_in {A} (v : list A) i x : 0 <= i < vsize v -> vset v i x = Ok (<[Z.to_nat i := x]> v).
Proof. intros Hi. by apply vset_ok. Qed.

Lemma vpush_in {A} (v : list (list A)) i l x :
  vget v i = Ok l -> 0 <= i < vsize v -> vpush v i x = Ok (<[Z.to_nat i := l ++ [x]]> v).
Proof. intros Hl Hi. unfold vpush, vupd. rewrite Hl. cbn [mbind outcome_bind]. by apply vset_in. Qed.

(** ** The cache and the request set *)
Section sharing.
Context {D : Type} `{DramLaws D} (env : Env).
Let a : ArchInfo := arch_info env.
Hypothesis Hgeo : geometry_ok a.

(** A feature line: inside the feature region and not the marker for "none". *)
Definition line_ok (x : Z) : Prop := xw_ele_addr_start a <= x < u64_max /\ 1 < x.

(** The lines in flight are the requested ones, each once, and none is cached. *)
Record shared_ok (c : Cache) (R : gset Z) (m : Memory D) : Prop := {
  sh_cache : exists rec, represents a c rec /\ forall x, x ∈ rec -> x ∉ R;
  sh_nodup : NoDup (flight env m);
  sh_flight : forall x, x ∈ R <-> x ∈ flight env m;
  sh_lines : forall x, x ∈ R -> line_ok x;
  sh_inv : dram_inv (mem m);
  sh_tq : Forall addr_ok (tq m);
  sh_pending : Forall addr_ok (dram_pending (mem m))
}.

Lemma shared_cache_inv c R m : shared_ok c R m -> cache_inv a c.
Proof. intros [(rec & Hr & _) _ _ _ _ _ _]. apply Hr. Qed.

Lemma spec_access_elem rec x y : y ∈ (spec_access rec x).2 <-> y ∈ rec.
Proof.
  unfold spec_access. destruct (decide (x ∈ rec)) as [Hx|Hx]; simpl; [|done].
  rewrite elem_of_cons, list_elem_of_filter. destruct (decide (y = x)) as [->|]; naive_solver.
Qed.

Lemma access_shared c R m x :
  shared_ok c R m -> exists hit c', Access a c x = Ok (hit, c') /\ shared_ok c' R m /\
    (hit = true <-> cached a c x) /\ (forall y, cached a c' y <-> cached a c y).
Proof.
  intros [(rec & Hr & Hd) H1 H2 H3 H4 H5 H6].
  destruct (Access_refines a Hgeo c rec x Hr) as (c' & Hacc & Hr').
  exists (spec_access rec x).1, c'. split; [done|]. split; [|split].
  - split; try done. exists (spec_access rec x).2. split; [done|].
    intros y Hy%spec_access_elem. by apply Hd.
  - rewrite (cached_iff a Hgeo c rec x Hr). unfold spec_access. destruct (decide (x ∈ rec)); simpl; naive_solver.
  - intros y. rewrite (cached_iff a Hgeo c' _ y Hr'), (cached_iff a Hgeo c _ y Hr). apply spec_access_elem.
Qed.

Lemma line_ok_addr x : line_ok x -> 0 <= x < 2 ^ 64.
Proof. unfold line_ok, u64_max. lia. Qed.

Lemma line_ok_feature x : line_ok x -> is_feature env (mkTransaction x READ) = true.
Proof. intros [[Hx _] _]. unfold is_feature. simpl. by apply Z.leb_le. Qed.

(** Asking for a line that is neither cached nor in flight. *)
Lemma ask_shared c R m x :
  shared_ok c R m -> line_ok x -> ~ cached a c x -> x ∉ R ->
  shared_ok c ({[ x ]} ∪ R) (AddTransaction (mkTransaction x READ) m).
Proof.
  intros [(rec & Hr & Hd) H1 H2 H3 H4 H5 H6] Hx Hn HR.
  pose proof (flight_add env (mkTransaction x READ) m) as Hf.
  rewrite (line_ok_feature x Hx) in Hf. simpl in Hf. split; try done.
  - exists rec. split; [done|]. intros y Hy. rewrite (cached_iff a Hgeo c rec x Hr) in Hn.
    intros [->%elem_of_singleton|HyR]%elem_of_union; [done|]. by apply (Hd y).
  - rewrite Hf. constructor; [by rewrite <- H2|done].
  - intros y. rewrite Hf, elem_of_union, elem_of_singleton, elem_of_cons, H2. done.
  - intros y [->%elem_of_singleton|Hy]%elem_of_union; [done|by apply H3].
  - simpl. apply Forall_app. split; [done|]. apply Forall_singleton. by apply line_ok_addr.
Qed.

(** A transaction that is no feature read changes nothing here. *)
Lemma add_other_shared c R m t :
  shared_ok c R m -> addr_ok t -> is_feature env t = false -> shared_ok c R (AddTransaction t m).
Proof.
  intros [K0 H1 H2 H3 H4 H5 H6] Ht Hf. pose proof (flight_add env t m) as Hp. rewrite Hf in Hp.
  split; try done.
  - by rewrite Hp.
  - intros y. by rewrite Hp.
  - simpl. apply Forall_app. split; [done|]. by apply Forall_singleton.
Qed.

Lemma consume_shared c R m m' :
  shared_ok c R m -> ConsumeTransaction m = Ok m' -> shared_ok c R m'.
Proof.
  intros [K0 H1 H2 H3 H4 H5 H6] Hm.
  assert (Hall : Forall addr_ok (dram_pending (mem m'))).
  { unfold ConsumeTransaction in Hm. apply bind_ok in Hm as ([q d] & Hq & Hm). injection Hm as <-. simpl.
    destruct (consume_ok _ _ _ _ H4 H5 Hq) as (_ & Hp & _).
    assert (Hq2 : Forall addr_ok (q ++ dram_pending d)) by (rewrite Hp; by apply Forall_app).
    by apply Forall_app in Hq2 as [_ ?]. }
  destruct (flight_consume env m m' H4 H5 Hm) as (Hi & Ht & Hp & _ & _). split; try done.
  - by rewrite Hp.
  - intros y. by rewrite Hp.
Qed.

Lemma tick_shared c R m m' :
  d_value_addr_start a = 0 -> shared_ok c R m -> UpdateCycle env m = Ok m' -> shared_ok c R m'.
Proof.
  intros Hv [K0 H1 H2 H3 H4 H5 H6] Hm.
  destruct (flight_tick env m m' Hv H4 H6 Hm) as (Hi & Ha & Hp & Ht). split; try done.
  - by rewrite Hp.
  - intros y. by rewrite Hp.
  - by rewrite Ht.
Qed.

Lemma frame_shared c R m m' :
  shared_ok c R m -> tq m' = tq m -> mem m' = mem m -> fq m' = fq m -> shared_ok c R m'.
Proof.
  intros [K0 H1 H2 H3 H4 H5 H6] E1 E2 E3.
  assert (Hf : flight env m' = flight env m) by (unfold flight; by rewrite E1, E2, E3).
  split; rewrite ?Hf, ?E1, ?E2; done.
Qed.

(** A received line enters the cache and leaves the request set. *)
Lemma insert_shared c R m x q :
  shared_ok c R m -> fq m = x :: q ->
  exists c', Insert a c x = Ok c' /\ shared_ok c' (R ∖ {[ x ]}) (m <| fq := q |>) /\
    x <> u64_max /\ cached a c' x.
Proof.
  intros [(rec & Hr & Hd) H1 H2 H3 H4 H5 H6] Hq.
  assert (Hin : x ∈ R) by (apply H2; unfold flight; rewrite Hq; set_solver).
  assert (Hfl : flight env m ≡ₚ x :: flight env (m <| fq := q |>)).
  { unfold flight. simpl. rewrite Hq. symmetry. apply Permutation_middle. }
  assert (Hx : x ∉ rec) by (intros Hx; by apply (Hd x)).
  rewrite Hfl in H1. apply NoDup_cons in H1 as [Hnx H1].
  destruct (Insert_refines a Hgeo c rec x Hr Hx) as (c' & Hi & Hr').
  exists c'. split; [done|]. split; [|split].
  - split; try done.
    + exists (spec_insert a rec x). split; [done|]. intros y Hy [HyR Hyx]%elem_of_difference.
      rewrite elem_of_singleton in Hyx. unfold spec_insert in Hy. apply elem_of_cons in Hy as [->|Hy]; [done|].
      apply (Hd y); [|done]. destruct (decide _); [|done]. destruct (last _); [|done].
      by apply list_elem_of_filter in Hy as [_ ?].
    + intros y. rewrite elem_of_difference, elem_of_singleton, H2, Hfl, elem_of_cons. 
      destruct (decide (y = x)) as [->|]; naive_solver.
    + intros y [Hy _]%elem_of_difference. by apply H3.
  - apply H3 in Hin. unfold line_ok in Hin. lia.
  - apply (cached_iff a Hgeo c' _ x Hr'). unfold spec_insert. left.
Qed.
End sharing.

(** ** The reader *)

(** The feature queue of an engine as a list of passes: a line and whether it
    ends a row. *)
Definition tok (t : Z * bool) : list Z := t.1 :: if t.2 then [0] else [].
Definition toks (l : list (Z * bool)) : list Z := concat (tok <$> l).

Lemma toks_snoc l t : toks (l ++ [t]) = toks l ++ tok t.
Proof. unfold toks. rewrite fmap_app, concat_app. simpl. by rewrite app_nil_r. Qed.

Lemma toks_cons t l : toks (t :: l) = tok t ++ toks l.
Proof. done. Qed.

Lemma tab_upd_id {A} n (f : Z -> A) i : tab n (upd f i (f i)) = tab n f.
Proof. apply tab_ext. intros j _. unfold upd. by destruct (decide (j = i)) as [->|]. Qed.

Lemma tab_upd_upd {A} n (f : Z -> A) i x y : tab n (upd (upd f i x) i y) = tab n (upd f i y).
Proof. apply tab_ext. intros j _. unfold upd. by destruct (decide (j = i)). Qed.

Section reader.
Context {D : Type} `{DramLaws D} (env : Env) (md : F_MODE).
Let a : ArchInfo := arch_info env.
Let n : Z := n_of_engine a.

Definition sliced (m : F_MODE) : Prop := m = X_CMP \/ m = MAT.

(** The edge being read stays inside the line list of its feature row. *)
Definition cur_ok (st : FR_STAT) : Prop :=
  exists r, vget (x_to_addr env) (f_dst st) = Ok r /\ 0 <= f_cur_col_idx st /\
  match md with
  | X_CMP | MAT =>
      vsize r = total_urb (data_info env) /\ 0 <= f_v_fold st * urb a /\
      exists v, vget r (f_v_fold st * urb a + f_cur_col_idx st) = Ok v /\ line_ok env v
  | CSR | X_FULL_CMP => 2 <= vsize r /\ f_cur_col_idx st < vsize r
  end.

(** An edge whose feature row has lines for its fold. *)
Definition edge_ok (ei : EdgeInfo) : Prop :=
  cur_ok (mkFR_STAT (ei_is_last ei) (ei_dst ei) (ei_v_fold ei) 0 false).

(** The row ends an engine has still to deliver from the edge being read and the queue. *)
Definition row_ends (st : FR_STAT) (l : list (Z * bool)) : Z :=
  vsize (filter (fun t : Z * bool => t.2 = true) l) + (if negb (pq_read_need st) && f_is_last st then 1 else 0).

Definition reader (S : Z -> FR_STAT) (P : Z -> list EdgeInfo) (Q : Z -> list Z) (R : gset Z)
    (cnt ps : Z) : FeatureReader :=
  mkFeatureReader md (tab n S) (tab n P) (tab n Q) R cnt ps.

Hypothesis Hgeo : geometry_ok a.
Hypothesis Hx : forall i r j v, vget (x_to_addr env) i = Ok r -> vget r j = Ok v ->
  line_ok env v \/ (md = X_CMP /\ v = 0).

Definition good (v : Z) : Prop := v = 1 \/ line_ok env v.

Lemma good_nonzero v : good v -> v <> 0.
Proof. intros [->|Hv]; [done|]. unfold line_ok in Hv. lia. Qed.

Lemma push_reader id v m c S P Q R cnt ps :
  0 <= id < n ->
  push_fq id v (mkFS m c (reader S P Q R cnt ps)) =
  Ok (mkFS (D := D) m c (reader S P (upd Q id (Q id ++ [v])) R cnt ps)).
Proof. intros Hid. unfold push_fq. simpl. by rewrite vpush_tab. Qed.

Lemma set_reader id st m c S P Q R cnt ps :
  0 <= id < n ->
  set_stat id st (mkFS m c (reader S P Q R cnt ps)) =
  Ok (mkFS (D := D) m c (reader (upd S id st) P Q R cnt ps)).
Proof. intros Hid. unfold set_stat. simpl. by rewrite vset_tab. Qed.

Lemma get_reader id m c S P Q R cnt ps :
  0 <= id < n -> get_stat id (mkFS (D := D) m c (reader S P Q R cnt ps)) = Ok (S id).
Proof. intros Hid. unfold get_stat. simpl. by rewrite vget_tab. Qed.

Lemma finish_reader id st m c S P Q R cnt ps :
  0 <= id < n ->
  finish_edge id st (mkFS m c (reader S P Q R cnt ps)) =
  Ok (mkFS (D := D) m c (reader (upd S id (st <| pq_read_need := true |>)) P
        (upd Q id (Q id ++ if f_is_last st then [0] else [])) R cnt ps)).
Proof.
  intros Hid. unfold finish_edge. rewrite set_reader by done. cbn [mbind outcome_bind].
  destruct (f_is_last st); [by rewrite push_reader|]. rewrite app_nil_r. unfold reader. by rewrite tab_upd_id.
Qed.

Lemma request_reader v m c S P Q R cnt ps :
  shared_ok env c R m -> line_ok env v ->
  exists m' c' R', request_line env v (mkFS m c (reader S P Q R cnt ps)) =
      Ok (mkFS m' c' (reader S P Q R' cnt ps)) /\ shared_ok env c' R' m' /\
      (cached a c' v \/ v ∈ R').
Proof.
  intros Hs Hv. unfold request_line. simpl.
  destruct (access_shared env Hgeo c R m v Hs) as (hit & c' & E & Hs' & Hh & Hc).
  rewrite E. cbn [mbind outcome_bind]. destruct hit; simpl.
  - exists m, c', R. split_and!; try done. left. apply Hc, Hh. done.
  - assert (Hn : ~ cached (arch_info env) c' v) by (rewrite Hc; intros Hk; apply Hh in Hk; done).
    destruct (decide (v ∈ R)) as [HR|HR].
    + rewrite bool_decide_eq_false_2 by tauto. exists m, c', R. split_and!; try done. by right.
    + rewrite bool_decide_eq_true_2 by done.
      eexists _, c', _. split; [reflexivity|]. split; [|right; set_solver].
      by apply ask_shared.
Qed.

(** One call adds at most one line to the queue and keeps the row ends; a call
    that adds a line ends the edge or goes on to a later column. *)
Definition reads_one (st st' : FR_STAT) (l l' : list (Z * bool)) : Prop :=
  (pq_read_need st' = false -> cur_ok st') /\
  ((l' = l /\ ~ sliced md) \/ (exists v b, good v /\ l' = l ++ [(v, b)]) /\
     (pq_read_need st' = true \/ f_cur_col_idx st < f_cur_col_idx st')) /\
  row_ends st' l' = row_ends st l.

Lemma row_ends_snoc st l v b :
  row_ends st (l ++ [(v, b)]) = row_ends st l + (if b then 1 else 0).
Proof.
  unfold row_ends. rewrite filter_app, vsize_app, filter_cons, filter_nil. simpl.
  destruct b; [rewrite decide_True by done|rewrite decide_False by auto]; unfold vsize; simpl; lia.
Qed.

(** Reading line [v] and finishing the edge, or going on to column [k]. *)
Lemma reads_finish st st' l v :
  pq_read_need st = false -> good v -> f_is_last st' = f_is_last st -> pq_read_need st' = true ->
  reads_one st st' l (l ++ [(v, f_is_last st)]).
Proof.
  intros Hn Hv El Hn'. split; [by rewrite Hn'|]. split; [right; eauto 6|].
  rewrite row_ends_snoc. unfold row_ends. rewrite Hn, Hn'. simpl. destruct (f_is_last st); lia.
Qed.

Lemma reads_on st st' l v :
  pq_read_need st = false -> good v -> f_is_last st' = f_is_last st -> pq_read_need st' = false ->
  f_cur_col_idx st < f_cur_col_idx st' -> cur_ok st' -> reads_one st st' l (l ++ [(v, false)]).
Proof.
  intros Hn Hv El Hn' Hlt Hc. split; [done|]. split; [right; eauto 6|].
  rewrite row_ends_snoc. unfold row_ends. rewrite Hn, Hn', El. lia.
Qed.

Lemma cur_line st :
  sliced md -> cur_ok st -> exists v, ReturnAddress env (f_dst st) (f_cur_col_idx st) (f_v_fold st) = Ok v /\
    line_ok env v.
Proof.
  intros Hs (r & Hr & Hc & Hm). unfold ReturnAddress. rewrite Hr. cbn [mbind outcome_bind].
  destruct Hs as [E|E]; rewrite E in Hm; destruct Hm as (_ & _ & v & Hv & Hl); exists v; done.
Qed.

(** While lines are left the next column is in range. *)
Lemma next_line st :
  sliced md -> cur_ok st -> more_lines env st = true ->
  exists v, ReturnAddress env (f_dst st) (f_cur_col_idx st + 1) (f_v_fold st) = Ok v /\
    (v = 0 -> md = X_CMP) /\ (v <> 0 -> cur_ok (st <| f_cur_col_idx := f_cur_col_idx st + 1 |>)).
Proof.
  intros Hs (r & Hr & Hc & Hm) Hmore. unfold more_lines in Hmore.
  apply andb_prop in Hmore as [Hm1%bool_decide_eq_true _].
  assert (Hsz : vsize r = total_urb (data_info env) /\ 0 <= f_v_fold st * urb a /\
    f_v_fold st * urb a + f_cur_col_idx st < vsize r).
  { destruct Hs as [E|E]; rewrite E in Hm; destruct Hm as (H1 & H2 & v & Hv & _); split_and!; try done;
      apply vget_ok in Hv as [_ Hv%lookup_lt_Some]; unfold vsize; lia. }
  destruct Hsz as (H1 & H2 & H3). fold a in Hm1.
  destruct (vget_total r (f_v_fold st * urb a + (f_cur_col_idx st + 1))) as [v Hv]; [lia|].
  exists v. unfold ReturnAddress. rewrite Hr. cbn [mbind outcome_bind]. fold a. split; [done|].
  destruct (Hx _ _ _ _ Hr Hv) as [Hl|[E ->]].
  - split; [unfold line_ok in Hl; lia|]. intros _. exists r. simpl. split; [done|]. split; [lia|].
    destruct Hs as [E|E]; rewrite E; eauto.
  - split; [done|]. intros; done.
Qed.

(** The outcome of reading one line for engine [id]. *)
Definition body_ok (f : FS D -> outcome (FS D)) (id : Z) : Prop :=
  forall m c S P Q R cnt ps l,
    shared_ok env c R m -> Q id = toks l -> pq_read_need (S id) = false -> cur_ok (S id) ->
    exists m' c' R' st' l', f (mkFS m c (reader S P Q R cnt ps)) =
        Ok (mkFS m' c' (reader (upd S id st') P (upd Q id (toks l')) R' cnt ps)) /\
      shared_ok env c' R' m' /\ reads_one (S id) st' l l'.

Lemma toks_push l v b (Q : Z -> list Z) id :
  Q id = toks l -> tab n (upd (upd Q id (Q id ++ [v])) id
    ((upd Q id (Q id ++ [v])) id ++ (if b : bool then [0] else []))) = tab n (upd Q id (toks (l ++ [(v, b)]))).
Proof.
  intros E. rewrite tab_upd_upd, upd_eq, E, toks_snoc. unfold tok. simpl. by rewrite <- app_assoc.
Qed.

Lemma toks_push1 l v (Q : Z -> list Z) id :
  Q id = toks l -> upd Q id (Q id ++ [v]) = upd Q id (toks (l ++ [(v, false)])).
Proof. intros E. by rewrite E, toks_snoc. Qed.

Lemma read_mat_ok id : md = MAT -> 0 <= id < n -> body_ok (read_mat env id) id.
Proof.
  intros Hmd Hid m c S P Q R cnt ps l Hs HQ Hn Hc. unfold read_mat. rewrite get_reader by done.
  cbn [mbind outcome_bind]. destruct (cur_line (S id) (or_intror Hmd) Hc) as (v & -> & Hv).
  cbn [mbind outcome_bind].
  destruct (request_reader v m c S P Q R cnt ps Hs Hv) as (m' & c' & R' & -> & Hs' & _).
  cbn [mbind outcome_bind]. rewrite push_reader by done. cbn [mbind outcome_bind].
  assert (Hg : good v) by (by right).
  destruct (more_lines env (S id)) eqn:Hm.
  - rewrite set_reader by done.
    destruct (next_line (S id) (or_intror Hmd) Hc Hm) as (v' & _ & H0' & Hc').
    eexists m', c', R', _, (l ++ [(v, false)]). rewrite (toks_push1 l) by done. split; [reflexivity|].
    split; [done|]. apply reads_on; try done; [simpl; lia|]. apply Hc'. intros ->. by rewrite Hmd in H0'; specialize (H0' eq_refl).
  - rewrite finish_reader by done. unfold reader. rewrite (toks_push l v (f_is_last (S id))) by done.
    eexists m', c', R', _, _. split; [reflexivity|]. split; [done|]. by apply reads_finish.
Qed.

Lemma read_x_cmp_ok id : md = X_CMP -> 0 <= id < n -> body_ok (read_x_cmp env id) id.
Proof.
  intros Hmd Hid m c S P Q R cnt ps l Hs HQ Hn Hc. unfold read_x_cmp. rewrite get_reader by done.
  cbn [mbind outcome_bind]. destruct (cur_line (S id) (or_introl Hmd) Hc) as (v & -> & Hv).
  cbn [mbind outcome_bind].
  destruct (request_reader v m c S P Q R cnt ps Hs Hv) as (m1 & c1 & R1 & -> & Hs1 & _).
  cbn [mbind outcome_bind s_cah].
  destruct (access_shared env Hgeo c1 R1 m1 v Hs1) as (hit & c2 & -> & Hs2 & _).
  cbn [mbind outcome_bind]. simpl. rewrite push_reader by done. cbn [mbind outcome_bind].
  set (w := if hit then 1 else v). assert (Hg : good w) by (unfold w; destruct hit; [by left|by right]).
  destruct (more_lines env (S id)) eqn:Hm.
  - destruct (next_line (S id) (or_introl Hmd) Hc Hm) as (v' & -> & _ & Hc'). cbn [mbind outcome_bind].
    destruct (decide (v' = 0)) as [->|Hv'].
    + rewrite finish_reader by done. unfold reader. cbn [f_is_last]. simpl.
      rewrite (toks_push l w (f_is_last (S id))) by done.
      eexists m1, c2, R1, _, _. split; [reflexivity|]. split; [done|]. by apply reads_finish.
    + rewrite set_reader by done. rewrite (toks_push1 l) by done.
      eexists m1, c2, R1, _, _. split; [reflexivity|]. split; [done|]. apply reads_on; try done; [simpl; lia|]. by apply Hc'.
  - rewrite finish_reader by done. unfold reader. rewrite (toks_push l w (f_is_last (S id))) by done.
    eexists m1, c2, R1, _, _. split; [reflexivity|]. split; [done|]. by apply reads_finish.
Qed.

(** The part of [read_list] behind the row header. *)
Lemma read_list_line id st r m c S P Q R cnt ps l :
  ~ sliced md -> 0 <= id < n -> shared_ok env c R m -> Q id = toks l ->
  vget (x_to_addr env) (f_dst st) = Ok r -> 0 <= f_cur_col_idx st < vsize r ->
  2 <= vsize r -> pq_read_need st = false -> f_is_last st = f_is_last (S id) ->
  pq_read_need (S id) = false -> f_cur_col_idx (S id) <= f_cur_col_idx st ->
  exists m' c' R' st' l',
    (s ← set_stat id st (mkFS m c (reader S P Q R cnt ps));
     f_addr ← vget r (f_cur_col_idx st);
     s ← request_line env f_addr s;
     s ← push_fq id f_addr s;
     if decide (f_cur_col_idx st <> vsize r - 1)
     then set_stat id (st <| f_cur_col_idx := f_cur_col_idx st + 1 |>) s
     else finish_edge id st s) =
    Ok (mkFS m' c' (reader (upd S id st') P (upd Q id (toks l')) R' cnt ps)) /\
    shared_ok env c' R' m' /\ reads_one (S id) st' l l'.
Proof.
  intros Hmd Hid Hs HQ Hr Hc H2 Hn El Hn' Hle. rewrite set_reader by done. cbn [mbind outcome_bind].
  destruct (vget_total r (f_cur_col_idx st)) as [v Hv]; [lia|]. rewrite Hv. cbn [mbind outcome_bind].
  assert (Hl : line_ok env v).
  { destruct (Hx _ _ _ _ Hr Hv) as [|[E _]]; [done|]. destruct Hmd. by left. }
  destruct (request_reader v m c (upd S id st) P Q R cnt ps Hs Hl) as (m1 & c1 & R1 & -> & Hs1 & _).
  cbn [mbind outcome_bind]. rewrite push_reader by done. cbn [mbind outcome_bind].
  assert (Hg : good v) by (by right).
  destruct (decide (f_cur_col_idx st <> vsize r - 1)) as [Hne|He].
  - rewrite set_reader by done. rewrite (toks_push1 l) by done. unfold reader. rewrite tab_upd_upd.
    eexists m1, c1, R1, _, _. split; [reflexivity|]. split; [done|].
    apply (reads_on (S id)); try done; [simpl; lia|]. exists r. simpl. split; [done|]. split; [lia|].
    destruct md; [destruct Hmd; by left|destruct Hmd; by right|lia|lia].
  - rewrite finish_reader by done. unfold reader. rewrite (toks_push l v (f_is_last st)) by done.
    rewrite tab_upd_upd, El. eexists m1, c1, R1, _, _. split; [reflexivity|]. split; [done|].
    by apply reads_finish.
Qed.

Lemma read_list_ok id : ~ sliced md -> 0 <= id < n -> body_ok (read_list env id) id.
Proof.
  intros Hmd Hid m c S P Q R cnt ps l Hs HQ Hn (r & Hr & Hc & Hm).
  assert (H2 : 2 <= vsize r /\ f_cur_col_idx (S id) < vsize r).
  { destruct md; [destruct Hmd; by left|destruct Hmd; by right|done|done]. }
  unfold read_list. rewrite get_reader by done. cbn [mbind outcome_bind]. rewrite Hr. cbn [mbind outcome_bind].
  destruct (decide (f_cur_col_idx (S id) = 0)) as [E0|E0].
  - destruct (vget_total r 0) as [v Hv]; [lia|]. rewrite Hv. cbn [mbind outcome_bind s_cah].
    assert (Hl : line_ok env v).
    { destruct (Hx _ _ _ _ Hr Hv) as [|[E _]]; [done|]. destruct Hmd. by left. }
    destruct (access_shared env Hgeo c R m v Hs) as (hit & c1 & -> & Hs1 & Hh & Hcc).
    cbn [mbind outcome_bind]. simpl. destruct hit; cbn [mbind outcome_bind].
    + destruct (read_list_line id ((S id) <| f_cur_col_idx := f_cur_col_idx (S id) + 1 |>) r m c1 S P Q R cnt ps l)
        as (m' & c' & R' & st' & l' & E & Hrest); try done; [simpl; lia|lia|simpl; lia|].
      exists m', c', R', st', l'. split; [exact E|done].
    + assert (Hone : reads_one (S id) (S id) l l).
      { split; [|split; [left; by split|done]]. intros _. exists r. split; [done|]. split; [done|].
        destruct md; [destruct Hmd; by left|destruct Hmd; by right|lia|lia]. }
      assert (Hid1 : forall R' (m' : Memory D), Ok (mkFS m' c1 (reader S P Q R' cnt ps)) =
        Ok (mkFS m' c1 (reader (upd S id (S id)) P (upd Q id (toks l)) R' cnt ps))).
      { intros. unfold reader. by rewrite <- HQ, !tab_upd_id. }
      destruct (decide (v ∈ R)) as [HR|HR].
      * rewrite bool_decide_eq_false_2 by tauto. eexists m, c1, R, _, l. split; [apply Hid1|]. done.
      * rewrite bool_decide_eq_true_2 by done. eexists _, c1, _, _, l. split; [apply Hid1|].
        split; [|done]. apply ask_shared; try done. rewrite Hcc. intros Hk. apply Hh in Hk. done.
  - apply (read_list_line id (S id) r m c); done || lia.
Qed.

(** *** One engine *)
Record engine_ok (st : FR_STAT) (p : list EdgeInfo) (l : list (Z * bool)) : Prop := {
  eo_cur : pq_read_need st = false -> cur_ok st;
  eo_pq : Forall edge_ok p;
  eo_fq : Forall (fun t => good t.1) l;
  eo_size : vsize (toks l) <= 257
}.

(** The row ends an engine owes: those of the waiting edges included. *)
Definition owed (st : FR_STAT) (p : list EdgeInfo) (l : list (Z * bool)) : Z :=
  row_ends st l + vsize (filter (fun ei => ei_is_last ei = true) p).

Definition state_ok (s : FS D) (S : Z -> FR_STAT) (P : Z -> list EdgeInfo) (L : Z -> list (Z * bool)) : Prop :=
  exists R cnt ps, s_fr s = reader S P (fun e => toks (L e)) R cnt ps /\
    shared_ok env (s_cah s) R (s_mem s) /\
    forall e, 0 <= e < n -> engine_ok (S e) (P e) (L e).

Lemma tab_toks_upd (L : Z -> list (Z * bool)) id l :
  tab n (upd (fun e => toks (L e)) id (toks l)) = tab n (fun e => toks (upd L id l e)).
Proof. apply tab_ext. intros e _. unfold upd. by destruct (decide (e = id)). Qed.

Lemma tok_length t : vsize (tok t) <= 2.
Proof. unfold tok, vsize. destruct t as [v []]; simpl; lia. Qed.

(** Updating one engine keeps the others. *)
Lemma engines_upd S P L id st p l :
  (forall e, 0 <= e < n -> engine_ok (S e) (P e) (L e)) -> engine_ok st p l ->
  forall e, 0 <= e < n -> engine_ok (upd S id st e) (upd P id p e) (upd L id l e).
Proof. intros Ha Hi e He. unfold upd. destruct (decide (e = id)); auto. Qed.

(** [ReadNext] behind its two early returns: take the next edge if there is
    none, then read a line of it. *)
Definition next_edge (st : FR_STAT) (p : list EdgeInfo) : option (FR_STAT * list EdgeInfo) :=
  if pq_read_need st then
    match p with
    | [] => None
    | ei :: p' => Some (mkFR_STAT (ei_is_last ei) (ei_dst ei) (ei_v_fold ei) 0 false, p')
    end
  else Some (st, p).

Lemma next_edge_ok st p l st1 p1 :
  engine_ok st p l -> next_edge st p = Some (st1, p1) ->
  pq_read_need st1 = false /\ cur_ok st1 /\ Forall edge_ok p1 /\ owed st1 p1 l = owed st p l.
Proof.
  intros [Hc Hp Hf Hs] He. unfold next_edge in He. destruct (pq_read_need st) eqn:Hn.
  - destruct p as [|ei p']; [done|]. injection He as <- <-. apply Forall_cons in Hp as [Hei Hp].
    split_and!; try done. unfold owed, row_ends. rewrite Hn. simpl. rewrite filter_cons.
    destruct (ei_is_last ei); [rewrite decide_True by done|rewrite decide_False by done];
      unfold vsize; simpl; lia.
  - injection He as <- <-. split_and!; auto.
Qed.

Lemma body_of_mode id : 0 <= id < n ->
  body_ok (fun s => match md with
                    | X_CMP => read_x_cmp env id s
                    | MAT => read_mat env id s
                    | CSR | X_FULL_CMP => read_list env id s
                    end) id.
Proof.
  intros Hid. destruct (decide (md = X_CMP)) as [E|E1]; [|destruct (decide (md = MAT)) as [E|E2]].
  - pose proof (read_x_cmp_ok id E Hid) as Hb. intros m c S P Q R cnt ps l Hs HQ Hn Hc.
    destruct (Hb m c S P Q R cnt ps l Hs HQ Hn Hc) as (m' & c' & R' & st' & l' & Hrun & Hrest).
    exists m', c', R', st', l'. split; [|exact Hrest]. rewrite E. exact Hrun.
  - pose proof (read_mat_ok id E Hid) as Hb. intros m c S P Q R cnt ps l Hs HQ Hn Hc.
    destruct (Hb m c S P Q R cnt ps l Hs HQ Hn Hc) as (m' & c' & R' & st' & l' & Hrun & Hrest).
    exists m', c', R', st', l'. split; [|exact Hrest]. rewrite E. exact Hrun.
  - assert (Hns : ~ sliced md) by (intros [?|?]; done).
    pose proof (read_list_ok id Hns Hid) as Hb. intros m c S P Q R cnt ps l Hs HQ Hn Hc.
    destruct (Hb m c S P Q R cnt ps l Hs HQ Hn Hc) as (m' & c' & R' & st' & l' & Hrun & Hrest).
    exists m', c', R', st', l'. split; [|exact Hrest].
    revert E1 E2. case_eq md; intros; done || exact Hrun.
Qed.

(** Why [ReadNext] returns early. *)
Definition read_blocked (m : Memory D) (st : FR_STAT) (p : list EdgeInfo) (l : list (Z * bool)) : Prop :=
  256 <= vsize (toks l) \/ WillAcceptTransaction m = false \/ (pq_read_need st = true /\ p = []).

Lemma read_next_spec id s S P L :
  0 <= id < n -> state_ok s S P L ->
  (ReadNext env id s = Ok s /\ read_blocked (s_mem s) (S id) (P id) (L id)) \/
  exists s' st1 p1 st' l', ReadNext env id s = Ok s' /\ next_edge (S id) (P id) = Some (st1, p1) /\
    state_ok s' (upd S id st') (upd P id p1) (upd L id l') /\ reads_one st1 st' (L id) l' /\
    owed st' p1 l' = owed (S id) (P id) (L id).
Proof.
  intros Hid Hst. pose proof Hst as (R & cnt & ps & Es & Hsh & He). destruct s as [m c fr]. simpl in Es, Hsh. subst fr.
  unfold ReadNext. cbn [s_fr s_mem]. change (ffq (reader S P (fun e => toks (L e)) R cnt ps))
    with (tab n (fun e => toks (L e))). change (pq (reader S P (fun e => toks (L e)) R cnt ps)) with (tab n P).
  rewrite (vget_tab n (fun e => toks (L e)) id), (vget_tab n P id) by done. cbn [mbind outcome_bind].
  destruct (bool_decide (256 <= vsize (toks (L id))) || negb (WillAcceptTransaction m)) eqn:Hret.
  { left. split; [done|]. apply orb_true_iff in Hret as [?%bool_decide_eq_true|?%negb_true_iff]; [by left|by right; left]. }
  apply orb_false_iff in Hret as [Hlen%bool_decide_eq_false _].
  rewrite get_reader by done. cbn [mbind outcome_bind].
  destruct (next_edge (S id) (P id)) as [[st1 p1]|] eqn:Hne.
  2: { left. unfold next_edge in Hne. destruct (pq_read_need (S id)) eqn:Hn; [|done]. destruct (P id) eqn:HP; [|done].
       rewrite bool_decide_eq_true_2 by done. split; [done|]. by right; right. }
  right. destruct (next_edge_ok _ _ (L id) _ _ (He id Hid) Hne) as (Hn1 & Hc1 & Hp1 & Ho1).
  assert (Hcons : exists ps1, (if pq_read_need (S id) then
      r ← ConsumePendingQ id (reader S P (fun e => toks (L e)) R cnt ps);
      Ok ((mkFS m c (reader S P (fun e => toks (L e)) R cnt ps)) <| s_fr := r |>)
    else Ok (mkFS m c (reader S P (fun e => toks (L e)) R cnt ps))) =
    Ok (mkFS (D := D) m c (reader (upd S id st1) (upd P id p1) (fun e => toks (L e)) R cnt ps1)) /\
    pq_read_need (S id) && bool_decide (P id = []) = false).
  { unfold next_edge in Hne. destruct (pq_read_need (S id)).
    - destruct (P id) as [|ei p'] eqn:HP; [done|]. injection Hne as <- <-. exists (ps + 1).
      unfold ConsumePendingQ. simpl. rewrite vget_tab, HP by done. cbn [mbind outcome_bind].
      rewrite !vset_tab by done. cbn [mbind outcome_bind]. done.
    - injection Hne as <- <-. exists ps. split; [|done]. unfold reader. by rewrite !tab_upd_id. }
  destruct Hcons as (ps1 & Hcons & ->). rewrite Hcons. cbn [mbind outcome_bind s_fr].
  pose proof (body_of_mode id Hid m c (upd S id st1) (upd P id p1) (fun e => toks (L e)) R cnt ps1 (L id) Hsh eq_refl)
    as Hb. rewrite upd_eq in Hb. destruct (Hb Hn1 Hc1) as (m' & c' & R' & st' & l' & Hrun & Hsh' & Hone).
  change (fr_mode (reader (upd S id st1) (upd P id p1) (fun e => toks (L e)) R cnt ps1)) with md.
  rewrite Hrun. pose proof Hone as (Hcur & Hl & Hends).
  eexists _, st1, p1, st', l'. split; [reflexivity|]. split; [done|]. split; [|split; [done|]].
  - exists R', cnt, ps1. split; [|split; [done|]].
    + simpl. unfold reader. by rewrite tab_upd_upd, tab_toks_upd.
    + apply engines_upd; [done|]. destruct (He id Hid) as [_ _ Hf Hsz]. split; try done.
      * destruct Hl as [[-> _]|[(v & b & Hg & ->) _]]; [done|]. apply Forall_app. split; [done|].
        by apply Forall_singleton.
      * destruct Hl as [[-> _]|[(v & b & Hg & ->) _]]; [done|]. rewrite toks_snoc, vsize_app.
        pose proof (tok_length (v, b)). lia.
  - rewrite <- Ho1. unfold owed. by rewrite Hends.
Qed.

Lemma read_next_ok id s S P L :
  0 <= id < n -> state_ok s S P L ->
  exists s' S' P' L', ReadNext env id s = Ok s' /\ state_ok s' S' P' L' /\
    forall e, 0 <= e < n -> owed (S' e) (P' e) (L' e) = owed (S e) (P e) (L e).
Proof.
  intros Hid Hst. destruct (read_next_spec id s S P L Hid Hst)
    as [[E _]|(s' & st1 & p1 & st' & l' & E & _ & Hst' & _ & Ho)]; [by exists s, S, P, L|].
  eexists s', _, _, _. split; [done|]. split; [done|]. intros e _. unfold upd.
  by destruct (decide (e = id)) as [->|].
Qed.

Lemma enter_ok ei s S P L :
  0 <= ei_id ei < n -> edge_ok ei -> state_ok s S P L ->
  exists r, EnterFtoList ei (s_fr s) = Ok r /\
    state_ok (s <| s_fr := r |>) S (upd P (ei_id ei) (P (ei_id ei) ++ [ei])) L.
Proof.
  intros Hid Hei (R & cnt & ps & Es & Hsh & He). unfold EnterFtoList. rewrite Es. simpl.
  rewrite vpush_tab by done. cbn [mbind outcome_bind]. eexists. split; [reflexivity|].
  exists R, cnt, ps. split; [done|]. split; [done|]. intros e Hre. unfold upd.
  destruct (decide (e = ei_id ei)) as [->|]; [|auto]. destruct (He _ Hid) as [H1 H2 H3 H4]. split; try done.
  apply Forall_app. split; [done|]. by apply Forall_singleton.
Qed.

Lemma owed_enter st p l ei :
  owed st (p ++ [ei]) l = owed st p l + (if ei_is_last ei then 1 else 0).
Proof.
  unfold owed. rewrite filter_app, vsize_app, filter_cons, filter_nil.
  destruct (ei_is_last ei); [rewrite decide_True by done|rewrite decide_False by done]; unfold vsize; simpl; lia.
Qed.

Lemma owed_pass st p v b l : owed st p ((v, b) :: l) = owed st p l + (if b then 1 else 0).
Proof.
  unfold owed, row_ends. rewrite filter_cons. simpl.
  destruct b; [rewrite decide_True by done|rewrite decide_False by done]; unfold vsize; simpl; lia.
Qed.

Lemma toks_head l : match toks l with 0 :: _ => False | _ => True end \/ ~ Forall (fun t => good t.1) l.
Proof.
  destruct l as [|[v b] l]; [by left|]. destruct (decide (v = 0)) as [->|Hv].
  - right. intros [Hg _]%Forall_cons. by apply good_nonzero in Hg.
  - left. rewrite toks_cons. unfold tok. simpl. by destruct v.
Qed.

(** The three outcomes of [PassFtoSIMD]: nothing queued; the head passes; the
    head is missing from the cache, and is on its way afterwards. *)
Inductive pass_outcome (id : Z) (s : FS D) (S : Z -> FR_STAT) (P : Z -> list EdgeInfo) (L : Z -> list (Z * bool))
    : Z -> FS D -> Prop :=
  | pass_empty : L id = [] -> pass_outcome id s S P L (-1) s
  | pass_head v b l s' : L id = (v, b) :: l -> state_ok s' S P (upd L id l) ->
      pass_outcome id s S P L (if b then 0 else 1) s'
  | pass_miss v b l s' : L id = (v, b) :: l -> state_ok s' S P L ->
      v <> 1 -> ~ cached a (s_cah s) v -> (forall y, cached a (s_cah s') y <-> cached a (s_cah s) y) ->
      requested (s_fr s') = {[ v ]} ∪ requested (s_fr s) ->
      s_mem s' = (if decide (v ∈ requested (s_fr s)) then s_mem s
                  else AddTransaction (mkTransaction v READ) (s_mem s)) ->
      pass_outcome id s S P L (-1) s'.

Lemma pass_spec id s S P L :
  0 <= id < n -> state_ok s S P L ->
  exists res s', PassFtoSIMD env id s = Ok (res, s') /\ pass_outcome id s S P L res s'.
Proof.
  clear Hx.
  intros Hid Hst. pose proof Hst as (R & cnt & ps & Es & Hsh & He). destruct s as [m c fr]. simpl in Es, Hsh. subst fr.
  unfold PassFtoSIMD. cbn [s_fr s_cah]. change (ffq (reader S P (fun e => toks (L e)) R cnt ps))
    with (tab n (fun e => toks (L e))). rewrite (vget_tab n (fun e => toks (L e)) id) by done.
  cbn [mbind outcome_bind]. destruct (He id Hid) as [Hcur Hpq Hfq Hsz].
  destruct (L id) as [|[v b] l] eqn:HL.
  { eexists _, _. split; [reflexivity|]. by apply pass_empty. }
  rewrite toks_cons. unfold tok at 1. cbn [fst snd app]. apply Forall_cons in Hfq as [Hg Hfq]. simpl in Hg.
  assert (Hok : exists ok c1, (if decide (v = 1) then Ok (true, mkFS m c (reader S P (fun e => toks (L e)) R cnt ps))
    else '(hit, c0) ← Access (arch_info env) c v;
         Ok (hit, (mkFS m c (reader S P (fun e => toks (L e)) R cnt ps)) <| s_cah := c0 |>)) =
    Ok (ok, mkFS m c1 (reader S P (fun e => toks (L e)) R cnt ps)) /\ shared_ok env c1 R m /\
    (forall y, cached a c1 y <-> cached a c y) /\
    (ok = false -> v <> 1 /\ line_ok env v /\ ~ cached a c v)).
  { destruct (decide (v = 1)) as [->|Hv1]; [by exists true, c|].
    destruct (access_shared env Hgeo c R m v Hsh) as (hit & c1 & -> & Hs1 & Hh & Hcc).
    exists hit, c1. split; [done|]. split; [done|]. split; [done|]. intros ->. split; [done|]. split; [by destruct Hg|].
    intros Hk. apply Hh in Hk. done. }
  destruct Hok as (ok & c1 & -> & Hs1 & Hcc & Hf). cbn [mbind outcome_bind s_fr s_mem].
  change (ffq (reader S P (fun e => toks (L e)) R cnt ps)) with (tab n (fun e => toks (L e))).
  change (requested (reader S P (fun e => toks (L e)) R cnt ps)) with R.
  destruct ok.
  - assert (Hpass : forall res, res = (if b then 0 else 1) ->
      exists res0 s', (l0 ← vset (tab n (fun e => toks (L e))) id (toks l);
        Ok (res, mkFS m c1 ((reader S P (fun e => toks (L e)) R cnt ps) <| ffq := l0 |>))) = Ok (res0, s') /\
      pass_outcome id (mkFS m c (reader S P (fun e => toks (L e)) R cnt ps)) S P L res0 s').
    { intros res ->. rewrite vset_tab by done. cbn [mbind outcome_bind]. eexists _, _. split; [reflexivity|].
      apply (pass_head _ _ _ _ _ v b l); [done|].
      exists R, cnt, ps. split; [simpl; unfold reader; by rewrite <- tab_toks_upd|]. split; [done|].
      intros e Hre. unfold upd. destruct (decide (e = id)) as [->|]; [|auto]. split; try done.
      rewrite toks_cons, vsize_app in Hsz. pose proof (vsize_nonneg (tok (v, b))). lia. }
    destruct b; cbn [app]; [by apply Hpass|].
    destruct (toks_head l) as [Hh|Hh]; [|by destruct Hh]. destruct (toks l) as [|z q]; [by apply Hpass|].
    destruct z; [done|by apply Hpass..].
  - destruct (Hf eq_refl) as (Hv1 & Hl & Hn).
    assert (Hn1 : ~ cached a c1 v) by (by rewrite Hcc).
    eexists _, _. split; [reflexivity|]. apply (pass_miss _ _ _ _ _ v b l); try done.
    + destruct (decide (v ∈ R)) as [HR|HR].
      * rewrite bool_decide_eq_false_2 by tauto. by exists R, cnt, ps.
      * rewrite bool_decide_eq_true_2 by done. exists ({[v]} ∪ R), cnt, ps. split; [done|]. split; [|done]. by apply ask_shared.
    + destruct (bool_decide _); done.
    + destruct (decide (v ∈ R)) as [HR|HR].
      * rewrite bool_decide_eq_false_2 by tauto. simpl. set_solver.
      * by rewrite bool_decide_eq_true_2.
    + simpl. destruct (decide (v ∈ R)) as [HR|HR].
      * by rewrite bool_decide_eq_false_2 by tauto.
      * by rewrite bool_decide_eq_true_2.
Qed.

Lemma pass_ok id s S P L :
  0 <= id < n -> state_ok s S P L ->
  exists res s' L', PassFtoSIMD env id s = Ok (res, s') /\ state_ok s' S P L' /\
    (res = -1 \/ res = 0 \/ res = 1) /\
    forall e, 0 <= e < n -> owed (S e) (P e) (L e) =
      owed (S e) (P e) (L' e) + (if decide (res = 0 /\ e = id) then 1 else 0).
Proof.
  clear Hx.
  intros Hid Hst. destruct (pass_spec id s S P L Hid Hst) as (res & s' & E & Hout). exists res, s'.
  destruct Hout as [HL|v b l s' HL Hst'|v b l s' HL Hst' _ _ _ _ _].
  - exists L. split_and!; try done; [lia|]. intros e _. rewrite decide_False by lia. lia.
  - exists (upd L id l). split_and!; try done; [destruct b; lia|]. intros e _. unfold upd.
    destruct (decide (e = id)) as [->|]; [|rewrite decide_False by tauto; lia].
    rewrite HL, owed_pass. destruct b; [rewrite decide_True by done|rewrite decide_False by lia]; lia.
  - exists L. split_and!; try done; [lia|]. intros e _. rewrite decide_False by lia. lia.
Qed.

Lemma receive_all_ok q s S P L :
  state_ok s S P L -> fq (s_mem s) = q ->
  exists s', receive_all env q s = Ok s' /\ state_ok s' S P L /\ fq (s_mem s') = [].
Proof.
  revert s. induction q as [|x q IH]; intros s Hst Hq; [by exists s|].
  destruct Hst as (R & cnt & ps & Es & Hsh & He).
  destruct (insert_shared env Hgeo _ _ _ x q Hsh Hq) as (c' & Hi & Hs' & Hx' & _).
  cbn [receive_all]. rewrite decide_False by done. simpl. rewrite Hi. cbn [mbind outcome_bind].
  apply IH; [|done]. rewrite Es. exists (R ∖ {[x]}), (cnt + 1), ps. done.
Qed.

(** The line received last is in the cache. *)
Lemma receive_all_last q x s s' S P L :
  state_ok s S P L -> fq (s_mem s) = q ++ [x] -> receive_all env (q ++ [x]) s = Ok s' -> cached a (s_cah s') x.
Proof.
  clear Hx. revert s. induction q as [|y q IH]; intros s (R & cnt & ps & Es & Hsh & He) Hq Hr; cbn [app receive_all] in Hr;
    destruct (insert_shared env Hgeo _ _ _ _ _ Hsh Hq) as (c' & Hi & Hs' & Hy & Hc); rewrite decide_False in Hr by done;
    cbn [s_cah] in Hr; simpl in Hr; rewrite Hi in Hr; cbn [mbind outcome_bind] in Hr.
  - by injection Hr as <-.
  - refine (IH _ _ _ Hr); [|done]. rewrite Es. exists (R ∖ {[y]}), (cnt + 1), ps. done.
Qed.

(** The runs of the reader, the cache and the memory: [h] has entered the
    pending queues, [o] lists the engines to which a row end has been delivered. *)
Inductive fr_run (T : Z) : list EdgeInfo -> list Z -> FS D -> Prop :=
  | fr_new d : dram_inv d -> dram_pending d = [] ->
      fr_run T [] [] (mkFS (Memory_new env d T) (Cache_new a) (ModeChange md (FeatureReader_new env)))
  | fr_enter h o s ei r : fr_run T h o s -> 0 <= ei_id ei < n -> edge_ok ei ->
      EnterFtoList ei (s_fr s) = Ok r -> fr_run T (h ++ [ei]) o (s <| s_fr := r |>)
  | fr_read h o s id s' : fr_run T h o s -> 0 <= id < n -> ReadNext env id s = Ok s' -> fr_run T h o s'
  | fr_pass h o s id res s' : fr_run T h o s -> 0 <= id < n -> PassFtoSIMD env id s = Ok (res, s') ->
      fr_run T h (o ++ if decide (res = 0) then [id] else []) s'
  | fr_receive h o s s' : fr_run T h o s -> FeatureReceive env s = Ok s' -> fr_run T h o s'
  | fr_other h o s t : fr_run T h o s -> addr_ok t -> is_feature env t = false ->
      fr_run T h o (s <| s_mem := AddTransaction t (s_mem s) |>)
  | fr_consume h o s m' : fr_run T h o s -> ConsumeTransaction (s_mem s) = Ok m' ->
      fr_run T h o (s <| s_mem := m' |>)
  | fr_tick h o s m' : fr_run T h o s -> UpdateCycle env (s_mem s) = Ok m' ->
      fr_run T h o (s <| s_mem := m' |>)
  | fr_graph h o s id r m' : fr_run T h o s -> GetGraph id (s_mem s) = Ok (r, m') ->
      fr_run T h o (s <| s_mem := m' |>).

(** The row ends of the edges entered for engine [e]. *)
Definition ends_entered (h : list EdgeInfo) (e : Z) : Z :=
  vsize (filter (fun ei => ei_is_last ei = true /\ ei_id ei = e) h).
Definition ends_delivered (o : list Z) (e : Z) : Z := vsize (filter (fun x => x = e) o).

Lemma state_ok_mem s S P L m' :
  state_ok s S P L -> (forall R, shared_ok env (s_cah s) R (s_mem s) -> shared_ok env (s_cah s) R m') ->
  state_ok (s <| s_mem := m' |>) S P L.
Proof. intros (R & cnt & ps & Es & Hsh & He) Hm. exists R, cnt, ps. split; [done|]. split; [by apply Hm|done]. Qed.

Hypothesis Hn : 0 <= n.
Hypothesis Hv : d_value_addr_start a = 0.

Lemma fr_new_ok T d : dram_inv d -> dram_pending d = [] ->
  state_ok (mkFS (Memory_new env d T) (Cache_new a) (ModeChange md (FeatureReader_new env)))
    (fun _ => mkFR_STAT false (-1) 0 0 true) (fun _ => []) (fun _ => []).
Proof.
  intros Hd Hp. exists ∅, 0, 0. split.
  { unfold ModeChange, FeatureReader_new, reader. simpl. fold a n. by rewrite !tab_replicate. }
  split.
  - assert (Hf : flight env (Memory_new env d T) = []) by (unfold flight; simpl; by rewrite Hp).
    split; simpl; rewrite ?Hf, ?Hp; try done.
    + exists []. split; [by apply represents_new|set_solver].
    + constructor.
    + set_solver.
  - intros e _. split; try done.
Qed.

Lemma fr_run_ok T h o s :
  fr_run T h o s -> exists S P L, state_ok s S P L /\
    forall e, 0 <= e < n -> ends_entered h e = ends_delivered o e + owed (S e) (P e) (L e).
Proof.
  induction 1 as [d Hd Hp|h o s ei r _ IH Hid Hei Hr|h o s id s' _ IH Hid Hr|h o s id res s' _ IH Hid Hr
                 |h o s s' _ IH Hr|h o s t _ IH Ht Hf|h o s m' _ IH Hm|h o s m' _ IH Hm|h o s id r m' _ IH Hm].
  - eexists _, _, _. split; [by apply fr_new_ok|]. done.
  - destruct IH as (S & P & L & Hst & He). destruct (enter_ok ei s S P L Hid Hei Hst) as (r' & Hr' & Hst').
    rewrite Hr' in Hr. injection Hr as <-. eexists _, _, _. split; [exact Hst'|].
    intros e Hre. unfold ends_entered. rewrite filter_app, vsize_app. fold (ends_entered h e).
    rewrite (He e Hre), filter_cons, filter_nil. unfold upd. destruct (decide (e = ei_id ei)) as [->|Hne].
    + rewrite owed_enter. destruct (ei_is_last ei); [rewrite decide_True by done|rewrite decide_False by naive_solver];
        unfold vsize; simpl; lia.
    + rewrite decide_False by naive_solver. unfold vsize; simpl; lia.
  - destruct IH as (S & P & L & Hst & He).
    destruct (read_next_ok id s S P L Hid Hst) as (s1 & S' & P' & L' & Hs1 & Hst' & Ho).
    rewrite Hs1 in Hr. injection Hr as <-. exists S', P', L'. split; [done|].
    intros e Hre. rewrite (He e Hre). by rewrite Ho.
  - destruct IH as (S & P & L & Hst & He).
    destruct (pass_ok id s S P L Hid Hst) as (res1 & s1 & L' & Hs1 & Hst' & _ & Ho).
    rewrite Hs1 in Hr. injection Hr as <- <-. exists S, P, L'. split; [done|].
    intros e Hre. rewrite (He e Hre), (Ho e Hre). unfold ends_delivered. rewrite filter_app, vsize_app.
    destruct (decide (res1 = 0)) as [->|Hr0].
    + rewrite filter_cons, filter_nil. destruct (decide (id = e)) as [->|Hne].
      * rewrite decide_True by done. unfold vsize; simpl; lia.
      * rewrite decide_False by naive_solver. unfold vsize; simpl; lia.
    + rewrite decide_False by tauto. unfold vsize; simpl; lia.
  - destruct IH as (S & P & L & Hst & He).
    destruct (receive_all_ok _ s S P L Hst eq_refl) as (s1 & Hs1 & Hst' & _).
    unfold FeatureReceive in Hr. rewrite Hs1 in Hr. injection Hr as <-. eauto.
  - destruct IH as (S & P & L & Hst & He). exists S, P, L. split; [|done].
    apply (state_ok_mem s); [done|]. intros R HR. by apply add_other_shared.
  - destruct IH as (S & P & L & Hst & He). exists S, P, L. split; [|done].
    apply (state_ok_mem s); [done|]. intros R HR. by apply (consume_shared env _ _ (s_mem s)).
  - destruct IH as (S & P & L & Hst & He). exists S, P, L. split; [|done].
    apply (state_ok_mem s); [done|]. intros R HR. by apply (tick_shared env _ _ (s_mem s)).
  - destruct IH as (S & P & L & Hst & He). exists S, P, L. split; [|done].
    apply (state_ok_mem s); [done|]. intros R HR. unfold GetGraph in Hm.
    apply bind_ok in Hm as (q & _ & Hm). destruct q; [by injection Hm as <- <-|].
    apply bind_ok in Hm as (q' & _ & Hm). injection Hm as <- <-. by apply (frame_shared env _ _ (s_mem s)).
Qed.
End reader.

(** ** The properties *)

(** C15: the reader asks for a line only when it is neither cached nor on its
    way.  At any point of a run the feature reads in flight are exactly the
    lines of [requested], each once, none of them is cached, and the cache
    satisfies its invariant (no line twice, every set within its ways). *)
Theorem no_duplicate_requests {D : Type} `{DramLaws D} (env : Env) (md : F_MODE) (T : Z)
    (h : list EdgeInfo) (o : list Z) (s : FS D) :
  geometry_ok (arch_info env) -> 0 <= n_of_engine (arch_info env) ->
  d_value_addr_start (arch_info env) = 0 ->
  (forall i r j v, vget (x_to_addr env) i = Ok r -> vget r j = Ok v ->
     line_ok env v \/ (md = X_CMP /\ v = 0)) ->
  fr_run env md T h o s ->
  NoDup (flight env (s_mem s)) /\
  (forall x, x ∈ requested (s_fr s) <-> x ∈ flight env (s_mem s)) /\
  (forall x, x ∈ requested (s_fr s) -> ~ cached (arch_info env) (s_cah s) x) /\
  cache_inv (arch_info env) (s_cah s).
Proof.
  intros Hg Hn Hv Hx Hr.
  destruct (fr_run_ok env md Hg Hx Hn Hv T h o s Hr) as (S & P & L & (R & cnt & ps & Es & Hsh & _) & _).
  rewrite Es. simpl. destruct Hsh as [(rec & Hrep & Hd) H1 H2 _ _ _ _]. split_and!; try done.
  - intros x Hin Hc. rewrite (cached_iff _ Hg _ _ _ Hrep) in Hc. by apply (Hd x).
  - apply Hrep.
Qed.

(** C14: in every reachable state each operation of the reader succeeds, for
    every engine and in all four feature modes (no read behind the end of a
    line list, no pop of an empty queue), and the feature queue of an engine
    never exceeds 257 entries. *)
Theorem feature_reader_safe {D : Type} `{DramLaws D} (env : Env) (md : F_MODE) (T : Z)
    (h : list EdgeInfo) (o : list Z) (s : FS D) (id : Z) :
  geometry_ok (arch_info env) -> 0 <= n_of_engine (arch_info env) ->
  d_value_addr_start (arch_info env) = 0 ->
  (forall i r j v, vget (x_to_addr env) i = Ok r -> vget r j = Ok v ->
     line_ok env v \/ (md = X_CMP /\ v = 0)) ->
  fr_run env md T h o s -> 0 <= id < n_of_engine (arch_info env) ->
  (exists s', ReadNext env id s = Ok s') /\
  (exists res s', PassFtoSIMD env id s = Ok (res, s') /\ (res = -1 \/ res = 0 \/ res = 1)) /\
  (exists s', FeatureReceive env s = Ok s' /\ fq (s_mem s') = []) /\
  (exists q, vget (ffq (s_fr s)) id = Ok q /\ vsize q <= 257).
Proof.
  intros Hg Hn Hv Hx Hr Hid.
  destruct (fr_run_ok env md Hg Hx Hn Hv T h o s Hr) as (S & P & L & Hst & _). split_and!.
  - destruct (read_next_ok env md Hg Hx id s S P L Hid Hst) as (s' & _ & _ & _ & Hs & _). eauto.
  - destruct (pass_ok env md Hg id s S P L Hid Hst) as (res & s' & _ & Hs & _ & Hres & _). eauto.
  - destruct (receive_all_ok env md Hg _ s S P L Hst eq_refl) as (s' & Hs & _ & Hq). eauto.
  - destruct Hst as (R & cnt & ps & Es & _ & He). exists (toks (L id)). rewrite Es. simpl.
    rewrite vget_tab by done. split; [done|]. apply (eo_size _ _ _ _ _ (He id Hid)).
Qed.

(** row ends are conserved.  For every engine the ends of the rows whose
    edges have entered the reader are those delivered to its SIMD unit plus
    those still owed by the waiting edges, the edge being read and the queue; so
    no more row ends are delivered than rows have been entered. *)
Theorem row_ends_conserved {D : Type} `{DramLaws D} (env : Env) (md : F_MODE) (T : Z)
    (h : list EdgeInfo) (o : list Z) (s : FS D) (e : Z) :
  geometry_ok (arch_info env) -> 0 <= n_of_engine (arch_info env) ->
  d_value_addr_start (arch_info env) = 0 ->
  (forall i r j v, vget (x_to_addr env) i = Ok r -> vget r j = Ok v ->
     line_ok env v \/ (md = X_CMP /\ v = 0)) ->
  fr_run env md T h o s -> 0 <= e < n_of_engine (arch_info env) ->
  exists st p l, vget (frs (s_fr s)) e = Ok st /\ vget (pq (s_fr s)) e = Ok p /\
    vget (ffq (s_fr s)) e = Ok (toks l) /\
    ends_entered h e = ends_delivered o e + owed st p l /\
    ends_delivered o e <= ends_entered h e.
Proof.
  intros Hg Hn Hv Hx Hr He.
  destruct (fr_run_ok env md Hg Hx Hn Hv T h o s Hr) as (S & P & L & (R & cnt & ps & Es & _) & Ho).
  exists (S e), (P e), (L e). rewrite Es. simpl. rewrite !vget_tab by done. specialize (Ho e He).
  split_and!; try done. unfold owed, row_ends, vsize in Ho. destruct (_ && _); lia.
Qed.

(** ** Witnesses: one edge of engine 1, its feature row requested *)
Definition demo_edge : EdgeInfo := mkEdgeInfo 1 true 3 0.

Definition demo_fs0 : FS IdealDRAMSystem :=
  mkFS (Memory_new demo_env (Ideal_new 3) 4) (Cache_new (arch_info demo_env))
       (ModeChange MAT (FeatureReader_new demo_env)).

Lemma demo_lines i r j v :
  vget (x_to_addr demo_env) i = Ok r -> vget r j = Ok v -> line_ok demo_env v \/ (MAT = X_CMP /\ v = 0).
Proof.
  intros [Hi Hr]%vget_ok [Hj Hv]%vget_ok. left.
  apply list_elem_of_lookup_2 in Hr, Hv. simpl in Hr. unfold line_ok, u64_max. simpl.
  repeat (apply elem_of_cons in Hr as [->|Hr]; [apply list_elem_of_singleton in Hv as ->; lia|]).
  by apply not_elem_of_nil in Hr.
Qed.

Lemma demo_edge_ok : edge_ok demo_env MAT demo_edge.
Proof. exists [448]. split; [reflexivity|]. split; [done|]. split; [done|]. split; [done|]. exists 448. done. Qed.

Lemma demo_fr_run : exists s, fr_run demo_env MAT 4 [demo_edge] [] s /\
  requested (s_fr s) = {[ 448 ]} /\ tq (s_mem s) = [mkTransaction 448 READ].
Proof.
  destruct (EnterFtoList demo_edge (s_fr demo_fs0)) as [r|] eqn:E1; [|exfalso; vm_compute in E1; discriminate E1].
  destruct (ReadNext demo_env 1 (demo_fs0 <| s_fr := r |>)) as [s|] eqn:E2.
  2: { exfalso. vm_compute in E1. injection E1 as <-. vm_compute in E2. discriminate E2. }
  exists s. split.
  - apply (fr_read demo_env MAT 4 [demo_edge] [] (demo_fs0 <| s_fr := r |>) 1 s); [|done|exact E2].
    apply (fr_enter demo_env MAT 4 [] [] demo_fs0 demo_edge r); [|done|exact demo_edge_ok|exact E1].
    apply (fr_new demo_env MAT 4 (Ideal_new 3)); done.
  - vm_compute in E1. injection E1 as <-. vm_compute in E2. injection E2 as <-. split; reflexivity.
Qed.

Lemma no_duplicate_requests_witness :
  exists s, fr_run demo_env MAT 4 [demo_edge] [] s /\ flight (D := IdealDRAMSystem) demo_env (s_mem s) = [448] /\
    ~ cached (arch_info demo_env) (s_cah s) 448.
Proof.
  destruct demo_fr_run as (s & Hr & Hreq & Htq).
  destruct (no_duplicate_requests demo_env MAT 4 [demo_edge] [] s ltac:(split; vm_compute; auto)
    ltac:(done) eq_refl demo_lines Hr) as (Hnd & Hiff & Hnc & _).
  exists s. split; [exact Hr|]. split.
  - assert (Hin : forall x, x ∈ flight demo_env (s_mem s) <-> x = 448).
    { intros x. rewrite <- Hiff, Hreq. apply elem_of_singleton. }
    destruct (flight demo_env (s_mem s)) as [|x l].
    + destruct (not_elem_of_nil 448). by apply Hin.
    + assert (x = 448) as -> by (apply Hin; left). apply NoDup_cons in Hnd as [Hx _]. f_equal.
      destruct l as [|y l]; [done|]. assert (y = 448) as -> by (apply Hin; right; left). destruct Hx. left.
  - apply Hnc. rewrite Hreq. by apply elem_of_singleton.
Defined.

Lemma feature_reader_safe_witness :
  exists s q, fr_run (D := IdealDRAMSystem) demo_env MAT 4 [demo_edge] [] s /\
    vget (ffq (s_fr s)) 1 = Ok q /\ vsize q <= 257.
Proof.
  destruct demo_fr_run as (s & Hr & _).
  destruct (feature_reader_safe demo_env MAT 4 [demo_edge] [] s 1 ltac:(split; vm_compute; auto)
    ltac:(done) eq_refl demo_lines Hr ltac:(done)) as (_ & _ & _ & q & Hq & Hs).
  exists s, q. split; [exact Hr|]. split; [exact Hq|exact Hs].
Defined.

Lemma row_ends_conserved_witness :
  exists s st p l, fr_run (D := IdealDRAMSystem) demo_env MAT 4 [demo_edge] [] s /\
    vget (ffq (s_fr s)) 1 = Ok (toks l) /\ 1 = 0 + owed st p l.
Proof.
  destruct demo_fr_run as (s & Hr & _).
  destruct (row_ends_conserved demo_env MAT 4 [demo_edge] [] s 1 ltac:(split; vm_compute; auto)
    ltac:(done) eq_refl demo_lines Hr ltac:(done)) as (st & p & l & _ & _ & Hq & Ho & _).
  exists s, st, p, l. split; [exact Hr|]. split; [exact Hq|exact Ho].
Defined.
