(* ===== verification/Simd.v ===== *)
(** * The SIMD unit of an engine (src/simd.cc)

    Every row end delivered by the feature reader makes the unit queue the
    output lines of that row ([write_urb] of them, fewer in the last fold);
    [Write] hands one queued line per cycle to the memory.  The record has the
    fields of [SIMD_STAT] and the write queue. *)

From stdpp Require Import base tactics list list_numbers numbers strings gmap.
From Stdlib Require Import ZArith Lia.
From S2P Require Import Prelude Common Float32 DramInterface IdealDram Memory.

Record SIMD := mkSIMD {
  ss_axw_addr_start : Z;
  ss_cur_row_idx : Z;
  cur_v_fold : Z;
  cnt : Z;
  nonzero_row : Z;
  cur_bf : Z;
  write_urb : Z;
  wq : list Z
}.

#[export] Instance SIMD_fields : Fields SIMD := fun s =>
  mkSIMD (ss_axw_addr_start s) (ss_cur_row_idx s) (cur_v_fold s) (cnt s) (nonzero_row s)
    (cur_bf s) (write_urb s) (wq s).

Section simd.
Context (env : Env) (id : Z).
Let a : ArchInfo := arch_info env.

(** The constructor. *)
Definition SIMD_new : outcome SIMD :=
  d ← vget (data_index env) id;
  rows ← ceil_div (a_h (data_info env)) (n_of_engine a);
  Ok (mkSIMD (u64 (axw_addr_start a + rows * id * bf a * urb a * CACHE_LINE_BYTE)) 0 0 0
        (row d - zero_row d) 1 (urb a) []).

Definition GetAddress (s : SIMD) : Z * SIMD :=
  (u64 (ss_axw_addr_start s + cnt s * CACHE_LINE_BYTE), s <| cnt := cnt s + 1 |>).

(** One round of the [for] loop over the output lines of a row. *)
Definition push_line (s : SIMD) : SIMD :=
  let '(address, s) := GetAddress s in
  s <| wq := wq s ++ [address] |> <| cur_v_fold := cur_v_fold s + 1 |>.

Definition GetFeature (f : Z) (s : SIMD) : SIMD :=
  if decide (f = 0) then
    let s := Nat.iter (Z.to_nat (write_urb s)) push_line s in
    let s := s <| cur_v_fold := 0 |> <| ss_cur_row_idx := ss_cur_row_idx s + 1 |> in
    if decide (ss_cur_row_idx s = nonzero_row s) then
      let s := s <| ss_cur_row_idx := 0 |> <| cur_bf := cur_bf s + 1 |> in
      if decide (cur_bf s = bf a)
      then s <| write_urb := total_urb (data_info env) - urb a * (bf a - 1) |> else s
    else s
  else s.

Definition Write {D} (s : SIMD) (m : Memory D) : SIMD * Memory D :=
  match wq s with
  | [] => (s, m)
  | address :: q =>
      if WillAcceptTransaction m
      then (s <| wq := q |>, AddTransaction (mkTransaction address WRITE) m)
      else (s, m)
  end.

(** ** The output lines *)

(** Lines written after [k] row ends: [urb] per row in the first [bf - 1]
    folds, the rest of the row in the last one. *)
Definition lines_after (nz k : Z) : Z :=
  urb a * Z.min k (nz * (bf a - 1)) +
  (total_urb (data_info env) - urb a * (bf a - 1)) * Z.max 0 (k - nz * (bf a - 1)).

Lemma lines_after_all nz :
  0 <= nz -> 0 < bf a -> lines_after nz (nz * bf a) = nz * total_urb (data_info env).
Proof.
  intros Hnz Hb. unfold lines_after. assert (nz * (bf a - 1) <= nz * bf a) by nia.
  rewrite Z.min_r, Z.max_r by nia. nia.
Qed.

Record simd_inv (base nz k : Z) (popped : list Z) (s : SIMD) : Prop := {
  sv_base : ss_axw_addr_start s = base;
  sv_nz : nonzero_row s = nz;
  sv_k : 0 <= k <= nz * bf a;
  sv_row : ss_cur_row_idx s = k mod nz;
  sv_bf : cur_bf s = k / nz + 1;
  sv_fold : cur_v_fold s = 0;
  sv_urb : write_urb s = if decide (bf a <= cur_bf s) then total_urb (data_info env) - urb a * (bf a - 1)
                         else urb a;
  sv_cnt : cnt s = lines_after nz k;
  sv_wq : popped ++ wq s = tab (cnt s) (fun i => u64 (base + i * CACHE_LINE_BYTE))
}.

Lemma push_lines_ok m s :
  0 <= cnt s ->
  Nat.iter m push_line s =
  s <| cnt := cnt s + Z.of_nat m |>
    <| wq := wq s ++ ((fun i => u64 (ss_axw_addr_start s + (cnt s + i) * CACHE_LINE_BYTE)) <$> seqZ 0 (Z.of_nat m)) |>
    <| cur_v_fold := cur_v_fold s + Z.of_nat m |>.
Proof.
  intros Hc. induction m as [|m IH].
  - destruct s. simpl. rewrite app_nil_r, !Z.add_0_r. done.
  - rewrite Nat.iter_succ, IH, seqZ_S, fmap_app, app_assoc. unfold push_line, GetAddress. simpl. f_equal; lia.
Qed.

Hypothesis Hbf : 0 < bf a.
Hypothesis Hurb : 0 <= urb a.
Hypothesis Hlast : urb a * (bf a - 1) <= total_urb (data_info env) <= urb a * bf a.
Hypothesis Hone : bf a = 1 -> total_urb (data_info env) = urb a.

Lemma lines_after_nonneg nz k : 0 <= nz -> 0 <= k -> 0 <= lines_after nz k.
Proof.
  intros Hnz Hk. unfold lines_after.
  assert (0 <= nz * (bf a - 1)) by nia.
  assert (0 <= urb a * Z.min k (nz * (bf a - 1))) by (apply Z.mul_nonneg_nonneg; lia).
  assert (0 <= (total_urb (data_info env) - urb a * (bf a - 1)) * Z.max 0 (k - nz * (bf a - 1)))
    by (apply Z.mul_nonneg_nonneg; lia). lia.
Qed.

(** The lines of one more row. *)
Lemma lines_after_succ nz k :
  0 < nz -> 0 <= k ->
  lines_after nz (k + 1) = lines_after nz k +
    (if decide (bf a <= k / nz + 1) then total_urb (data_info env) - urb a * (bf a - 1) else urb a).
Proof.
  intros Hnz Hk. unfold lines_after. destruct (decide _) as [Hd|Hd].
  - assert (nz * (bf a - 1) <= k).
    { pose proof (Z.mul_div_le k nz Hnz). nia. }
    rewrite !(Z.min_r) by lia. rewrite !Z.max_r by lia. ring.
  - assert (k < nz * (bf a - 1)).
    { pose proof (Z.mul_succ_div_gt k nz Hnz). nia. }
    rewrite !Z.min_l by lia. rewrite !Z.max_l by lia. ring.
Qed.

Lemma row_step nz k :
  0 < nz -> 0 <= k ->
  (k mod nz + 1 = nz /\ (k + 1) mod nz = 0 /\ (k + 1) / nz = k / nz + 1) \/
  (k mod nz + 1 <> nz /\ (k + 1) mod nz = k mod nz + 1 /\ (k + 1) / nz = k / nz).
Proof.
  intros Hnz Hk. pose proof (Z.div_mod k nz ltac:(lia)). pose proof (Z.mod_pos_bound k nz Hnz).
  destruct (decide (k mod nz + 1 = nz)); [left|right]; (split; [done|split; symmetry]).
  - apply (Z.mod_unique _ _ (k / nz + 1)); [left|]; lia.
  - apply (Z.div_unique _ _ _ 0); [left|]; lia.
  - apply (Z.mod_unique _ _ (k / nz)); [left|]; lia.
  - apply (Z.div_unique _ _ _ (k mod nz + 1)); [left|]; lia.
Qed.

Lemma write_urb_nonneg c : 0 <= if decide (bf a <= c) then total_urb (data_info env) - urb a * (bf a - 1) else urb a.
Proof. destruct (decide _); lia. Qed.

(** A row end queues the lines of its row. *)
Lemma get_feature_end base nz k popped s :
  0 < nz -> k < nz * bf a -> simd_inv base nz k popped s ->
  simd_inv base nz (k + 1) popped (GetFeature 0 s).
Proof.
  intros Hnz Hk I. destruct I. pose proof (lines_after_nonneg nz k ltac:(lia) ltac:(lia)) as Hc0.
  unfold GetFeature. rewrite decide_True by done.
  rewrite push_lines_ok by lia.
  set (w := Z.of_nat (Z.to_nat (write_urb s))).
  assert (Hw : w = if decide (bf a <= k / nz + 1) then total_urb (data_info env) - urb a * (bf a - 1) else urb a).
  { unfold w. rewrite sv_urb0, sv_bf0. rewrite Z2Nat.id by apply write_urb_nonneg. done. }
  assert (Hcnt : cnt s + w = lines_after nz (k + 1)).
  { rewrite lines_after_succ, sv_cnt0, Hw by lia. done. }
  assert (Hwq : popped ++ wq s ++ ((fun i => u64 (ss_axw_addr_start s + (cnt s + i) * CACHE_LINE_BYTE)) <$> seqZ 0 w) =
    tab (cnt s + w) (fun i => u64 (base + i * CACHE_LINE_BYTE))).
  { rewrite app_assoc, sv_wq0, sv_base0. unfold tab at 2. rewrite seqZ_app, fmap_app by (unfold w; lia).
    f_equal. rewrite Z.add_0_l. apply list_eq. intros i. rewrite !list_lookup_fmap.
    destruct (decide (Z.of_nat i < w)); [by rewrite !lookup_seqZ_lt by lia|by rewrite !lookup_seqZ_ge by lia]. }
  clearbody w. simpl. rewrite sv_row0, sv_bf0.
  destruct (row_step nz k Hnz ltac:(lia)) as [(E1 & E2 & E3)|(E1 & E2 & E3)].
  - rewrite decide_True by lia. destruct (decide (k / nz + 1 + 1 = bf a)) as [Hb|Hb].
    + split; simpl; try done; try lia. rewrite decide_True by lia. done.
    + split; simpl; try done; try lia. rewrite sv_urb0, sv_bf0.
      destruct (decide (bf a <= k / nz + 1)); [rewrite decide_True by lia; done|].
      by rewrite decide_False by lia.
  - rewrite decide_False by lia. split; simpl; try done; try lia. rewrite sv_urb0, sv_bf0. done.
Qed.

Lemma get_feature_other f s : f <> 0 -> GetFeature f s = s.
Proof. intros Hf. unfold GetFeature. by rewrite decide_False. Qed.

Lemma simd_new_inv s d :
  vget (data_index env) id = Ok d -> 0 < row d - zero_row d -> SIMD_new = Ok s ->
  simd_inv (ss_axw_addr_start s) (row d - zero_row d) 0 [] s.
Proof.
  intros Hd Hnz Hs. unfold SIMD_new in Hs. rewrite Hd in Hs. cbn [mbind outcome_bind] in Hs.
  apply bind_ok in Hs as (r & _ & Hs). injection Hs as <-.
  assert (0 <= (row d - zero_row d) * (bf a - 1)) by nia.
  assert (Hl : lines_after (row d - zero_row d) 0 = 0).
  { unfold lines_after. rewrite Z.min_l, Z.max_l by lia. lia. }
  split; simpl; try done.
  - split; [done|]. nia.
  - destruct (decide _) as [Hle|]; [|done]. replace (bf a) with 1 in * by lia. rewrite Hone by lia. lia.
Qed.
End simd.

Lemma write_inv {D} env base nz k popped s (m m' : Memory D) s' :
  simd_inv env base nz k popped s -> Write s m = (s', m') ->
  (s' = s /\ m' = m) \/
  (exists x, m' = AddTransaction (mkTransaction x WRITE) m /\ simd_inv env base nz k (popped ++ [x]) s' /\
     vsize (wq s) = vsize (wq s') + 1 /\ cnt s' = cnt s).
Proof.
  intros I Hw. unfold Write in Hw. destruct (wq s) as [|x q] eqn:Hq; [left; by injection Hw as <- <-|].
  destruct (WillAcceptTransaction m); [|left; by injection Hw as <- <-]. right.
  injection Hw as <- <-. exists x. split; [done|]. simpl. split; [|split; [unfold vsize; simpl; lia|done]].
  destruct I. split; simpl; try done. rewrite <- app_assoc. simpl. by rewrite <- Hq.
Qed.

(** ** Runs of a unit: [k] row ends have come in, [popped] has been written. *)
Inductive simd_run {D : Type} (env : Env) (id : Z) : Z -> list Z -> SIMD -> Prop :=
  | sr_new s : SIMD_new env id = Ok s -> simd_run env id 0 [] s
  | sr_feature k popped s f : simd_run env id k popped s -> f <> 0 ->
      simd_run env id k popped (GetFeature env f s)
  | sr_end k popped s : simd_run env id k popped s -> simd_run env id (k + 1) popped (GetFeature env 0 s)
  | sr_write k popped s (m m' : Memory D) s' new : simd_run env id k popped s ->
      Write s m = (s', m') -> tq m' = tq m ++ new -> simd_run env id k (popped ++ (t_address <$> new)) s'.

Lemma simd_run_inv {D : Type} env id d k popped s :
  0 < bf (arch_info env) -> 0 <= urb (arch_info env) ->
  urb (arch_info env) * (bf (arch_info env) - 1) <= total_urb (data_info env)
    <= urb (arch_info env) * bf (arch_info env) ->
  (bf (arch_info env) = 1 -> total_urb (data_info env) = urb (arch_info env)) ->
  vget (data_index env) id = Ok d -> 0 < row d - zero_row d ->
  simd_run (D := D) env id k popped s -> k <= (row d - zero_row d) * bf (arch_info env) ->
  exists base, simd_inv env base (row d - zero_row d) k popped s.
Proof.
  intros Hb Hu Hl H1 Hd Hnz Hr.
  induction Hr as [s Hs|k popped s f _ IH Hf|k popped s _ IH|k popped s m m' s' new _ IH Hw Ht]; intros Hk.
  - eexists. by eapply simd_new_inv.
  - rewrite get_feature_other by done. auto.
  - destruct IH as [base I]; [lia|]. exists base. apply get_feature_end; done || lia.
  - destruct (IH Hk) as [base I]. exists base.
    destruct (write_inv env base _ k popped s m m' s' I Hw) as [[-> ->]|(x & -> & I' & _)].
    + assert (new = []) as -> by (apply (app_inv_head (tq m)); by rewrite app_nil_r).
      by rewrite app_nil_r.
    + simpl in Ht. apply app_inv_head in Ht as <-. done.
Qed.


(** ** Witness: both rows of engine 1 end *)
Definition demo_simd : SIMD := mkSIMD 640 0 0 0 2 1 1 [].


(** The output regions of two engines may overlap: an engine that holds 32 of
    33 rows writes 32 lines, while the region of the next engine starts 17 lines
    further. *)
Definition overlap_env : Env :=
  demo_env <| data_info := mkDataInfo 33 33 33 16 16 16 1 1 33 33 |>
           <| data_index := [mkDataIndex 0 0 0 0 0 0 32 0 32; mkDataIndex 0 0 0 0 0 0 1 0 1] |>.

Example output_regions_overlap :
  exists s0 s1, SIMD_new overlap_env 0 = Ok s0 /\ SIMD_new overlap_env 1 = Ok s1 /\
    nonzero_row s0 * total_urb (data_info overlap_env) = 32 /\
    ss_axw_addr_start s1 = ss_axw_addr_start s0 + 17 * CACHE_LINE_BYTE.
Proof. eexists _, _. split; [reflexivity|]. split; [reflexivity|]. split; vm_compute; reflexivity. Qed.
