(* ===== verification/Accelerator.v ===== *)
(** * The accelerator (src/controller.cc)

    [Controller] owns the memory, the cache, the feature reader and one graph
    reader and SIMD unit per engine.  [GCNInference] runs all engines one step
    per cycle, then collects the received features, feeds the DRAM and ticks it,
    until [total_write] is zero.  The end of the file proves that the loop stops
    only after every output line has been issued and completed. *)

From stdpp Require Import base tactics list list_numbers numbers strings gmap.
From Stdlib Require Import ZArith Lia.
From S2P Require Import Prelude Common Float32 Csr Layout DramInterface IdealDram Memory Cache GraphDistribution GraphReader FeatureReader Simd.

Record Controller (D : Type) := mkController {
  c_fs : FS D;                (** the memory, the cache and the feature reader *)
  gr : list GraphReader;
  si : list SIMD
}.
Arguments mkController {D}.
Arguments c_fs {D}.
Arguments gr {D}.
Arguments si {D}.

#[export] Instance Controller_fields {D} : Fields (Controller D) := fun c =>
  mkController (c_fs c) (gr c) (si c).

Section controller.
Context {D : Type} `{DramBackend D} (env : Env).
Let a : ArchInfo := arch_info env.
Let n : Z := n_of_engine a.

(** The constructor; [d] is the DRAM system, [total] the global [total_write]. *)
Definition Controller_new (d : D) (total : Z) : outcome (Controller D) :=
  '(grs, sis) ← for_int n (fun i '(grs, sis) =>
      g ← GraphReader_new env i;
      s ← SIMD_new env i;
      Ok (grs ++ [g], sis ++ [s])) ([], []);
  Ok (mkController (mkFS (Memory_new env d total) (Cache_new a) (FeatureReader_new env)) grs sis).

(** The graph reader's work in one cycle. *)
Definition graph_work (i : Z) (m : Memory D) (g : GraphReader) : outcome (Memory D * GraphReader) :=
  '(m, g) ← (if v_req_over g then Ok (m, g) else VertexRequest env i m g);
  '(m, g) ← (if e_req_over g then Ok (m, g) else EdgeRequest env i m g);
  if reci_over g then Ok (m, g) else GraphReceive env i m g.

(** Handing an edge to the feature reader. *)
Definition pass_edge (i : Z) (g : GraphReader) (r : FeatureReader) : outcome (GraphReader * FeatureReader) :=
  if pass_over g then Ok (g, r) else
  '(ei, g) ← NextFeature env i g;
  if decide (ei_dst ei = -1) then Ok (g, r) else
  r ← EnterFtoList ei r;
  Ok (g, r).

(** The body of the [for] loop for engine [i]. *)
Definition engine_step (i : Z) (c : Controller D) : outcome (Controller D) :=
  g ← vget (gr c) i;
  s ← vget (si c) i;
  let fs := c_fs c in
  '(m, g) ← graph_work i (s_mem fs) g;
  '(g, r) ← pass_edge i g (s_fr fs);
  fs ← ReadNext env i (mkFS m (s_cah fs) r);
  '(pass, fs) ← PassFtoSIMD env i fs;
  let s := Simd.GetFeature env pass s in
  let '(s, m) := Write s (s_mem fs) in
  grs ← vset (gr c) i g;
  sis ← vset (si c) i s;
  Ok (mkController (fs <| s_mem := m |>) grs sis).

(** One round of the [while] loop. *)
Definition cycle_step (c : Controller D) : outcome (Controller D) :=
  c ← for_int n engine_step c;
  fs ← FeatureReceive env (c_fs c);
  m ← ConsumeTransaction (s_mem fs);
  m ← UpdateCycle env m;
  Ok (c <| c_fs := fs <| s_mem := m |> |>).

(** At most [fuel] rounds; [None] when the loop has not stopped by then. *)
Fixpoint inference_loop (fuel : nat) (cycle : Z) (c : Controller D) : outcome (option (Z * Controller D)) :=
  match fuel with
  | O => Ok None
  | S fuel =>
      c ← cycle_step c;
      let cycle := u64 (cycle + 1) in
      if decide (total_write (s_mem (c_fs c)) = 0) then Ok (Some (cycle, c))
      else inference_loop fuel cycle c
  end.

(** [DAVCRead]; [davc] is the size of [davc_list]. *)
Definition davc_round (c : Memory D * Z) : outcome (Memory D * Z) :=
  let '(m, cycle) := c in
  m ← ConsumeTransaction m;
  m ← UpdateCycle env m;
  Ok ((Memory.GetFeature m).2, u64 (cycle + 1)).

Fixpoint davc_wait (fuel : nat) (want : Z) (c : Memory D * Z) : outcome (option (Memory D * Z)) :=
  if decide (xw_get c.1 < want) then
    match fuel with
    | O => Ok None
    | S fuel => c ← davc_round c; davc_wait fuel want c
    end
  else Ok (Some c).

Definition DAVCRead (fuel : nat) (davc : Z) (m : Memory D) : outcome (option (Memory D * Z)) :=
  if decide (davc = 0) then Ok (Some (m, 0)) else
  let width := urb a * bf a in
  c ← for_int (davc * width) (fun _ '(m, cycle) =>
        davc_round (AddTransaction (mkTransaction (xw_ele_addr_start a) READ) m, cycle)) (m, 0);
  r ← davc_wait fuel (davc * width) c;
  Ok (match r with None => None | Some (m, cycle) => Some (m <| xw_get := 0 |>, cycle) end).

Definition GCNInference (fuel : nat) (davc : Z) (f_mode : F_MODE) (c : Controller D)
    : outcome (option (Z * Controller D)) :=
  r ← DAVCRead fuel davc (s_mem (c_fs c));
  match r with
  | None => Ok None
  | Some (m, cycle) =>
      let fs := (c_fs c) <| s_mem := m |> <| s_fr := ModeChange f_mode (s_fr (c_fs c)) |> in
      inference_loop fuel cycle (c <| c_fs := fs |>)
  end.

(** [Combination]: read the feature matrix, then the larger of the memory and
    the compute cycles. *)
Definition combination_read (m : Memory D) : outcome (Memory D * Z * Z) :=
  for_int (x_h (data_info env)) (fun _ s =>
    for_int (urb a * bf a) (fun _ '(m, cnt, read_cycle) =>
      let m := AddTransaction (mkTransaction (xw_ele_addr_start a) READ) m in
      m ← ConsumeTransaction m;
      if decide (n = 0) then Fault Undefined else
      if decide (Z.rem (cnt + 1) n = 0)
      then m ← UpdateCycle env m; Ok (m, cnt + 1, u64 (read_cycle + 1))
      else Ok (m, cnt + 1, read_cycle)) s) (m, 0, 0).

Fixpoint combination_wait (fuel : nat) (want : Z) (c : Memory D * Z) : outcome (option (Memory D * Z)) :=
  if decide (xw_get c.1 < want) then
    match fuel with
    | O => Ok None
    | S fuel =>
        m ← ConsumeTransaction c.1;
        m ← UpdateCycle env m;
        combination_wait fuel want (m, u64 (c.2 + 1))
    end
  else Ok (Some c).

Definition Combination (fuel : nat) (m : Memory D) : outcome (option (Memory D * Z)) :=
  let d := data_info env in
  '(m, _, read_cycle) ← combination_read m;
  r ← combination_wait fuel (u64 (x_h d * urb a * bf a)) (m, read_cycle);
  match r with
  | None => Ok None
  | Some (m, read_cycle) =>
      total_w_repeat ← ceil_div (w_w d) (32 * n);
      total_x_repeat ← ceil_div (x_h d) (32 * n);
      let compute_cycle := u64 (u64 (u64 (x_w d + 32 * n) * total_w_repeat) * total_x_repeat) in
      Ok (Some (m, Z.max read_cycle compute_cycle))
  end.

(** The counters [PrintMemoryStats] puts into the log: graph, fragment, element
    and output accesses. *)
Definition PrintMemoryStats (m : Memory D) : Z * Z * Z * Z :=
  (g_access m, f_frag_access m, f_ele_access m, o_access m).
End controller.

(** ** What the readers do to the memory: they only queue reads *)
Section reads_only.
Context {D : Type} (env : Env).

Definition read_ext (m m' : Memory D) : Prop :=
  mem m' = mem m /\ total_write m' = total_write m /\
  exists l, tq m' = tq m ++ l /\ Forall (fun t => t_is_write t = false) l.

#[export] Instance read_ext_refl : Reflexive read_ext.
Proof. intros m. split; [done|]. split; [done|]. exists []. by rewrite app_nil_r. Qed.

#[export] Instance read_ext_trans : Transitive read_ext.
Proof.
  intros m1 m2 m3 (E1 & T1 & l1 & Q1 & F1) (E2 & T2 & l2 & Q2 & F2).
  split; [congruence|]. split; [congruence|]. exists (l1 ++ l2).
  rewrite Q2, Q1, app_assoc. split; [done|]. by apply Forall_app.
Qed.

Lemma read_ext_add x (m : Memory D) : read_ext m (AddTransaction (mkTransaction x READ) m).
Proof. split; [done|]. split; [done|]. exists [mkTransaction x READ]. split; [done|]. by constructor. Qed.

Lemma vertex_reads i m g m' g' : VertexRequest (D := D) env i m g = Ok (m', g') -> read_ext m m'.
Proof.
  unfold VertexRequest. destruct (WillAcceptTransaction m); [|by intros [= <- <-]].
  intros Hr. apply bind_ok in Hr as (d & _ & Hr).
  repeat case_decide; injection Hr as <- <-; apply read_ext_add.
Qed.

Lemma edge_reads i m g m' g' : EdgeRequest (D := D) env i m g = Ok (m', g') -> read_ext m m'.
Proof.
  unfold EdgeRequest. destruct (WillAcceptTransaction m); [|by intros [= <- <-]].
  intros Hr. apply bind_ok in Hr as (d & _ & Hr).
  destruct (gnn_mode _); repeat case_decide; injection Hr as <- <-; try apply read_ext_add;
    (etransitivity; apply read_ext_add).
Qed.

Lemma graph_receive_reads i m g m' g' : GraphReceive (D := D) env i m g = Ok (m', g') -> read_ext m m'.
Proof.
  unfold GraphReceive, GetGraph. intros Hr. apply bind_ok in Hr as ([t m1] & Hg & Hr).
  apply bind_ok in Hr as (g1 & _ & Hr). injection Hr as <- <-.
  apply bind_ok in Hg as (q & _ & Hg). destruct q; [by injection Hg as <- <-|].
  apply bind_ok in Hg as (q' & _ & Hg). injection Hg as <- <-.
  split; [done|]. split; [done|]. exists []. by rewrite app_nil_r.
Qed.

(** A step of the feature reader that leaves the memory and the request set. *)
Definition quiet (s s' : FS D) : Prop := s_mem s' = s_mem s /\ requested (s_fr s') = requested (s_fr s).

(** A step of the feature reader only queues reads, each of a line it has entered
    in its request set. *)
Definition fs_ext (s s' : FS D) : Prop :=
  requested (s_fr s) ⊆ requested (s_fr s') /\ rq (s_mem s') = rq (s_mem s) /\
  mem (s_mem s') = mem (s_mem s) /\ total_write (s_mem s') = total_write (s_mem s) /\
  exists l, tq (s_mem s') = tq (s_mem s) ++ l /\
    Forall (fun t => t_is_write t = false /\ t_address t ∈ requested (s_fr s')) l.

Lemma quiet_ext s s' : quiet s s' -> fs_ext s s'.
Proof. intros [E1 E2]. unfold fs_ext. rewrite E1, E2. split_and!; try done. exists []. by rewrite app_nil_r. Qed.

#[export] Instance fs_ext_refl : Reflexive fs_ext.
Proof. intros s. by apply quiet_ext. Qed.

#[export] Instance fs_ext_trans : Transitive fs_ext.
Proof.
  intros s1 s2 s3 (I1 & Q1 & M1 & T1 & l1 & E1 & F1) (I2 & Q2 & M2 & T2 & l2 & E2 & F2).
  split_and!; [set_solver|congruence..|]. exists (l1 ++ l2). rewrite E2, E1, app_assoc. split; [done|].
  apply Forall_app. split; [|done]. eapply Forall_impl; [exact F1|]. intros t [Hw Ht]. auto.
Qed.

Lemma fs_ext_reads s s' : fs_ext s s' -> read_ext (s_mem s) (s_mem s').
Proof.
  intros (_ & _ & M & T & l & E & F). split_and!; [done..|]. exists l. split; [done|].
  eapply Forall_impl; [exact F|]. by intros t [].
Qed.

(** The step that asks for a line. *)
Lemma fs_ext_ask v c s :
  fs_ext s (s <| s_cah := c |> <| s_fr := (s_fr s) <| requested := {[ v ]} ∪ requested (s_fr s) |> |>
              <| s_mem := AddTransaction (mkTransaction v READ) (s_mem s) |>).
Proof.
  split_and!; simpl; [set_solver|done..|]. exists [mkTransaction v READ]. split; [done|].
  apply Forall_singleton. split; [done|set_solver].
Qed.

Lemma push_quiet id v (s s' : FS D) : push_fq id v s = Ok s' -> quiet s s'.
Proof. unfold push_fq. intros Hr. by ok_inv Hr. Qed.

Lemma set_quiet id st (s s' : FS D) : set_stat id st s = Ok s' -> quiet s s'.
Proof. unfold set_stat. intros Hr. by ok_inv Hr. Qed.

Lemma finish_ext id st (s s' : FS D) : finish_edge id st s = Ok s' -> fs_ext s s'.
Proof.
  unfold finish_edge. intros Hr. apply bind_ok in Hr as (s1 & Hs & Hr). apply set_quiet, quiet_ext in Hs.
  etransitivity; [exact Hs|]. destruct (f_is_last st); [by apply push_quiet, quiet_ext in Hr|by injection Hr as <-].
Qed.

Lemma request_ext v (s s' : FS D) : request_line env v s = Ok s' -> fs_ext s s'.
Proof.
  unfold request_line. intros Hr. apply bind_ok in Hr as ([hit c] & _ & Hr). injection Hr as <-.
  destruct (_ && _); [apply fs_ext_ask|by apply quiet_ext].
Qed.

Lemma read_mat_ext id (s s' : FS D) : read_mat env id s = Ok s' -> fs_ext s s'.
Proof.
  unfold read_mat. intros Hr. apply bind_ok in Hr as (st & _ & Hr). apply bind_ok in Hr as (v & _ & Hr).
  apply bind_ok in Hr as (s1 & Hs1 & Hr). apply bind_ok in Hr as (s2 & Hs2 & Hr).
  apply request_ext in Hs1. apply push_quiet, quiet_ext in Hs2. etransitivity; [exact Hs1|].
  etransitivity; [exact Hs2|]. destruct (more_lines _ _); [by apply set_quiet, quiet_ext in Hr|by apply finish_ext in Hr].
Qed.

Lemma read_x_cmp_ext id (s s' : FS D) : read_x_cmp env id s = Ok s' -> fs_ext s s'.
Proof.
  unfold read_x_cmp. intros Hr. apply bind_ok in Hr as (st & _ & Hr). apply bind_ok in Hr as (v & _ & Hr).
  apply bind_ok in Hr as (s1 & Hs1 & Hr). apply bind_ok in Hr as ([hit c] & _ & Hr).
  apply bind_ok in Hr as (s2 & Hs2 & Hr). apply request_ext in Hs1. apply push_quiet, quiet_ext in Hs2.
  etransitivity; [exact Hs1|]. etransitivity; [exact Hs2|]. destruct (more_lines _ _).
  - apply bind_ok in Hr as (v' & _ & Hr).
    destruct (decide _); [by apply finish_ext in Hr|by apply set_quiet, quiet_ext in Hr].
  - by apply finish_ext in Hr.
Qed.

Lemma read_list_ext id (s s' : FS D) : read_list env id s = Ok s' -> fs_ext s s'.
Proof.
  unfold read_list. intros Hr. apply bind_ok in Hr as (st & _ & Hr). apply bind_ok in Hr as (r & _ & Hr).
  apply bind_ok in Hr as ([[go st1] s1] & Hhd & Hr).
  assert (H1 : fs_ext s s1).
  { destruct (decide _); [|injection Hhd as _ _ <-; reflexivity].
    apply bind_ok in Hhd as (v & _ & Hhd). apply bind_ok in Hhd as ([hit c] & _ & Hhd).
    destruct hit; injection Hhd as _ _ <-; [by apply quiet_ext|].
    destruct (bool_decide _); [apply fs_ext_ask|by apply quiet_ext]. }
  destruct go; [|by injection Hr as <-]. clear Hhd.
  apply bind_ok in Hr as (s2 & Hs2 & Hr). apply bind_ok in Hr as (v & _ & Hr).
  apply bind_ok in Hr as (s3 & Hs3 & Hr). apply bind_ok in Hr as (s4 & Hs4 & Hr).
  apply set_quiet, quiet_ext in Hs2. apply request_ext in Hs3. apply push_quiet, quiet_ext in Hs4.
  etransitivity; [exact H1|]. etransitivity; [exact Hs2|]. etransitivity; [exact Hs3|]. etransitivity; [exact Hs4|].
  destruct (decide _); [by apply set_quiet, quiet_ext in Hr|by apply finish_ext in Hr].
Qed.

Lemma read_next_ext id (s s' : FS D) : ReadNext env id s = Ok s' -> fs_ext s s'.
Proof.
  unfold ReadNext. intros Hr. apply bind_ok in Hr as (q & _ & Hr).
  destruct (_ || _); [by injection Hr as <-|]. apply bind_ok in Hr as (st & _ & Hr).
  apply bind_ok in Hr as (p & _ & Hr). destruct (_ && _); [by injection Hr as <-|].
  apply bind_ok in Hr as (s1 & Hs1 & Hr).
  assert (E : fs_ext s s1).
  { apply quiet_ext. destruct (pq_read_need st); [|by injection Hs1 as <-]. unfold ConsumePendingQ in Hs1.
    apply bind_ok in Hs1 as (r1 & Hc & Hs1). injection Hs1 as <-. apply bind_ok in Hc as (q' & _ & Hc).
    destruct q'; [done|]. by ok_inv Hc. }
  etransitivity; [exact E|]. destruct (fr_mode _);
    [by eapply read_x_cmp_ext|by eapply read_mat_ext|by eapply read_list_ext..].
Qed.

Lemma pass_ext id (s s' : FS D) res : PassFtoSIMD env id s = Ok (res, s') -> fs_ext s s'.
Proof.
  unfold PassFtoSIMD. intros Hr. apply bind_ok in Hr as (q & _ & Hr).
  destruct q as [|v q]; [by injection Hr as <- <-|]. apply bind_ok in Hr as ([ok s1] & Hs1 & Hr).
  assert (E : fs_ext s s1).
  { apply quiet_ext. destruct (decide _); [by injection Hs1 as _ <-|]. apply bind_ok in Hs1 as ([h c] & _ & Hs1).
    by injection Hs1 as _ <-. }
  etransitivity; [exact E|]. clear Hs1. destruct ok.
  - apply quiet_ext. repeat (case_match; ok_inv Hr; try done).
  - injection Hr as _ <-. destruct (bool_decide _); [apply (fs_ext_ask v (s_cah s1))|reflexivity].
Qed.

(** Receiving lines touches the feature queue only. *)
Lemma receive_all_frame q (s s' : FS D) :
  receive_all env q s = Ok s' ->
  tq (s_mem s') = tq (s_mem s) /\ mem (s_mem s') = mem (s_mem s) /\ rq (s_mem s') = rq (s_mem s) /\
  total_write (s_mem s') = total_write (s_mem s).
Proof.
  revert s. induction q as [|x q IH]; intros s Hr; cbn [receive_all] in Hr; [by injection Hr as <-|].
  destruct (decide _); [by injection Hr as <-|]. apply bind_ok in Hr as (c & _ & Hr). exact (IH _ Hr).
Qed.
End reads_only.

(** ** The writes still to come *)
Section outputs.
Context {D : Type} `{DramLaws D} (env : Env).

(** Writes queued or inside the DRAM. *)
Definition writes_open (m : Memory D) : Z := count is_output (tq m ++ dram_pending (mem m)).

Lemma count_app P l1 l2 : count P (l1 ++ l2) = count P l1 + count P l2.
Proof. unfold count. by rewrite filter_app, vsize_app. Qed.

Lemma count_perm P l1 l2 : l1 ≡ₚ l2 -> count P l1 = count P l2.
Proof. intros Hp. unfold count, vsize. by rewrite Hp. Qed.

Lemma count_none P l : Forall (fun t => P t = false) l -> count P l = 0.
Proof.
  intros Hf. induction Hf as [|t l Ht _ IH]; [done|]. unfold count in *. rewrite filter_cons.
  rewrite decide_False by (rewrite Ht; auto). done.
Qed.

Lemma read_ext_open m m' : read_ext m m' -> writes_open m' = writes_open m /\ total_write m' = total_write m.
Proof.
  intros (E & T & l & Q & F). split; [|done]. unfold writes_open. rewrite E, Q, !count_app.
  rewrite (count_none is_output l) by done. lia.
Qed.

Lemma write_open x m : writes_open (AddTransaction (mkTransaction x WRITE) m) = writes_open m + 1.
Proof.
  unfold writes_open. simpl. rewrite !count_app. assert (count is_output [mkTransaction x WRITE] = 1) as ->; [done|]. lia.
Qed.

Lemma consume_open m m' :
  dram_inv (mem m) -> Forall addr_ok (tq m) -> ConsumeTransaction m = Ok m' ->
  writes_open m' = writes_open m /\ total_write m' = total_write m.
Proof.
  intros Hi Ha Hm. unfold ConsumeTransaction in Hm. apply bind_ok in Hm as ([q d] & Hq & Hm). injection Hm as <-.
  destruct (consume_ok _ _ _ _ Hi Ha Hq) as (_ & Hp & _). split; [|done].
  unfold writes_open. simpl. by apply count_perm.
Qed.

(** A completed write lowers [total_write] by one. *)
Lemma callbacks_total done (m m' : Memory D) :
  for_each (callback env) done m = Ok m' ->
  u64 (total_write m') = u64 (total_write m - count is_output done) /\ tq m' = tq m /\ mem m' = mem m.
Proof.
  revert m. induction done as [|t done IH]; intros m Hf; cbn [for_each] in Hf.
  { injection Hf as <-. rewrite Z.sub_0_r. done. }
  apply bind_ok in Hf as (m1 & Hc & Hf). destruct (IH _ Hf) as (E1 & E2 & E3).
  change (t :: done) with ([t] ++ done). rewrite count_app, E1, E2, E3.
  unfold callback in Hc. destruct (t_is_write t) eqn:Hw.
  - injection Hc as <-. simpl. split; [|done]. assert (count is_output [t] = 1) as ->.
    { unfold count. by rewrite filter_cons, decide_True by (unfold is_output; by rewrite Hw). }
    rewrite u64_sub_l. f_equal. lia.
  - rewrite (count_none is_output [t]) by (by constructor).
    unfold ReadCompleteCallback in Hc. destruct (_ && _).
    + destruct (find_engine _ _ _ _); [|done]. ok_inv Hc. simpl. split; [|done]. f_equal; lia.
    + destruct (_ <=? _); injection Hc as <-; simpl; (split; [|done]); f_equal; lia.
Qed.

Lemma callbacks_range done (m m' : Memory D) :
  0 <= total_write m < 2 ^ 64 -> for_each (callback env) done m = Ok m' -> 0 <= total_write m' < 2 ^ 64.
Proof.
  intros Hr. apply (for_each_inv _ (fun m => 0 <= total_write m < 2 ^ 64)); [|done].
  clear Hr. intros t m1 m2 _ Hr Hc. unfold callback in Hc.
  destruct (t_is_write t); [injection Hc as <-; apply u64_range|].
  unfold ReadCompleteCallback in Hc. destruct (_ && _).
  - destruct (find_engine _ _ _ _); [|done]. ok_inv Hc. done.
  - destruct (_ <=? _); injection Hc as <-; done.
Qed.

Lemma tick_open m m' :
  dram_inv (mem m) -> 0 <= total_write m < 2 ^ 64 -> UpdateCycle env m = Ok m' ->
  u64 (total_write m' - writes_open m') = u64 (total_write m - writes_open m) /\ 0 <= total_write m' < 2 ^ 64.
Proof.
  intros Hi Hr Hm. unfold UpdateCycle in Hm.
  apply bind_ok in Hm as ([d done] & Ht & Hm). apply bind_ok in Hm as (m1 & Hf & Hm). injection Hm as <-.
  destruct (dram_tick_law _ _ _ Hi Ht) as [_ Hp]. destruct (callbacks_total _ _ _ Hf) as (E1 & E2 & E3).
  split; [|refine (callbacks_range done _ m1 _ Hf); exact Hr]. simpl in E1, E2, E3. simpl.
  unfold writes_open. simpl. rewrite E2, E3, <- u64_sub_l, E1, u64_sub_l, !count_app.
  rewrite <- (count_perm _ _ _ Hp), count_app. f_equal. lia.
Qed.
End outputs.

(** ** What the preprocessor hands over *)
Record well_prepared (env : Env) (md : F_MODE) (R : Z -> list (list Z)) (X : Z -> DataIndex) : Prop := {
  wp_n : 0 <= n_of_engine (arch_info env);
  wp_rows : row_ptr env = tab (n_of_engine (arch_info env)) (fun e => offsets (R e));
  wp_cols : col_idx env = tab (n_of_engine (arch_info env)) (fun e => concat (R e));
  wp_index : data_index env = tab (n_of_engine (arch_info env)) X;
  wp_layout : Layout (arch_info env) (data_index env);
  wp_value : d_value_addr_start (arch_info env) = 0;
  wp_row_lines : forall e, 0 <= e < n_of_engine (arch_info env) ->
    row_addr_end (X e) = row_addr_start (X e) + CACHE_LINE_BYTE * cdiv (vsize (R e) + 1) CACHE_LINE_COUNT;
  wp_col_lines : forall e, 0 <= e < n_of_engine (arch_info env) ->
    col_addr_end (X e) = col_addr_start (X e) + CACHE_LINE_BYTE * cdiv (edges (R e)) CACHE_LINE_COUNT;
  wp_val_lines : forall e, 0 <= e < n_of_engine (arch_info env) ->
    value_addr_end (X e) = value_addr_start (X e) + CACHE_LINE_BYTE * cdiv (edges (R e)) CACHE_LINE_COUNT;
  wp_counts : forall e, 0 <= e < n_of_engine (arch_info env) -> row (X e) - zero_row (X e) = nonzero_rows (R e);
  wp_edges : forall e, 0 <= e < n_of_engine (arch_info env) -> 0 < edges (R e);
  wp_features : forall e r c b f, 0 <= e < n_of_engine (arch_info env) -> r ∈ R e -> c ∈ r ->
    0 <= f < bf (arch_info env) -> 0 <= c /\ edge_ok env md (mkEdgeInfo e b c f);
  wp_geometry : geometry_ok (arch_info env);
  wp_x : forall i r j v, vget (x_to_addr env) i = Ok r -> vget r j = Ok v ->
    line_ok env v \/ (md = X_CMP /\ v = 0);
  wp_bf : 0 < bf (arch_info env);
  wp_urb : 0 <= urb (arch_info env);
  wp_slices : urb (arch_info env) * (bf (arch_info env) - 1) <= total_urb (data_info env)
    <= urb (arch_info env) * bf (arch_info env);
  wp_one : bf (arch_info env) = 1 -> total_urb (data_info env) = urb (arch_info env);
  wp_height : 0 <= a_h (data_info env) <= 2 ^ 24 /\ n_of_engine (arch_info env) <= 2 ^ 24;
  wp_total : psum (fun e => nonzero_rows (R e) * total_urb (data_info env)) (n_of_engine (arch_info env)) < 2 ^ 64
}.

(** ** Row ends of a stream *)
Definition ends_of (l : list EdgeInfo) : Z := vsize (filter (fun ei => ei_is_last ei = true) l).

Lemma ends_of_app l1 l2 : ends_of (l1 ++ l2) = ends_of l1 + ends_of l2.
Proof. unfold ends_of. by rewrite filter_app, vsize_app. Qed.

Lemma ends_of_one ei : ends_of [ei] = if ei_is_last ei then 1 else 0.
Proof.
  unfold ends_of. rewrite filter_cons, filter_nil. destruct (ei_is_last ei).
  - by rewrite decide_True.
  - by rewrite decide_False.
Qed.

Lemma ends_of_nonneg l : 0 <= ends_of l.
Proof. apply vsize_nonneg. Qed.

Lemma ends_of_row id f r : ends_of (row_stream id f r) = if decide (r = []) then 0 else 1.
Proof.
  unfold row_stream. destruct r as [|c r _] using rev_ind; [done|].
  rewrite decide_False by (by destruct r). rewrite imap_app, ends_of_app. simpl imap at 2.
  rewrite Nat.add_0_r, length_app, Nat.add_1_r. simpl length at 3. rewrite ends_of_one. cbn [ei_is_last].
  rewrite bool_decide_eq_true_2 by lia.
  assert (Hz : ends_of (imap (fun j c0 => mkEdgeInfo id (bool_decide (S j = S (length r))) c0 f) r) = 0); [|lia].
  unfold ends_of. assert (filter (fun ei => ei_is_last ei = true)
    (imap (fun j c0 => mkEdgeInfo id (bool_decide (S j = S (length r))) c0 f) r) = []) as ->; [|done].
  apply elem_of_nil_inv. intros ei [Hl Hei]%list_elem_of_filter.
  apply list_elem_of_lookup_1 in Hei as (j & Hj). rewrite list_lookup_imap in Hj.
  destruct (r !! j) eqn:Hr; [|done]. injection Hj as <-. simpl in Hl.
  apply bool_decide_eq_true in Hl. apply lookup_lt_Some in Hr. lia.
Qed.

Lemma ends_of_pass id f rows : ends_of (pass_stream id rows f) = nonzero_rows rows.
Proof.
  unfold pass_stream. induction rows as [|r rows IH]; [done|].
  rewrite fmap_cons. cbn [concat]. by rewrite ends_of_app, IH, ends_of_row, nonzero_rows_cons.
Qed.

Lemma ends_of_stream env id rows :
  0 <= bf (arch_info env) -> ends_of (stream env id rows) = bf (arch_info env) * nonzero_rows rows.
Proof.
  intros Hb. unfold stream. replace (bf (arch_info env)) with (vsize (seqZ 0 (bf (arch_info env)))) at 2
    by (unfold vsize; rewrite length_seqZ; lia).
  induction (seqZ 0 (bf (arch_info env))) as [|f l IH]; [done|].
  rewrite fmap_cons. cbn [concat]. rewrite ends_of_app, IH, ends_of_pass. unfold vsize. simpl length. lia.
Qed.

Lemma ends_of_take k l : ends_of (take k l) <= ends_of l.
Proof. rewrite <- (take_drop k l) at 2. rewrite ends_of_app. pose proof (ends_of_nonneg (drop k l)). lia. Qed.

Lemma nonzero_rows_pos rows : 0 < edges rows -> 0 < nonzero_rows rows.
Proof.
  induction rows as [|r rows IH]; [done|]. rewrite edges_cons, nonzero_rows_cons.
  assert (0 <= nonzero_rows rows) by apply vsize_nonneg.
  destruct (decide (r = [])) as [->|]; [|lia]. unfold vsize at 1. simpl. intros. apply IH in H0. lia.
Qed.

(** ** The invariant of the accelerator *)
Section invariant.
Context {D : Type} `{DramLaws D} (env : Env) (md : F_MODE) (R : Z -> list (list Z)) (X : Z -> DataIndex).
Hypothesis W : well_prepared env md R X.
Let a : ArchInfo := arch_info env.
Let n : Z := n_of_engine a.

Definition nz (e : Z) : Z := nonzero_rows (R e).
(** The outputs of the whole graph. *)
Definition outputs : Z := psum (fun e => nz e * total_urb (data_info env)) n.

Definition ends_passed (e : Z) (g : GraphReader) : Z :=
  ends_of (take (Z.to_nat (passed (R e) g)) (stream env e (R e))).

Definition reader_ok (e : Z) (g : GraphReader) : Prop :=
  (exists kr kc kv rp, gr_inv env (R e) kr kc kv rp g) /\
  (exists kr kc, req_inv env (X e) (cdiv (vsize (R e) + 1) CACHE_LINE_COUNT)
                   (cdiv (edges (R e)) CACHE_LINE_COUNT) kr kc g).

Definition engine_inv (e : Z) (g : GraphReader) (s : SIMD) (st : FR_STAT) (p : list EdgeInfo)
    (l : list (Z * bool)) : Prop :=
  reader_ok e g /\
  exists base k popped, simd_inv env base (nz e) k popped s /\ ends_passed e g = k + owed st p l.

(** The writes the SIMD units have handed to the memory. *)
Definition issued (I : Z -> SIMD) : Z := psum (fun e => cnt (I e) - vsize (wq (I e))) n.

(** [compl] writes have completed. *)
Definition account (I : Z -> SIMD) (m : Memory D) : Prop :=
  exists compl, 0 <= compl /\ issued I = compl + writes_open m /\ total_write m = u64 (outputs - compl).

(** The state with its graph readers [G], SIMD units [I], edges being read [S],
    waiting edges [P] and queued feature lines [L]. *)
Definition acc_at (c : Controller D) (G : Z -> GraphReader) (I : Z -> SIMD) (S : Z -> FR_STAT)
    (P : Z -> list EdgeInfo) (L : Z -> list (Z * bool)) : Prop :=
  gr c = tab n G /\ si c = tab n I /\ state_ok env md (c_fs c) S P L /\
  (forall e, 0 <= e < n -> engine_inv e (G e) (I e) (S e) (P e) (L e)) /\
  account I (s_mem (c_fs c)).

Definition acc_inv (c : Controller D) : Prop := exists G I S P L, acc_at c G I S P L.

Lemma vget_index e : 0 <= e < n -> vget (data_index env) e = Ok (X e).
Proof. intros He. rewrite (wp_index _ _ _ _ W). by apply vget_tab. Qed.
Lemma vget_rows e : 0 <= e < n -> vget (row_ptr env) e = Ok (offsets (R e)).
Proof. intros He. rewrite (wp_rows _ _ _ _ W). by rewrite vget_tab. Qed.
Lemma vget_cols e : 0 <= e < n -> vget (col_idx env) e = Ok (concat (R e)).
Proof. intros He. rewrite (wp_cols _ _ _ _ W). by rewrite vget_tab. Qed.

(** The regions of an engine lie below the feature region. *)
Lemma graph_region e : 0 <= e < n ->
  0 <= row_addr_start (X e) /\ row_addr_end (X e) <= xw_ele_addr_start a /\
  0 <= col_addr_start (X e) /\ col_addr_end (X e) <= xw_ele_addr_start a /\
  0 <= value_addr_start (X e) /\ value_addr_end (X e) <= xw_ele_addr_start a /\ xw_ele_addr_start a < 2 ^ 64.
Proof.
  intros He. destruct (wp_layout _ _ _ _ W) as [_ (E & HE & Hv & Hr & Hc) (O0 & O1 & O2 & O3 & O4)].
  assert (EX : E e = X e).
  { pose proof (vget_index e He) as H1. rewrite HE, vget_tab in H1 by done. congruence. }
  pose proof (reg_lo _ _ _ _ _ Hr e He). pose proof (reg_hi _ _ _ _ _ Hr e He).
  pose proof (reg_lo _ _ _ _ _ Hc e He). pose proof (reg_hi _ _ _ _ _ Hc e He).
  pose proof (reg_lo _ _ _ _ _ Hv e He). pose proof (reg_hi _ _ _ _ _ Hv e He).
  cbv beta in *. rewrite EX in *. unfold a. lia.
Qed.

Lemma line_counts e : 0 <= e < n ->
  0 < cdiv (vsize (R e) + 1) CACHE_LINE_COUNT /\ 0 < cdiv (edges (R e)) CACHE_LINE_COUNT.
Proof.
  intros He. pose proof (wp_edges _ _ _ _ W e He). pose proof (vsize_nonneg (R e)).
  pose proof (cdiv_spec (vsize (R e) + 1) CACHE_LINE_COUNT eq_refl).
  pose proof (cdiv_spec (edges (R e)) CACHE_LINE_COUNT eq_refl). unfold CACHE_LINE_COUNT in *. lia.
Qed.

(** A read below the feature region is no feature read. *)
Lemma graph_read x : 0 <= x < xw_ele_addr_start a -> xw_ele_addr_start a < 2 ^ 64 ->
  addr_ok (mkTransaction x READ) /\ is_feature env (mkTransaction x READ) = false.
Proof.
  intros Hx Ha. split; [unfold addr_ok; simpl; lia|]. unfold is_feature. simpl. apply Z.leb_gt. unfold a in *. lia.
Qed.

Lemma vertex_ok e m g m' g' c Rq :
  0 <= e < n -> reader_ok e g -> v_req_over g = false -> shared_ok env c Rq m ->
  VertexRequest env e m g = Ok (m', g') ->
  shared_ok env c Rq m' /\ reader_ok e g' /\ passed (R e) g' = passed (R e) g.
Proof.
  intros He [(kr & kc & kv & rp & I) (qr & qc & Q)] Ho Hs Hr.
  destruct (graph_region e He) as (A1 & A2 & A3 & A4 & A5 & A6 & A7).
  destruct (line_counts e He) as [L1 L2].
  pose proof (wp_row_lines _ _ _ _ W e He). pose proof (wp_bf _ _ _ _ W).
  destruct (same_side_inv env (R e) _ _ _ _ _ _ (VertexRequest_side env e _ _ _ _ Hr) I) as [I' Hp].
  destruct (WillAcceptTransaction m) eqn:Hw.
  - destruct (vertex_request_step env e (X e) _ _ (vget_index e He) L1 ltac:(lia) m g qr qc Q Ho Hw)
      as (g1 & E & Q'). rewrite E in Hr. injection Hr as <- <-.
    split; [|split; [split; eauto 6|done]].
    pose proof (Z.mod_pos_bound qr _ L1).
    destruct (graph_read (line_of (row_addr_start (X e)) (cdiv (vsize (R e) + 1) CACHE_LINE_COUNT) qr)) as [B1 B2];
      [unfold line_of, CACHE_LINE_BYTE in *; lia|done|]. by apply add_other_shared.
  - unfold VertexRequest in Hr. rewrite Hw in Hr. injection Hr as <- <-. split; [done|]. split; [|done].
    split; eauto 6.
Qed.

Lemma edge_ok_step e m g m' g' c Rq :
  0 <= e < n -> reader_ok e g -> e_req_over g = false -> shared_ok env c Rq m ->
  EdgeRequest env e m g = Ok (m', g') ->
  shared_ok env c Rq m' /\ reader_ok e g' /\ passed (R e) g' = passed (R e) g.
Proof.
  intros He [(kr & kc & kv & rp & I) (qr & qc & Q)] Ho Hs Hr.
  destruct (graph_region e He) as (A1 & A2 & A3 & A4 & A5 & A6 & A7).
  destruct (line_counts e He) as [L1 L2].
  pose proof (wp_col_lines _ _ _ _ W e He). pose proof (wp_val_lines _ _ _ _ W e He).
  pose proof (wp_bf _ _ _ _ W) as Hbf.
  destruct (same_side_inv env (R e) _ _ _ _ _ _ (EdgeRequest_side env e _ _ _ _ Hr) I) as [I' Hp].
  destruct (WillAcceptTransaction m) eqn:Hw.
  - destruct (edge_request_step env e (X e) _ _ (vget_index e He) L2 ltac:(lia) ltac:(lia) m g qr qc Q Ho Hw)
      as (g1 & E & Q'). rewrite E in Hr.
    assert (m' = fold_left (fun m t => AddTransaction t m)
      (edge_lines env (X e) (cdiv (edges (R e)) CACHE_LINE_COUNT) qc) m /\ g' = g1) as [-> ->] by (split; congruence).
    split; [|split; [split; eauto 6|done]].
    pose proof (Z.mod_pos_bound qc _ L2).
    destruct (graph_read (line_of (col_addr_start (X e)) (cdiv (edges (R e)) CACHE_LINE_COUNT) qc)) as [B1 B2];
      [unfold line_of, CACHE_LINE_BYTE in *; lia|done|].
    destruct (graph_read (line_of (value_addr_start (X e)) (cdiv (edges (R e)) CACHE_LINE_COUNT) qc)) as [B3 B4];
      [unfold line_of, CACHE_LINE_BYTE in *; lia|done|].
    unfold edge_lines. destruct (gnn_mode (arch_info env)); cbn [fold_left]; repeat apply add_other_shared; done.
  - unfold EdgeRequest in Hr. rewrite Hw in Hr. injection Hr as <- <-. split; [done|]. split; [|done].
    split; eauto 6.
Qed.

Lemma receive_ok e m g m' g' c Rq :
  0 <= e < n -> reader_ok e g -> shared_ok env c Rq m -> GraphReceive env e m g = Ok (m', g') ->
  shared_ok env c Rq m' /\ reader_ok e g' /\ passed (R e) g' = passed (R e) g.
Proof.
  intros He [(kr & kc & kv & rp & I) (qr & qc & Q)] Hs Hr.
  unfold GraphReceive in Hr. apply bind_ok in Hr as ([t m1] & Hg & Hr). apply bind_ok in Hr as (g1 & Hg1 & Hr).
  injection Hr as <- <-.
  destruct (receive_inv env e (R e) (wp_edges _ _ _ _ W e He) (vget_rows e He) (vget_cols e He) _ _ _ _ _ t I)
    as (g2 & Hg2 & Hp & _ & I'). rewrite Hg2 in Hg1. injection Hg1 as <-.
  split; [|split; [split; [eauto 6|]|done]].
  - unfold GetGraph in Hg. apply bind_ok in Hg as (q & _ & Hg). destruct q; [by injection Hg as <- <-|].
    apply bind_ok in Hg as (q' & _ & Hg). injection Hg as <- <-. by apply (frame_shared env _ _ m).
  - exists qr, qc. eapply same_requests_inv; [|exact Q]. exact (receive_requests env e t g g2 Hg2).
Qed.

Lemma graph_work_ok e m g m' g' c Rq :
  0 <= e < n -> reader_ok e g -> shared_ok env c Rq m -> graph_work env e m g = Ok (m', g') ->
  shared_ok env c Rq m' /\ reader_ok e g' /\ passed (R e) g' = passed (R e) g /\ read_ext m m'.
Proof.
  intros He Hg Hs Hr. unfold graph_work in Hr.
  apply bind_ok in Hr as ([m1 g1] & H1 & Hr). apply bind_ok in Hr as ([m2 g2] & H2 & Hr).
  assert (S1 : shared_ok env c Rq m1 /\ reader_ok e g1 /\ passed (R e) g1 = passed (R e) g /\ read_ext m m1).
  { destruct (v_req_over g) eqn:Ho; [by injection H1 as <- <-|].
    destruct (vertex_ok e m g m1 g1 c Rq He Hg Ho Hs H1) as (K1 & K2 & K3). split_and!; try done.
    by eapply vertex_reads. }
  destruct S1 as (K1 & K2 & K3 & K4).
  assert (S2 : shared_ok env c Rq m2 /\ reader_ok e g2 /\ passed (R e) g2 = passed (R e) g /\ read_ext m m2).
  { destruct (e_req_over g1) eqn:Ho; [by injection H2 as <- <-|].
    destruct (edge_ok_step e m1 g1 m2 g2 c Rq He K2 Ho K1 H2) as (N1 & N2 & N3). split_and!; try done; try congruence.
    etransitivity; [exact K4|by eapply edge_reads]. }
  destruct S2 as (N1 & N2 & N3 & N4). destruct (reci_over g2); [by injection Hr as <- <-|].
  destruct (receive_ok e m2 g2 m' g' c Rq He N2 N1 Hr) as (O1 & O2 & O3). split_and!; try done; try congruence.
  etransitivity; [exact N4|by eapply graph_receive_reads].
Qed.

Lemma stream_elem e k ei :
  stream env e (R e) !! k = Some ei ->
  exists r f, r ∈ R e /\ ei_dst ei ∈ r /\ 0 <= f < bf a /\ ei = mkEdgeInfo e (ei_is_last ei) (ei_dst ei) f.
Proof.
  intros Hk%list_elem_of_lookup_2. unfold stream in Hk.
  apply list_elem_of_In, in_concat in Hk as (l & Hl & Hk).
  apply list_elem_of_In, list_elem_of_fmap in Hl as (f & -> & Hf).
  apply in_concat in Hk as (l & Hl & Hk).
  apply list_elem_of_In, list_elem_of_fmap in Hl as (r & -> & Hr).
  apply list_elem_of_In, list_elem_of_lookup_1 in Hk as (j & Hj).
  unfold row_stream in Hj. rewrite list_lookup_imap in Hj.
  destruct (r !! j) as [c|] eqn:Hc; [|done]. injection Hj as <-. exists r, f. simpl.
  split; [done|]. split; [by eapply list_elem_of_lookup_2|]. split; [|done].
  apply elem_of_seqZ in Hf. unfold a. lia.
Qed.

Lemma ends_passed_step e g g' ei :
  0 <= passed (R e) g -> stream env e (R e) !! Z.to_nat (passed (R e) g) = Some ei ->
  passed (R e) g' = passed (R e) g + 1 ->
  ends_passed e g' = ends_passed e g + (if ei_is_last ei then 1 else 0).
Proof.
  intros H0' Hst Hp. unfold ends_passed. rewrite Hp.
  replace (Z.to_nat (passed (R e) g + 1)) with (S (Z.to_nat (passed (R e) g))) by lia.
  by rewrite (take_S_r _ _ _ Hst), ends_of_app, ends_of_one.
Qed.

(** Whether [pass_edge] has handed over an edge, and if not, why. *)
Definition edge_case (e : Z) (g g' : GraphReader) (r r' : FeatureReader) (P P' : Z -> list EdgeInfo) : Prop :=
  (P' = P /\ r' = r /\ passed (R e) g' = passed (R e) g /\
     (pass_over g = true \/ forall kr kc kv rp, gr_inv env (R e) kr kc kv rp g -> all_arrived env (R e) kr kc kv ->
        passed (R e) g = bf a * edges (R e))) \/
  (exists ei, P' = upd P e (P e ++ [ei]) /\ passed (R e) g' = passed (R e) g + 1).

Lemma pass_edge_spec e m c r g g' r' S P L :
  0 <= e < n -> reader_ok e g -> state_ok env md (mkFS (D := D) m c r) S P L ->
  pass_edge env e g r = Ok (g', r') ->
  exists P', state_ok env md (mkFS m c r') S P' L /\ reader_ok e g' /\
    (forall e', e' <> e -> P' e' = P e') /\
    ends_passed e g' + owed (S e) (P e) (L e) = ends_passed e g + owed (S e) (P' e) (L e) /\
    edge_case e g g' r r' P P'.
Proof.
  intros He Hg Hst Hr. unfold pass_edge in Hr.
  destruct (pass_over g) eqn:Hpo; [injection Hr as <- <-; exists P; split_and!; try done; left; by split_and!; [..|left]|].
  apply bind_ok in Hr as ([ei g1] & Hn & Hr).
  destruct Hg as [(kr & kc & kv & rp & I) (qr & qc & Q)].
  pose proof (wp_bf _ _ _ _ W) as Hbf. pose proof (wp_edges _ _ _ _ W e He) as HE.
  destruct (next_feature_inv env e (R e) Hbf HE (vget_rows e He) (vget_cols e He) _ _ _ _ _ I)
    as (ei1 & g2 & rp' & Hn' & I' & Hcase). rewrite Hn' in Hn. injection Hn as <- <-.
  assert (Hg' : reader_ok e g2).
  { split; [eauto 6|]. exists qr, qc. eapply same_requests_inv; [|exact Q]. exact (NextFeature_requests env e _ _ _ Hn'). }
  assert (Hno : passed (R e) g2 = passed (R e) g -> ei1 = no_edge e -> Ok (g2, r) = Ok (g', r') ->
    exists P', state_ok env md (mkFS m c r') S P' L /\ reader_ok e g' /\
    (forall e', e' <> e -> P' e' = P e') /\
    ends_passed e g' + owed (S e) (P e) (L e) = ends_passed e g + owed (S e) (P' e) (L e) /\
    edge_case e g g' r r' P P').
  { intros Hp _ [= <- <-]. exists P. split_and!; try done; [unfold ends_passed; by rewrite Hp|].
    left. split_and!; try done. right. intros kr1 kc1 kv1 rp1 I1 Ha1.
    destruct (next_feature_inv env e (R e) Hbf HE (vget_rows e He) (vget_cols e He) _ _ _ _ _ I1)
      as (ei2 & g3 & rp2 & Hn2 & _ & Hc2). rewrite Hn2 in Hn'. injection Hn' as -> ->.
    destruct Hc2 as [(Hx & _)|(_ & _ & [(_ & _ & Hx)|(_ & Hx)])]; [done|done|lia]. }
  destruct Hcase as [(_ & E & Hp & _)|(_ & _ & [(E & Hp & _)|(Hs & Hp)])].
  - subst ei1. rewrite decide_True in Hr by done. by apply Hno.
  - subst ei1. rewrite decide_True in Hr by done. by apply Hno.
  - destruct (stream_elem e _ _ Hs) as (row & f & Hrow & Hc & Hf & Eei).
    destruct (wp_features _ _ _ _ W e row _ (ei_is_last ei1) f He Hrow Hc Hf) as [Hc0 Hedge].
    rewrite <- Eei in Hedge. rewrite decide_False in Hr by lia.
    assert (Eid : ei_id ei1 = e) by (by rewrite Eei).
    destruct (enter_ok env md ei1 (mkFS m c r) S P L) as (r1 & Hr1 & Hst1); [by rewrite Eid|done|done|].
    simpl in Hr1, Hst1. rewrite Hr1 in Hr. injection Hr as <- <-. rewrite Eid in Hst1.
    eexists. split; [exact Hst1|]. split; [done|]. split; [intros e' He'; by rewrite upd_ne|]. split.
    + rewrite upd_eq, (owed_enter env). pose proof (passed_bound env (R e) Hbf HE _ _ _ _ _ I).
      rewrite (ends_passed_step e g g2 ei1) by (done || lia). lia.
    + right. by exists ei1.
Qed.

Lemma ends_passed_le e g : 0 <= e < n -> ends_passed e g <= nz e * bf a.
Proof.
  intros He. pose proof (wp_bf _ _ _ _ W). unfold ends_passed.
  etransitivity; [apply ends_of_take|]. rewrite ends_of_stream by lia. unfold nz, a. lia.
Qed.

Lemma owed_nonneg st p l : 0 <= owed st p l.
Proof. unfold owed, row_ends, vsize. destruct (_ && _); lia. Qed.

Lemma nz_pos e : 0 <= e < n -> 0 < nz e.
Proof. intros He. by apply nonzero_rows_pos, (wp_edges _ _ _ _ W). Qed.

(** The SIMD unit takes what the feature reader passes. *)
Lemma feature_step base e k popped s res :
  0 <= e < n -> simd_inv env base (nz e) k popped s -> (res = 0 -> k < nz e * bf a) ->
  simd_inv env base (nz e) (k + (if decide (res = 0) then 1 else 0)) popped (Simd.GetFeature env res s).
Proof.
  intros He I Hk. destruct (decide (res = 0)) as [->|Hne].
  - apply get_feature_end; [apply (wp_bf _ _ _ _ W)|apply (wp_urb _ _ _ _ W)|apply (wp_slices _ _ _ _ W)
      |apply (wp_one _ _ _ _ W)|by apply nz_pos|by apply Hk|done].
  - by rewrite get_feature_other, Z.add_0_r.
Qed.

Lemma wq_addr base e k popped s x :
  simd_inv env base (nz e) k popped s -> x ∈ popped -> addr_ok (mkTransaction x WRITE).
Proof.
  intros I Hx. assert (Hin : x ∈ tab (cnt s) (fun i => u64 (base + i * CACHE_LINE_BYTE))).
  { rewrite <- (sv_wq _ _ _ _ _ _ I). apply elem_of_app. by left. }
  unfold tab in Hin. apply list_elem_of_fmap in Hin as (i & -> & _). unfold addr_ok. simpl. apply u64_range.
Qed.

Lemma popped_count base e k popped s :
  0 <= e < n -> simd_inv env base (nz e) k popped s -> cnt s - vsize (wq s) = vsize popped.
Proof.
  intros He I. pose proof (nz_pos e He).
  assert (Hc : 0 <= cnt s).
  { rewrite (sv_cnt _ _ _ _ _ _ I). pose proof (sv_k _ _ _ _ _ _ I). pose proof (wp_bf _ _ _ _ W).
    pose proof (wp_urb _ _ _ _ W). pose proof (wp_slices _ _ _ _ W). pose proof (wp_one _ _ _ _ W).
    apply lines_after_nonneg; done || lia. }
  pose proof (f_equal vsize (sv_wq _ _ _ _ _ _ I)) as E. rewrite vsize_app, vsize_tab in E by done. lia.
Qed.

Lemma lines_after_le e k : 0 <= e < n -> 0 <= k <= nz e * bf a ->
  lines_after env (nz e) k <= nz e * total_urb (data_info env).
Proof.
  intros He Hk. pose proof (nz_pos e He) as Hnz. pose proof (wp_bf _ _ _ _ W) as Hb.
  pose proof (wp_slices _ _ _ _ W) as Hs. pose proof (wp_urb _ _ _ _ W) as Hu.
  rewrite <- lines_after_all by lia. fold a.
  replace (nz e * bf a) with (k + Z.of_nat (Z.to_nat (nz e * bf a - k))) by lia.
  induction (Z.to_nat (nz e * bf a - k)) as [|j IH]; [rewrite Z.add_0_r; lia|].
  replace (k + Z.of_nat (S j)) with (k + Z.of_nat j + 1) by lia.
  rewrite lines_after_succ by (done || lia). destruct (decide _); lia.
Qed.

(** The memory side of a state. *)
Lemma state_ok_with s S P L m' :
  state_ok env md s S P L -> (forall Rq, shared_ok env (s_cah s) Rq (s_mem s) -> shared_ok env (s_cah s) Rq m') ->
  state_ok env md (mkFS (D := D) m' (s_cah s) (s_fr s)) S P L.
Proof. intros (Rq & ct & ps & Es & Hsh & He) Hm. exists Rq, ct, ps. split; [done|]. split; [by apply Hm|done]. Qed.

Lemma account_read I m m' : account I m -> read_ext m m' -> account I m'.
Proof.
  intros (k & H0' & Hi & Ht) Hr. destruct (read_ext_open m m' Hr) as [E1 E2]. exists k. by rewrite E1, E2.
Qed.

(** The SIMD unit's part of a step. *)
Lemma write_step i I base k popped s s' (m m' : Memory D) :
  0 <= i < n -> cnt (I i) - vsize (wq (I i)) = vsize popped ->
  simd_inv env base (nz i) k popped s -> account I m -> Write s m = (s', m') ->
  (exists popped', simd_inv env base (nz i) k popped' s') /\ account (upd I i s') m' /\
  forall c Rq, shared_ok env c Rq m -> shared_ok env c Rq m'.
Proof.
  intros Hi Hpop Hs (kc & H0' & Hiss & Ht) Hw.
  assert (Hsum : issued (upd I i s') = issued I - vsize popped + (cnt s' - vsize (wq s'))).
  { unfold issued. pose proof (psum_upd (fun e => cnt (I e) - vsize (wq (I e))) n i
      (cnt s' - vsize (wq s')) Hi) as E. cbv beta in E. rewrite Hpop in E. rewrite <- E.
    apply psum_ext. intros e _. unfold upd. by destruct (decide (e = i)). }
  destruct (write_inv env base _ k popped s m m' s' Hs Hw) as [[-> ->]|(x & -> & Hs' & Hq & Hc)].
  - split; [eauto|]. split; [|done]. exists kc. rewrite Hsum, (popped_count base i k popped s Hi Hs).
    split_and!; try done. lia.
  - split; [eauto|]. split.
    + exists kc. rewrite Hsum, (popped_count base i k _ s' Hi Hs'), write_open, vsize_app.
      split_and!; try done. unfold vsize at 3. simpl. lia.
    + intros c Rq Hsh. apply add_other_shared; [done| |done].
      apply (wq_addr base i k _ s' x Hs'). set_solver.
Qed.

(** *** One engine step, stage by stage *)
Definition read_case (i : Z) (fs fs' : FS D) (S S' : Z -> FR_STAT) (P P' : Z -> list EdgeInfo)
    (L L' : Z -> list (Z * bool)) : Prop :=
  (fs' = fs /\ S' = S /\ P' = P /\ L' = L /\ read_blocked (s_mem fs) (S i) (P i) (L i)) \/
  (exists st1 p1 st' l', next_edge (S i) (P i) = Some (st1, p1) /\ reads_one env md st1 st' (L i) l' /\
     S' = upd S i st' /\ P' = upd P i p1 /\ L' = upd L i l').

(** The queue behind a pass. *)
Definition passed_on (i res : Z) (L L' : Z -> list (Z * bool)) : Prop :=
  (res = -1 /\ L' = L) \/ (res <> -1 /\ exists t l, L i = t :: l /\ L' = upd L i l).

Inductive engine_trace (i : Z) (fs : FS D) (g : GraphReader) (s : SIMD) (S : Z -> FR_STAT)
    (P : Z -> list EdgeInfo) (L : Z -> list (Z * bool)) (fs' : FS D) (g' : GraphReader) (s' : SIMD)
    (S' : Z -> FR_STAT) (P' : Z -> list EdgeInfo) (L' : Z -> list (Z * bool)) : Prop :=
  | engine_trace_intro m1 g1 r P1 fs2 L2 res fs3 :
      graph_work env i (s_mem fs) g = Ok (m1, g1) -> reader_ok i g1 ->
      pass_edge env i g1 (s_fr fs) = Ok (g', r) -> edge_case i g1 g' (s_fr fs) r P P1 ->
      ReadNext env i (mkFS m1 (s_cah fs) r) = Ok fs2 ->
      read_case i (mkFS m1 (s_cah fs) r) fs2 S S' P1 P' L L2 -> state_ok env md fs2 S' P' L2 ->
      PassFtoSIMD env i fs2 = Ok (res, fs3) -> pass_outcome env md i fs2 S' P' L2 res fs3 -> passed_on i res L2 L' ->
      state_ok env md fs3 S' P' L' ->
      Write (Simd.GetFeature env res s) (s_mem fs3) = (s', s_mem fs') ->
      s_cah fs' = s_cah fs3 -> s_fr fs' = s_fr fs3 ->
      engine_trace i fs g s S P L fs' g' s' S' P' L'.

Lemma read_next_case i fs S P L :
  0 <= i < n -> state_ok env md fs S P L ->
  exists fs' S' P' L', ReadNext env i fs = Ok fs' /\ read_case i fs fs' S S' P P' L L' /\ state_ok env md fs' S' P' L' /\
    forall e, 0 <= e < n -> owed (S' e) (P' e) (L' e) = owed (S e) (P e) (L e).
Proof.
  intros Hi Hst. destruct (read_next_spec env md (wp_geometry _ _ _ _ W) (wp_x _ _ _ _ W) i fs S P L Hi Hst)
    as [[E Hb]|(fs' & st1 & p1 & st' & l' & E & Hne & Hst' & Hone & Ho)].
  - exists fs, S, P, L. split_and!; try done. by left.
  - eexists fs', _, _, _. split; [done|]. split; [right; by exists st1, p1, st', l'|]. split; [done|].
    intros e _. unfold upd. by destruct (decide (e = i)) as [->|].
Qed.

Lemma pass_case i fs S P L :
  0 <= i < n -> state_ok env md fs S P L ->
  exists res fs' L', PassFtoSIMD env i fs = Ok (res, fs') /\ pass_outcome env md i fs S P L res fs' /\
    passed_on i res L L' /\ state_ok env md fs' S P L' /\
    forall e, 0 <= e < n -> owed (S e) (P e) (L e) =
      owed (S e) (P e) (L' e) + (if decide (res = 0 /\ e = i) then 1 else 0).
Proof.
  intros Hi Hst. destruct (pass_spec env md (wp_geometry _ _ _ _ W) i fs S P L Hi Hst) as (res & fs' & E & Ho).
  exists res, fs'. assert (Hno : res = -1 -> forall e, 0 <= e < n -> owed (S e) (P e) (L e) =
    owed (S e) (P e) (L e) + (if decide (res = 0 /\ e = i) then 1 else 0)).
  { intros -> e _. rewrite decide_False by lia. lia. }
  pose proof Ho as Ho'. revert E Ho' Hno. destruct Ho as [HL|v b l s' HL Hst'|v b l s' HL Hst' _ _ _ _ _]; intros E Ho Hno.
  - exists L. split_and!; try done; [by left|by apply Hno].
  - exists (upd L i l). split_and!; try done.
    + right. split; [by destruct b|]. by exists (v, b), l.
    + intros e _. unfold upd. destruct (decide (e = i)) as [->|]; [|rewrite decide_False by tauto; lia].
      rewrite HL, (owed_pass env). destruct b; [rewrite decide_True by done|rewrite decide_False by lia]; lia.
  - exists L. split_and!; try done; [by left|by apply Hno].
Qed.

Lemma engine_step_trace i c c' G I S P L :
  0 <= i < n -> acc_at c G I S P L -> engine_step env i c = Ok c' ->
  exists g' s' S' P' L', acc_at c' (upd G i g') (upd I i s') S' P' L' /\
    engine_trace i (c_fs c) (G i) (I i) S P L (c_fs c') g' s' S' P' L'.
Proof.
  intros Hi (EG & EI & Hst & He & Hac) Hr. unfold engine_step in Hr.
  rewrite EG, EI, !vget_tab in Hr by done. cbn [mbind outcome_bind] in Hr.
  apply bind_ok in Hr as ([m1 g1] & Hgw & Hr). apply bind_ok in Hr as ([g2 r] & Hpe & Hr).
  apply bind_ok in Hr as (fs2 & Hrn & Hr). apply bind_ok in Hr as ([res fs3] & Hps & Hr).
  destruct (Write (Simd.GetFeature env res (I i)) (s_mem fs3)) as [s' m'] eqn:Hw.
  rewrite !vset_tab in Hr by done. cbn [mbind outcome_bind] in Hr. injection Hr as <-.
  pose proof (He i Hi) as (Hread & base & k & popped & Hsimd & Hends).
  destruct Hst as (Rq & ct & ps & Es & Hsh & Heng).
  destruct (graph_work_ok i _ _ _ _ _ _ Hi Hread Hsh Hgw) as (Hsh1 & Hread1 & Hp1 & Hx1).
  assert (Hst1 : state_ok env md (mkFS m1 (s_cah (c_fs c)) (s_fr (c_fs c))) S P L) by (by exists Rq, ct, ps).
  destruct (pass_edge_spec i _ _ _ _ _ _ S P L Hi Hread1 Hst1 Hpe) as (P1 & Hst2 & Hread2 & HP1 & Hcons & Hcase).
  destruct (read_next_case i _ S P1 L Hi Hst2) as (fs2' & S2 & P2 & L2 & Hrn' & Hrc & Hst3 & Ho2).
  rewrite Hrn' in Hrn. injection Hrn as ->.
  destruct (pass_case i fs2 S2 P2 L2 Hi Hst3) as (res' & fs3' & L3 & Hps' & Hpo & Hon & Hst4 & Ho3).
  rewrite Hps' in Hps. injection Hps as -> ->.
  assert (Hends2 : ends_passed i g2 = k + owed (S i) (P1 i) (L i)).
  { assert (ends_passed i g1 = ends_passed i (G i)) by (unfold ends_passed; by rewrite Hp1). lia. }
  pose proof (ends_passed_le i g2 Hi). pose proof (Ho2 i Hi) as Ho2i. pose proof (Ho3 i Hi) as Ho3i.
  pose proof (owed_nonneg (S2 i) (P2 i) (L3 i)).
  assert (Hsimd1 := feature_step base i k popped (I i) res Hi Hsimd ltac:(
    intros E; rewrite decide_True in Ho3i by done; lia)).
  assert (Hac1 : account I (s_mem fs3)).
  { apply (account_read I _ _ Hac). etransitivity; [exact Hx1|].
    etransitivity; [apply (fs_ext_reads _ _ (read_next_ext env i _ _ Hrn'))|apply (fs_ext_reads _ _ (pass_ext env i _ _ _ Hps'))]. }
  destruct (write_step i I base _ popped _ s' _ m' Hi (popped_count base i k popped _ Hi Hsimd) Hsimd1 Hac1 Hw)
    as ((popped' & Hsimd') & Hac' & Hsh').
  exists g2, s', S2, P2, L3. split; [|by econstructor].
  split_and!; try done.
  - simpl. apply (state_ok_with fs3); [done|]. intros Rq'. apply Hsh'.
  - intros e Hre. destruct (decide (e = i)) as [->|Hne].
    + rewrite !upd_eq. split; [done|]. exists base, (k + (if decide (res = 0) then 1 else 0)), popped'.
      split; [done|]. destruct (decide (res = 0)) as [E|E].
      * rewrite decide_True in Ho3i by done. lia.
      * rewrite decide_False in Ho3i by tauto. lia.
    + rewrite !upd_ne by done. destruct (He e Hre) as (Hr' & b' & k' & p' & Hs' & Hen). split; [done|].
      exists b', k', p'. split; [done|]. rewrite Hen, <- (HP1 e Hne), <- (Ho2 e Hre), (Ho3 e Hre).
      rewrite decide_False by tauto. lia.
Qed.

Lemma engine_step_ok i c c' : 0 <= i < n -> acc_inv c -> engine_step env i c = Ok c' -> acc_inv c'.
Proof.
  intros Hi (G & I & S & P & L & Hc) Hr.
  destruct (engine_step_trace i c c' G I S P L Hi Hc Hr) as (g' & s' & S' & P' & L' & Hc' & _). by eexists _, _, _, _, _.
Qed.

Lemma account_tick I m m' :
  dram_inv (mem m) -> account I m -> UpdateCycle env m = Ok m' -> account I m'.
Proof.
  intros Hi (k & Hk & Hiss & Ht) Hm. unfold UpdateCycle in Hm.
  apply bind_ok in Hm as ([d done] & Hd & Hm). apply bind_ok in Hm as (m1 & Hf & Hm). injection Hm as <-.
  destruct (dram_tick_law _ _ _ Hi Hd) as [_ Hp]. destruct (callbacks_total env _ _ _ Hf) as (E1 & E2 & E3).
  assert (Hr : 0 <= total_write m1 < 2 ^ 64).
  { refine (callbacks_range env done _ m1 _ Hf). simpl. rewrite Ht. apply u64_range. }
  exists (k + count is_output done). simpl in E1, E2, E3 |- *.
  assert (0 <= count is_output done) by apply vsize_nonneg. split; [lia|]. split.
  - unfold writes_open in *. simpl. rewrite E2, E3. rewrite count_app in *.
    rewrite <- (count_perm _ _ _ Hp), count_app in Hiss. lia.
  - rewrite <- (u64_small (total_write m1)) by lia. rewrite E1, Ht, u64_sub_l. f_equal. lia.
Qed.

Lemma account_consume I m m' :
  dram_inv (mem m) -> Forall addr_ok (tq m) -> account I m -> ConsumeTransaction m = Ok m' -> account I m'.
Proof.
  intros Hi Ha (k & Hk & Hiss & Ht) Hm. destruct (consume_open m m' Hi Ha Hm) as [E1 E2].
  exists k. by rewrite E1, E2.
Qed.

Lemma state_ok_shared s S P L :
  state_ok env md s S P L -> dram_inv (mem (s_mem s)) /\ Forall addr_ok (tq (s_mem s)).
Proof. intros (Rq & ct & ps & _ & [] & _). done. Qed.

(** The part of a cycle behind the engines. *)
Lemma cycle_tail_ok c G I S P L fs m1 m2 :
  acc_at c G I S P L -> FeatureReceive env (c_fs c) = Ok fs -> ConsumeTransaction (s_mem fs) = Ok m1 ->
  UpdateCycle env m1 = Ok m2 -> acc_at (c <| c_fs := fs <| s_mem := m2 |> |>) G I S P L.
Proof.
  intros (EG & EI & Hst & He & Hac) Hfr Hcn Htk.
  destruct (receive_all_ok env md (wp_geometry _ _ _ _ W) _ _ S P L Hst eq_refl) as (fs' & Hfr' & Hst1 & _).
  unfold FeatureReceive in Hfr. rewrite Hfr' in Hfr. injection Hfr as ->.
  assert (Hac1 : account I (s_mem fs)).
  { apply (account_read I _ _ Hac). destruct (receive_all_frame env _ _ _ Hfr') as (E1 & E2 & _ & E4).
    split_and!; [done..|]. exists []. by rewrite app_nil_r. }
  destruct (state_ok_shared _ _ _ _ Hst1) as [Hi1 Ha1].
  assert (Hst2 : state_ok env md (mkFS m1 (s_cah fs) (s_fr fs)) S P L).
  { apply state_ok_with; [done|]. intros Rq HR. by apply (consume_shared env _ _ (s_mem fs)). }
  destruct (state_ok_shared _ _ _ _ Hst2) as [Hi2 Ha2].
  assert (Hst3 : state_ok env md (mkFS m2 (s_cah fs) (s_fr fs)) S P L).
  { apply (state_ok_with (mkFS m1 (s_cah fs) (s_fr fs))); [done|]. intros Rq HR. simpl in *.
    by apply (tick_shared env _ _ m1); [apply (wp_value _ _ _ _ W)|..]. }
  split_and!; try done. simpl.
  apply (account_tick I m1); [done|by apply (account_consume I (s_mem fs))|done].
Qed.

Lemma cycle_step_ok c c' : acc_inv c -> cycle_step env c = Ok c' -> acc_inv c'.
Proof.
  intros Hc Hr. unfold cycle_step in Hr. apply bind_ok in Hr as (c1 & Hfor & Hr).
  assert (Hc1 : acc_inv c1).
  { refine (for_each_inv _ acc_inv _ _ _ _ Hc Hfor). intros i c2 c3 Hi H2 H3.
    apply elem_of_seqZ in Hi. apply (engine_step_ok i c2); [unfold n, a; lia|done|done]. }
  destruct Hc1 as (G & I & S & P & L & Hat).
  apply bind_ok in Hr as (fs & Hfr & Hr). apply bind_ok in Hr as (m1 & Hcn & Hr).
  apply bind_ok in Hr as (m2 & Htk & Hr). injection Hr as <-.
  exists G, I, S, P, L. by apply (cycle_tail_ok c1 G I S P L fs m1 m2).
Qed.

Lemma nth_reader e : 0 <= e < n ->
  exists g s, GraphReader_new env e = Ok g /\ SIMD_new env e = Ok s.
Proof.
  intros He. pose proof (vget_index e He) as Hx. pose proof (vget_cols e He) as Hc.
  destruct (wp_height _ _ _ _ W) as [Hh Hn2].
  unfold GraphReader_new, SIMD_new. rewrite Hx. cbn [mbind outcome_bind].
  rewrite ceil_div_exact by (unfold n, a in *; lia). cbn [mbind outcome_bind].
  destruct (gnn_mode (arch_info env)); [eauto|]. rewrite Hc. cbn [mbind outcome_bind]. eauto.
Qed.

(** The engines as the constructor leaves them. *)
Definition gr0 (e : Z) : GraphReader :=
  match GraphReader_new env e with Ok g => g | Fault _ => demo_gr end.
Definition si0 (e : Z) : SIMD :=
  match SIMD_new env e with Ok s => s | Fault _ => demo_simd end.

Lemma Controller_new_ok (d : D) total :
  Controller_new env d total =
  Ok (mkController (mkFS (Memory_new env d total) (Cache_new a) (FeatureReader_new env)) (tab n gr0) (tab n si0)).
Proof.
  unfold Controller_new. fold a n.
  rewrite (for_int_steps n _ (fun k => (tab k gr0, tab k si0)) (wp_n _ _ _ _ W)); [done|].
  intros i Hi. destruct (nth_reader i Hi) as (g & s & Hg & Hs). rewrite Hg, Hs. cbn [mbind outcome_bind].
  assert (gr0 i = g) as <- by (unfold gr0; by rewrite Hg). assert (si0 i = s) as <- by (unfold si0; by rewrite Hs).
  unfold tab. by rewrite !(seqZ_app 0 i 1), !fmap_app, Z.add_0_l, seqZ_one by lia.
Qed.

Lemma outputs_range : 0 <= outputs < 2 ^ 64.
Proof.
  split; [|apply (wp_total _ _ _ _ W)]. rewrite <- (psum_zero n). apply psum_le. intros e He.
  pose proof (nz_pos e He). pose proof (wp_urb _ _ _ _ W). pose proof (wp_bf _ _ _ _ W).
  pose proof (wp_slices _ _ _ _ W).
  assert (0 <= urb (arch_info env) * (bf (arch_info env) - 1)) by (apply Z.mul_nonneg_nonneg; lia).
  apply Z.mul_nonneg_nonneg; lia.
Qed.

Lemma engine_init e : 0 <= e < n ->
  engine_inv e (gr0 e) (si0 e) (mkFR_STAT false (-1) 0 0 true) [] [] /\ cnt (si0 e) - vsize (wq (si0 e)) = 0.
Proof.
  intros He. destruct (nth_reader e He) as (g & s & Hg & Hs). unfold gr0, si0. rewrite Hg, Hs.
  pose proof (wp_bf _ _ _ _ W) as Hbf. pose proof (wp_edges _ _ _ _ W e He) as HE.
  destruct (graph_region e He) as (A1 & A2 & A3 & A4 & A5 & A6 & A7). destruct (line_counts e He) as [L1 L2].
  pose proof (wp_row_lines _ _ _ _ W e He). pose proof (wp_col_lines _ _ _ _ W e He).
  pose proof (wp_val_lines _ _ _ _ W e He).
  destruct (gr_new_inv env e (R e) Hbf HE (vget_cols e He) g Hg) as (I & Hp & _).
  assert (Hsimd : simd_inv env (ss_axw_addr_start s) (nz e) 0 [] s).
  { unfold nz. rewrite <- (wp_counts _ _ _ _ W e He). apply (simd_new_inv env e); try done.
    - apply (wp_slices _ _ _ _ W).
    - apply (wp_one _ _ _ _ W).
    - by apply vget_index.
    - rewrite (wp_counts _ _ _ _ W e He). by apply nonzero_rows_pos. }
  split; [|by rewrite (popped_count _ e 0 [] s He Hsimd)]. split.
  - split; [eauto 6|].
    destruct (req_run_inv env e (X e) _ _ Hbf (vget_index e He) L1 L2 ltac:(lia) ltac:(lia) ltac:(lia) [] [] g
      (rq_new (D := D) env e g Hg)) as (kr & kc & Q & _). eauto.
  - exists (ss_axw_addr_start s), 0, []. split; [done|]. unfold ends_passed. by rewrite Hp.
Qed.

Lemma controller_init (d : D) :
  dram_inv d -> dram_pending d = [] ->
  acc_inv (mkController (mkFS (Memory_new env d outputs) (Cache_new a) (ModeChange md (FeatureReader_new env)))
             (tab n gr0) (tab n si0)).
Proof.
  intros Hd Hp. exists gr0, si0, (fun _ => mkFR_STAT false (-1) 0 0 true), (fun _ => []), (fun _ => []).
  split_and!; try done.
  - simpl. apply fr_new_ok; [apply (wp_geometry _ _ _ _ W)|apply (wp_x _ _ _ _ W)|apply (wp_n _ _ _ _ W)
      |apply (wp_value _ _ _ _ W)|done|done].
  - intros e He. apply (engine_init e He).
  - exists 0. simpl. split; [done|]. split.
    + unfold writes_open. simpl. rewrite Hp. simpl. unfold issued.
      transitivity (psum (fun _ => 0) n); [|apply psum_zero].
      apply psum_ext. intros e He. apply (engine_init e He).
    + rewrite Z.sub_0_r, u64_small by apply outputs_range. done.
Qed.

(** Completed, open and missing outputs add up. *)
Lemma acc_inv_outputs c :
  acc_inv c -> exists G I S P L compl, gr c = tab n G /\ si c = tab n I /\ 0 <= compl /\
    state_ok env md (c_fs c) S P L /\
    issued I = compl + writes_open (s_mem (c_fs c)) /\
    (forall e, 0 <= e < n -> cnt (I e) <= nz e * total_urb (data_info env)) /\
    issued I <= outputs /\ total_write (s_mem (c_fs c)) = outputs - compl.
Proof.
  intros (G & I & S & P & L & EG & EI & Hst & He & (k & Hk & Hiss & Ht)).
  assert (Hcnt : forall e, 0 <= e < n -> cnt (I e) <= nz e * total_urb (data_info env)).
  { intros e Hre. destruct (He e Hre) as (_ & b & j & p & Hs & _). rewrite (sv_cnt _ _ _ _ _ _ Hs).
    apply lines_after_le; [done|apply (sv_k _ _ _ _ _ _ Hs)]. }
  assert (Hle : issued I <= outputs).
  { apply psum_le. intros e Hre. pose proof (Hcnt e Hre). pose proof (vsize_nonneg (wq (I e))). lia. }
  exists G, I, S, P, L, k. split_and!; try done. rewrite Ht. apply u64_small.
  assert (0 <= writes_open (s_mem (c_fs c))) by apply vsize_nonneg. pose proof outputs_range. lia.
Qed.

Lemma inference_loop_ok fuel cy c cy' c' :
  acc_inv c -> inference_loop env fuel cy c = Ok (Some (cy', c')) ->
  acc_inv c' /\ total_write (s_mem (c_fs c')) = 0.
Proof.
  revert cy c. induction fuel as [|fuel IH]; intros cy c Hc Hr; cbn [inference_loop] in Hr; [done|].
  apply bind_ok in Hr as (c1 & Hs & Hr). pose proof (cycle_step_ok c c1 Hc Hs) as Hc1.
  destruct (decide _) as [Hz|Hz]; [by injection Hr as <- <-|]. by eapply IH.
Qed.

(** When the loop returns, the work is done. *)
Definition all_written (c : Controller D) : Prop :=
  total_write (s_mem (c_fs c)) = 0 /\ writes_open (s_mem (c_fs c)) = 0 /\
  forall e, 0 <= e < n -> exists s, vget (si c) e = Ok s /\ cnt s = nz e * total_urb (data_info env) /\ wq s = [].

Lemma inference_loop_written fuel cy c cy' c' :
  acc_inv c -> inference_loop env fuel cy c = Ok (Some (cy', c')) -> all_written c'.
Proof.
  intros Hc Hr. destruct (inference_loop_ok _ _ _ _ _ Hc Hr) as [Hinv Hz].
  destruct (acc_inv_outputs c' Hinv) as (G & I & S & P & L & k & _ & EI & Hk & _ & Hiss & Hcnt & Hle & Ht).
  assert (0 <= writes_open (s_mem (c_fs c'))) by apply vsize_nonneg.
  split; [done|]. split; [lia|]. intros e He. exists (I e). rewrite EI, vget_tab by done. split; [done|].
  assert (Hall : cnt (I e) - vsize (wq (I e)) = nz e * total_urb (data_info env)).
  { revert e He. apply (psum_tight (fun e => cnt (I e) - vsize (wq (I e))) (fun e => nz e * total_urb (data_info env))).
    - intros j Hj. specialize (Hcnt j Hj). pose proof (vsize_nonneg (wq (I j))). lia.
    - unfold issued, outputs in *. lia. }
  specialize (Hcnt e He). pose proof (vsize_nonneg (wq (I e))). split; [lia|].
  assert (vsize (wq (I e)) = 0) as Hw by lia. unfold vsize in Hw. destruct (wq (I e)); [done|simpl in Hw; lia].
Qed.
End invariant.

(** ** The properties *)

(** [GCNInference] stops only when the work is done.  On a prepared graph,
    whatever conserving DRAM system is attached, when the loop returns every
    SIMD unit has produced exactly [nonzero_row * total_urb] output lines, all of
    them have been issued, and every issued write has completed: none is queued
    or still inside the DRAM. *)
Theorem inference_writes_everything {D : Type} `{DramLaws D} (env : Env) (md : F_MODE)
    (R : Z -> list (list Z)) (X : Z -> DataIndex) (d : D) (c0 c : Controller D) (fuel : nat) (cycles : Z) :
  well_prepared env md R X -> dram_inv d -> dram_pending d = [] ->
  Controller_new env d (outputs env R) = Ok c0 ->
  GCNInference env fuel 0 md c0 = Ok (Some (cycles, c)) ->
  total_write (s_mem (c_fs c)) = 0 /\
  writes_open (s_mem (c_fs c)) = 0 /\
  forall e, 0 <= e < n_of_engine (arch_info env) -> exists s, vget (si c) e = Ok s /\
    cnt s = nonzero_rows (R e) * total_urb (data_info env) /\ wq s = [].
Proof.
  intros W Hd Hp Hc0 Hr. rewrite (Controller_new_ok env md R X W d) in Hc0. injection Hc0 as <-.
  unfold GCNInference, DAVCRead in Hr. rewrite decide_True in Hr by done. cbn [mbind outcome_bind] in Hr.
  exact (inference_loop_written env md R X W _ _ _ _ _ (controller_init env md R X W d Hd Hp) Hr).
Qed.

(** after any number of cycles the outputs are accounted for: [total_write]
    plus the completed writes is the number of outputs of the graph, the
    completed and the open writes are the ones the SIMD units have issued, and
    no unit ever exceeds its share; in particular [total_write] never wraps
    below zero, so the loop cannot run past its end. *)
Theorem outputs_accounted {D : Type} `{DramLaws D} (env : Env) (md : F_MODE)
    (R : Z -> list (list Z)) (X : Z -> DataIndex) (d : D) (c0 c : Controller D) :
  well_prepared env md R X -> dram_inv d -> dram_pending d = [] ->
  Controller_new env d (outputs env R) = Ok c0 ->
  rtc (fun c c' => cycle_step env c = Ok c')
      (c0 <| c_fs := (c_fs c0) <| s_fr := ModeChange md (s_fr (c_fs c0)) |> |>) c ->
  exists completed I, 0 <= completed <= outputs env R /\ si c = tab (n_of_engine (arch_info env)) I /\
    total_write (s_mem (c_fs c)) = outputs env R - completed /\
    issued env I = completed + writes_open (s_mem (c_fs c)) /\
    forall e, 0 <= e < n_of_engine (arch_info env) ->
      cnt (I e) <= nonzero_rows (R e) * total_urb (data_info env).
Proof.
  intros W Hd Hp Hc0 Hr. rewrite (Controller_new_ok env md R X W d) in Hc0. injection Hc0 as <-.
  assert (Hinv : acc_inv env md R X c).
  { revert Hr. generalize (controller_init env md R X W d Hd Hp). simpl. intros Hi Hr.
    induction Hr as [c1|c1 c2 c3 Hs _ IH]; [done|]. apply IH. by apply (cycle_step_ok env md R X W c1). }
  destruct (acc_inv_outputs env md R X W c Hinv) as (G & I & S & P & L & k & _ & EI & Hk & _ & Hiss & Hcnt & Hle & Ht).
  assert (0 <= writes_open (s_mem (c_fs c))) by apply vsize_nonneg.
  exists k, I. split_and!; try done. lia.
Qed.

(** ** Witness: two engines on the ideal memory *)
Definition acc_rows (e : Z) : list (list Z) := if decide (e = 0) then [[1; 2]; []] else [[0]; [3; 0]].
Definition acc_index (e : Z) : DataIndex :=
  (demo_index e) <| zero_row := if decide (e = 0) then 1 else 0 |>.
Definition acc_env : Env := demo_env <| data_index := tab 2 acc_index |>.

Lemma acc_engine e : 0 <= e < 2 -> e = 0 \/ e = 1.
Proof. lia. Qed.

Lemma acc_edge_ok e b c f : 0 <= c < 4 -> 0 <= f < 1 -> edge_ok acc_env MAT (mkEdgeInfo e b c f).
Proof.
  intros Hc Hf. replace f with 0 by lia.
  assert (E : exists v, vget (x_to_addr acc_env) c = Ok [v] /\ 384 <= v < 512).
  { destruct (decide (c = 0)) as [->|]; [by exists 384|]. destruct (decide (c = 1)) as [->|]; [by exists 448|].
    destruct (decide (c = 2)) as [->|]; [by exists 384|]. replace c with 3 by lia. by exists 448. }
  destruct E as (v & E & Hv). exists [v]. simpl. split; [exact E|]. split; [lia|]. split; [reflexivity|].
  split; [lia|]. exists v. split; [reflexivity|]. unfold line_ok, u64_max. simpl. lia.
Qed.

Lemma acc_cols e r c : r ∈ acc_rows e -> c ∈ r -> 0 <= c < 4.
Proof.
  unfold acc_rows. intros Hr Hc. destruct (decide (e = 0)); simpl in Hr;
    repeat (apply elem_of_cons in Hr as [->|Hr];
      [repeat (apply elem_of_cons in Hc as [->|Hc]; [lia|]); by apply not_elem_of_nil in Hc|]);
    by apply not_elem_of_nil in Hr.
Qed.

Lemma acc_prepared : well_prepared acc_env MAT acc_rows acc_index.
Proof.
  split.
  - vm_compute. discriminate.
  - reflexivity.
  - reflexivity.
  - reflexivity.
  - split; [reflexivity| |simpl; lia]. exists acc_index.
    split_and!; [reflexivity|..]; split; simpl; intros e He; try lia; exists 1; unfold CACHE_LINE_BYTE; lia.
  - reflexivity.
  - intros e [->| ->]%acc_engine; reflexivity.
  - intros e [->| ->]%acc_engine; reflexivity.
  - intros e [->| ->]%acc_engine; reflexivity.
  - intros e [->| ->]%acc_engine; reflexivity.
  - intros e [->| ->]%acc_engine; reflexivity.
  - intros e r c b f He Hr Hc Hf. pose proof (acc_cols e r c Hr Hc) as Hc4. split; [lia|].
    by apply acc_edge_ok.
  - split; vm_compute; auto.
  - exact demo_lines.
  - reflexivity.
  - vm_compute. discriminate.
  - vm_compute. split; discriminate.
  - reflexivity.
  - vm_compute. repeat split; discriminate.
  - vm_compute. reflexivity.
Qed.

Lemma inference_writes_everything_witness :
  exists c0 cycles c, Controller_new acc_env (Ideal_new 3) 3 = Ok c0 /\
    GCNInference acc_env 100 0 MAT c0 = Ok (Some (cycles, c)) /\
    exists s, vget (si c) 1 = Ok s /\ cnt s = 2 /\ wq s = [].
Proof.
  destruct (Controller_new acc_env (Ideal_new 3) 3) as [c0|f] eqn:E0; [|exfalso; vm_compute in E0; discriminate E0].
  destruct (GCNInference acc_env 100 0 MAT c0) as [[[cycles c]|]|f] eqn:E1;
    [|exfalso; vm_compute in E0; injection E0 as <-; vm_compute in E1; discriminate E1..].
  exists c0, cycles, c. split; [reflexivity|]. split; [exact E1|].
  apply (inference_writes_everything acc_env MAT acc_rows acc_index (Ideal_new 3) c0 c 100 cycles
    acc_prepared ltac:(exact I) ltac:(reflexivity) E0 E1). split; [discriminate|reflexivity].
Defined.

Lemma outputs_accounted_witness :
  exists c0 completed I, Controller_new acc_env (Ideal_new 3) 3 = Ok c0 /\
    issued acc_env I = completed + writes_open (D := IdealDRAMSystem) (s_mem (c_fs c0)).
Proof.
  destruct (Controller_new acc_env (Ideal_new 3) 3) as [c0|f] eqn:E0; [|exfalso; vm_compute in E0; discriminate E0].
  destruct (outputs_accounted acc_env MAT acc_rows acc_index (Ideal_new 3) c0 _ acc_prepared ltac:(exact I) ltac:(reflexivity) E0
    (rtc_refl _ _)) as (k & J & _ & _ & _ & Hiss & _).
  exists c0, k, J. split; [reflexivity|]. exact Hiss.
Defined.
