(* ===== verification/Inference.v ===== *)
(** * The simulation never fails (src/controller.cc over the memory systems)

    Accelerator.v shows what a cycle that succeeds does; here every cycle is
    shown to succeed, over any memory system that promises so ([DramTotal]): all
    indices are in range, no queue is popped empty, and every completed graph
    read finds the engine that asked for it.  The theorem is instantiated with
    the JEDEC memory system of DRAMsim3. *)

From stdpp Require Import base tactics list list_numbers numbers strings gmap.
From Stdlib Require Import ZArith Lia.
From S2P Require Import Prelude Common Float32 Csr Layout DramInterface DramConfig ControllerSafety DramSystem.
From S2P Require Import Memory Cache GraphDistribution GraphReader FeatureReader Simd Accelerator.

Section total.
Context {D : Type} `{DramLaws D} `{!DramTotal D} (env : Env) (md : F_MODE) (R : Z -> list (list Z)) (X : Z -> DataIndex).
Hypothesis W : well_prepared env md R X.
Let a : ArchInfo := arch_info env.
Let n : Z := n_of_engine a.

(** A transaction whose callback knows what to do: a write, a feature read, or a
    read of a graph region of some engine. *)
Definition routable (t : Transaction) : Prop :=
  t_is_write t = true \/ xw_ele_addr_start a <= t_address t \/
  exists type e, type <> Empty /\ 0 <= e < n /\ start_of type (X e) <= t_address t < stop_of type (X e).

(** The memory is good for [k] more cycles. *)
Definition mem_ready (k : Z) (m : Memory D) : Prop :=
  vsize (rq m) = n /\ Forall routable (tq m) /\ Forall routable (dram_pending (mem m)) /\ dram_ready k (mem m).

Lemma mem_ready_add k t m : routable t -> mem_ready k m -> mem_ready k (Memory.AddTransaction t m).
Proof.
  intros Ht (H1 & H2 & H3 & H4). split_and!; simpl; try done. apply Forall_app. split; [done|]. by apply Forall_singleton.
Qed.

Lemma mem_ready_same k m m' :
  vsize (rq m') = vsize (rq m) -> tq m' = tq m -> mem m' = mem m -> mem_ready k m -> mem_ready k m'.
Proof. unfold mem_ready. intros -> -> ->. done. Qed.

(** ** The graph reader *)
Lemma line_routable type e L j :
  type <> Empty -> 0 <= e < n -> 0 < L -> stop_of type (X e) = start_of type (X e) + CACHE_LINE_BYTE * L ->
  routable (mkTransaction (line_of (start_of type (X e)) L j) READ).
Proof.
  intros Ht He HL Hs. right. right. exists type, e. split_and!; try done; simpl; rewrite ?Hs;
    unfold line_of, CACHE_LINE_BYTE; pose proof (Z.mod_pos_bound j L HL); lia.
Qed.

Lemma vertex_total e k m g :
  0 <= e < n -> reader_ok env R X e g -> v_req_over g = false -> mem_ready k m ->
  exists m' g', VertexRequest env e m g = Ok (m', g') /\ mem_ready k m'.
Proof.
  intros He [_ (qr & qc & Q)] Ho Hm. destruct (graph_region env md R X W e He) as (A1 & A2 & A3 & A4 & A5 & A6 & A7).
  destruct (line_counts env md R X W e He) as [L1 L2]. pose proof (wp_row_lines _ _ _ _ W e He) as E.
  destruct (Memory.WillAcceptTransaction m) eqn:Hw.
  - destruct (vertex_request_step env e (X e) _ _ (vget_index env md R X W e He) L1 ltac:(lia) m g qr qc Q Ho Hw) as (g1 & -> & _).
    eexists _, _. split; [reflexivity|]. apply mem_ready_add; [|done]. by apply (line_routable Common.Row).
  - unfold VertexRequest. rewrite Hw. eauto.
Qed.

Lemma edge_total e k m g :
  0 <= e < n -> reader_ok env R X e g -> e_req_over g = false -> mem_ready k m ->
  exists m' g', EdgeRequest env e m g = Ok (m', g') /\ mem_ready k m'.
Proof.
  intros He [_ (qr & qc & Q)] Ho Hm. destruct (graph_region env md R X W e He) as (A1 & A2 & A3 & A4 & A5 & A6 & A7).
  destruct (line_counts env md R X W e He) as [L1 L2]. pose proof (wp_col_lines _ _ _ _ W e He) as E.
  pose proof (wp_val_lines _ _ _ _ W e He) as E'.
  destruct (Memory.WillAcceptTransaction m) eqn:Hw.
  - destruct (edge_request_step env e (X e) _ _ (vget_index env md R X W e He) L2 ltac:(lia) ltac:(lia) m g qr qc Q Ho Hw)
      as (g1 & -> & _). eexists _, _. split; [reflexivity|]. unfold edge_lines.
    destruct (gnn_mode (arch_info env)); cbn [fold_left]; repeat apply mem_ready_add; try done;
      by (apply (line_routable Common.Column) || apply (line_routable Common.Value)).
  - unfold EdgeRequest. rewrite Hw. eauto.
Qed.

Lemma receive_total e k m g :
  0 <= e < n -> reader_ok env R X e g -> mem_ready k m ->
  exists m' g', GraphReceive env e m g = Ok (m', g') /\ mem_ready k m'.
Proof.
  intros He [(kr & kc & kv & rp & I) _] Hm. unfold GraphReceive, GetGraph.
  destruct (vget_total (rq m) e) as (q & Eq); [by rewrite (proj1 Hm)|]. rewrite Eq. cbn [mbind outcome_bind].
  assert (Hrec : forall t, exists g', receive env e t g = Ok g').
  { intros t. destruct (receive_inv env e (R e) (wp_edges _ _ _ _ W e He) (vget_rows env md R X W e He)
      (vget_cols env md R X W e He) _ _ _ _ _ t I) as (g' & ? & _). eauto. }
  destruct q as [|t q]; cbn [mbind outcome_bind].
  - destruct (Hrec Empty) as (g' & ->). eauto.
  - destruct (vset_total (rq m) e q) as (rqs & -> & Hs); [by rewrite (proj1 Hm)|]. cbn [mbind outcome_bind].
    destruct (Hrec t) as (g' & ->). cbn [mbind outcome_bind]. eexists _, _. split; [reflexivity|].
    by apply (mem_ready_same k m).
Qed.

Lemma graph_work_total e k m g c Rq :
  0 <= e < n -> reader_ok env R X e g -> shared_ok env c Rq m -> mem_ready k m ->
  exists m' g', graph_work env e m g = Ok (m', g') /\ mem_ready k m'.
Proof.
  intros He Hg Hs Hm. unfold graph_work.
  assert (S1 : exists m1 g1, (if v_req_over g then Ok (m, g) else VertexRequest env e m g) = Ok (m1, g1) /\
    mem_ready k m1 /\ shared_ok env c Rq m1 /\ reader_ok env R X e g1).
  { destruct (v_req_over g) eqn:Ho; [eauto 6|]. destruct (vertex_total e k m g He Hg Ho Hm) as (m1 & g1 & E & Hm1).
    destruct (vertex_ok env md R X W e m g m1 g1 c Rq He Hg Ho Hs E) as (? & ? & _). eauto 6. }
  destruct S1 as (m1 & g1 & -> & Hm1 & Hs1 & Hg1). cbn [mbind outcome_bind].
  assert (S2 : exists m2 g2, (if e_req_over g1 then Ok (m1, g1) else EdgeRequest env e m1 g1) = Ok (m2, g2) /\
    mem_ready k m2 /\ reader_ok env R X e g2).
  { destruct (e_req_over g1) eqn:Ho; [eauto 6|]. destruct (edge_total e k m1 g1 He Hg1 Ho Hm1) as (m2 & g2 & E & Hm2).
    destruct (edge_ok_step env md R X W e m1 g1 m2 g2 c Rq He Hg1 Ho Hs1 E) as (_ & ? & _). eauto 6. }
  destruct S2 as (m2 & g2 & -> & Hm2 & Hg2). cbn [mbind outcome_bind].
  destruct (reci_over g2); [eauto|]. by apply receive_total.
Qed.

Lemma pass_edge_total e m c r g S P L :
  0 <= e < n -> reader_ok env R X e g -> state_ok env md (mkFS (D := D) m c r) S P L ->
  exists g' r', pass_edge env e g r = Ok (g', r').
Proof.
  intros He [(kr & kc & kv & rp & I) _] Hst. unfold pass_edge. destruct (pass_over g); [eauto|].
  destruct (next_feature_inv env e (R e) (wp_bf _ _ _ _ W) (wp_edges _ _ _ _ W e He) (vget_rows env md R X W e He)
    (vget_cols env md R X W e He) _ _ _ _ _ I) as (ei & g1 & rp' & -> & _ & Hcase). cbn [mbind outcome_bind].
  destruct (decide _) as [|Hd]; [eauto|].
  destruct Hcase as [(_ & -> & _)|(_ & _ & [(-> & _)|(Hs & _)])]; [done..|].
  destruct (stream_elem env R e _ _ Hs) as (row & f & Hrow & Hc & Hf & Eei).
  destruct (wp_features _ _ _ _ W e row _ (ei_is_last ei) f He Hrow Hc Hf) as [_ Hedge]. rewrite <- Eei in Hedge.
  destruct (enter_ok env md ei (mkFS m c r) S P L) as (r1 & Hr1 & _); [by rewrite Eei|done|done|].
  simpl in Hr1. rewrite Hr1. cbn [mbind outcome_bind]. eauto.
Qed.

(** ** One cycle *)

(** The reads a feature step queues are feature reads. *)
Lemma fs_ext_ready k s s' S P L :
  fs_ext s s' -> state_ok env md s' S P L -> mem_ready k (s_mem s) -> mem_ready k (s_mem s').
Proof.
  intros (_ & E1 & E2 & _ & l & E3 & F) (Rq & ct & ps & Es & Hsh & _) (H1 & H2 & H3 & H4).
  unfold mem_ready. rewrite E1, E2, E3. split_and!; try done. apply Forall_app. split; [done|].
  eapply Forall_impl; [exact F|]. intros t [Hw Ht]. right. left. rewrite Es in Ht. simpl in Ht.
  by destruct (sh_lines _ _ _ _ Hsh _ Ht) as [[Hl _] _].
Qed.

Lemma engine_step_total i k c :
  0 <= i < n -> acc_inv env md R X c -> mem_ready k (s_mem (c_fs c)) ->
  exists c', engine_step env i c = Ok c' /\ mem_ready k (s_mem (c_fs c')).
Proof.
  intros Hi (G & I & S & P & L & EG & EI & Hst & He & _) Hm. unfold engine_step.
  rewrite EG, EI. unfold n, a in Hi. rewrite !vget_tab by done. cbn [mbind outcome_bind].
  pose proof (He i Hi) as (Hread & _). destruct Hst as (Rq & ct & ps & Es & Hsh & Heng).
  destruct (graph_work_total i k _ _ _ _ Hi Hread Hsh Hm) as (m1 & g1 & Egw & Hm1). rewrite Egw. cbn [mbind outcome_bind].
  destruct (graph_work_ok env md R X W i _ _ _ _ _ _ Hi Hread Hsh Egw) as (Hsh1 & Hread1 & _).
  assert (Hst1 : state_ok env md (mkFS m1 (s_cah (c_fs c)) (s_fr (c_fs c))) S P L) by (by exists Rq, ct, ps).
  destruct (pass_edge_total i _ _ _ _ S P L Hi Hread1 Hst1) as (g2 & r & Epe). rewrite Epe. cbn [mbind outcome_bind].
  destruct (pass_edge_spec env md R X W i _ _ _ _ _ _ S P L Hi Hread1 Hst1 Epe) as (P1 & Hst2 & _).
  destruct (read_next_ok env md (wp_geometry _ _ _ _ W) (wp_x _ _ _ _ W) i _ S P1 L Hi Hst2)
    as (fs2 & S2 & P2 & L2 & Ern & Hst3 & _). rewrite Ern. cbn [mbind outcome_bind].
  destruct (pass_ok env md (wp_geometry _ _ _ _ W) i fs2 S2 P2 L2 Hi Hst3)
    as (res & fs3 & L3 & Eps & Hst4 & _ & _). rewrite Eps. cbn [mbind outcome_bind].
  assert (Hm3 : mem_ready k (s_mem fs3)).
  { apply (fs_ext_ready k fs2 fs3 S2 P2 L3 (pass_ext env i _ _ _ Eps) Hst4).
    exact (fs_ext_ready k _ fs2 S2 P2 L2 (read_next_ext env i _ _ Ern) Hst3 Hm1). }
  destruct (Write _ _) as [s' m'] eqn:Ew. rewrite !vset_tab by done. cbn [mbind outcome_bind].
  eexists. split; [reflexivity|]. simpl. unfold Write in Ew.
  repeat case_match; injection Ew as <- <-; try done; by apply mem_ready_add; [left|].
Qed.

Lemma engines_total k c :
  acc_inv env md R X c -> mem_ready k (s_mem (c_fs c)) ->
  exists c', for_int n (engine_step env) c = Ok c' /\ acc_inv env md R X c' /\ mem_ready k (s_mem (c_fs c')).
Proof.
  intros Hc Hm. apply (for_int_ind n (engine_step env) (fun _ c => acc_inv env md R X c /\ mem_ready k (s_mem (c_fs c)))).
  - apply (wp_n _ _ _ _ W).
  - done.
  - intros i c1 Hi [Hc1 Hm1]. destruct (engine_step_total i k c1 Hi Hc1 Hm1) as (c2 & E & Hm2).
    exists c2. split; [done|]. split; [|done]. by apply (engine_step_ok env md R X W i c1).
Qed.

Lemma consume_total k q d :
  Forall addr_ok q -> dram_inv d -> dram_ready k d ->
  exists q' d', consume q d = Ok (q', d') /\ dram_ready k d'.
Proof.
  revert d. induction q as [|t q IH]; intros d Hq Hi Hd; [by eexists _, _|]. apply Forall_cons in Hq as [Ht Hq].
  cbn [consume]. destruct (dram_accept_total k d (t_address t) (t_is_write t) Hd Ht) as (ok & Eok). rewrite Eok.
  cbn [mbind outcome_bind]. destruct ok; [|eauto].
  destruct (dram_add_total k d _ _ Hd Ht Eok) as (d1 & E1 & Hd1). rewrite E1. cbn [mbind outcome_bind].
  apply IH; [done| |done]. by destruct (dram_add_law d _ _ d1 Hi Ht Eok E1).
Qed.

Lemma Consume_total k m :
  mem_ready k m -> Forall addr_ok (tq m) -> dram_inv (mem m) ->
  exists m', ConsumeTransaction m = Ok m' /\ mem_ready k m'.
Proof.
  intros (H1 & H2 & H3 & H4) Ha Hi. unfold ConsumeTransaction.
  destruct (consume_total k (tq m) (mem m) Ha Hi H4) as (q & d & E & Hd). rewrite E. cbn [mbind outcome_bind].
  eexists. split; [reflexivity|]. destruct (consume_ok _ _ _ _ Hi Ha E) as (_ & Hp & _).
  assert (Hall : Forall routable (q ++ dram_pending d)) by (rewrite Hp; by apply Forall_app).
  apply Forall_app in Hall as [? ?]. by split_and!.
Qed.

(** Every callback finds its engine. *)
Lemma callback_total t (m : Memory D) :
  routable t -> vsize (rq m) = n ->
  exists m', callback env t m = Ok m' /\ vsize (rq m') = n /\ tq m' = tq m /\ mem m' = mem m.
Proof.
  intros Ht Hq. unfold callback. pose proof (wp_layout _ _ _ _ W) as Hlay. destruct (t_is_write t) eqn:Hw.
  { eexists. split; [reflexivity|]. done. }
  destruct Ht as [Ht|[Ht|(type & e & Hty & He & Hin)]]; [congruence| |].
  - rewrite (read_callback_feature env _ m Ht). by eexists.
  - destruct (read_callback_graph env type e (X e) (t_address t) m Hty He (vget_index env md R X W e He) Hin Hq)
      as (q & _ & E). rewrite E. eexists. split; [reflexivity|]. simpl. split; [|done].
    unfold vsize. by rewrite length_insert.
Qed.

Lemma callbacks_run done (m : Memory D) :
  Forall routable done -> vsize (rq m) = n ->
  exists m', for_each (callback env) done m = Ok m' /\ vsize (rq m') = n /\ tq m' = tq m /\ mem m' = mem m.
Proof.
  revert m. induction done as [|t done IH]; intros m Hd Hq; [by exists m|]. apply Forall_cons in Hd as [Ht Hd].
  cbn [for_each]. destruct (callback_total t m Ht Hq) as (m1 & E & Q1 & T1 & M1). rewrite E. cbn [mbind outcome_bind].
  destruct (IH m1 Hd Q1) as (m2 & ? & ? & ? & ?). exists m2. split_and!; congruence || done.
Qed.

Lemma Update_total k m :
  0 < k -> mem_ready k m -> dram_inv (mem m) -> exists m', UpdateCycle env m = Ok m' /\ mem_ready (k - 1) m'.
Proof.
  intros Hk (H1 & H2 & H3 & H4) Hi. unfold UpdateCycle.
  destruct (dram_tick_total k (mem m) Hk H4) as (d & done & E & Hd). rewrite E. cbn [mbind outcome_bind].
  destruct (dram_tick_law _ _ _ Hi E) as [_ Hp]. rewrite <- Hp in H3. apply Forall_app in H3 as [F1 F2].
  destruct (callbacks_run done (m <| mem := d |>)) as (m1 & E1 & Q1 & T1 & M1); [done..|].
  rewrite E1. cbn [mbind outcome_bind]. eexists. split; [reflexivity|]. unfold mem_ready. simpl. rewrite T1, M1. by split_and!.
Qed.

Lemma cycle_step_total k c :
  0 < k -> acc_inv env md R X c -> mem_ready k (s_mem (c_fs c)) ->
  exists c', cycle_step env c = Ok c' /\ acc_inv env md R X c' /\ mem_ready (k - 1) (s_mem (c_fs c')).
Proof.
  intros Hk Hc Hm. destruct (engines_total k c Hc Hm) as (c1 & E1 & Hc1 & Hm1).
  pose proof Hc1 as (G & I & S & P & L & EG & EI & Hst & He & Hac).
  destruct (receive_all_ok env md (wp_geometry _ _ _ _ W) _ _ S P L Hst eq_refl) as (fs & Efr & Hst1 & _).
  assert (Hm2 : mem_ready k (s_mem fs)).
  { destruct (receive_all_frame env _ _ _ Efr) as (T & M & Q & _). by apply (mem_ready_same k (s_mem (c_fs c1))); [rewrite Q|..]. }
  destruct (state_ok_shared env md _ _ _ _ Hst1) as [Hi1 Ha1].
  destruct (Consume_total k (s_mem fs) Hm2 Ha1 Hi1) as (m1 & Ecn & Hm3).
  assert (Hi2 : dram_inv (mem m1)).
  { unfold ConsumeTransaction in Ecn. apply bind_ok in Ecn as ([q d] & Eq & Ecn). injection Ecn as <-.
    by destruct (consume_ok _ _ _ _ Hi1 Ha1 Eq). }
  destruct (Update_total k m1 Hk Hm3 Hi2) as (m2 & Eup & Hm4).
  assert (E : cycle_step env c = Ok (c1 <| c_fs := fs <| s_mem := m2 |> |>)).
  { unfold cycle_step. fold a n. rewrite E1. cbn [mbind outcome_bind]. unfold FeatureReceive. rewrite Efr.
    cbn [mbind outcome_bind]. rewrite Ecn. cbn [mbind outcome_bind]. by rewrite Eup. }
  eexists. split; [exact E|]. split; [by apply (cycle_step_ok env md R X W c)|done].
Qed.

Lemma inference_loop_total fuel : forall k cy c,
  Z.of_nat fuel <= k -> acc_inv env md R X c -> mem_ready k (s_mem (c_fs c)) ->
  exists r, inference_loop env fuel cy c = Ok r.
Proof.
  induction fuel as [|fuel IH]; intros k cy c Hf Hc Hm; cbn [inference_loop]; [eauto|].
  destruct (cycle_step_total k c ltac:(lia) Hc Hm) as (c1 & -> & Hc1 & Hm1). cbn [mbind outcome_bind].
  destruct (decide _); [eauto|]. apply (IH (k - 1)); [lia|done..].
Qed.
End total.

(** The loop from the state the constructor leaves. *)
Lemma inference_loop_safe {D : Type} `{DramLaws D} `{!DramTotal D} (env : Env) (md : F_MODE)
    (R : Z -> list (list Z)) (X : Z -> DataIndex) (d : D) (fuel : nat) :
  well_prepared env md R X -> dram_inv d -> dram_pending d = [] -> dram_ready (Z.of_nat fuel) d ->
  exists r, (c ← Controller_new env d (outputs env R); GCNInference env fuel 0 md c) = Ok r /\
    forall cycles c, r = Some (cycles, c) -> all_written env R c.
Proof.
  intros W Hd Hp Hr. rewrite (Controller_new_ok env md R X W d). cbn [mbind outcome_bind].
  assert (H1 := controller_init env md R X W d Hd Hp).
  destruct (inference_loop_total env md R X W fuel (Z.of_nat fuel) 0 _ (Z.le_refl _) H1) as (r & E).
  { split_and!; simpl; [|by constructor|by rewrite Hp|done]. unfold vsize. rewrite length_replicate.
    pose proof (wp_n _ _ _ _ W). lia. }
  exists r. unfold GCNInference, DAVCRead. rewrite decide_True by done. split; [exact E|].
  intros cycles c ->. exact (inference_loop_written env md R X W _ _ _ _ _ H1 E).
Qed.



(** That run ends after 61 cycles with every output line written back. *)
Example demo_inference :
  (d ← Jedec_new hbm2_config; c0 ← Controller_new acc_env d 3; r ← GCNInference acc_env 1000 0 MAT c0;
   Ok (fmap (M := option) (fun p => (p.1, total_write (s_mem (c_fs p.2)))) r)) = Ok (Some (61, 0)).
Proof. vm_compute. reflexivity. Qed.
