(* ===== verification/Waiting.v ===== *)
(** * Graph lines on their way (src/g_reader.cc with src/memory.cc)

    Every graph line an engine has asked for is queued, inside the DRAM, in the
    engine's reply queue, or has been received.  From this follows that a graph
    reader whose requests are all answered can pass on its whole stream, and
    that the reader's part of a cycle makes progress or is blocked for one of
    the reasons the code has. *)

From stdpp Require Import base tactics list list_numbers numbers strings gmap.
From Stdlib Require Import ZArith Lia.
From S2P Require Import Prelude Common Float32 Csr Layout DramInterface Memory Cache GraphReader FeatureReader Simd Accelerator.

(** ** The owner of a transaction: the engine and the array of a graph read *)
Section owner.
Context {D : Type} `{DramLaws D} (env : Env).
Let a : ArchInfo := arch_info env.

Definition owner (t : Transaction) : option (Z * R_TYPE) :=
  if t_is_write t then None
  else if t_address t <? xw_ele_addr_start a then
    (fun e => (e, graph_type a (t_address t))) <$>
      find_engine (graph_type a (t_address t)) (t_address t) (take (Z.to_nat (n_of_engine a)) (data_index env)) 0
  else None.

Definition owned (ty : R_TYPE) (e : Z) (l : list Transaction) : Z :=
  vsize (filter (fun t => owner t = Some (e, ty)) l).

(** The reply queue of an engine. *)
Definition rq_of (m : Memory D) (e : Z) : list R_TYPE :=
  match vget (rq m) e with Ok q => q | Fault _ => [] end.

(** The lines of array [ty] that engine [e] has asked for and not received. *)
Definition awaiting (ty : R_TYPE) (e : Z) (m : Memory D) : Z :=
  owned ty e (tq m ++ dram_pending (mem m)) + vsize (filter (fun r => r = ty) (rq_of m e)).

Lemma owned_app ty e l l' : owned ty e (l ++ l') = owned ty e l + owned ty e l'.
Proof. unfold owned. by rewrite filter_app, vsize_app. Qed.

Lemma owned_one ty e t : owned ty e [t] = if decide (owner t = Some (e, ty)) then 1 else 0.
Proof. unfold owned. rewrite filter_cons, filter_nil. by destruct (decide _). Qed.

Lemma owned_perm ty e l l' : l ≡ₚ l' -> owned ty e l = owned ty e l'.
Proof. intros Hp. unfold owned, vsize. by rewrite Hp. Qed.

Lemma owned_none ty e l : Forall (fun t => owner t = None) l -> owned ty e l = 0.
Proof.
  induction 1 as [|t l Ht _ IH]; [done|]. change (t :: l) with ([t] ++ l).
  rewrite owned_app, owned_one, IH, Ht, decide_False by done. done.
Qed.

Lemma owned_nonneg ty e l : 0 <= owned ty e l.
Proof. apply vsize_nonneg. Qed.

Lemma awaiting_nonneg ty e m : 0 <= awaiting ty e m.
Proof. unfold awaiting, owned, vsize. lia. Qed.

Lemma write_owner x : owner (mkTransaction x WRITE) = None.
Proof. done. Qed.

Lemma feature_owner x : xw_ele_addr_start a <= x -> owner (mkTransaction x READ) = None.
Proof. intros Hx. unfold owner. simpl. by destruct (Z.ltb_spec0 x (xw_ele_addr_start a)); [lia|]. Qed.

Lemma owner_type t e ty : owner t = Some (e, ty) -> ty <> Empty.
Proof.
  unfold owner, graph_type. destruct (t_is_write t); [done|]. destruct (_ <? xw_ele_addr_start a); [|done].
  destruct (find_engine _ _ _ _); [|done]. simpl. repeat case_match; congruence.
Qed.

Lemma awaiting_add ty e t m :
  awaiting ty e (AddTransaction t m) = awaiting ty e m + (if decide (owner t = Some (e, ty)) then 1 else 0).
Proof. unfold awaiting. simpl. rewrite !owned_app, owned_one. unfold rq_of. simpl. lia. Qed.

(** Queueing transactions no engine owns. *)
Lemma awaiting_ext ty e m m' l :
  tq m' = tq m ++ l -> mem m' = mem m -> rq m' = rq m -> Forall (fun t => owner t = None) l ->
  awaiting ty e m' = awaiting ty e m.
Proof.
  intros E1 E2 E3 Hl. unfold awaiting, rq_of. rewrite E1, E2, E3, !owned_app, (owned_none ty e l) by done. lia.
Qed.

Lemma awaiting_consume ty e m m' :
  dram_inv (mem m) -> Forall addr_ok (tq m) -> ConsumeTransaction m = Ok m' -> awaiting ty e m' = awaiting ty e m.
Proof.
  intros Hi Ha Hm. unfold ConsumeTransaction in Hm. apply bind_ok in Hm as ([q d] & Hq & Hm). injection Hm as <-.
  destruct (consume_ok _ _ _ _ Hi Ha Hq) as (_ & Hp & _). unfold awaiting. simpl. by rewrite (owned_perm _ _ _ _ Hp).
Qed.

(** A completed graph read enters its owner's reply queue. *)
Lemma callback_awaiting ty e t (m m' : Memory D) :
  d_value_addr_start a = 0 -> addr_ok t -> callback env t m = Ok m' ->
  vsize (filter (fun r => r = ty) (rq_of m' e)) = vsize (filter (fun r => r = ty) (rq_of m e)) + owned ty e [t].
Proof.
  intros Hv Ht Hc. rewrite owned_one. unfold callback in Hc. unfold owner.
  destruct (t_is_write t).
  { injection Hc as <-. rewrite decide_False by done. unfold rq_of. simpl. lia. }
  unfold ReadCompleteCallback in Hc. fold a in Hc. rewrite Hv in Hc.
  rewrite (proj2 (Z.leb_le _ _)) in Hc by apply Ht. cbn [andb] in Hc.
  destruct (Z.ltb_spec0 (t_address t) (xw_ele_addr_start a)) as [Hlt|Hge].
  - destruct (find_engine _ _ _ _) as [id|]; [|done]. cbn [fmap option_fmap option_map].
    apply bind_ok in Hc as (q & Hq & Hc). injection Hc as <-. unfold vpush, vupd in Hq.
    apply bind_ok in Hq as (q0 & Hq0 & Hq). unfold rq_of. simpl.
    destruct (decide (id = e)) as [->|Hne].
    + rewrite Hq0, (vget_vset_eq _ _ _ _ Hq), filter_app, vsize_app, filter_cons, filter_nil.
      destruct (decide (graph_type a (t_address t) = ty)) as [<-|Hty]; [by rewrite decide_True|].
      rewrite decide_False by congruence. unfold vsize at 2. simpl. lia.
    + rewrite decide_False by congruence. rewrite (vget_vset_ne _ _ _ e _ Hne Hq). lia.
  - rewrite decide_False by done. rewrite (proj2 (Z.leb_le _ _)) in Hc by lia. injection Hc as <-. unfold rq_of. simpl. lia.
Qed.

Lemma callbacks_awaiting ty e done (m m' : Memory D) :
  d_value_addr_start a = 0 -> Forall addr_ok done -> for_each (callback env) done m = Ok m' ->
  vsize (filter (fun r => r = ty) (rq_of m' e)) = vsize (filter (fun r => r = ty) (rq_of m e)) + owned ty e done.
Proof.
  intros Hv. revert m. induction done as [|t done IH]; intros m Hd Hf; cbn [for_each] in Hf.
  { injection Hf as <-. change (owned ty e []) with 0. lia. }
  apply bind_ok in Hf as (m1 & Hc & Hf). apply Forall_cons in Hd as [Ht Hd].
  change (t :: done) with ([t] ++ done). rewrite owned_app, (IH _ Hd Hf), (callback_awaiting ty e t m m1 Hv Ht Hc). lia.
Qed.

Lemma awaiting_tick ty e m m' :
  d_value_addr_start a = 0 -> dram_inv (mem m) -> Forall addr_ok (dram_pending (mem m)) ->
  UpdateCycle env m = Ok m' -> awaiting ty e m' = awaiting ty e m.
Proof.
  intros Hv Hi Ha Hm. unfold UpdateCycle in Hm.
  apply bind_ok in Hm as ([d done] & Ht & Hm). apply bind_ok in Hm as (m1 & Hf & Hm). injection Hm as <-.
  destruct (dram_tick_law _ _ _ Hi Ht) as [_ Hp]. rewrite <- Hp in Ha. apply Forall_app in Ha as [Ha1 _].
  destruct (callbacks_fq env _ _ _ Hv Ha1 Hf) as (_ & E2 & E3). pose proof (callbacks_awaiting ty e _ _ _ Hv Ha1 Hf) as E.
  unfold awaiting in *. simpl in *. unfold rq_of in *. simpl in *. rewrite E2, E3, E, !owned_app, <- (owned_perm _ _ _ _ Hp), owned_app. lia.
Qed.

(** Taking a reply. *)
Lemma awaiting_pop e t q m rqs :
  vget (rq m) e = Ok (t :: q) -> vset (rq m) e q = Ok rqs ->
  (forall ty, awaiting ty e (m <| rq := rqs |>) = awaiting ty e m - (if decide (t = ty) then 1 else 0)) /\
  (forall ty e', e' <> e -> awaiting ty e' (m <| rq := rqs |>) = awaiting ty e' m).
Proof.
  intros Hq Hs. split.
  - intros ty. unfold awaiting, rq_of. simpl. rewrite Hq, (vget_vset_eq _ _ _ _ Hs), filter_cons.
    destruct (decide (t = ty)); unfold vsize; simpl; lia.
  - intros ty e' He. unfold awaiting, rq_of. simpl. by rewrite (vget_vset_ne _ _ _ e' _ (not_eq_sym He) Hs).
Qed.
End owner.

(** ** What a reader has asked for and received, read off its state *)
Definition got (size end_idx reci_count : Z) : Z :=
  reci_count * cdiv size CACHE_LINE_COUNT + (if decide (end_idx = size) then 0 else cdiv end_idx CACHE_LINE_COUNT).

Lemma arrived_got size k e t c : 0 < size -> arrived size k e t c -> got size e c = k.
Proof.
  intros Hs Ha. unfold got. pose proof (cdiv_spec size CACHE_LINE_COUNT eq_refl) as HL.
  destruct Ha as [(-> & -> & -> & ->)|(j & Hj & Ht & -> & -> & ->)].
  - rewrite decide_False by lia. done.
  - destruct (decide (j = cdiv size CACHE_LINE_COUNT)) as [->|Hne].
    + rewrite decide_True; [lia|]. unfold CACHE_LINE_COUNT in *. lia.
    + assert (CACHE_LINE_COUNT * j < size) by (unfold CACHE_LINE_COUNT in *; lia).
      rewrite Z.min_r by lia. rewrite decide_False by lia.
      assert (cdiv (CACHE_LINE_COUNT * j) CACHE_LINE_COUNT = j); [|lia].
      pose proof (cdiv_spec (CACHE_LINE_COUNT * j) CACHE_LINE_COUNT eq_refl). unfold CACHE_LINE_COUNT in *. lia.
Qed.

(** Passing edges on does not touch the receiving flags. *)
Definition same_receive (g g' : GraphReader) : Prop :=
  v_reci_over g' = v_reci_over g /\ e_reci_over g' = e_reci_over g /\ val_reci_over g' = val_reci_over g /\
  reci_over g' = reci_over g.

Lemma skip_rows_receive fuel rows g g' : skip_rows fuel rows g = Ok g' -> same_receive g g'.
Proof.
  revert g. induction fuel as [|fuel IH]; intros g Hr; [done|]. cbn [skip_rows] in Hr.
  destruct (decide (remain_edge g = 0)); [|by injection Hr as <-].
  destruct (decide _); [by injection Hr as <-|].
  set (g1 := if decide _ then _ else g) in Hr.
  assert (H1 : same_receive g g1) by (unfold g1; by destruct (decide _)).
  clearbody g1. apply bind_ok in Hr as (e1 & _ & Hr). apply bind_ok in Hr as (e0 & _ & Hr).
  destruct (decide _); [by injection Hr as <-|]. apply IH in Hr. unfold same_receive in *. simpl in Hr. intuition congruence.
Qed.

Lemma NextFeature_receive env e g ei g' : NextFeature env e g = Ok (ei, g') -> same_receive g g'.
Proof.
  intros Hr. unfold NextFeature in Hr. apply bind_ok in Hr as (rows & _ & Hr).
  apply bind_ok in Hr as (cols & _ & Hr). destruct (decide _); [by injection Hr as <- <-|].
  apply bind_ok in Hr as (g1 & H1 & Hr).
  assert (Hs : same_receive g g1)
    by (destruct (decide _); [by eapply skip_rows_receive|by injection H1 as <-]).
  clear H1. destruct (decide _); [|by injection Hr as <- <-].
  set (g2 := if (_ && bool_decide (col_overflow g1 > 0)) then _ else g1) in Hr.
  assert (Hs2 : same_receive g1 g2) by (unfold g2; by destruct (_ && _)).
  clearbody g2. destruct (_ && _).
  - injection Hr as <- <-. unfold same_receive in *. simpl. intuition congruence.
  - apply bind_ok in Hr as (dst & _ & Hr). injection Hr as <- <-. unfold same_receive in *. simpl. intuition congruence.
Qed.

Section waiting.
Context {D : Type} `{DramLaws D} (env : Env) (md : F_MODE) (R : Z -> list (list Z)) (X : Z -> DataIndex).
Hypothesis W : well_prepared env md R X.
Let a : ArchInfo := arch_info env.
Let n : Z := n_of_engine a.
Let nbf : Z := bf a.

(** The lines of one pass over the row pointers and over the column indices. *)
Definition row_count (e : Z) : Z := cdiv (vsize (R e) + 1) CACHE_LINE_COUNT.
Definition col_count (e : Z) : Z := cdiv (edges (R e)) CACHE_LINE_COUNT.

Definition asked_rows (e : Z) (g : GraphReader) : Z :=
  row_count e * v_req_count g + (next_v_addr g - row_addr_start (X e)) / CACHE_LINE_BYTE.
Definition asked_cols (e : Z) (g : GraphReader) : Z :=
  col_count e * e_req_count g + (next_e_addr g - col_addr_start (X e)) / CACHE_LINE_BYTE.
Definition got_rows (e : Z) (g : GraphReader) : Z := got (vsize (R e) + 1) (row_end_idx g) (v_reci_count g).
Definition got_cols (e : Z) (g : GraphReader) : Z := got (edges (R e)) (col_end_idx g) (e_reci_count g).
Definition got_vals (e : Z) (g : GraphReader) : Z := got (edges (R e)) (val_end_idx g) (val_reci_count g).

Lemma line_index start L k : 0 < L -> (line_of start L k - start) / CACHE_LINE_BYTE = k mod L.
Proof.
  intros HL. unfold line_of. replace (start + CACHE_LINE_BYTE * (k mod L) - start) with ((k mod L) * CACHE_LINE_BYTE) by lia.
  apply Z.div_mul. unfold CACHE_LINE_BYTE. lia.
Qed.

Lemma req_asked e qr qc g : 0 <= e < n ->
  req_inv env (X e) (row_count e) (col_count e) qr qc g -> asked_rows e g = qr /\ asked_cols e g = qc.
Proof.
  intros He Q. destruct (line_counts env md R X W e He) as [L1 L2]. fold (row_count e) (col_count e) in *.
  unfold asked_rows, asked_cols. rewrite (ri_v_addr _ _ _ _ _ _ _ Q), (ri_e_addr _ _ _ _ _ _ _ Q),
    (ri_v_count _ _ _ _ _ _ _ Q), (ri_e_count _ _ _ _ _ _ _ Q), !line_index by done.
  pose proof (Z.div_mod qr (row_count e) ltac:(lia)). pose proof (Z.div_mod qc (col_count e) ltac:(lia)). lia.
Qed.

Lemma inv_got e kr kc kv rp g : 0 <= e < n -> gr_inv env (R e) kr kc kv rp g ->
  got_rows e g = kr /\ got_cols e g = kc /\ (gnn_mode a = GCN -> got_vals e g = kv).
Proof.
  intros He I. pose proof (wp_edges _ _ _ _ W e He). pose proof (vsize_nonneg (R e)).
  split; [|split].
  - eapply arrived_got; [lia|exact (gi_rows _ _ _ _ _ _ _ I)].
  - eapply arrived_got; [lia|exact (gi_cols _ _ _ _ _ _ _ I)].
  - intros Hm. pose proof (gi_vals _ _ _ _ _ _ _ I) as Hv. unfold a in Hm. rewrite Hm in Hv.
    eapply arrived_got; [lia|exact Hv].
Qed.

(** The invariants of the reader with the counts of its state. *)
Lemma reader_counts e g : 0 <= e < n -> reader_ok env R X e g ->
  (exists rp, gr_inv env (R e) (got_rows e g) (got_cols e g) (got_vals e g) rp g) /\
  req_inv env (X e) (row_count e) (col_count e) (asked_rows e g) (asked_cols e g) g.
Proof.
  intros He [(kr & kc & kv & rp & I) (qr & qc & Q)]. destruct (req_asked e qr qc g He Q) as [-> ->].
  split; [|done]. exists rp. destruct (inv_got e _ _ _ _ _ He I) as (-> & -> & Hv).
  destruct I. split; try done. unfold a in Hv. destruct (gnn_mode (arch_info env)) eqn:Hm; [|done]. by rewrite (Hv eq_refl).
Qed.

(** *** The link between the reader and the memory *)
Record linked (e : Z) (m : Memory D) (g : GraphReader) : Prop := {
  lk_row : got_rows e g + awaiting env Common.Row e m = asked_rows e g;
  lk_col : got_cols e g + awaiting env Common.Column e m = asked_cols e g;
  lk_val : match gnn_mode a with
           | GCN => got_vals e g + awaiting env Common.Value e m = asked_cols e g
           | OTHER => awaiting env Common.Value e m = 0
           end;
  lk_empty : awaiting env Common.Empty e m = 0;
  lk_v_over : v_reci_over g = true -> nbf * row_count e <= got_rows e g;
  lk_e_over : e_reci_over g = true -> nbf * col_count e <= got_cols e g;
  lk_val_over : gnn_mode a = GCN -> val_reci_over g = true -> nbf * col_count e <= got_vals e g;
  lk_over : reci_over g = v_reci_over g && e_reci_over g && val_reci_over g;
  lk_pass : pass_over g = true -> passed (R e) g = nbf * edges (R e)
}.

Lemma linked_frame e m m' g :
  (forall ty, awaiting env ty e m' = awaiting env ty e m) -> linked e m g -> linked e m' g.
Proof. intros E []. split; rewrite ?E; done. Qed.

(** What an engine's reader has left to do. *)
Definition graph_left (e : Z) (g : GraphReader) : Z :=
  (nbf * row_count e - asked_rows e g) + (nbf * col_count e - asked_cols e g) +
  (nbf * row_count e - got_rows e g) + (nbf * col_count e - got_cols e g) +
  match gnn_mode a with GCN => nbf * col_count e - got_vals e g | OTHER => 0 end +
  (nbf * edges (R e) - passed (R e) g).

Lemma graph_left_nonneg e m g : 0 <= e < n -> reader_ok env R X e g -> linked e m g ->
  0 <= nbf * row_count e - got_rows e g /\ 0 <= nbf * col_count e - got_cols e g /\
  0 <= nbf * edges (R e) - passed (R e) g /\ 0 <= graph_left e g.
Proof.
  intros He Hr [L1 L2 L3 _ _ _ _ _ _]. destruct (reader_counts e g He Hr) as [(rp & I) Q].
  pose proof (ri_v _ _ _ _ _ _ _ Q) as Q1. pose proof (ri_e _ _ _ _ _ _ _ Q) as Q2.
  pose proof (passed_bound env (R e) (wp_bf _ _ _ _ W) (wp_edges _ _ _ _ W e He) _ _ _ _ _ I) as Hp.
  pose proof (awaiting_nonneg env Common.Row e m). pose proof (awaiting_nonneg env Common.Column e m).
  pose proof (awaiting_nonneg env Common.Value e m). unfold graph_left, nbf, a in *.
  destruct (gnn_mode (arch_info env)); lia.
Qed.

(** *** The steps of the reader: progress, or a reason for none *)
Definition others (e : Z) (m m' : Memory D) : Prop :=
  forall ty e', e' <> e -> awaiting env ty e' m' = awaiting env ty e' m.

Lemma line_owner ty e L j :
  ty <> Common.Empty -> 0 <= e < n -> 0 < L -> stop_of ty (X e) = start_of ty (X e) + CACHE_LINE_BYTE * L ->
  owner env (mkTransaction (line_of (start_of ty (X e)) L j) READ) = Some (e, ty).
Proof.
  intros Ht He HL Hs. pose proof (Z.mod_pos_bound j L HL) as Hj. pose proof (wp_layout _ _ _ _ W) as Hlay.
  destruct (find_engine_region env ty e (X e) (line_of (start_of ty (X e)) L j) Ht He (vget_index env md R X W e He))
    as (E1 & E2 & E3). { rewrite Hs. unfold line_of, CACHE_LINE_BYTE. lia. }
  unfold owner. simpl. fold a. unfold a in E1, E2, E3. rewrite (proj2 (Z.ltb_lt _ _)) by apply E2. unfold a. by rewrite E1, E3.
Qed.

(** Requests leave the receiving side. *)
Definition same_flags (g g' : GraphReader) : Prop :=
  v_reci_over g' = v_reci_over g /\ e_reci_over g' = e_reci_over g /\ val_reci_over g' = val_reci_over g /\
  reci_over g' = reci_over g /\ pass_over g' = pass_over g.

Lemma side_counts e g g' : same_side g g' ->
  got_rows e g' = got_rows e g /\ got_cols e g' = got_cols e g /\ got_vals e g' = got_vals e g /\
  passed (R e) g' = passed (R e) g.
Proof.
  intros (E1 & E2 & E3 & E4 & E5 & E6 & E7 & E8 & E9 & E10 & E11 & E12 & E13 & E14 & _).
  unfold got_rows, got_cols, got_vals, passed. rewrite E1, E2, E3, E5, E11, E12, E13, E14. done.
Qed.

Lemma vertex_flags e m g m' g' : VertexRequest (D := D) env e m g = Ok (m', g') -> same_flags g g'.
Proof.
  unfold VertexRequest. destruct (WillAcceptTransaction m); [|by intros [= <- <-]].
  intros Hr. apply bind_ok in Hr as (d & _ & Hr). repeat case_decide; injection Hr as <- <-; done.
Qed.

Lemma edge_flags e m g m' g' : EdgeRequest (D := D) env e m g = Ok (m', g') -> same_flags g g'.
Proof.
  unfold EdgeRequest. destruct (WillAcceptTransaction m); [|by intros [= <- <-]].
  intros Hr. apply bind_ok in Hr as (d & _ & Hr).
  destruct (gnn_mode _); repeat case_decide; injection Hr as <- <-; done.
Qed.

Lemma vertex_linked e m g m' g' :
  0 <= e < n -> reader_ok env R X e g -> linked e m g -> v_req_over g = false ->
  VertexRequest env e m g = Ok (m', g') ->
  linked e m' g' /\ others e m m' /\
  ((m' = m /\ g' = g /\ WillAcceptTransaction m = false) \/ graph_left e g' < graph_left e g).
Proof.
  intros He Hg Hl Ho Hr. destruct (WillAcceptTransaction m) eqn:Hw.
  2: { unfold VertexRequest in Hr. rewrite Hw in Hr. injection Hr as <- <-. split; [done|]. split; [done|]. by left. }
  destruct (reader_counts e g He Hg) as [_ Q]. destruct (graph_region env md R X W e He) as (A1 & A2 & _ & _ & _ & _ & A7).
  destruct (line_counts env md R X W e He) as [L1 L2]. fold (row_count e) (col_count e) in L1, L2.
  pose proof (wp_row_lines _ _ _ _ W e He) as E. fold (row_count e) in E.
  destruct (side_counts e g g' (VertexRequest_side env e _ _ _ _ Hr)) as (G1 & G2 & G3 & G4).
  destruct (vertex_flags e _ _ _ _ Hr) as (F1 & F2 & F3 & F4 & F5).
  destruct (vertex_request_step env e (X e) _ _ (vget_index env md R X W e He) L1 ltac:(lia) m g _ _ Q Ho Hw)
    as (g1 & E1 & Q1). rewrite E1 in Hr. injection Hr as <- <-. destruct (req_asked e _ _ _ He Q1) as [A A'].
  pose proof (line_owner Common.Row e (row_count e) (asked_rows e g) ltac:(done) He L1 E) as Hown. simpl in Hown.
  assert (Haw : forall ty e', awaiting env ty e' (AddTransaction (mkTransaction (line_of (row_addr_start (X e)) (row_count e) (asked_rows e g)) READ) m) =
    awaiting env ty e' m + (if decide (e = e' /\ Common.Row = ty) then 1 else 0)).
  { intros ty e'. rewrite awaiting_add, Hown. f_equal. repeat case_decide; naive_solver. }
  destruct Hl as [K1 K2 K3 K4 K5 K6 K7 K8 K9]. split_and!.
  - split; rewrite ?Haw, ?A, ?A', ?G1, ?G2, ?G3, ?G4, ?F1, ?F2, ?F3, ?F4, ?F5; simpl; try done.
    + rewrite decide_True by done. lia.
    + rewrite decide_False by naive_solver. lia.
    + rewrite decide_False by naive_solver. destruct (gnn_mode a); lia.
    + rewrite decide_False by naive_solver. lia.
  - intros ty e' Hne. rewrite Haw, decide_False by naive_solver. lia.
  - right. unfold graph_left. rewrite A, A', G1, G2, G3, G4. destruct (gnn_mode a); lia.
Qed.

Lemma edge_awaiting e m qc ty e' : 0 <= e < n ->
  awaiting env ty e' (fold_left (fun m t => AddTransaction t m) (edge_lines env (X e) (col_count e) qc) m) =
  awaiting env ty e' m + (if decide (e = e' /\ Common.Column = ty) then 1 else 0) +
  match gnn_mode a with GCN => if decide (e = e' /\ Common.Value = ty) then 1 else 0 | OTHER => 0 end.
Proof.
  intros He. destruct (line_counts env md R X W e He) as [_ L2]. fold (col_count e) in L2.
  pose proof (line_owner Common.Column e (col_count e) qc ltac:(done) He L2 (wp_col_lines _ _ _ _ W e He)) as O1.
  pose proof (line_owner Common.Value e (col_count e) qc ltac:(done) He L2 (wp_val_lines _ _ _ _ W e He)) as O2.
  unfold edge_lines. simpl in O1, O2. fold a. destruct (gnn_mode a); cbn [fold_left]; rewrite !awaiting_add, ?O1, ?O2;
    repeat case_decide; try lia; naive_solver.
Qed.

Lemma edge_linked e m g m' g' :
  0 <= e < n -> reader_ok env R X e g -> linked e m g -> e_req_over g = false ->
  EdgeRequest env e m g = Ok (m', g') ->
  linked e m' g' /\ others e m m' /\
  ((m' = m /\ g' = g /\ WillAcceptTransaction m = false) \/ graph_left e g' < graph_left e g).
Proof.
  intros He Hg Hl Ho Hr. destruct (WillAcceptTransaction m) eqn:Hw.
  2: { unfold EdgeRequest in Hr. rewrite Hw in Hr. injection Hr as <- <-. split; [done|]. split; [done|]. by left. }
  destruct (reader_counts e g He Hg) as [_ Q]. destruct (graph_region env md R X W e He) as (_ & _ & A3 & A4 & A5 & A6 & A7).
  destruct (line_counts env md R X W e He) as [L1 L2]. fold (row_count e) (col_count e) in L1, L2.
  pose proof (wp_col_lines _ _ _ _ W e He) as E. pose proof (wp_val_lines _ _ _ _ W e He) as E'. fold (col_count e) in E, E'.
  destruct (side_counts e g g' (EdgeRequest_side env e _ _ _ _ Hr)) as (G1 & G2 & G3 & G4).
  destruct (edge_flags e _ _ _ _ Hr) as (F1 & F2 & F3 & F4 & F5).
  destruct (edge_request_step env e (X e) _ _ (vget_index env md R X W e He) L2 ltac:(lia) ltac:(lia) m g _ _ Q Ho Hw)
    as (g1 & E1 & Q1). rewrite E1 in Hr.
  assert (m' = fold_left (fun m t => AddTransaction t m) (edge_lines env (X e) (col_count e) (asked_cols e g)) m /\ g' = g1)
    as [-> ->] by (split; congruence).
  destruct (req_asked e _ _ _ He Q1) as [A A'].
  destruct Hl as [K1 K2 K3 K4 K5 K6 K7 K8 K9]. split_and!.
  - split; rewrite ?edge_awaiting, ?A, ?A', ?G1, ?G2, ?G3, ?G4, ?F1, ?F2, ?F3, ?F4, ?F5 by done; try done.
    + rewrite !decide_False by naive_solver. destruct (gnn_mode a); lia.
    + rewrite decide_True, decide_False by naive_solver. destruct (gnn_mode a); lia.
    + rewrite decide_False, decide_True by naive_solver. destruct (gnn_mode a); lia.
    + rewrite !decide_False by naive_solver. destruct (gnn_mode a); lia.
  - intros ty e' Hne. rewrite edge_awaiting, !decide_False by (done || naive_solver). destruct (gnn_mode a); lia.
  - right. unfold graph_left. rewrite A, A', G1, G2, G3, G4. destruct (gnn_mode a); lia.
Qed.

(** What a reply does to the flags. *)
Lemma receive_over e t g g' :
  0 <= e < n -> receive env e t g = Ok g' ->
  (v_reci_over g' = true -> v_reci_over g = true \/ got_rows e g' = nbf * row_count e) /\
  (e_reci_over g' = true -> e_reci_over g = true \/ got_cols e g' = nbf * col_count e) /\
  (val_reci_over g' = true -> val_reci_over g = true \/ got_vals e g' = nbf * col_count e) /\
  reci_over g' = (v_reci_over g' && e_reci_over g' && val_reci_over g') || reci_over g.
Proof.
  intros He Hr. unfold receive in Hr. rewrite (vget_rows env md R X W e He), (vget_cols env md R X W e He) in Hr.
  cbn [mbind outcome_bind] in Hr. injection Hr as Hr.
  assert (Hgot : forall size c, c = nbf -> got size size c = nbf * cdiv size CACHE_LINE_COUNT).
  { intros size c ->. unfold got. rewrite decide_True by done. lia. }
  assert (Hset : forall g1 g2 : GraphReader,
    (if v_reci_over g1 && e_reci_over g1 && val_reci_over g1 then g1 <| reci_over := true |> else g1) = g2 ->
    reci_over g1 = reci_over g ->
    v_reci_over g2 = v_reci_over g1 /\ e_reci_over g2 = e_reci_over g1 /\ val_reci_over g2 = val_reci_over g1 /\
    got_rows e g2 = got_rows e g1 /\ got_cols e g2 = got_cols e g1 /\ got_vals e g2 = got_vals e g1 /\
    reci_over g2 = (v_reci_over g1 && e_reci_over g1 && val_reci_over g1) || reci_over g).
  { intros g1 g2 <- E. destruct (v_reci_over g1 && e_reci_over g1 && val_reci_over g1); split_and!; try done. }
  rewrite vsize_offsets in Hr. change (vsize (concat (R e))) with (edges (R e)) in Hr.
  destruct t.
  - destruct (advance _ _ _ _) as [[x o] c]. destruct (Hset _ _ Hr eq_refl) as (S1 & S2 & S3 & S4 & S5 & S6 & S7). rewrite S7, S1, S2, S3, S4, S5, S6. simpl.
    split_and!; [|by left..|done]. intros [?|[Hc%bool_decide_eq_true Hx%bool_decide_eq_true]%andb_true_iff]%orb_true_iff; [by left|].
    right. unfold got_rows. simpl. rewrite Hx. by apply Hgot.
  - destruct (advance _ _ _ _) as [[x o] c]. destruct (Hset _ _ Hr eq_refl) as (S1 & S2 & S3 & S4 & S5 & S6 & S7). rewrite S7, S1, S2, S3, S4, S5, S6. simpl.
    split_and!; [by left| |by left|done]. intros [?|[Hc%bool_decide_eq_true Hx%bool_decide_eq_true]%andb_true_iff]%orb_true_iff; [by left|].
    right. unfold got_cols. simpl. rewrite Hx. by apply Hgot.
  - destruct (advance _ _ _ _) as [[x o] c]. destruct (Hset _ _ Hr eq_refl) as (S1 & S2 & S3 & S4 & S5 & S6 & S7). rewrite S7, S1, S2, S3, S4, S5, S6. simpl.
    split_and!; [by left..| |done]. intros [?|[Hc%bool_decide_eq_true Hx%bool_decide_eq_true]%andb_true_iff]%orb_true_iff; [by left|].
    right. unfold got_vals. simpl. rewrite Hx. by apply Hgot.
  - destruct (Hset g _ Hr eq_refl) as (S1 & S2 & S3 & S4 & S5 & S6 & S7). rewrite S7, S1, S2, S3, S4, S5, S6.
    split_and!; try done; by left.
Qed.

(** Without a reply nothing changes. *)
Lemma receive_empty e g :
  0 <= e < n -> reci_over g = false -> reci_over g = v_reci_over g && e_reci_over g && val_reci_over g ->
  receive env e Common.Empty g = Ok g.
Proof.
  intros He Ho E. unfold receive. rewrite (vget_rows env md R X W e He), (vget_cols env md R X W e He).
  cbn [mbind outcome_bind]. by rewrite <- E, Ho.
Qed.

Lemma receive_linked e m g m' g' :
  0 <= e < n -> reader_ok env R X e g -> linked e m g -> reci_over g = false -> vsize (rq m) = n ->
  GraphReceive env e m g = Ok (m', g') ->
  linked e m' g' /\ others e m m' /\ ((m' = m /\ g' = g /\ rq_of m e = []) \/ graph_left e g' < graph_left e g).
Proof.
  intros He Hg Hl Ho Hn Hr. unfold GraphReceive, GetGraph in Hr.
  destruct (vget_total (rq m) e) as (q & Eq); [by rewrite Hn|]. rewrite Eq in Hr. cbn [mbind outcome_bind] in Hr.
  destruct q as [|t q]; cbn [mbind outcome_bind] in Hr.
  { rewrite (receive_empty e g He Ho (lk_over _ _ _ Hl)) in Hr. cbn [mbind outcome_bind] in Hr. injection Hr as <- <-.
    split; [done|]. split; [done|]. left. split_and!; try done. unfold rq_of. by rewrite Eq. }
  apply bind_ok in Hr as ([t' m1] & Hs & Hr). apply bind_ok in Hs as (rqs & Hs & E). injection E as <- <-.
  apply bind_ok in Hr as (g1 & Hrec & Hr). injection Hr as <- <-.
  destruct (awaiting_pop env e t q m rqs Eq Hs) as [Hpop Hoth].
  destruct (reader_counts e g He Hg) as [(rp & I) Q].
  destruct (receive_inv env e (R e) (wp_edges _ _ _ _ W e He) (vget_rows env md R X W e He) (vget_cols env md R X W e He)
    _ _ _ _ _ t I) as (g2 & Hrec' & Hp & Hpo & I'). rewrite Hrec in Hrec'. injection Hrec' as <-.
  destruct (inv_got e _ _ _ _ _ He I') as (G1 & G2 & G3).
  destruct (req_asked e _ _ _ He (same_requests_inv env (X e) _ _ _ _ _ _ (receive_requests env e _ _ _ Hrec) Q)) as [A1 A2].
  destruct (receive_over e t g g1 He Hrec) as (O1 & O2 & O3 & O4).
  assert (Hpos : 1 <= awaiting env t e m).
  { pose proof (Hpop t) as E. rewrite decide_True in E by done.
    pose proof (awaiting_nonneg env t e (m <| rq := rqs |>)). lia. }
  destruct Hl as [K1 K2 K3 K4 K5 K6 K7 K8 K9].
  assert (Hne : t <> Common.Empty) by (intros ->; lia).
  assert (Hb : forall ty, 0 <= if decide (t = ty) then 1 else 0) by (intros ty; destruct (decide (t = ty)); lia).
  pose proof (Hb Common.Row) as B1. pose proof (Hb Common.Column) as B2. pose proof (Hb Common.Value) as B3.
  split; [|split; [exact (fun ty e' => Hoth ty e')|]].
  - split; rewrite ?Hpop, ?A1, ?A2, ?G1, ?G2, ?Hp, ?Hpo; try done.
    + repeat case_decide; try congruence; lia.
    + repeat case_decide; try congruence; lia.
    + revert K3 G3. case_eq (gnn_mode a); intros Hm K3 G3; [rewrite (G3 eq_refl)|]; repeat case_decide; subst; try congruence; lia.
    + rewrite decide_False by done. lia.
    + intros Hf. destruct (O1 Hf) as [Hf'|E]; [specialize (K5 Hf'); lia|lia].
    + intros Hf. destruct (O2 Hf) as [Hf'|E]; [specialize (K6 Hf'); lia|lia].
    + intros Hm Hf. rewrite (G3 Hm). specialize (G3 Hm). destruct (O3 Hf) as [Hf'|E]; [specialize (K7 Hm Hf'); lia|lia].
    + rewrite O4, Ho. by rewrite orb_false_r.
  - right. unfold graph_left. rewrite A1, A2, G1, G2, Hp. revert K3 G3. case_eq (gnn_mode a); intros Hm K3 G3.
    + rewrite (G3 eq_refl). destruct t; repeat case_decide; try congruence; lia.
    + destruct t; repeat case_decide; try congruence; lia.
Qed.

(** Why the reader's requests and replies come to nothing. *)
Definition graph_blocked (e : Z) (m : Memory D) (g : GraphReader) : Prop :=
  (v_req_over g = true \/ WillAcceptTransaction m = false) /\
  (e_req_over g = true \/ WillAcceptTransaction m = false) /\
  (reci_over g = true \/ rq_of m e = []).

Lemma graph_work_linked e m g m' g' c Rq :
  0 <= e < n -> reader_ok env R X e g -> linked e m g -> shared_ok env c Rq m -> vsize (rq m) = n ->
  graph_work env e m g = Ok (m', g') ->
  linked e m' g' /\ others e m m' /\
  ((m' = m /\ g' = g /\ graph_blocked e m g) \/ graph_left e g' < graph_left e g).
Proof.
  intros He Hg Hl Hs Hn Hr. unfold graph_work in Hr.
  apply bind_ok in Hr as ([m1 g1] & H1 & Hr). apply bind_ok in Hr as ([m2 g2] & H2 & Hr).
  assert (S1 : linked e m1 g1 /\ others e m m1 /\ reader_ok env R X e g1 /\ shared_ok env c Rq m1 /\ vsize (rq m1) = n /\
    ((m1 = m /\ g1 = g /\ (v_req_over g = true \/ WillAcceptTransaction m = false)) \/ graph_left e g1 < graph_left e g)).
  { destruct (v_req_over g) eqn:Ho; [injection H1 as <- <-; split_and!; try done; left; by split_and!; [..|left]|].
    destruct (vertex_linked e m g m1 g1 He Hg Hl Ho H1) as (K1 & K2 & K3).
    destruct (vertex_ok env md R X W e m g m1 g1 c Rq He Hg Ho Hs H1) as (K4 & K5 & _). split_and!; try done.
    - unfold VertexRequest in H1. destruct (WillAcceptTransaction m); [|by injection H1 as <- <-].
      apply bind_ok in H1 as (d & _ & H1). repeat case_decide; by injection H1 as <- <-.
    - destruct K3 as [(-> & -> & ?)|?]; [left|by right]. by split_and!; [..|right]. }
  destruct S1 as (Hl1 & Ho1 & Hg1 & Hs1 & Hn1 & C1).
  assert (S2 : linked e m2 g2 /\ others e m1 m2 /\ reader_ok env R X e g2 /\ vsize (rq m2) = n /\
    ((m2 = m1 /\ g2 = g1 /\ (e_req_over g1 = true \/ WillAcceptTransaction m1 = false)) \/ graph_left e g2 < graph_left e g1)).
  { destruct (e_req_over g1) eqn:Ho; [injection H2 as <- <-; split_and!; try done; left; by split_and!; [..|left]|].
    destruct (edge_linked e m1 g1 m2 g2 He Hg1 Hl1 Ho H2) as (K1 & K2 & K3).
    destruct (edge_ok_step env md R X W e m1 g1 m2 g2 c Rq He Hg1 Ho Hs1 H2) as (_ & K5 & _). split_and!; try done.
    - unfold EdgeRequest in H2. destruct (WillAcceptTransaction m1); [|by injection H2 as <- <-].
      apply bind_ok in H2 as (d & _ & H2). destruct (gnn_mode _); repeat case_decide; by injection H2 as <- <-.
    - destruct K3 as [(-> & -> & ?)|?]; [left|by right]. by split_and!; [..|right]. }
  destruct S2 as (Hl2 & Ho2 & Hg2 & Hn2 & C2).
  assert (S3 : linked e m' g' /\ others e m2 m' /\
    ((m' = m2 /\ g' = g2 /\ (reci_over g2 = true \/ rq_of m2 e = [])) \/ graph_left e g' < graph_left e g2)).
  { destruct (reci_over g2) eqn:Ho; [injection Hr as <- <-; split_and!; try done; left; by split_and!; [..|left]|].
    destruct (receive_linked e m2 g2 m' g' He Hg2 Hl2 Ho Hn2 Hr) as (K1 & K2 & K3). split_and!; try done.
    destruct K3 as [(-> & -> & ?)|?]; [left|by right]. by split_and!; [..|right]. }
  destruct S3 as (Hl3 & Ho3 & C3). split; [done|]. split.
  { intros ty e' Hne. rewrite (Ho3 ty e' Hne), (Ho2 ty e' Hne). by apply Ho1. }
  destruct C1 as [(-> & -> & B1)|?], C2 as [(-> & -> & B2)|?], C3 as [(-> & -> & B3)|?]; try (right; lia).
  left. by split_and!.
Qed.

(** *** Passing edges and features on does not disturb the link *)
Lemma pass_edge_linked e m g r g' r' :
  0 <= e < n -> reader_ok env R X e g -> linked e m g -> pass_edge env e g r = Ok (g', r') ->
  linked e m g' /\ graph_left e g' = graph_left e g - (passed (R e) g' - passed (R e) g).
Proof.
  intros He Hg Hl Hr. unfold pass_edge in Hr. destruct (pass_over g) eqn:Hpo; [injection Hr as <- <-; split; [done|lia]|].
  apply bind_ok in Hr as ([ei g1] & Hn & Hr).
  assert (g' = g1) as -> by (destruct (decide _); [by injection Hr as <- <-|apply bind_ok in Hr as (r1 & _ & Hr); by injection Hr as <- <-]).
  clear Hr. destruct (reader_counts e g He Hg) as [(rp & I) Q].
  destruct (next_feature_inv env e (R e) (wp_bf _ _ _ _ W) (wp_edges _ _ _ _ W e He) (vget_rows env md R X W e He)
    (vget_cols env md R X W e He) _ _ _ _ _ I) as (ei1 & g2 & rp' & Hn' & I' & Hcase).
  rewrite Hn' in Hn. injection Hn as <- <-.
  destruct (inv_got e _ _ _ _ _ He I') as (G1 & G2 & G3). destruct (NextFeature_receive env e _ _ _ Hn') as (F1 & F2 & F3 & F4).
  destruct (req_asked e _ _ _ He (same_requests_inv env (X e) _ _ _ _ _ _ (NextFeature_requests env e _ _ _ Hn') Q)) as [A1 A2].
  destruct Hl as [K1 K2 K3 K4 K5 K6 K7 K8 K9]. split.
  - split; rewrite ?A1, ?A2, ?G1, ?G2, ?F1, ?F2, ?F3, ?F4; try done.
    + revert K3 G3. case_eq (gnn_mode a); intros Hm K3 G3; [by rewrite (G3 eq_refl)|done].
    + intros Hm. rewrite (G3 Hm). by apply K7.
    + destruct Hcase as [(Hp & _ & Hp' & _)|(_ & Hp & _)]; [by rewrite Hp'|]. rewrite Hp, Hpo. done.
  - unfold graph_left. rewrite A1, A2, G1, G2. revert G3. case_eq (gnn_mode a); intros Hm G3; [rewrite (G3 eq_refl)|]; lia.
Qed.

Lemma fs_ext_awaiting s s' S P L ty e :
  fs_ext s s' -> state_ok env md s' S P L -> awaiting env ty e (s_mem s') = awaiting env ty e (s_mem s).
Proof.
  intros (_ & E1 & E2 & _ & l & E3 & F) (Rq & ct & ps & Es & Hsh & _). apply (awaiting_ext env ty e _ _ l E3 E2 E1).
  eapply Forall_impl; [exact F|]. intros [x w] [Hw Ht]. simpl in Hw, Ht. subst w. apply feature_owner.
  rewrite Es in Ht. simpl in Ht. by destruct (sh_lines _ _ _ _ Hsh _ Ht) as [[Hx _] _].
Qed.

Lemma write_awaiting s (m : Memory D) s' m' ty e : Write s m = (s', m') -> awaiting env ty e m' = awaiting env ty e m.
Proof.
  unfold Write. destruct (wq s); [by intros [= <- <-]|]. destruct (WillAcceptTransaction m); intros [= <- <-]; [|done].
  rewrite awaiting_add, write_owner, decide_False by done. lia.
Qed.

Lemma trace_linked i fs g s S P L fs' g' s' S' P' L' c Rq :
  0 <= i < n -> reader_ok env R X i g -> linked i (s_mem fs) g -> shared_ok env c Rq (s_mem fs) -> vsize (rq (s_mem fs)) = n ->
  engine_trace env md R X i fs g s S P L fs' g' s' S' P' L' ->
  linked i (s_mem fs') g' /\ others i (s_mem fs) (s_mem fs').
Proof.
  intros Hi Hg Hl Hs Hn [m1 g1 r P1 fs2 L2 res fs3 Hgw Hg1 Hpe _ Hrn _ Hst2 Hps _ _ Hst3 Hw _ _].
  destruct (graph_work_linked i _ _ _ _ c Rq Hi Hg Hl Hs Hn Hgw) as (Hl1 & Ho1 & _).
  destruct (pass_edge_linked i _ _ _ _ _ Hi Hg1 Hl1 Hpe) as [Hl2 _].
  assert (E : forall ty e, awaiting env ty e (s_mem fs') = awaiting env ty e m1).
  { intros ty e. rewrite (write_awaiting _ _ _ _ ty e Hw), (fs_ext_awaiting _ _ _ _ _ ty e (pass_ext env i _ _ _ Hps) Hst3).
    by rewrite (fs_ext_awaiting _ _ _ _ _ ty e (read_next_ext env i _ _ Hrn) Hst2). }
  split; [by apply (linked_frame i m1)|]. intros ty e Hne. rewrite E. by apply Ho1.
Qed.
End waiting.
