(* ===== verification/Liveness.v ===== *)
(** * The simulation ends (src/controller.cc)

    Over a memory that serves what it holds ([DramLive]) every cycle of the
    inference lowers a lexicographic measure, so the [while] loop of
    [GCNInference] returns.  The measure has the work of the engines (graph
    lines to ask for, to receive and edges to pass on; edges, feature lines,
    queue entries and output lines still to move), then, for a cycle in which no
    engine moves: the feature lines in flight that no engine is waiting for,
    whether some engine's next line is in the cache, how many of them are not
    even requested, and the lengths and the lag on the memory side. *)

From stdpp Require Import base tactics list list_numbers numbers strings gmap.
From Stdlib Require Import ZArith Lia.
From S2P Require Import Prelude Common Float32 Csr Layout DramInterface IdealDram Memory Cache GraphDistribution.
From S2P Require Import GraphReader FeatureReader Simd Accelerator Inference Waiting.

Section live.
Context {D : Type} `{DramLaws D} (env : Env) (md : F_MODE) (R : Z -> list (list Z)) (X : Z -> DataIndex).
Hypothesis W : well_prepared env md R X.
Hypothesis Hmd : sliced md.
Let a : ArchInfo := arch_info env.
Let n : Z := n_of_engine a.

(** ** The work of the engines *)

(** The lines left of the edge being read, at most. *)
Definition cur_left (st : FR_STAT) : Z :=
  if pq_read_need st then 0 else total_urb (data_info env) - f_cur_col_idx st.

Definition engine_work (e : Z) (g : GraphReader) (s : SIMD) (st : FR_STAT) (p : list EdgeInfo) (l : list (Z * bool)) : list Z :=
  [graph_left env R X e g; vsize p; cur_left st; vsize l; vsize (wq s)].

Definition work (G : Z -> GraphReader) (I : Z -> SIMD) (S : Z -> FR_STAT) (P : Z -> list EdgeInfo)
    (L : Z -> list (Z * bool)) (writes : Z) : list Z :=
  [psum (fun e => graph_left env R X e (G e)) n + writes; psum (fun e => vsize (P e)) n;
   psum (fun e => cur_left (S e)) n; psum (fun e => vsize (L e)) n; psum (fun e => vsize (wq (I e))) n].

Lemma cur_left_pos st : cur_ok env md st -> pq_read_need st = false -> 0 < cur_left st.
Proof.
  intros (r & Hr & Hc & Hm) Hn. unfold cur_left. rewrite Hn.
  destruct Hmd as [E|E]; rewrite E in Hm; destruct Hm as (Hs & H0' & v & Hv & _);
    apply vget_ok in Hv as [_ Hv%lookup_lt_Some]; unfold vsize in Hs; lia.
Qed.

Lemma cur_left_nonneg st p l : engine_ok env md st p l -> 0 <= cur_left st.
Proof.
  intros He. destruct (pq_read_need st) eqn:Hn; [unfold cur_left; by rewrite Hn|].
  pose proof (cur_left_pos st (eo_cur _ _ _ _ _ He Hn) Hn). lia.
Qed.

(** ** Why an engine does not move *)
Definition head_of (l : list (Z * bool)) : option Z := fst <$> head l.

Record engine_blocked (e : Z) (m : Memory D) (g : GraphReader) (s : SIMD) (st : FR_STAT) (p : list EdgeInfo)
    (l : list (Z * bool)) : Prop := {
  eb_graph : graph_blocked e m g;
  eb_edges : pass_over g = true \/ forall kr kc kv rp, gr_inv env (R e) kr kc kv rp g ->
    all_arrived env (R e) kr kc kv -> passed (R e) g = bf a * edges (R e);
  eb_read : read_blocked m st p l;
  eb_write : wq s = [] \/ WillAcceptTransaction m = false
}.

(** What a step of an engine that does not move leaves: its next line is missing
    and on its way. *)
Definition head_missing (l : list (Z * bool)) (fs fs' : FS D) : Prop :=
  match head_of l with
  | None => fs' = fs
  | Some v => v <> 1 /\ ~ cached a (s_cah fs) v /\ (forall y, cached a (s_cah fs') y <-> cached a (s_cah fs) y) /\
      requested (s_fr fs') = {[ v ]} ∪ requested (s_fr fs) /\
      s_mem fs' = (if decide (v ∈ requested (s_fr fs)) then s_mem fs
                   else AddTransaction (mkTransaction v READ) (s_mem fs))
  end.

Lemma accept_mono (m m' : Memory D) : vsize (tq m) <= vsize (tq m') ->
  WillAcceptTransaction m = false -> WillAcceptTransaction m' = false.
Proof. unfold WillAcceptTransaction. rewrite !Z.ltb_ge. lia. Qed.

Lemma head_missing_tq l fs fs' : head_missing l fs fs' ->
  vsize (tq (s_mem fs)) <= vsize (tq (s_mem fs')) /\ rq (s_mem fs') = rq (s_mem fs) /\
  mem (s_mem fs') = mem (s_mem fs) /\ fq (s_mem fs') = fq (s_mem fs) /\ total_write (s_mem fs') = total_write (s_mem fs) /\
  (forall y, cached a (s_cah fs') y <-> cached a (s_cah fs) y) /\ requested (s_fr fs) ⊆ requested (s_fr fs').
Proof.
  unfold head_missing. destruct (head_of l) as [v|]; [|by intros ->].
  intros (_ & _ & Hc & Hq & ->). rewrite Hq. destruct (decide _); split_and!; try done; try set_solver.
  simpl. rewrite vsize_app. unfold vsize. simpl. lia.
Qed.

Lemma waits_mono e (m m' : Memory D) g st p l :
  vsize (tq m) <= vsize (tq m') -> rq m' = rq m ->
  (graph_blocked e m g -> graph_blocked e m' g) /\ (read_blocked m st p l -> read_blocked m' st p l).
Proof.
  intros Ht Hq. pose proof (accept_mono m m' Ht) as Ha. unfold graph_blocked, read_blocked, rq_of. rewrite Hq. tauto.
Qed.

Lemma blocked_mono e m m' g s st p l :
  vsize (tq m) <= vsize (tq m') -> rq m' = rq m -> engine_blocked e m g s st p l -> engine_blocked e m' g s st p l.
Proof.
  intros Ht Hq [B1 B2 B3 B4]. destruct (waits_mono e m m' g st p l Ht Hq) as [M1 M2].
  split; [auto|done|auto|]. destruct B4; [by left|]. right. by apply (accept_mono m).
Qed.

(** ** An engine step makes progress or is blocked *)
Lemma trace_progress i fs g s S P L fs' g' s' S' P' L' c Rq :
  0 <= i < n -> reader_ok env R X i g -> reader_ok env R X i g' -> linked env R X i (s_mem fs) g ->
  shared_ok env c Rq (s_mem fs) -> vsize (rq (s_mem fs)) = n -> engine_ok env md (S i) (P i) (L i) -> engine_ok env md (S' i) (P' i) (L' i) ->
  engine_trace env md R X i fs g s S P L fs' g' s' S' P' L' ->
  lexlt (engine_work i g' s' (S' i) (P' i) (L' i)) (engine_work i g s (S i) (P i) (L i)) \/
  (graph_left env R X i g' = graph_left env R X i g /\ s' = s /\ S' = S /\ P' = P /\ L' = L /\
   engine_blocked i (s_mem fs') g s (S i) (P i) (L i) /\ head_missing (L i) fs fs').
Proof.
  intros Hi Hg Hg' Hl Hs Hn Heng Heng' Htr. destruct (trace_linked env md R X W i _ _ _ _ _ _ _ _ _ _ _ _ c Rq Hi Hg Hl Hs Hn Htr) as [Hl' _].
  destruct (graph_left_nonneg env md R X W i _ _ Hi Hg' Hl') as (_ & _ & _ & Hnn).
  destruct Htr as [m1 g1 r P1 fs2 L2 res fs3 Hgw Hg1 Hpe Hec _ Hrc _ _ Hpo Hon _ Hw Hca Hfr].
  destruct (graph_work_linked env md R X W i _ _ _ _ c Rq Hi Hg Hl Hs Hn Hgw) as (Hl1 & _ & C1).
  destruct (pass_edge_linked env md R X W i _ _ _ _ _ Hi Hg1 Hl1 Hpe) as [_ Hgl].
  unfold engine_work. cbn [lexlt length].
  destruct C1 as [(-> & -> & Hgb)|C1].
  2: { left. left. split; [|done]. destruct Hec as [(_ & _ & E & _)|(ei & _ & E)]; lia. }
  destruct Hec as [(-> & -> & E & Heb)|(ei & _ & E)]; [|left; left; split; [lia|done]].
  assert (Hgl0 : graph_left env R X i g' = graph_left env R X i g) by lia. clear Hgl E.
  replace (mkFS (s_mem fs) (s_cah fs) (s_fr fs)) with fs in Hrc by (by destruct fs).
  destruct Hrc as [(-> & -> & -> & -> & Hrb)|(st1 & p1 & st' & l' & Hne & (Hcur & Hone & _) & -> & -> & ->)].
  2: { left. right. split; [done|]. rewrite !upd_eq in *. destruct Hone as [[_ Hn']|[_ Hone]]; [done|].
       unfold next_edge in Hne. destruct (pq_read_need (S i)) eqn:Hpn.
       - destruct (P i) as [|ei p]; [done|]. injection Hne as <- <-. left. split; [|done]. unfold vsize. simpl. lia.
       - injection Hne as <- <-. right. split; [done|]. left. split; [|done].
         pose proof (cur_left_nonneg _ _ _ Heng'). pose proof (cur_left_pos _ (eo_cur _ _ _ _ _ Heng Hpn) Hpn) as Hpos.
         split; [done|]. destruct (pq_read_need st') eqn:Hpn'; [unfold cur_left at 1; by rewrite Hpn'|].
         destruct Hone as [?|Hone]; [done|]. unfold cur_left. rewrite Hpn, Hpn'. lia. }
  destruct Hon as [[-> ->]|(Hres & t & l & EL & ->)].
  2: { left. right. split; [done|]. right. split; [done|]. right. split; [done|]. left. split; [|done].
       rewrite upd_eq, EL. unfold vsize. simpl. lia. }
  assert (Hm : head_missing (L i) fs fs3).
  { unfold head_missing, head_of. remember (-1) as res eqn:Er. destruct Hpo as [EL|v b l s3 EL _|v b l s3 EL _ V1 V2 V3 V4 V5].
    - by rewrite EL.
    - by destruct b.
    - rewrite EL. simpl. by split_and!. }
  rewrite (get_feature_other env) in Hw by done. unfold Write in Hw.
  assert (Hfs : s' = s -> s_mem fs' = s_mem fs3 -> (wq s = [] \/ WillAcceptTransaction (s_mem fs3) = false) ->
    graph_left env R X i g' = graph_left env R X i g /\ s' = s /\ S = S /\ P = P /\ L = L /\
    engine_blocked i (s_mem fs') g s (S i) (P i) (L i) /\ head_missing (L i) fs fs').
  { intros -> E Hwb. assert (fs' = fs3) as -> by (destruct fs', fs3; simpl in *; congruence). split_and!; try done.
    destruct (head_missing_tq _ _ _ Hm) as (T1 & T2 & _).
    destruct (waits_mono i (s_mem fs) (s_mem fs3) g (S i) (P i) (L i) T1 T2) as [M1 M2]. split; auto. }
  destruct (wq s) as [|x q] eqn:Hq.
  - injection Hw as E1 E2. right. apply Hfs; [done|done|by left].
  - destruct (WillAcceptTransaction (s_mem fs3)) eqn:Hacc; injection Hw as E1 E2.
    + left. do 4 (right; split; [done|]). left. split; [|done]. rewrite <- E1. simpl. unfold vsize. simpl. lia.
    + right. apply Hfs; [done|done|by right].
Qed.

(** ** All engines *)
Definition live_at (c : Controller D) G I S P L : Prop :=
  acc_at env md R X c G I S P L /\ (forall e, 0 <= e < n -> linked env R X e (s_mem (c_fs c)) (G e)).

Lemma live_work c G I S P L :
  live_at c G I S P L -> Forall (fun x => 0 <= x) (work G I S P L (total_write (s_mem (c_fs c)))).
Proof.
  intros [(_ & _ & (Rq & ct & ps & _ & _ & Hst) & He & (k & _ & _ & Ht)) Hl]. unfold work. pose proof (wp_n _ _ _ _ W) as Hn.
  assert (Hps : forall f, (forall e, 0 <= e < n -> 0 <= f e) -> 0 <= psum f n).
  { intros f Hf. rewrite <- (psum_zero n). by apply psum_le. }
  rewrite !Forall_cons. split_and!; [| | | | |by apply Forall_nil].
  - assert (0 <= psum (fun e => graph_left env R X e (G e)) n); [|rewrite Ht; pose proof (u64_range (outputs env R - k)); lia].
    apply Hps. intros e Hre. by destruct (graph_left_nonneg env md R X W e _ _ Hre (proj1 (He e Hre)) (Hl e Hre)) as (_ & _ & _ & ?).
  - apply Hps. intros. apply vsize_nonneg.
  - apply Hps. intros e Hre. exact (cur_left_nonneg _ _ _ (Hst e Hre)).
  - apply Hps. intros. apply vsize_nonneg.
  - apply Hps. intros. apply vsize_nonneg.
Qed.

Lemma trace_local i fs g s S P L fs' g' s' S' P' L' :
  engine_trace env md R X i fs g s S P L fs' g' s' S' P' L' ->
  forall e, e <> i -> S' e = S e /\ P' e = P e /\ L' e = L e.
Proof.
  intros [m1 g1 r P1 fs2 L2 res fs3 _ _ _ Hec _ Hrc _ _ _ Hon _ _ _ _] e Hne.
  assert (E1 : P1 e = P e) by (destruct Hec as [(-> & _)|(ei & -> & _)]; [done|by rewrite upd_ne]).
  assert (E2 : S' e = S e /\ P' e = P1 e /\ L2 e = L e).
  { destruct Hrc as [(_ & -> & -> & -> & _)|(st1 & p1 & st' & l' & _ & _ & -> & -> & ->)]; [done|]. by rewrite !upd_ne. }
  destruct E2 as (E2 & E3 & E4). split; [done|]. split; [congruence|]. rewrite <- E4.
  destruct Hon as [[_ ->]|(_ & t & l & _ & ->)]; [done|by rewrite upd_ne].
Qed.

Lemma trace_writes i fs g s S P L fs' g' s' S' P' L' c Rq :
  0 <= i < n -> reader_ok env R X i g -> shared_ok env c Rq (s_mem fs) ->
  engine_trace env md R X i fs g s S P L fs' g' s' S' P' L' -> total_write (s_mem fs') = total_write (s_mem fs).
Proof.
  intros Hi Hg Hs [m1 g1 r P1 fs2 L2 res fs3 Hgw _ _ _ Hrn _ _ Hps _ _ _ Hw _ _].
  destruct (graph_work_ok env md R X W i _ _ _ _ _ _ Hi Hg Hs Hgw) as (_ & _ & _ & (_ & T1 & _)).
  destruct (fs_ext_reads _ _ (read_next_ext env i _ _ Hrn)) as (_ & T2 & _).
  destruct (fs_ext_reads _ _ (pass_ext env i _ _ _ Hps)) as (_ & T3 & _).
  assert (T4 : total_write (s_mem fs') = total_write (s_mem fs3)).
  { unfold Write in Hw. destruct (wq _); [by injection Hw as _ <-|]. destruct (WillAcceptTransaction _); by injection Hw as _ <-. }
  simpl in *. congruence.
Qed.

Lemma work_step i (c c' : Controller D) G I S P L g' s' S' P' L' :
  0 <= i < n -> live_at c' (upd G i g') (upd I i s') S' P' L' ->
  (forall e, e <> i -> S' e = S e /\ P' e = P e /\ L' e = L e) ->
  total_write (s_mem (c_fs c')) = total_write (s_mem (c_fs c)) ->
  lexlt (engine_work i g' s' (S' i) (P' i) (L' i)) (engine_work i (G i) (I i) (S i) (P i) (L i)) ->
  lexlt (work (upd G i g') (upd I i s') S' P' L' (total_write (s_mem (c_fs c'))))
        (work G I S P L (total_write (s_mem (c_fs c)))).
Proof.
  intros Hi Hc Hloc Ht Hlt. pose proof (live_work _ _ _ _ _ _ Hc) as Hnn. rewrite Ht in *. unfold work, engine_work in *.
  assert (Hsum : forall f f' : Z -> Z, (forall e, e <> i -> f' e = f e) -> psum f' n = psum f n - f i + f' i)
    by (intros f f' Hf; apply psum_local; auto).
  rewrite (Hsum (fun e => graph_left env R X e (G e)) (fun e => graph_left env R X e (upd G i g' e))) in *
    by (intros e He; by rewrite upd_ne).
  rewrite (Hsum (fun e => vsize (P e)) (fun e => vsize (P' e))) in * by (intros e He; by destruct (Hloc e He) as (_ & -> & _)).
  rewrite (Hsum (fun e => cur_left (S e)) (fun e => cur_left (S' e))) in * by (intros e He; by destruct (Hloc e He) as (-> & _)).
  rewrite (Hsum (fun e => vsize (L e)) (fun e => vsize (L' e))) in * by (intros e He; by destruct (Hloc e He) as (_ & _ & ->)).
  rewrite (Hsum (fun e => vsize (wq (I e))) (fun e => vsize (wq (upd I i s' e)))) in * by (intros e He; by rewrite upd_ne).
  cbv beta in Hnn |- *. rewrite !upd_eq in Hnn |- *.
  apply Forall_cons in Hnn as [N1 Hnn]. apply Forall_cons in Hnn as [N2 Hnn]. apply Forall_cons in Hnn as [N3 Hnn].
  apply Forall_cons in Hnn as [N4 Hnn]. apply Forall_cons in Hnn as [N5 _].
  cbn [lexlt length] in Hlt |- *. lia.
Qed.

(** ** A cycle in which no engine moves *)

(** The lines the engines are waiting for, and the feature reads in flight that
    are none of them. *)
Definition heads (L : Z -> list (Z * bool)) : list Z := concat (tab n (fun e => option_list (head_of (L e)))).
Definition stray (m : Memory D) (L : Z -> list (Z * bool)) : Z := vsize (filter (fun x => x ∉ heads L) (flight env m)).

Lemma elem_of_heads L x : x ∈ heads L <-> exists e, 0 <= e < n /\ head_of (L e) = Some x.
Proof.
  unfold heads. rewrite list_elem_of_In, in_concat. split.
  - intros (l & Hl & Hx). apply list_elem_of_In, list_elem_of_lookup_1 in Hl as (i & Hi).
    pose proof (lookup_lt_Some _ _ _ Hi) as Hlt. rewrite tab_length in Hlt. rewrite tab_lookup in Hi by lia. injection Hi as <-.
    exists (Z.of_nat i). split; [lia|]. destruct (head_of _); [|done]. simpl in Hx. destruct Hx as [->|[]]. done.
  - intros (e & He & Hx). exists [x]. split; [|by left]. apply list_elem_of_In, (list_elem_of_lookup_2 _ (Z.to_nat e)).
    rewrite tab_lookup, Z2Nat.id, Hx by lia. done.
Qed.

Lemma stray_perm m m' L : flight env m' ≡ₚ flight env m -> stray m' L = stray m L.
Proof. intros Hp. unfold stray, vsize. by rewrite Hp. Qed.

(** The engines up to [k] have not moved: only missing heads have been asked for. *)
Record stalled (k : Z) (G : Z -> GraphReader) (I : Z -> SIMD) (S : Z -> FR_STAT) (P : Z -> list EdgeInfo)
    (L : Z -> list (Z * bool)) (fs0 fs : FS D) : Prop := {
  sl_mem : mem (s_mem fs) = mem (s_mem fs0);
  sl_rq : rq (s_mem fs) = rq (s_mem fs0);
  sl_fq : fq (s_mem fs) = fq (s_mem fs0);
  sl_tq : (forall v, v ∈ heads L -> v ∈ requested (s_fr fs0)) -> tq (s_mem fs) = tq (s_mem fs0);
  sl_cached : forall y, cached a (s_cah fs) y <-> cached a (s_cah fs0) y;
  sl_req : requested (s_fr fs0) ⊆ requested (s_fr fs);
  sl_stray : stray (s_mem fs) L = stray (s_mem fs0) L;
  sl_blocked : forall e, 0 <= e < k -> engine_blocked e (s_mem fs) (G e) (I e) (S e) (P e) (L e);
  sl_heads : forall e v, 0 <= e < k -> head_of (L e) = Some v ->
    v <> 1 /\ ~ cached a (s_cah fs0) v /\ v ∈ requested (s_fr fs)
}.

Lemma stalled_0 G I S P L fs : stalled 0 G I S P L fs fs.
Proof. split; try done; lia. Qed.

Lemma stalled_next k G I S P L fs0 fs fs' :
  0 <= k < n -> (forall v, head_of (L k) = Some v -> line_ok env v \/ v = 1) -> stalled k G I S P L fs0 fs ->
  engine_blocked k (s_mem fs') (G k) (I k) (S k) (P k) (L k) -> head_missing (L k) fs fs' ->
  stalled (k + 1) G I S P L fs0 fs'.
Proof.
  intros Hk Hline [M1 M2 M3 M4 M5 M6 M7 M8 M9] Hb Hm.
  destruct (head_missing_tq _ _ _ Hm) as (T1 & T2 & T3 & T4 & _ & T6 & T7).
  split; try congruence.
  - intros Hall. rewrite <- (M4 Hall). unfold head_missing in Hm. destruct (head_of (L k)) as [v|] eqn:Hv; [|by rewrite Hm].
    destruct Hm as (_ & _ & _ & _ & ->). rewrite decide_True; [done|]. apply M6, Hall, elem_of_heads. eauto.
  - intros y. by rewrite T6.
  - set_solver.
  - rewrite <- M7. unfold head_missing in Hm. destruct (head_of (L k)) as [v|] eqn:Hv; [|by rewrite Hm].
    destruct Hm as (V1 & _ & _ & _ & ->). destruct (decide _); [done|]. destruct (Hline v eq_refl) as [Hl|]; [|done].
    unfold stray, vsize. pose proof (flight_add env (mkTransaction v READ) (s_mem fs)) as Hp.
    rewrite (line_ok_feature env v Hl) in Hp. rewrite Hp, filter_cons, decide_False; [done|].
    intros Hn. apply Hn, elem_of_heads. eauto.
  - intros e He. destruct (decide (e = k)) as [->|]; [done|]. apply (blocked_mono e (s_mem fs)); [done|done|]. apply M8. lia.
  - intros e v He Hv. destruct (decide (e = k)) as [->|].
    + unfold head_missing in Hm. rewrite Hv in Hm. destruct Hm as (V1 & V2 & _ & V4 & _). rewrite V4. rewrite M5 in V2.
      split_and!; [done|done|set_solver].
    + destruct (M9 e v ltac:(lia) Hv) as (V1 & V2 & V3). split_and!; [done|done|]. by apply T7.
Qed.

Context `{!DramTotal D}.

Lemma live_step i k c1 G I S P L :
  0 <= i < n -> live_at c1 G I S P L -> mem_ready env X k (s_mem (c_fs c1)) ->
  exists c2 g' s' S' P' L', engine_step env i c1 = Ok c2 /\ live_at c2 (upd G i g') (upd I i s') S' P' L' /\
    mem_ready env X k (s_mem (c_fs c2)) /\ total_write (s_mem (c_fs c2)) = total_write (s_mem (c_fs c1)) /\
    (lexlt (work (upd G i g') (upd I i s') S' P' L' (total_write (s_mem (c_fs c2)))) (work G I S P L (total_write (s_mem (c_fs c1)))) \/
     (work (upd G i g') (upd I i s') S' P' L' (total_write (s_mem (c_fs c2))) = work G I S P L (total_write (s_mem (c_fs c1))) /\
      s' = I i /\ S' = S /\ P' = P /\ L' = L /\
      engine_blocked i (s_mem (c_fs c2)) (G i) (I i) (S i) (P i) (L i) /\ head_missing (L i) (c_fs c1) (c_fs c2))).
Proof.
  intros Hi [Hacc Hlink] Hm.
  destruct (engine_step_total env md R X W i k c1 Hi) as (c2 & E2 & Hm2); [by exists G, I, S, P, L|done|].
  destruct (engine_step_trace env md R X W i c1 c2 G I S P L Hi Hacc E2) as (g' & s' & S' & P' & L' & Hacc2 & Htr).
  exists c2, g', s', S', P', L'. split; [done|].
  pose proof Hacc as (_ & _ & (Rq & ct & ps & _ & Hsh & Heng) & He & _). pose proof Hacc2 as (_ & _ & (Rq2 & ct2 & ps2 & _ & _ & Heng2) & He2 & _).
  pose proof (proj1 (He i Hi)) as Hg. pose proof (proj1 (He2 i Hi)) as Hg'. rewrite upd_eq in Hg'.
  destruct (trace_linked env md R X W i _ _ _ _ _ _ _ _ _ _ _ _ _ _ Hi Hg (Hlink i Hi) Hsh (proj1 Hm) Htr) as [Hl2 Ho2].
  assert (Hlive : live_at c2 (upd G i g') (upd I i s') S' P' L').
  { split; [done|]. intros e Hre. destruct (decide (e = i)) as [->|Hne]; [by rewrite upd_eq|]. rewrite upd_ne by done.
    apply (linked_frame env R X e (s_mem (c_fs c1))); [|by apply Hlink]. intros ty. by apply Ho2. }
  pose proof (trace_writes i _ _ _ _ _ _ _ _ _ _ _ _ _ _ Hi Hg Hsh Htr) as Htw. split_and!; [done..|].
  destruct (trace_progress i _ _ _ _ _ _ _ _ _ _ _ _ _ _ Hi Hg Hg' (Hlink i Hi) Hsh (proj1 Hm) (Heng i Hi) (Heng2 i Hi) Htr)
    as [Hlt|(E1 & E3 & E4 & E5 & E6 & E7 & E8)].
  - left. by apply (work_step i c1 c2 G I S P L); [..|exact (trace_local i _ _ _ _ _ _ _ _ _ _ _ _ Htr)| |].
  - right. subst s' S' P' L'. split; [|by split_and!]. rewrite Htw. unfold work.
    rewrite (psum_ext (fun e => graph_left env R X e (upd G i g' e)) (fun e => graph_left env R X e (G e))),
      (psum_ext (fun e => vsize (wq (upd I i (I i) e))) (fun e => vsize (wq (I e)))); [done|..];
      intros e _; unfold upd; by destruct (decide (e = i)) as [->|].
Qed.

(** The engines of one cycle: their work goes down, or none has moved. *)
Lemma engines_progress k c G I S P L :
  live_at c G I S P L -> mem_ready env X k (s_mem (c_fs c)) ->
  exists c' G' I' S' P' L', for_int n (engine_step env) c = Ok c' /\
    live_at c' G' I' S' P' L' /\ mem_ready env X k (s_mem (c_fs c')) /\
    total_write (s_mem (c_fs c')) = total_write (s_mem (c_fs c)) /\
    (lexlt (work G' I' S' P' L' (total_write (s_mem (c_fs c')))) (work G I S P L (total_write (s_mem (c_fs c)))) \/
     (work G' I' S' P' L' (total_write (s_mem (c_fs c'))) = work G I S P L (total_write (s_mem (c_fs c))) /\
      S' = S /\ P' = P /\ L' = L /\ (forall e, I' e = I e) /\ stalled n G I S P L (c_fs c) (c_fs c'))).
Proof.
  intros Hc Hm.
  destruct (for_int_ind n (engine_step env) (fun i c1 => exists G' I' S' P' L',
    live_at c1 G' I' S' P' L' /\ mem_ready env X k (s_mem (c_fs c1)) /\
    total_write (s_mem (c_fs c1)) = total_write (s_mem (c_fs c)) /\
    (lexlt (work G' I' S' P' L' (total_write (s_mem (c_fs c1)))) (work G I S P L (total_write (s_mem (c_fs c)))) \/
     (work G' I' S' P' L' (total_write (s_mem (c_fs c1))) = work G I S P L (total_write (s_mem (c_fs c))) /\
      S' = S /\ P' = P /\ L' = L /\ (forall e, I' e = I e) /\ (forall e, i <= e -> G' e = G e) /\
      stalled i G I S P L (c_fs c) (c_fs c1)))) c) as (c' & E & G' & I' & S' & P' & L' & Q1 & Q2 & Q3 & Q4).
  - apply (wp_n _ _ _ _ W).
  - exists G, I, S, P, L. split_and!; try done. right. split_and!; try done. apply stalled_0.
  - intros i c1 Hi (G1 & I1 & S1 & P1 & L1 & Hl1 & Hm1 & Ht1 & Hcase).
    destruct (live_step i k c1 G1 I1 S1 P1 L1 Hi Hl1 Hm1) as (c2 & g' & s' & S2 & P2 & L2 & E2 & Hl2 & Hm2 & Ht2 & Hstep).
    exists c2. split; [done|]. exists (upd G1 i g'), (upd I1 i s'), S2, P2, L2. split_and!; [done|done|congruence|].
    destruct Hstep as [Hlt|(Ew & E3 & E4 & E5 & E6 & E7 & E8)].
    + left. destruct Hcase as [Hlt1|(Ew & _)]; [by eapply lexlt_trans|by rewrite <- Ew].
    + destruct Hcase as [Hlt1|(Ew1 & F1 & F2 & F3 & F4 & F5 & F6)]; [left; by rewrite Ew|right]. subst S2 P2 L2 S1 P1 L1.
      split_and!; try done; [congruence|..].
      * intros e. unfold upd. destruct (decide (e = i)) as [->|]; [|done]. by rewrite E3.
      * intros e He. rewrite upd_ne by lia. apply F5. lia.
      * rewrite F4, (F5 i ltac:(lia)) in E7. apply (stalled_next i G I S P L (c_fs c) (c_fs c1)); try done.
        intros v Hv. destruct Hl1 as [(_ & _ & (Rq & ct & ps & _ & _ & Heng) & _) _].
        pose proof (eo_fq _ _ _ _ _ (Heng i Hi)) as Hf. unfold head_of in Hv. destruct (L i) as [|[w b] l]; [done|].
        injection Hv as <-. apply Forall_cons in Hf as [[Hf|Hf] _]; [by right|by left].
  - exists c', G', I', S', P', L'. split_and!; try done. destruct Q4 as [?|(? & ? & ? & ? & ? & _ & ?)]; [by left|right]. by split_and!.
Qed.

(** ** No deadlock: if nothing is under way and no engine moves, all is written *)
Lemma engine_finished e m m1 g s st p :
  0 <= e < n -> reader_ok env R X e g -> linked env R X e m g -> tq m = [] -> dram_pending (mem m) = [] ->
  rq m1 = rq m -> WillAcceptTransaction m1 = true -> engine_blocked e m1 g s st p [] ->
  passed (R e) g = bf a * edges (R e) /\ pq_read_need st = true /\ p = [] /\ wq s = [].
Proof.
  intros He Hg Hl Ht Hd Hq Hacc [(B1 & B2 & B3) B4 B5 B6].
  assert (Hr : pq_read_need st = true /\ p = []) by (destruct B5 as [B5|[B5|B5]]; [unfold vsize in B5; simpl in B5; lia|congruence|done]).
  destruct B6 as [B6|B6]; [|congruence]. split; [|naive_solver].
  destruct (reader_counts env md R X W e g He Hg) as [(rp & Ig) Q].
  destruct B1 as [B1|?]; [|congruence]. destruct B2 as [B2|?]; [|congruence].
  rewrite (ri_v_over _ _ _ _ _ _ _ Q) in B1. rewrite (ri_e_over _ _ _ _ _ _ _ Q) in B2.
  apply bool_decide_eq_true in B1, B2. fold a in B1, B2.
  destruct (graph_left_nonneg env md R X W e m g He Hg Hl) as (N1 & N2 & _). fold a in N1, N2.
  destruct B4 as [B4|B4]; [by rewrite (lk_pass _ _ _ _ _ _ Hl B4)|].
  apply (B4 _ _ _ _ Ig). unfold all_arrived. fold a (row_count R e) (col_count R e).
  pose proof Hl as [K1 K2 K3 _ K5 K6 K7 K8 _]. destruct B3 as [B3|B3].
  - rewrite B3 in K8. symmetry in K8. apply andb_true_iff in K8 as [[K8 K9]%andb_true_iff K10].
    specialize (K5 K8). specialize (K6 K9). fold a in K5, K6, K7. split_and!; [lia|lia|]. intros Hm.
    specialize (K7 Hm K10). fold a in K3. rewrite Hm in K3. pose proof (awaiting_nonneg env Value e m). lia.
  - assert (Haw : forall ty, awaiting env ty e m = 0).
    { intros ty. unfold awaiting. rewrite Ht, Hd. unfold rq_of in *. rewrite <- Hq, B3. done. }
    rewrite !Haw in *. split_and!; [lia|lia|]. intros Hm. fold a in K3. rewrite Hm in K3. lia.
Qed.

Lemma deadlock_written c G I S P L m1 :
  live_at c G I S P L -> tq (s_mem (c_fs c)) = [] -> dram_pending (mem (s_mem (c_fs c))) = [] ->
  rq m1 = rq (s_mem (c_fs c)) -> WillAcceptTransaction m1 = true -> (forall e, 0 <= e < n -> L e = []) ->
  (forall e, 0 <= e < n -> engine_blocked e m1 (G e) (I e) (S e) (P e) (L e)) -> total_write (s_mem (c_fs c)) = 0.
Proof.
  intros [(_ & _ & _ & He & (k & Hk & Hiss & Htw)) Hl] Ht Hd Hq Hacc HL Hb.
  assert (Hall : forall e, 0 <= e < n -> cnt (I e) - vsize (wq (I e)) = nz R e * total_urb (data_info env)).
  { intros e Hre. pose proof (Hb e Hre) as Hbe. rewrite (HL e Hre) in Hbe. destruct (He e Hre) as (Hg & base & j & popped & Hs & Hends).
    destruct (engine_finished e _ m1 _ _ _ _ Hre Hg (Hl e Hre) Ht Hd Hq Hacc Hbe) as (Hp & Hn & HP & Hw).
    rewrite (HL e Hre), HP in Hends. unfold ends_passed in Hends. pose proof (wp_bf _ _ _ _ W) as Hbf. fold a in Hbf.
    rewrite Hp, take_ge, ends_of_stream in Hends by (unfold a in *; pose proof (stream_length env e (R e) ltac:(lia)); lia).
    unfold owed, row_ends in Hends. rewrite Hn in Hends. simpl in Hends. change (vsize (filter _ [])) with 0 in Hends.
    change (vsize (filter _ [])) with 0 in Hends. rewrite Hw, (sv_cnt _ _ _ _ _ _ Hs).
    replace j with (nz R e * bf (arch_info env)) by (unfold nz; lia). rewrite lines_after_all; [unfold vsize; simpl; lia| |done].
    pose proof (nz_pos env md R X W e Hre). lia. }
  assert (Hi : issued env I = outputs env R) by (apply psum_ext; exact Hall).
  assert (Ho : writes_open (s_mem (c_fs c)) = 0) by (unfold writes_open; by rewrite Ht, Hd).
  rewrite Htw, <- Hi, Hiss, Ho. replace (k + 0 - k) with 0 by lia. done.
Qed.

(** ** The memory side of a cycle *)
Lemma consume_le q (d : D) q' d' : consume q d = Ok (q', d') -> vsize q' <= vsize q.
Proof.
  revert d. induction q as [|t q IH]; intros d Hr; cbn [consume] in Hr; [by injection Hr as <- <-|].
  apply bind_ok in Hr as (ok & _ & Hr). destruct ok; [|by injection Hr as <- <-].
  apply bind_ok in Hr as (d1 & _ & Hr). specialize (IH d1 Hr). unfold vsize in *. simpl. lia.
Qed.

(** Transactions are handed over, or the queue is empty or refused. *)
Lemma consume_stuck q (d : D) q' d' : consume q d = Ok (q', d') ->
  vsize q' < vsize q \/
  (q' = q /\ d' = d /\ (q = [] \/ exists t, dram_will_accept d (t_address t) (t_is_write t) = Ok false)).
Proof.
  destruct q as [|t q]; intros Hr; cbn [consume] in Hr; [injection Hr as <- <-; right; eauto|].
  apply bind_ok in Hr as (ok & Hok & Hr). destruct ok; [|injection Hr as <- <-; right; eauto].
  apply bind_ok in Hr as (d1 & _ & Hr). left. pose proof (consume_le _ _ _ _ Hr). unfold vsize in *. simpl. lia.
Qed.

Context `{!DramLive D}.

(** The memory part of the measure. *)
Definition mem_left (m : Memory D) : list Z := [vsize (tq m); vsize (dram_pending (mem m)); dram_lag (mem m)].

(** Handing over and ticking: the memory gets on, or is empty. *)
Lemma memory_progress m m1 m2 :
  dram_inv (mem m) -> Forall addr_ok (tq m) -> ConsumeTransaction m = Ok m1 -> UpdateCycle env m1 = Ok m2 ->
  lexlt (mem_left m2) (mem_left m) \/
  (tq m = [] /\ dram_pending (mem m) = [] /\ total_write m2 = total_write m).
Proof.
  intros Hi Ha Hc Hu. unfold ConsumeTransaction in Hc. apply bind_ok in Hc as ([q d] & Hq & Hc). injection Hc as <-.
  destruct (consume_ok _ _ _ _ Hi Ha Hq) as (Hi1 & _ & _).
  unfold UpdateCycle in Hu. apply bind_ok in Hu as ([d' done] & Ht & Hu). apply bind_ok in Hu as (m3 & Hf & Hu). injection Hu as <-.
  destruct (callbacks_total env _ _ _ Hf) as (_ & E1 & E2). simpl in Ht, E1, E2. unfold mem_left. simpl. rewrite E1, E2.
  destruct (dram_tick_law _ _ _ Hi1 Ht) as [_ Hp]. apply Permutation_length in Hp. rewrite length_app in Hp.
  destruct (consume_stuck _ _ _ _ Hq) as [Hlt|(-> & -> & Hst)]; [left; left; split; [|done]; pose proof (vsize_nonneg q); lia|].
  destruct done as [|t done].
  - destruct (decide (dram_pending (mem m) = [])) as [Hn|Hn].
    + right. destruct Hst as [->|(t & Hr)]; [|by destruct (dram_refuse_law _ _ _ Hi1 Hr)]. split_and!; try done.
      cbn [for_each] in Hf. by injection Hf as <-.
    + left. right. split; [done|]. right. split; [unfold vsize; simpl in Hp; lia|]. left. split; [|done].
      by apply dram_lag_law.
  - left. right. split; [done|]. left. split; [|done]. unfold vsize. simpl in Hp. lia.
Qed.

(** Completed writes only lower [total_write]. *)
Lemma tick_writes m m1 m2 :
  dram_inv (mem m) -> Forall addr_ok (tq m) -> 0 <= total_write m < 2 ^ 64 -> writes_open m <= total_write m ->
  ConsumeTransaction m = Ok m1 -> UpdateCycle env m1 = Ok m2 -> 0 <= total_write m2 <= total_write m.
Proof.
  intros Hi Ha Hr Hw Hc Hu. destruct (consume_open m m1 Hi Ha Hc) as [E1 E2].
  unfold ConsumeTransaction in Hc. apply bind_ok in Hc as ([q d] & Hq & Hc). injection Hc as <-.
  destruct (consume_ok _ _ _ _ Hi Ha Hq) as (Hi1 & _ & _).
  unfold UpdateCycle in Hu. apply bind_ok in Hu as ([d' done] & Ht & Hu). apply bind_ok in Hu as (m3 & Hf & Hu). injection Hu as <-.
  destruct (callbacks_total env _ _ _ Hf) as (E & _ & _). assert (Hr3 : 0 <= total_write m3 < 2 ^ 64) by (refine (callbacks_range env done _ m3 _ Hf); exact Hr).
  simpl in Ht. destruct (dram_tick_law _ _ _ Hi1 Ht) as [_ Hp]. unfold writes_open in E1. simpl in E1, E |- *.
  rewrite count_app, <- (count_perm _ _ _ Hp), !count_app in E1.
  assert (forall l, 0 <= count is_output l) as Hnn by (intros; apply vsize_nonneg).
  pose proof (Hnn done). pose proof (Hnn q). pose proof (Hnn (dram_pending d')). unfold writes_open in Hw. rewrite count_app in Hw.
  rewrite !u64_small in E by lia. lia.
Qed.

(** ** The measure of a cycle *)

(** 1 if no engine's next line is in the cache. *)
Definition idle (fs : FS D) (L : Z -> list (Z * bool)) : Z :=
  if decide (filter (fun v => v = 1 \/ cached a (s_cah fs) v) (heads L) = []) then 1 else 0.
(** The lines waited for that nobody has asked for. *)
Definition unasked (fs : FS D) (L : Z -> list (Z * bool)) : Z :=
  vsize (filter (fun v => v ∉ requested (s_fr fs)) (heads L)).

Definition waits (fs : FS D) (L : Z -> list (Z * bool)) : list Z :=
  [stray (s_mem fs) L; idle fs L; unasked fs L] ++ mem_left (s_mem fs).
Definition measure (c : Controller D) G I S P L : list Z :=
  work G I S P L (total_write (s_mem (c_fs c))) ++ waits (c_fs c) L.

Lemma idle_range fs L : 0 <= idle fs L <= 1.
Proof. unfold idle. destruct (decide _); lia. Qed.

(** Nobody can go on: the engines' next lines are neither cached nor the marker. *)
Lemma idle_1 fs L : (forall v, v ∈ heads L -> v <> 1 /\ ~ cached a (s_cah fs) v) -> idle fs L = 1.
Proof.
  intros Hv. unfold idle. rewrite decide_True; [done|]. apply elem_of_nil_inv. intros v [[->|Hc] Hin]%list_elem_of_filter.
  - by destruct (Hv 1 Hin).
  - by destruct (Hv v Hin).
Qed.

Lemma idle_0 fs L v : v ∈ heads L -> cached a (s_cah fs) v -> idle fs L = 0.
Proof.
  intros Hin Hc. unfold idle. rewrite decide_False; [done|]. intros E.
  assert (Hf : v ∈ filter (fun v => v = 1 \/ cached a (s_cah fs) v) (heads L)) by (apply list_elem_of_filter; auto).
  rewrite E in Hf. by apply not_elem_of_nil in Hf.
Qed.

Lemma unasked_0 fs L : (forall v, v ∈ heads L -> v ∈ requested (s_fr fs)) -> unasked fs L = 0.
Proof.
  intros Hv. unfold unasked. assert (filter (fun v => v ∉ requested (s_fr fs)) (heads L) = []) as ->; [|done].
  apply elem_of_nil_inv. intros v [Hn Hin]%list_elem_of_filter. auto.
Qed.

Lemma unasked_pos fs L : unasked fs L = 0 -> forall v, v ∈ heads L -> v ∈ requested (s_fr fs).
Proof.
  intros E v Hin. destruct (decide (v ∈ requested (s_fr fs))) as [|Hn]; [done|]. exfalso.
  assert (Hf : v ∈ filter (fun v => v ∉ requested (s_fr fs)) (heads L)) by (by apply list_elem_of_filter).
  unfold unasked, vsize in E. destruct (filter _ _); [by apply not_elem_of_nil in Hf|]. simpl in E. lia.
Qed.

(** A cycle in which no engine moves still lowers the waits, or everything has
    been written. *)
Lemma stalled_cycle c c1 G I S P L G1 I1 fs m1 m2 :
  live_at c G I S P L -> live_at c1 G1 I1 S P L -> stalled n G I S P L (c_fs c) (c_fs c1) ->
  FeatureReceive env (c_fs c1) = Ok fs -> ConsumeTransaction (s_mem fs) = Ok m1 -> UpdateCycle env m1 = Ok m2 ->
  lexlt (waits (mkFS m2 (s_cah fs) (s_fr fs)) L) (waits (c_fs c) L) \/
  (total_write (s_mem (c_fs c)) = 0 /\ total_write m2 = total_write (s_mem (c_fs c1))).
Proof.
  intros Hc Hc1 Hsl Hfr Hcn Hup. pose proof Hc1 as [(_ & _ & Hst & _) _].
  destruct (receive_all_ok env md (wp_geometry _ _ _ _ W) _ _ S P L Hst eq_refl) as (fs' & Hfr' & Hst1 & Hfq).
  unfold FeatureReceive in Hfr. rewrite Hfr' in Hfr. injection Hfr as ->.
  destruct (receive_all_frame env _ _ _ Hfr') as (T1 & T2 & T3 & T4).
  destruct (state_ok_shared env md _ _ _ _ Hst1) as [Hi1 Ha1].
  assert (Hst2 : state_ok env md (mkFS m1 (s_cah fs) (s_fr fs)) S P L).
  { apply (state_ok_with env md); [done|]. intros Rq HR. by apply (consume_shared env _ _ (s_mem fs)). }
  destruct Hst2 as (Rq2 & _ & _ & _ & [_ _ _ _ Hi2 Ha2 Hp2] & _). simpl in Hi2, Ha2, Hp2.
  destruct (flight_consume env _ _ Hi1 Ha1 Hcn) as (_ & _ & F1 & _ & _).
  destruct (flight_tick env m1 m2 (wp_value _ _ _ _ W) Hi2 Hp2 Hup) as (_ & _ & F2 & _).
  assert (Hstray : stray m2 L = stray (s_mem fs) L) by (apply stray_perm; by rewrite F2, F1). clear F1 F2.
  set (q := fq (s_mem (c_fs c1))) in *.
  assert (Hfl : flight env (s_mem (c_fs c1)) = flight env (s_mem fs) ++ q).
  { unfold flight. rewrite T1, T2, Hfq, app_nil_r. done. }
  assert (Hs1 : stray (s_mem (c_fs c)) L = stray (s_mem fs) L + vsize (filter (fun x => x ∉ heads L) q)).
  { rewrite <- (sl_stray _ _ _ _ _ _ _ _ Hsl). unfold stray. by rewrite Hfl, filter_app, vsize_app. }
  assert (Hh : forall v, v ∈ heads L -> v <> 1 /\ ~ cached a (s_cah (c_fs c)) v /\ v ∈ requested (s_fr (c_fs c1))).
  { intros v (e & He & Hv)%elem_of_heads. exact (sl_heads _ _ _ _ _ _ _ _ Hsl e v He Hv). }
  assert (Hid : idle (c_fs c) L = 1) by (apply idle_1; intros v Hv; by destruct (Hh v Hv) as (? & ? & _)).
  unfold waits. simpl. rewrite Hstray, Hs1, Hid. pose proof (vsize_nonneg (filter (fun x => x ∉ heads L) q)).
  pose proof (vsize_nonneg (filter (fun x => x ∉ heads L) (flight env (s_mem fs)))) as Hs0. fold (stray (s_mem fs) L) in Hs0.
  destruct (decide (filter (fun x => x ∉ heads L) q = [])) as [Hnil|Hnil].
  2: { left. left. split; [|done]. destruct (filter _ q); [done|]. unfold vsize. simpl. lia. }
  rewrite Hnil. change (vsize []) with 0.
  destruct (decide (q = [])) as [Hq|Hq].
  - (* nothing received: the heads have been asked for, or the memory gets on *)
    rewrite Hq in Hfr'. cbn [receive_all] in Hfr'. injection Hfr' as E. rewrite <- E in *. clear E fs.
    assert (Hid' : idle (mkFS m2 (s_cah (c_fs c1)) (s_fr (c_fs c1))) L = 1).
    { apply idle_1. intros v Hv. destruct (Hh v Hv) as (? & Hn & _). simpl. by rewrite (sl_cached _ _ _ _ _ _ _ _ Hsl). }
    rewrite Hid', (unasked_0 (mkFS m2 (s_cah (c_fs c1)) (s_fr (c_fs c1)))) by (intros v Hv; by destruct (Hh v Hv) as (_ & _ & ?)).
    destruct (decide (unasked (c_fs c) L = 0)) as [Hu|Hu].
    2: { left. right. split; [lia|]. right. split; [done|]. left. split; [|done]. pose proof (vsize_nonneg (filter (fun v => v ∉ requested (s_fr (c_fs c))) (heads L))).
         fold (unasked (c_fs c) L) in *. lia. }
    assert (Htq : tq (s_mem (c_fs c1)) = tq (s_mem (c_fs c))) by (apply (sl_tq _ _ _ _ _ _ _ _ Hsl); by apply unasked_pos).
    assert (Hml : mem_left (s_mem (c_fs c1)) = mem_left (s_mem (c_fs c))) by (unfold mem_left; by rewrite Htq, (sl_mem _ _ _ _ _ _ _ _ Hsl)).
    destruct (memory_progress (s_mem (c_fs c1)) m1 m2 Hi1 Ha1 Hcn Hup) as [Hlt|(Q1 & Q2 & Q3)].
    + left. right. split; [lia|]. right. split; [done|]. right. split; [done|]. rewrite Hml in Hlt. exact Hlt.
    + right. split; [|done]. rewrite Htq in Q1. rewrite (sl_mem _ _ _ _ _ _ _ _ Hsl) in Q2.
      assert (HL : forall e, 0 <= e < n -> L e = []).
      { intros e He. destruct (L e) as [|[v b] l] eqn:HLe; [done|]. exfalso.
        assert (Hv : v ∈ heads L) by (apply elem_of_heads; exists e; by rewrite HLe).
        destruct (Hh v Hv) as (_ & _ & Hreq). destruct Hst as (Rq & ct & ps & Es & Hsh & _). rewrite Es in Hreq.
        apply (sh_flight _ _ _ _ Hsh) in Hreq. unfold flight in Hreq. fold q in Hreq.
        rewrite Htq, (sl_mem _ _ _ _ _ _ _ _ Hsl), Q1, Q2, Hq in Hreq. by apply not_elem_of_nil in Hreq. }
      apply (deadlock_written c G I S P L (s_mem (c_fs c1)) Hc Q1 Q2 (sl_rq _ _ _ _ _ _ _ _ Hsl)); [|done|].
      * unfold WillAcceptTransaction. by rewrite Htq, Q1.
      * exact (sl_blocked _ _ _ _ _ _ _ _ Hsl).
  - (* the last line received is waited for, and stays in the cache *)
    left. right. split; [lia|]. left. split; [|done].
    destruct (exists_last Hq) as (q' & x & Eq).
    assert (Hx : x ∈ heads L).
    { destruct (decide (x ∈ heads L)) as [|Hn]; [done|]. exfalso.
      assert (Hf : x ∈ filter (fun x => x ∉ heads L) q) by (apply list_elem_of_filter; split; [done|]; rewrite Eq; set_solver).
      rewrite Hnil in Hf. by apply not_elem_of_nil in Hf. }
    assert (Hcx : cached a (s_cah fs) x).
    { rewrite Eq in Hfr'. exact (receive_all_last env md (wp_geometry _ _ _ _ W) q' x _ _ S P L Hst Eq Hfr'). }
    rewrite (idle_0 (mkFS m2 (s_cah fs) (s_fr fs)) L x Hx Hcx). lia.
Qed.

Lemma work_less G I S P L w w' : w' < w -> Forall (fun x => 0 <= x) (work G I S P L w') -> lexlt (work G I S P L w') (work G I S P L w).
Proof. intros Hw [Hn _]%Forall_cons. left. split; [lia|done]. Qed.

(** Every cycle lowers the measure, unless it is the last one. *)
Lemma cycle_progress k c G I S P L :
  0 < k -> live_at c G I S P L -> mem_ready env X k (s_mem (c_fs c)) ->
  exists c' G' I' S' P' L', cycle_step env c = Ok c' /\ live_at c' G' I' S' P' L' /\
    mem_ready env X (k - 1) (s_mem (c_fs c')) /\
    (total_write (s_mem (c_fs c')) = 0 \/ lexlt (measure c' G' I' S' P' L') (measure c G I S P L)).
Proof.
  intros Hk Hc Hm. destruct (engines_progress k c G I S P L Hc Hm) as (c1 & G1 & I1 & S1 & P1 & L1 & E1 & Hc1 & Hm1 & Ht1 & Hcase).
  pose proof Hc1 as [Hacc1 Hlink1]. pose proof Hacc1 as (_ & _ & Hst & _).
  destruct (receive_all_ok env md (wp_geometry _ _ _ _ W) _ _ S1 P1 L1 Hst eq_refl) as (fs & Efr & Hst1 & _).
  destruct (receive_all_frame env _ _ _ Efr) as (T1 & T2 & T3 & T4).
  assert (Hm2 : mem_ready env X k (s_mem fs)) by (by apply (mem_ready_same env X k (s_mem (c_fs c1))); [rewrite T3|..]).
  destruct (state_ok_shared env md _ _ _ _ Hst1) as [Hi1 Ha1].
  destruct (Consume_total env X k (s_mem fs) Hm2 Ha1 Hi1) as (m1 & Ecn & Hm3).
  assert (Hst2 : state_ok env md (mkFS m1 (s_cah fs) (s_fr fs)) S1 P1 L1).
  { apply (state_ok_with env md); [done|]. intros Rq HR. by apply (consume_shared env _ _ (s_mem fs)). }
  destruct Hst2 as (Rq2 & _ & _ & _ & [_ _ _ _ Hi2 _ Hp2] & _). simpl in Hi2, Hp2.
  destruct (Update_total env md R X W k m1 Hk Hm3 Hi2) as (m2 & Eup & Hm4).
  set (c' := c1 <| c_fs := fs <| s_mem := m2 |> |>).
  assert (E : cycle_step env c = Ok c').
  { unfold cycle_step. fold a n. rewrite E1. cbn [mbind outcome_bind]. unfold FeatureReceive. rewrite Efr.
    cbn [mbind outcome_bind]. rewrite Ecn. cbn [mbind outcome_bind]. by rewrite Eup. }
  assert (Hc' : live_at c' G1 I1 S1 P1 L1).
  { split; [exact (cycle_tail_ok env md R X W c1 G1 I1 S1 P1 L1 fs m1 m2 Hacc1 Efr Ecn Eup)|]. intros e He.
    apply (linked_frame env R X e (s_mem (c_fs c1))); [|by apply Hlink1]. intros ty. simpl.
    rewrite (awaiting_tick env ty e m1 m2 (wp_value _ _ _ _ W) Hi2 Hp2 Eup), (awaiting_consume env ty e _ _ Hi1 Ha1 Ecn).
    apply (awaiting_ext env ty e _ _ []); try done. by rewrite app_nil_r. }
  assert (Hw : 0 <= total_write m2 <= total_write (s_mem (c_fs c1))).
  { destruct (acc_inv_outputs env md R X W c1) as (G2 & I2 & _ & _ & _ & kk & _ & _ & Hkk & _ & Hiss & _ & Hle & Htt); [by eexists _, _, _, _, _|].
    rewrite <- T4. pose proof (outputs_range env md R X W). apply (tick_writes (s_mem fs) m1 m2 Hi1 Ha1); try done.
    - rewrite T4, Htt. assert (0 <= writes_open (s_mem (c_fs c1))) by apply vsize_nonneg. lia.
    - assert (writes_open (s_mem fs) = writes_open (s_mem (c_fs c1))) as -> by (unfold writes_open; by rewrite T1, T2).
      rewrite T4, Htt. lia. }
  exists c', G1, I1, S1, P1, L1. split_and!; try done.
  pose proof (live_work _ _ _ _ _ _ Hc') as Hnn. change (total_write (s_mem (c_fs c'))) with (total_write m2) in *.
  unfold measure. change (total_write (s_mem (c_fs c'))) with (total_write m2).
  assert (Hwork : lexlt (work G1 I1 S1 P1 L1 (total_write m2)) (work G I S P L (total_write (s_mem (c_fs c)))) ->
    lexlt (work G1 I1 S1 P1 L1 (total_write m2) ++ waits (c_fs c') L1) (work G I S P L (total_write (s_mem (c_fs c))) ++ waits (c_fs c) L))
    by (intros; by apply lexlt_app_l).
  destruct (decide (total_write m2 = total_write (s_mem (c_fs c1)))) as [Ew|Ew].
  - destruct Hcase as [Hlt|(Eq & -> & -> & -> & _ & Hsl)]; [right; apply Hwork; by rewrite Ew|].
    rewrite Ew, Eq. destruct (stalled_cycle c c1 G I S P L G1 I1 fs m1 m2 Hc Hc1 Hsl Efr Ecn Eup) as [Hlt|[Hz _]].
    + right. by apply lexlt_app_r.
    + left. congruence.
  - right. apply Hwork. assert (Hless := work_less G1 I1 S1 P1 L1 (total_write (s_mem (c_fs c1))) (total_write m2) ltac:(lia) Hnn).
    destruct Hcase as [Hlt|(Eq & _)]; [by eapply lexlt_trans|by rewrite <- Eq].
Qed.

(** So the loop returns. *)
Lemma loop_terminates l : Acc lexlt l -> forall c G I S P L cy,
  l = measure c G I S P L -> live_at c G I S P L -> (forall k, 0 <= k -> mem_ready env X k (s_mem (c_fs c))) ->
  exists fuel cy' c', inference_loop env fuel cy c = Ok (Some (cy', c')).
Proof.
  induction 1 as [l _ IH]. intros c G I S P L cy -> Hc Hm.
  destruct (cycle_progress 1 c G I S P L ltac:(lia) Hc (Hm 1 ltac:(lia))) as (c' & G' & I' & S' & P' & L' & E & Hc' & _ & Hcase).
  assert (Hm' : forall k, 0 <= k -> mem_ready env X k (s_mem (c_fs c'))).
  { intros k Hk. destruct (cycle_progress (k + 1) c G I S P L ltac:(lia) Hc (Hm (k + 1) ltac:(lia))) as (c2 & _ & _ & _ & _ & _ & E2 & _ & Hm2 & _).
    rewrite E in E2. injection E2 as <-. by replace (k + 1 - 1) with k in Hm2 by lia. }
  destruct (decide (total_write (s_mem (c_fs c')) = 0)) as [Hz|Hz].
  - exists 1%nat. eexists _, c'. cbn [inference_loop]. rewrite E. cbn [mbind outcome_bind]. by rewrite decide_True.
  - destruct Hcase as [|Hlt]; [done|]. destruct (IH _ Hlt c' G' I' S' P' L' (u64 (cy + 1)) eq_refl Hc' Hm') as (fuel & cy' & c2 & E2).
    exists (Datatypes.S fuel), cy', c2. cbn [inference_loop]. rewrite E. cbn [mbind outcome_bind]. by rewrite decide_False.
Qed.

(** The link holds in the state the constructor leaves. *)
Lemma reader_init e : 0 <= e < n -> forall d : D, dram_pending d = [] ->
  linked env R X e (Memory_new env d (outputs env R)) (gr0 env e).
Proof.
  intros He d Hp. pose proof (wp_n _ _ _ _ W) as Hn. pose proof (wp_bf _ _ _ _ W) as Hbf.
  assert (Haw : forall ty, awaiting env ty e (Memory_new env d (outputs env R)) = 0).
  { intros ty. unfold awaiting, rq_of. simpl. rewrite Hp. fold a n. rewrite tab_replicate, vget_tab by done. done. }
  destruct (line_counts env md R X W e He) as [L1 L2]. fold (row_count R e) (col_count R e) in L1, L2.
  assert (Hg : exists b v, gr0 env e = mkGraphReader 0 0 v 1 0 0 0 0 b 0 (row_addr_start (X e)) (col_addr_start (X e)) (value_addr_start (X e))
    false false false false (match gnn_mode a with GCN => false | OTHER => true end) false false 0 0 0 0 0 0 /\ (gnn_mode a = GCN -> v = 0)).
  { unfold gr0, GraphReader_new. rewrite (vget_index env md R X W e He). cbn [mbind outcome_bind]. fold a. destruct (gnn_mode a).
    - by exists 0, 0.
    - rewrite (vget_cols env md R X W e He). cbn [mbind outcome_bind]. by eexists _, _. }
  destruct Hg as (b & v & -> & Hv).
  assert (Hgot : forall size, 0 < size -> got size 0 0 = 0) by (intros size Hs; unfold got; rewrite decide_False by lia; done).
  pose proof (wp_edges _ _ _ _ W e He) as HE. pose proof (vsize_nonneg (R e)) as HR.
  split; rewrite ?Haw; unfold got_rows, got_cols, got_vals, asked_rows, asked_cols; simpl;
    rewrite ?Z.sub_diag, ?Z.mul_0_r, ?Zdiv_0_l, ?Hgot by lia; try done.
  - fold a. destruct (gnn_mode a); [|done]. rewrite (Hv eq_refl), Hgot; lia.
  - intros Hm. fold a in Hm. by rewrite Hm.
Qed.

Lemma inference_returns d :
  dram_inv d -> dram_pending d = [] -> (forall k, 0 <= k -> dram_ready k d) ->
  exists fuel cycles c, (c0 ← Controller_new env d (outputs env R); GCNInference env fuel 0 md c0) = Ok (Some (cycles, c)) /\
    all_written env R c.
Proof.
  intros Hd Hp Hr. rewrite (Controller_new_ok env md R X W d). cbn [mbind outcome_bind].
  pose proof (controller_init env md R X W d Hd Hp) as Hinv. pose proof Hinv as (G & I & S & P & L & Hat).
  assert (Hlive : live_at (mkController (mkFS (Memory_new env d (outputs env R)) (Cache_new a) (ModeChange md (FeatureReader_new env)))
             (tab n (gr0 env)) (tab n (si0 env))) G I S P L).
  { split; [exact Hat|]. intros e He. destruct Hat as (EG & _). simpl in EG.
    assert (E : vget (tab n (gr0 env)) e = vget (tab n G) e) by (unfold n, a; by rewrite EG).
    rewrite !vget_tab in E by done. injection E as <-. by apply reader_init. }
  destruct (loop_terminates _ (lexlt_Acc _ _ eq_refl) _ G I S P L 0 eq_refl Hlive) as (fuel & cy & c & E).
  { intros k Hk. split_and!; simpl; [|by constructor|by rewrite Hp|by apply Hr]. unfold vsize. rewrite length_replicate.
    pose proof (wp_n _ _ _ _ W). lia. }
  exists fuel, cy, c. unfold GCNInference, DAVCRead. rewrite decide_True by done. split; [exact E|].
  exact (inference_loop_written env md R X W _ _ _ _ _ Hinv E).
Qed.
End live.

(** ** The property *)


