(* ===== verification/Prepared.v ===== *)
(** * From the input graph to the simulation (src/preprocessor.cc, src/controller.cc)

    The preprocessor establishes what the accelerator relies on: on a graph whose
    columns are in range and that gives every engine an edge, in the sliced
    feature modes (X_CMP and MAT), [Preprocess] succeeds and its result is
    [well_prepared].  With the theorems on the accelerator this makes the
    simulation of any such graph safe and complete. *)

From stdpp Require Import base tactics list list_numbers numbers strings gmap.
From Stdlib Require Import ZArith Lia.
From S2P Require Import Prelude DramConfig ControllerSafety DramSystem DramInterface Common Float32 Csr Layout Inputs.
From S2P Require Import Preprocess GraphDistribution AddressMap Memory Cache GraphReader FeatureReader Simd Accelerator Inference Liveness IdealDram.

(** The globals the simulation reads. *)
Definition env_of (p : Pre) : Env :=
  mkEnv (p_arch p) (p_data p) (p_index p) (p_row_ptr p) (p_col_idx p) (p_x_to_addr p).

(** ** Sizes of the distributed graph *)
Lemma vsize_concat_tab {A} n (f : Z -> list A) : 0 <= n -> vsize (concat (tab n f)) = psum (fun e => vsize (f e)) n.
Proof.
  intros Hn. replace n with (Z.of_nat (Z.to_nat n)) by lia. induction (Z.to_nat n) as [|k IH]; [done|].
  replace (Z.of_nat (S k)) with (Z.of_nat k + 1) by lia. rewrite tab_snoc, psum_succ, concat_app, vsize_app, IH by lia.
  simpl. by rewrite app_nil_r.
Qed.

Lemma psum_const c n : 0 <= n -> psum (fun _ => c) n = n * c.
Proof.
  intros Hn. replace n with (Z.of_nat (Z.to_nat n)) by lia. induction (Z.to_nat n) as [|k IH]; [done|].
  replace (Z.of_nat (S k)) with (Z.of_nat k + 1) by lia. rewrite psum_succ, IH by lia. lia.
Qed.

Lemma psum_mul f c n : psum (fun e => f e * c) n = psum f n * c.
Proof.
  unfold psum. induction (Z.to_nat n) as [|k IH]; [done|]. simpl. rewrite IH. lia.
Qed.

Lemma lac_upto_edges w n rows e m : (m <= length rows)%nat -> edges (lac_rows_upto w n rows m e) <= edges (take m rows).
Proof.
  induction m as [|m IH]; intros Hm; [done|]. destruct (lookup_lt_is_Some_2 rows m) as [r Hr]; [lia|].
  rewrite (lac_rows_upto_S w n rows m r e Hr), (edges_take_S rows m r Hr). specialize (IH ltac:(lia)).
  pose proof (vsize_nonneg r). case_decide; [|lia]. rewrite edges_app, edges_cons, edges_nil. lia.
Qed.

Lemma lac_edges w n rows e : edges (lac_rows w n rows e) <= edges rows.
Proof. pose proof (lac_upto_edges w n rows e (length rows) (le_n _)) as H. by rewrite firstn_all in H. Qed.

Lemma lac_total w n rows : 0 < n -> psum (fun e => vsize (lac_rows w n rows e)) n = vsize rows.
Proof.
  intros Hn. rewrite <- vsize_concat_tab by lia. pose proof (lac_partition_upto w n rows (length rows) Hn (le_n _)) as H.
  rewrite firstn_all in H. unfold vsize, lac_rows. by rewrite H.
Qed.

Lemma tile_rows_size nt u rows : 0 <= nt -> vsize (tile_rows nt u rows) = nt * vsize rows.
Proof.
  intros Hnt. unfold tile_rows.
  change ((fun l => tile_part u l <$> rows) <$> seqZ 0 nt) with (tab nt (fun l => tile_part u l <$> rows)).
  rewrite vsize_concat_tab by done. rewrite (psum_ext _ (fun _ => vsize rows)), psum_const by
    (done || intros k _; unfold vsize; by rewrite length_fmap). done.
Qed.

Lemma tile_rows_cols nt u rows r c : r ∈ tile_rows nt u rows -> c ∈ r -> exists r', r' ∈ rows /\ c ∈ r'.
Proof.
  unfold tile_rows. intros (l & Hl & Hr)%list_elem_of_In%in_concat Hc.
  apply list_elem_of_In, list_elem_of_fmap in Hl as (k & -> & _).
  apply list_elem_of_In, list_elem_of_fmap in Hr as (r' & -> & Hr'). exists r'. split; [done|].
  by apply list_elem_of_filter in Hc as [_ ?].
Qed.

Lemma nonzero_rows_le rows : 0 <= nonzero_rows rows <= vsize rows.
Proof. unfold nonzero_rows, vsize. pose proof (length_filter (fun r : list Z => r <> []) rows). lia. Qed.

(** ** The input *)
Section input.
Context (p : Pre) (rows : list (list Z)).
Let a : ArchInfo := p_arch p.
Let d : DataInfo := p_data p.
Let n : Z := n_of_engine a.
Let w : Z := lac_width a.
Let nt : Z := n_tiles d.

(** The rows of engine [e] after [LAC] and [Tiling]. *)
Definition engine_rows (e : Z) : list (list Z) :=
  if decide (1 < nt) then tile_rows nt (cdiv (a_w d) nt) (lac_rows w n rows e) else lac_rows w n rows e.

(** The feature slices: their number, their width and the lines of a row. *)
Definition slices : Z := match mode a with X_CMP => cdiv (x_w d) (x_unit a) | _ => bf a end.
Definition slice_lines : Z := match mode a with X_CMP => cdiv (x_unit a) CACHE_LINE_COUNT | _ => urb a end.
Definition row_lines : Z := match mode a with X_CMP => slices * slice_lines | _ => total_urb d end.

Record good_input : Prop := {
  gi_mode : mode a = X_CMP \/ mode a = MAT;
  gi_graph : p_row_ptr p = [offsets rows] /\ p_col_idx p = [concat rows];
  gi_fresh : p_index p = [] /\ p_x_to_addr p = [] /\ p_total_write p = 0;
  gi_n : 0 < n <= 2 ^ 24;
  gi_w : 0 < w;
  gi_height : a_h d = vsize rows /\ a_w d = vsize rows /\ x_h d = vsize rows;
  gi_cols : forall r c, r ∈ rows -> c ∈ r -> 0 <= c < vsize rows;
  gi_tiles : 1 <= nt <= 2 ^ 24;
  gi_size : nt * vsize rows < 2 ^ 24 /\ edges rows <= 2 ^ 24;
  gi_edges : forall e, 0 <= e < n -> 0 < edges (lac_rows w n rows e);
  gi_cache : geometry_ok a;
  gi_width : 0 < x_w d <= 2 ^ 24;
  gi_mat : mode a = MAT -> 0 < bf a /\ urb a = cdiv (x_w d) (bf a * CACHE_LINE_COUNT) /\
    total_urb d = cdiv (x_w d) CACHE_LINE_COUNT /\ (bf a - 1) * urb a < total_urb d;
  gi_xcmp : mode a = X_CMP -> 0 < x_unit a <= 2 ^ 24 /\ exists x, p_xw p = tab (vsize rows) (fun i => tab (x_w d) (x i))
}.

Hypothesis G : good_input.

Lemma rows_pos : 0 < vsize rows.
Proof.
  destruct rows as [|r l] eqn:E; [|unfold vsize; simpl; lia]. pose proof (gi_edges G 0 ltac:(pose proof (gi_n G); lia)) as H.
  pose proof (lac_edges w n [] 0) as H'. rewrite edges_nil in H'. rewrite E in H. lia.
Qed.

Lemma tiling_ready :
  1 < nt -> 0 < cdiv (a_w d) nt /\ forall e, Forall (tileable nt (cdiv (a_w d) nt)) (lac_rows w n rows e).
Proof.
  intros Hnt. pose proof rows_pos. destruct (gi_height G) as (_ & E & _). pose proof (cdiv_spec (a_w d) nt ltac:(lia)) as Hc.
  split; [nia|]. intros e. apply Forall_forall. intros r Hr c Hcol.
  pose proof (gi_cols G r c (lac_rows_elem w n rows e r Hr) Hcol). lia.
Qed.

Lemma engine_edges e : edges (engine_rows e) = edges (lac_rows w n rows e).
Proof.
  unfold engine_rows. destruct (decide _) as [Hnt|]; [|done]. destruct (tiling_ready Hnt) as [Hu Ht].
  unfold edges, vsize. by rewrite (tile_rows_permutation nt _ _ ltac:(lia) Hu (Ht e)).
Qed.

Lemma engine_size e : vsize (engine_rows e) = Z.max 1 nt * vsize (lac_rows w n rows e).
Proof.
  unfold engine_rows. destruct (decide _) as [Hnt|Hnt]; [|rewrite Z.max_l; lia].
  rewrite tile_rows_size by lia. by rewrite Z.max_r by lia.
Qed.

Lemma engine_total : psum (fun e => vsize (engine_rows e)) n = nt * vsize rows.
Proof.
  pose proof (gi_tiles G). pose proof (gi_n G). rewrite <- (lac_total w n rows) by lia.
  rewrite (psum_ext _ (fun e => vsize (lac_rows w n rows e) * nt)), psum_mul; [lia|].
  intros e _. rewrite engine_size, Z.max_r by lia. lia.
Qed.

Lemma engine_bounds e : 0 <= e < n ->
  0 < edges (engine_rows e) <= 2 ^ 24 /\ vsize (engine_rows e) < 2 ^ 24.
Proof.
  intros He. rewrite engine_edges. pose proof (gi_edges G e He). pose proof (lac_edges w n rows e).
  destruct (gi_size G) as [H1 H2]. split; [lia|]. rewrite <- engine_total in H1.
  pose proof (psum_upd (fun e => vsize (engine_rows e)) n e 0 He) as Hu. cbv beta in Hu.
  assert (0 <= psum (upd (fun e => vsize (engine_rows e)) e 0) n).
  { transitivity (psum (fun _ => 0) n); [by rewrite psum_zero|]. apply psum_le. intros k _. unfold upd. destruct (decide (k = e)); [lia|apply vsize_nonneg]. }
  lia.
Qed.

Lemma engine_cols e r c : r ∈ engine_rows e -> c ∈ r -> 0 <= c < vsize rows.
Proof.
  unfold engine_rows. intros Hr Hc. destruct (decide _).
  - destruct (tile_rows_cols _ _ _ _ _ Hr Hc) as (r' & Hr' & Hc'). exact (gi_cols G r' c (lac_rows_elem _ _ _ _ _ Hr') Hc').
  - exact (gi_cols G r c (lac_rows_elem _ _ _ _ _ Hr) Hc).
Qed.

(** The slices cover the row, the last one is not empty. *)
Lemma slices_ok :
  0 < slices /\ 0 < slice_lines /\ slice_lines * (slices - 1) < row_lines <= slice_lines * slices /\
  (slices = 1 -> row_lines = slice_lines) /\ row_lines <= 2 ^ 26.
Proof.
  pose proof (gi_width G). unfold row_lines, slices, slice_lines. destruct (gi_mode G) as [E|E]; rewrite E.
  - destruct (gi_xcmp G E) as [Hx _]. pose proof (cdiv_spec (x_w d) (x_unit a) ltac:(lia)) as H1.
    pose proof (cdiv_spec (x_unit a) CACHE_LINE_COUNT eq_refl) as H2. unfold CACHE_LINE_COUNT in *.
    assert (0 < cdiv (x_w d) (x_unit a)) by nia. assert (0 < cdiv (x_unit a) 16) by lia. split_and!; try nia.
  - destruct (gi_mat G E) as (Hb & Hu & Ht & Hs). rewrite Hu, Ht in *. unfold CACHE_LINE_COUNT in *.
    pose proof (cdiv_spec (x_w d) (bf a * 16) ltac:(lia)) as H1. pose proof (cdiv_spec (x_w d) 16 eq_refl) as H2.
    assert (0 < cdiv (x_w d) (bf a * 16)) by nia. split_and!; try nia.
Qed.

(** ** The run of the preprocessor *)
Definition fresh_index : Z -> DataIndex := fun _ => DataIndex_default.
Definition rp_of (e : Z) : list Z := offsets (engine_rows e).
Definition ci_of (e : Z) : list Z := concat (engine_rows e).

Definition distributed : Pre :=
  p <| p_index := tab n (indexed (total_urb d) engine_rows fresh_index) |>
    <| p_row_ptr := tab n rp_of |> <| p_col_idx := tab n ci_of |>.

Lemma lac_width_id (x : ArchInfo) : x <| lac_width := lac_width x |> = x.
Proof. by destruct x. Qed.

Lemma distribute_run :
  (p2 ← LAC (p <| p_index := p_index p ++ replicate (Z.to_nat n) DataIndex_default |>); Tiling p2) = Ok distributed.
Proof.
  destruct (gi_graph G) as [Hrp Hci]. destruct (gi_fresh G) as (Hi & _ & _). pose proof (gi_n G) as Hn. pose proof (gi_w G) as Hw.
  rewrite Hi. cbn [app]. rewrite tab_replicate.
  change (tab n (fun _ => DataIndex_default)) with (tab n fresh_index).
  match goal with |- LAC ?q ≫= _ = _ => set (q0 := q) end.
  assert (Hq : p_index q0 = tab n fresh_index) by done.
  rewrite (LAC_run q0 rows fresh_index (proj1 Hn) Hw Hrp Hci Hq). cbn [mbind outcome_bind].
  rewrite lac_width_id. subst q0. simpl. fold a d n w. destruct (decide (1 < nt)) as [Hnt|Hnt].
  - pose proof (gi_tiles G). pose proof (gi_size G). pose proof rows_pos. destruct (gi_height G) as (_ & Haw & _).
    match goal with |- Tiling ?q = _ => set (q1 := q) end.
    destruct (Tiling_run q1 (lac_rows w n rows) (indexed (total_urb d) (lac_rows w n rows) fresh_index)) as (_ & _ & ->);
      try done; simpl; fold a d n w nt; try lia.
    + intros e r c Hr Hc. rewrite Haw. exact (gi_cols G r c (lac_rows_elem _ _ _ _ _ Hr) Hc).
    + assert (Er : forall e, engine_rows e = tile_rows nt (cdiv (a_w d) nt) (lac_rows w n rows e)).
      { intros e. unfold engine_rows. by rewrite decide_True by done. }
      unfold distributed. simpl. do 2 f_equal; apply tab_ext; intros e _; unfold indexed, rp_of, ci_of; by rewrite Er.
  - assert (Er : forall e, engine_rows e = lac_rows w n rows e).
    { intros e. unfold engine_rows. by rewrite decide_False by done. }
    unfold Tiling. simpl. fold d nt. rewrite decide_False by done.
    unfold distributed. simpl. do 2 f_equal; apply tab_ext; intros e _; unfold indexed, rp_of, ci_of; by rewrite Er.
Qed.

(** The line markers of the feature rows. *)
Definition marks (x : Z -> Z -> Z) (j : Z) : Z -> Z :=
  match mode a with
  | X_CMP => xcmp_marker (x_unit a) (x_w d) (cdiv (x_unit a) 32) (x j)
  | _ => fun _ => 1
  end.

Definition featured (x : Z -> Z -> Z) : Pre :=
  distributed <| p_arch := a <| urb := slice_lines |> <| bf := slices |> |>
    <| p_data := d <| total_urb := row_lines |> |>
    <| p_x_to_addr := tab (vsize rows) (fun j => tab row_lines (marks x j)) |>
    <| p_index := tab n (indexed row_lines engine_rows fresh_index) |> <| p_xw := [] |>.

Lemma slices_id (x : ArchInfo) : x <| urb := urb x |> <| bf := bf x |> = x.
Proof. by destruct x. Qed.
Lemma row_lines_id (x : DataInfo) : x <| total_urb := total_urb x |> = x.
Proof. by destruct x. Qed.

Lemma feature_run oob :
  exists x, TransXW oob (distributed <| p_x_to_addr := p_x_to_addr distributed ++ replicate (Z.to_nat (x_h d)) [] |>) =
    Ok (featured x).
Proof.
  destruct (gi_fresh G) as (_ & Hx & _). destruct (gi_height G) as (_ & _ & Hh). pose proof rows_pos. pose proof (gi_n G).
  pose proof (gi_width G). change (p_x_to_addr distributed) with (p_x_to_addr p). rewrite Hx. cbn [app]. rewrite tab_replicate, Hh.
  unfold featured, marks, row_lines, slices, slice_lines. destruct (gi_mode G) as [E|E]; rewrite E.
  - destruct (gi_xcmp G E) as (Hu & x & Hxw). exists x.
    match goal with |- TransXW oob ?q = _ => set (q0 := q) end.
    rewrite (transxw_xcmp_run q0 oob rp_of (indexed (total_urb d) engine_rows fresh_index) x); try done; simpl;
      fold a d n; rewrite ?Hh; try done; try lia.
    do 2 f_equal. apply tab_ext. intros e He. unfold indexed, rp_of, zero_rows. simpl. f_equal. rewrite vsize_offsets. ring.
  - exists (fun _ _ => 0). destruct (gi_mat G E) as (_ & _ & Ht & _). rewrite slices_id, row_lines_id.
    match goal with |- TransXW oob ?q = _ => set (q0 := q) end.
    rewrite (transxw_mat_run q0 oob); try done; simpl; fold a d n; rewrite ?Hh; try done; try lia.
    by rewrite <- Ht.
Qed.

(** ** The address map *)
Definition feature_base (x : Z -> Z -> Z) : Z := xw_base (featured x) rp_of ci_of.

Definition prepared (x : Z -> Z -> Z) : Pre :=
  let base := feature_base x in
  (featured x) <| p_arch := (p_arch (featured x)) <| d_value_addr_start := 0 |>
      <| a_row_addr_start := row_base (featured x) ci_of |> <| a_col_addr_start := col_base (featured x) rp_of ci_of |>
      <| xw_ele_addr_start := base |>
      <| axw_addr_start := base + vsize rows * row_lines * CACHE_LINE_BYTE |> |>
    <| p_index := tab n (placed (featured x) rp_of ci_of (indexed row_lines engine_rows fresh_index)) |>
    <| p_x_to_addr := tab (vsize rows) (fun j => tab row_lines
         (AddressMap.mapped (vsize rows) slice_lines row_lines base (marks x) j)) |>.

Lemma region_sizes e : 0 <= e < n ->
  0 < cdiv (vsize (rp_of e)) CACHE_LINE_COUNT <= 2 ^ 20 + 1 /\ 0 < cdiv (vsize (ci_of e)) CACHE_LINE_COUNT <= 2 ^ 20 + 1.
Proof.
  intros He. destruct (engine_bounds e He) as [H1 H2]. unfold edges in H1. unfold rp_of, ci_of. rewrite vsize_offsets.
  pose proof (vsize_nonneg (engine_rows e)).
  pose proof (cdiv_spec (vsize (engine_rows e) + 1) CACHE_LINE_COUNT eq_refl).
  pose proof (cdiv_spec (vsize (concat (engine_rows e))) CACHE_LINE_COUNT eq_refl). unfold CACHE_LINE_COUNT in *. lia.
Qed.

Lemma psum_bound f : (forall e, 0 <= e < n -> 0 < f e <= 2 ^ 20 + 1) -> 1 <= psum f n <= 2 ^ 45.
Proof.
  intros Hf. pose proof (gi_n G) as Hn. split.
  - transitivity (psum (fun _ => 1) n); [rewrite psum_const; lia|]. apply psum_le. intros k Hk. specialize (Hf k Hk). lia.
  - transitivity (psum (fun _ => 2 ^ 20 + 1) n); [|rewrite psum_const; lia]. apply psum_le. intros k Hk. specialize (Hf k Hk). lia.
Qed.

(** Everything fits into the address space, and the features do not start at 0. *)
Lemma base_bounds x : CACHE_LINE_BYTE <= feature_base x /\
  feature_base x + vsize rows * row_lines * CACHE_LINE_BYTE < 2 ^ 63.
Proof.
  pose proof (psum_bound _ (fun e He => proj1 (region_sizes e He))) as H1.
  pose proof (psum_bound _ (fun e He => proj2 (region_sizes e He))) as H2.
  destruct slices_ok as (S1 & S2 & S3 & _ & S5). pose proof (gi_size G) as [H3 _]. pose proof (gi_tiles G). pose proof rows_pos.
  assert (vsize rows <= 2 ^ 24) by nia. assert (0 <= row_lines) by nia.
  assert (vsize rows * row_lines <= 2 ^ 24 * 2 ^ 26) by nia.
  unfold feature_base, xw_base, col_base, row_base, region, CACHE_LINE_BYTE. simpl. fold a n. lia.
Qed.

Lemma mapping_run x : AddressMapping (featured x) = Ok (prepared x).
Proof.
  pose proof (gi_n G). pose proof rows_pos. destruct (gi_height G) as (_ & _ & Hh). pose proof (base_bounds x) as [_ Hb].
  destruct slices_ok as (S1 & S2 & S3 & _). unfold feature_base in Hb.
  destruct (sliced_mapping_run (featured x) rp_of ci_of (indexed row_lines engine_rows fresh_index) (marks x)) as [_ ->];
    simpl; fold a d n; rewrite ?Hh; try done; try lia.
  - exact (gi_mode G).
  - intros e He. destruct (engine_bounds e He). unfold rp_of. rewrite vsize_offsets. lia.
  - intros e He. destruct (engine_bounds e He) as [He1 _]. apply He1.
  - unfold prepared, feature_base. simpl. fold a d n. by rewrite Hh.
Qed.

(** [total_write] counts the output lines of all the engines. *)
Lemma total_run x :
  fold_left (fun t i => u64 (t + di_total_write i)) (p_index (prepared x)) 0 =
  psum (fun e => nonzero_rows (engine_rows e) * row_lines) n.
Proof.
  pose proof (gi_n G) as Hn. destruct slices_ok as (S1 & S2 & S3 & _ & S5). pose proof (gi_size G) as [Hs _].
  assert (Hbound : forall k, 0 <= k <= n -> 0 <= psum (fun e => nonzero_rows (engine_rows e) * row_lines) k < 2 ^ 64).
  { intros k Hk. rewrite psum_mul.
    assert (0 <= psum (fun e => nonzero_rows (engine_rows e)) k).
    { apply psum_nonneg; [|lia]. intros e. apply nonzero_rows_le. }
    assert (psum (fun e => nonzero_rows (engine_rows e)) k <= psum (fun e => vsize (engine_rows e)) n).
    { transitivity (psum (fun e => vsize (engine_rows e)) k); [apply psum_le; intros e _; apply nonzero_rows_le|].
      apply psum_mono; [intros e; apply vsize_nonneg|lia]. }
    rewrite engine_total in *. assert (0 <= row_lines) by nia.
    set (P := psum (fun e => nonzero_rows (engine_rows e)) k) in *. assert (P * row_lines <= 2 ^ 24 * 2 ^ 26) by nia. nia. }
  simpl. unfold tab.
  assert (H : forall k, 0 <= k <= n ->
    fold_left (fun t i => u64 (t + di_total_write i))
      (placed (featured x) rp_of ci_of (indexed row_lines engine_rows fresh_index) <$> seqZ 0 k) 0 =
    psum (fun e => nonzero_rows (engine_rows e) * row_lines) k).
  { intros k Hk. replace k with (Z.of_nat (Z.to_nat k)) in * by lia. induction (Z.to_nat k) as [|m IH]; [done|].
    replace (Z.of_nat (S m)) with (Z.of_nat m + 1) in * by lia.
    rewrite (seqZ_app 0 (Z.of_nat m) 1), fmap_app, fold_left_app, IH, psum_succ by lia. rewrite Z.add_0_l, seqZ_one. simpl.
    apply u64_small. pose proof (Hbound (Z.of_nat m + 1) ltac:(lia)) as Hb. by rewrite psum_succ in Hb by lia. }
  apply H. lia.
Qed.

Definition result (x : Z -> Z -> Z) : Pre :=
  (prepared x) <| p_total_write := psum (fun e => nonzero_rows (engine_rows e) * row_lines) n |>.

Lemma preprocess_run oob : exists x, Preprocess oob p = Ok (result x).
Proof.
  destruct (feature_run oob) as (x & Ex). exists x. unfold Preprocess. fold a n.
  pose proof distribute_run as E. apply bind_ok in E as (p2 & E1 & E2). rewrite E1. cbn [mbind outcome_bind].
  rewrite E2. cbn [mbind outcome_bind]. change (x_h (p_data distributed)) with (x_h d). rewrite Ex. cbn [mbind outcome_bind].
  rewrite mapping_run. cbn [mbind outcome_bind]. destruct (gi_fresh G) as (_ & _ & Ht).
  change (p_total_write (prepared x)) with (p_total_write p). rewrite Ht, total_run. done.
Qed.

(** ** The result is well prepared *)
Lemma marks_range x j c : marks x j c = 1 \/ (mode a = X_CMP /\ marks x j c = 0).
Proof.
  unfold marks. destruct (mode a); [|by left..]. unfold xcmp_marker, marker. destruct (_ >? 0); auto.
Qed.

(** The first line of every slice is present. *)
Lemma marks_first x j f : 0 <= f -> marks x j (f * slice_lines) = 1.
Proof.
  intros Hf. unfold marks, slice_lines. destruct (gi_mode G) as [E|E]; rewrite E; [|done].
  destruct (gi_xcmp G E) as [Hu _]. pose proof (cdiv_spec (x_unit a) CACHE_LINE_COUNT eq_refl) as H1.
  pose proof (cdiv_spec (x_unit a) 32 eq_refl) as H2. unfold CACHE_LINE_COUNT in *.
  unfold xcmp_marker, marker, block_words. unfold CACHE_LINE_COUNT. rewrite Z.mod_mul, Z.div_mul by lia.
  assert (Hz : forall lo hi, 0 <= nnz (x j) lo hi).
  { intros lo hi. unfold nnz. destruct (decide (0 <= hi - lo)).
    - apply psum_nonneg; [|done]. intros k. destruct (decide _); lia.
    - unfold psum. by replace (Z.to_nat (hi - lo)) with 0%nat by lia. }
  specialize (Hz (Z.max 1 (f * x_unit a)) (Z.min ((f + 1) * x_unit a) (x_w d))).
  destruct (Z.gtb_spec (cdiv (x_unit a) 32 + nnz (x j) (Z.max 1 (f * x_unit a)) (Z.min ((f + 1) * x_unit a) (x_w d)) - 0 * 16) 0); [done|lia].
Qed.

Lemma line_addr_ok x j c : 0 <= j < vsize rows -> 0 <= c < row_lines ->
  line_ok (env_of (result x)) (line_addr (vsize rows) slice_lines row_lines (feature_base x) j c).
Proof.
  intros Hj Hc. destruct slices_ok as (S1 & S2 & S3 & _). destruct (base_bounds x) as [B1 B2].
  pose proof (line_index_range slices (vsize rows) slice_lines row_lines ltac:(lia) ltac:(lia) ltac:(lia) ltac:(lia) j c Hj Hc) as Hr.
  unfold line_ok, line_addr, u64_max, CACHE_LINE_BYTE in *. simpl. fold (feature_base x). lia.
Qed.

Lemma mapped_line x j c : 0 <= j < vsize rows -> 0 <= c < row_lines ->
  let v := AddressMap.mapped (vsize rows) slice_lines row_lines (feature_base x) (marks x) j c in
  (marks x j c = 1 -> line_ok (env_of (result x)) v) /\ (line_ok (env_of (result x)) v \/ (mode a = X_CMP /\ v = 0)).
Proof.
  intros Hj Hc v. unfold v, AddressMap.mapped. destruct (marks_range x j c) as [E|[E1 E2]].
  - rewrite E, decide_True by done. pose proof (line_addr_ok x j c Hj Hc). auto.
  - rewrite E2, decide_False by done. split; [done|]. by right.
Qed.

(** The engine record that the address map leaves. *)
Definition index_of (x : Z -> Z -> Z) : Z -> DataIndex :=
  placed (featured x) rp_of ci_of (indexed row_lines engine_rows fresh_index).

Lemma result_prepared x : well_prepared (env_of (result x)) (mode a) engine_rows (index_of x).
Proof.
  pose proof (gi_n G) as Hn. destruct (gi_height G) as (Hh & _ & Hxh). pose proof rows_pos as Hrows.
  destruct slices_ok as (S1 & S2 & S3 & S4 & S5). destruct (base_bounds x) as [B1 B2].
  assert (Hrl : 0 < row_lines) by nia. pose proof (gi_size G) as [Hs1 Hs2]. pose proof (gi_tiles G).
  split; simpl; fold a n; try done; try lia.
  - assert (Hfit : xw_base (featured x) rp_of ci_of < 2 ^ 64).
    { fold (feature_base x). unfold CACHE_LINE_BYTE in B2. nia. }
    apply (placed_layout (featured x) rp_of ci_of _ ltac:(simpl; fold a n; lia) Hfit).
  - intros e He. unfold index_of, placed, region. simpl. rewrite !psum_succ by lia. unfold rp_of. rewrite vsize_offsets. ring.
  - intros e He. unfold index_of, placed, region. simpl. rewrite !psum_succ by lia. unfold ci_of, edges. ring.
  - intros e He. unfold index_of, placed, region. simpl. rewrite !psum_succ by lia. unfold ci_of, edges. ring.
  - intros e He. unfold zero_rows. lia.
  - intros e He. by destruct (engine_bounds e He) as [[? _] _].
  - intros e r c b f He Hr Hc Hf. pose proof (engine_cols e r c Hr Hc) as Hcr. split; [lia|].
    assert (Hfl : 0 <= f * slice_lines < row_lines) by nia.
    exists (tab row_lines (AddressMap.mapped (vsize rows) slice_lines row_lines (feature_base x) (marks x) c)). simpl.
    rewrite vget_tab by done. split; [done|]. split; [done|]. fold a.
    destruct (mapped_line x c (f * slice_lines) Hcr Hfl) as [Hl _]. specialize (Hl (marks_first x c f ltac:(lia))).
    destruct (gi_mode G) as [E|E]; rewrite E; (split; [rewrite vsize_tab; lia|]); (split; [lia|]);
      eexists; rewrite vget_tab by lia; (split; [reflexivity|]); by rewrite Z.add_0_r.
  - exact (gi_cache G).
  - intros i r j v Hi Hj. apply vget_tab_inv in Hi as [Hi ->]. apply vget_tab_inv in Hj as [Hj ->].
    by apply mapped_line.
  - fold a n. rewrite <- (total_run x). pose proof (u64_range 0).
    change (fold_left (fun t i => u64 (t + di_total_write i)) (p_index (prepared x)) 0 < 2 ^ 64).
    assert (Hf : forall l t, t < 2 ^ 64 -> fold_left (fun t i => u64 (t + di_total_write i)) l t < 2 ^ 64).
    { induction l as [|i l IH]; intros t Ht; [done|]. apply IH. apply u64_range. }
    by apply Hf.
Qed.
End input.


(** The simulation of a preprocessed input. *)
Lemma result_simulates {D : Type} `{DramLaws D} `{!DramTotal D} p rows x (d : D) (fuel : nat) :
  good_input p rows -> dram_inv d -> dram_pending d = [] -> dram_ready (Z.of_nat fuel) d ->
  exists c0 r, Controller_new (env_of (result p rows x)) d (p_total_write (result p rows x)) = Ok c0 /\
    GCNInference (env_of (result p rows x)) fuel 0 (mode (p_arch (result p rows x))) c0 = Ok r /\
    forall cycles c, r = Some (cycles, c) -> all_written (env_of (result p rows x)) (engine_rows p rows) c.
Proof.
  intros G Hd Hp Hr.
  destruct (inference_loop_safe (env_of (result p rows x)) _ _ _ d fuel (result_prepared p rows G x) Hd Hp Hr)
    as (r & E1 & Hw). apply bind_ok in E1 as (c0 & E0 & E1). by exists c0, r.
Qed.

Lemma result_mem_type p rows x : mem_type (p_arch (result p rows x)) = mem_type (p_arch p).
Proof. done. Qed.



(** ** Witness: four vertices and two engines, read from text files, on HBM2 *)
Definition file_pre : Pre :=
  mkPre (mkArchInfo 2 1048576 4 4096 1 1 2 32 MAT GCN 0 0 0 0 0 "configs/HBM2_8Gb_x128.ini" EmptyString)
    (mkDataInfo 4 4 4 16 16 16 1 1 5 4) [] [[0; 2; 2; 3; 5]] [[1; 2; 0; 3; 0]] [] (replicate 4 (replicate 16 1)) 0.

(** What [ParseIni] and [ReadData] make of the files of Inputs.v. *)
Lemma file_pre_read :
  (m ← ReadIni (demo_fs "g.ini") ∅;
   '(a, log) ← ParseIni m ((p_arch (r_pre main_defaults)) <| mode := MAT |> <| lac_width := 2 |>) (r_log main_defaults);
   r ← ReadData (demo_fs "data/g.txt") (demo_fs "x.txt") ((r_pre main_defaults) <| p_arch := a |>) log; Ok r.1) = Ok file_pre.
Proof. vm_compute. reflexivity. Qed.

Definition file_rows : list (list Z) := [[1; 2]; []; [0]; [3; 0]].

Lemma file_good : good_input file_pre file_rows.
Proof.
  split.
  - by right.
  - split; reflexivity.
  - split_and!; reflexivity.
  - split; [reflexivity|discriminate].
  - reflexivity.
  - split_and!; reflexivity.
  - intros r c Hr Hc. assert (Hall : Forall (Forall (fun c => 0 <= c < 4)) file_rows).
    { repeat (apply Forall_cons; split; [repeat (apply Forall_cons; split; [lia|]); by apply Forall_nil|]). by apply Forall_nil. }
    eapply Forall_forall in Hall; [|exact Hr]. by eapply Forall_forall in Hall.
  - split; discriminate.
  - split; [reflexivity|discriminate].
  - intros e He. simpl in He. assert (e = 0 \/ e = 1) as [-> | ->] by lia; reflexivity.
  - split; [split; reflexivity|reflexivity].
  - split; [reflexivity|discriminate].
  - intros _. split_and!; reflexivity.
  - discriminate.
Qed.



