(* ===== verification/Main.v ===== *)
(** * The program (src/main.cc)

    [sim_main] is [main]: the options, the preprocessor, the controller with its
    memory, the inference and the record appended to the CSV file.  The directory
    the results go to and the lock file are left out; the memory system is what
    [new_dram] builds for the configured memory type, and the two figures read
    back from the JSON report of the DRAM simulator come from [report].  The file
    ends with the theorem that a run on well-formed text files works from end to
    end. *)

From stdpp Require Import base tactics list list_numbers numbers strings gmap.
From Stdlib Require Import ZArith Lia Ascii.
From S2P Require Import Prelude DramConfig ControllerSafety DramSystem Hmc MemorySystem DramInterface Common Float32 Csr Inputs.
From S2P Require Import Preprocess GraphDistribution Memory FeatureReader Accelerator Inference Prepared.

Local Open Scope string_scope.

(** ** The record of a run *)
Definition field (s : string) : string := s +:+ ",".

Definition csv_record (log : LogInfo) : string :=
  String newline
    (field (show_int (l_engine_n log)) +:+ field (show_int (l_mode log)) +:+ field (l_mem_type log) +:+
     field (show_int (l_cache_size log)) +:+ field (l_tiling_info log) +:+
     (if decide (l_mode log = 0%Z) then field (show_int (l_x_unit log)) else "-1,") +:+
     field (l_dataset log) +:+ field (show_int (l_lac_width log)) +:+
     field (show_int (l_feature_length log)) +:+ field (show_int (l_urb log)) +:+ field (show_int (l_bf log)) +:+
     field (show_int (l_cycle log)) +:+
     field (show_int (u64 (u64 (l_g_access log + l_f_ele_access log) + l_o_access log))) +:+
     field (show_int (l_g_access log)) +:+ field (show_int (l_f_frag_access log)) +:+
     field (show_int (u64 (l_f_ele_access log - l_f_frag_access log))) +:+ field (show_int (l_o_access log)) +:+
     field (l_bandwidth log) +:+ field (l_energy log)).

Local Close Scope string_scope.

Section main.
Context {D : Type} `{DramBackend D}.
Context (new_dram : string -> outcome D) (report : Controller D -> string * string).

(** What [main] and [PrintMemoryStats] add to the log after the inference. *)
Definition log_result (p : Pre) (cycle : Z) (c : Controller D) (log : LogInfo) : LogInfo :=
  let '(g, frag, ele, out) := PrintMemoryStats (s_mem (c_fs c)) in
  log <| l_cycle := cycle |> <| l_lac_width := lac_width (p_arch p) |> <| l_g_access := g |>
      <| l_f_frag_access := frag |> <| l_f_ele_access := ele |> <| l_o_access := out |>.

(** The end of [main]: the log and, when a CSV file was asked for, its new record. *)
Definition finish (r : Run) (cycle : Z) (c : Controller D) : LogInfo * option string :=
  let log := log_result (r_pre r) cycle c (r_log r) in
  if decide (f_csv_path (r_path r) = EmptyString) then (log, None)
  else
    let log := log <| l_bandwidth := (report c).1 |> <| l_energy := (report c).2 |> in
    (log, Some (csv_record log)).

Definition sim_main (oob : Z -> Z -> Z) (fs : string -> option string) (opts : list opt_event) (fuel : nat)
    : outcome (option (LogInfo * option string * Controller D)) :=
  r ← load_run oob fs opts;
  let env := env_of (r_pre r) in
  d ← new_dram (mem_type (p_arch (r_pre r)));
  c ← Controller_new env d (p_total_write (r_pre r));
  res ← GCNInference env fuel (Z.of_nat (size (r_davc r))) (mode (p_arch (r_pre r))) c;
  Ok (match res with None => None | Some (cycle, c) => Some (finish r cycle c, c) end).

Lemma sim_main_run oob fs opts fuel r d c0 res :
  load_run oob fs opts = Ok r -> new_dram (mem_type (p_arch (r_pre r))) = Ok d ->
  Controller_new (env_of (r_pre r)) d (p_total_write (r_pre r)) = Ok c0 ->
  GCNInference (env_of (r_pre r)) fuel (Z.of_nat (size (r_davc r))) (mode (p_arch (r_pre r))) c0 = Ok res ->
  sim_main oob fs opts fuel = Ok (match res with None => None | Some (cycle, c) => Some (finish r cycle c, c) end).
Proof.
  intros E1 E2 E3 E4. unfold sim_main. rewrite E1. cbn [mbind outcome_bind]. rewrite E2. cbn [mbind outcome_bind].
  rewrite E3. cbn [mbind outcome_bind]. by rewrite E4.
Qed.

Lemma finish_log r cycle c lg csv : finish r cycle c = (lg, csv) ->
  l_cycle lg = cycle /\
  (l_g_access lg, l_f_frag_access lg, l_f_ele_access lg, l_o_access lg) = PrintMemoryStats (s_mem (c_fs c)) /\
  csv = (if decide (f_csv_path (r_path r) = EmptyString) then None else Some (csv_record lg)).
Proof. unfold finish. destruct (decide _); intros E; simplify_eq; done. Qed.
End main.

(** ** Reading the files of a run *)

(** Options leave no feature matrix and no pinned vertex behind. *)
Definition unread (r : Run) : Prop := p_xw (r_pre r) = [] /\ r_davc r = ∅.

Lemma options_unread opts r : for_each GetOption opts main_defaults = Ok r -> unread r.
Proof.
  apply (for_each_inv GetOption unread); [|done].
  intros e s s' _ Hs E. destruct e as [c arg|c]; simpl in E; [|by repeat case_match; simplify_eq].
  repeat case_match; repeat (apply bind_ok in E as (? & _ & E)); by simplify_eq.
Qed.

Lemma offsets_ints rows : edges rows <= 2 ^ 24 -> Forall int_range (offsets rows).
Proof.
  intros He. unfold offsets. assert (H : forall l acc, 0 <= acc -> acc + edges l <= 2 ^ 24 -> Forall int_range (offsets_from acc l)).
  { induction l as [|r l IH]; intros acc Ha Hs; simpl; (apply Forall_cons; split; [unfold int_range|]).
    - rewrite edges_nil in Hs. lia.
    - by apply Forall_nil.
    - rewrite edges_cons in Hs. pose proof (vsize_nonneg r). pose proof (vsize_nonneg (concat l)). unfold edges in Hs. lia.
    - rewrite edges_cons in Hs. pose proof (vsize_nonneg r). apply IH; lia. }
  apply H; lia.
Qed.

Lemma columns_ints rows : vsize rows < 2 ^ 24 -> (forall r c, r ∈ rows -> c ∈ r -> 0 <= c < vsize rows) ->
  Forall int_range (concat rows).
Proof.
  intros Hs Hc. apply Forall_concat, Forall_forall. intros r Hr. apply Forall_forall. intros c Hin.
  specialize (Hc r c Hr Hin). unfold int_range. lia.
Qed.

(** The text files that describe a run: the options [r0] were read from the command
    line, [l] are the entries of the parameter file, [rows] and [xw] the graph and
    the features. *)
Section files.
Context (fs : string -> option string) (opts : list opt_event) (r0 : Run) (l : list (bool * string * string)).
Context (a : ArchInfo) (log : LogInfo) (rows : list (list Z)) (first : list Z) (rest : list (list Z)).

Definition read_input : Pre :=
  read_pre (offsets rows) (concat rows) (first :: rest) (vsize first) ((r_pre r0) <| p_arch := a |>).

Record good_files : Prop := {
  gf_options : for_each GetOption opts main_defaults = Ok r0;
  gf_no_davc : f_davc_path (r_path r0) = EmptyString;
  gf_ini : fs (f_ini (r_path r0)) = Some (ini_file l) /\ Forall ini_ok l;
  gf_params : ParseIni (ini_table l ∅) (p_arch (r_pre r0)) (r_log r0) = Ok (a, log);
  gf_bf : 0 < bf a <= 2 ^ 24;
  gf_graph : fs (f_a_data (r_path r0)) = Some (graph_file (offsets rows) (concat rows));
  gf_features : fs (f_xw_data (r_path r0)) = Some (matrix_file (first :: rest)) /\ Forall (Forall int_range) (first :: rest);
  gf_input : good_input read_input rows
}.

Lemma read_input_mem_type : mem_type (p_arch read_input) = mem_type a.
Proof. done. Qed.

Lemma load_files oob : good_files ->
  exists x r, load_run oob fs opts = Ok r /\ Preprocess oob read_input = Ok (result read_input rows x) /\
    r_pre r = result read_input rows x /\ r_davc r = ∅ /\ r_path r = r_path r0.
Proof.
  intros [Ho Hd [Hi Hl] Hp Hb Hg [Hx Hf] G]. destruct (preprocess_run read_input rows G oob) as (x & E). exists x.
  destruct (gi_size _ _ G) as [S1 S2]. destruct (gi_tiles _ _ G) as [T1 T2].
  assert (Hv : vsize rows < 2 ^ 24) by (pose proof (vsize_nonneg rows); nia).
  destruct (ReadData_files (offsets rows) (concat rows) first rest ((r_pre r0) <| p_arch := a |>) log) as (log' & ER).
  - by apply offsets_ints.
  - apply columns_ints; [done|]. exact (gi_cols _ _ G).
  - done.
  - exact (proj1 (options_unread opts r0 Ho)).
  - exact (gi_width _ _ G).
  - done.
  - unfold load_run. rewrite Ho. cbn [mbind outcome_bind]. unfold Preprocessor_new.
    rewrite Hi, ReadIni_file by done. cbn [mbind outcome_bind]. rewrite Hp. cbn [mbind outcome_bind]. rewrite Hg, Hx, ER.
    cbn [mbind outcome_bind]. unfold ReadDAVC. rewrite decide_True by done. cbn [mbind outcome_bind].
    fold read_input. rewrite E. cbn [mbind outcome_bind]. eexists. split; [reflexivity|]. split_and!; try done.
    exact (proj2 (options_unread opts r0 Ho)).
Qed.
End files.

(** The program over any memory system. *)
Lemma main_over_memory {D : Type} `{DramLaws D} `{!DramTotal D} (new_dram : string -> outcome D) report
    oob fs opts fuel r0 l a log rows first rest (d : D) :
  good_files fs opts r0 l a log rows first rest ->
  new_dram (mem_type a) = Ok d -> dram_inv d -> dram_pending d = [] -> dram_ready (Z.of_nat fuel) d ->
  exists p res, Preprocess oob (read_input r0 a rows first rest) = Ok p /\
    sim_main new_dram report oob fs opts fuel = Ok res /\
    forall lg csv c, res = Some (lg, csv, c) ->
      all_written (env_of p) (engine_rows (read_input r0 a rows first rest) rows) c /\
      (l_g_access lg, l_f_frag_access lg, l_f_ele_access lg, l_o_access lg) = PrintMemoryStats (s_mem (c_fs c)) /\
      csv = (if decide (f_csv_path (r_path r0) = EmptyString) then None else Some (csv_record lg)).
Proof.
  intros Hf Hn Hd Hp Hr. pose proof (gf_input _ _ _ _ _ _ _ _ _ Hf) as G.
  destruct (load_files _ _ _ _ _ _ _ _ _ oob Hf) as (x & r & E1 & EP & E2 & E3 & E4).
  destruct (result_simulates _ rows x d fuel G Hd Hp Hr) as (c0 & res & E0 & E & Hw).
  rewrite <- E2 in E0, E. eexists _, _. split; [exact EP|]. split.
  - eapply sim_main_run; [exact E1| |exact E0|].
    + by rewrite E2, result_mem_type, read_input_mem_type.
    + rewrite E3, size_empty. exact E.
  - intros lg csv c Ec. destruct res as [[cycle c']|]; [|done]. destruct (finish report r cycle c') as [lg' csv'] eqn:Ef.
    injection Ec as -> -> ->. destruct (finish_log _ _ _ _ _ _ Ef) as (_ & H1 & H2). rewrite E4 in H2.
    split; [|by split]. rewrite <- E2 in Hw |- *. by eapply Hw.
Qed.


(** ** Witness: the files of Inputs.v on HBM2, with a record in [out.csv] *)
Definition main_fs (path : string) : option string :=
  if decide (path = "configs/HBM2_8Gb_x128.ini"%string) then Some hbm2_file else demo_fs path.
Definition main_options : list opt_event := demo_options ++ [Opt "c"%char "out.csv"%string].
Definition main_run : Run := match for_each GetOption main_options main_defaults with Ok r => r | _ => main_defaults end.
Definition main_arch : ArchInfo :=
  match ParseIni (ini_table demo_params ∅) (p_arch (r_pre main_run)) (r_log main_run) with Ok r => r.1 | _ => p_arch (r_pre main_run) end.
Definition main_log : LogInfo :=
  match ParseIni (ini_table demo_params ∅) (p_arch (r_pre main_run)) (r_log main_run) with Ok r => r.2 | _ => r_log main_run end.

Lemma main_files :
  good_files main_fs main_options main_run demo_params main_arch main_log file_rows (replicate 16 1) (replicate 3 (replicate 16 1)).
Proof.
  split.
  - vm_compute. reflexivity.
  - vm_compute. reflexivity.
  - split; [vm_compute; reflexivity|]. repeat (apply Forall_cons; split; [repeat split; discriminate|]). by apply Forall_nil.
  - vm_compute. reflexivity.
  - split; vm_compute; [reflexivity|discriminate].
  - vm_compute. reflexivity.
  - split; [vm_compute; reflexivity|]. repeat constructor; discriminate.
  - replace (read_input _ _ _ _ _) with file_pre by (vm_compute; reflexivity). exact file_good.
Qed.


(** The run takes 66 cycles; its record. *)
Example main_record :
  (res ← sim_main (GetMemorySystem main_fs) (fun _ => ("1.5", "20")%string) (fun _ _ => 0) main_fs main_options 1000;
   Ok (match res with Some (log, csv, _) => (l_cycle log, csv) | None => (0, None) end)) =
  Ok (66, Some (String newline "2,1,HBM2,1,1,-1,g,2,16,1,1,66,13,6,0,4,3,1.5,20,")).
Proof. vm_compute. reflexivity. Qed.

(** Without the option [-u] the slices are 32 elements wide, but the record says 0. *)
Example default_unit_not_logged :
  x_unit (p_arch (r_pre main_defaults)) = 32 /\ l_mode (r_log main_defaults) = 0 /\ l_x_unit (r_log main_defaults) = 0 /\
  csv_record (r_log main_defaults) = String newline "0,0,,0,,0,,0,0,0,0,0,0,0,0,0,0,,,".
Proof. vm_compute. split_and!; reflexivity. Qed.

(** The same run on a memory cube. *)
Example main_on_hmc :
  (res ← sim_main (fun _ => MemorySystem_new hmc_config) (fun _ => ("1.5", "20")%string) (fun _ _ => 0) main_fs main_options 1000;
   Ok (match res with Some (log, csv, _) => (l_cycle log, csv) | None => (0, None) end)) =
  Ok (121, Some (String newline "2,1,HBM2,1,1,-1,g,2,16,1,1,121,13,6,0,4,3,1.5,20,")).
Proof. vm_compute. reflexivity. Qed.
