(* ===== verification/CsvLog.v ===== *)
(** * Several runs at once (src/main.cc)

    [main] is meant to be started many times over the same working directory
    ("large scale queueing").  What the processes share is the file system: the
    directory results/, in which each run makes a directory of its own, and the
    CSV file, which is guarded by a lock file.  A process is a sequence of file
    operations; a schedule says whose turn it is.  [stat] and [mkdir], and [stat]
    and the creation of the lock file, are two operations each, so another
    process may come in between. *)

From stdpp Require Import base tactics list list_numbers numbers strings gmap.
From Stdlib Require Import ZArith Lia Ascii.
From S2P Require Import Prelude IniReader Common Inputs Main.

(** Where a process is in [main]; the index is that of its result directory. *)
Inductive phase :=
  | StatResults            (** [stat(results_path)] *)
  | MkdirResults           (** [mkdir(results_path)] *)
  | StatResult (idx : Z)   (** [while (stat(result_path) != -1)] *)
  | MkdirResult (idx : Z)  (** [mkdir(result_path)] *)
  | Simulate (idx : Z)
  | CheckLock (idx : Z)    (** [if (!exists(lock_csv_path))] *)
  | CreateLock (idx : Z)   (** [ofstream lockfile (lock_csv_path)] *)
  | StartRecord (idx : Z)  (** [csv_out << endl], which flushes *)
  | WriteRecord (idx : Z)  (** the rest, written by [csv_out.close()] *)
  | RemoveLock (idx : Z)   (** [remove(lock_csv_path)] *)
  | Done (idx : Z).

#[export] Instance phase_eq_dec : EqDecision phase.
Proof. solve_decision. Defined.

(** A process: its phase and the line it appends, if it was given a CSV file. *)
Record Proc := mkProc { pr_phase : phase; pr_line : option string }.

#[export] Instance Proc_fields : Fields Proc := fun p => mkProc (pr_phase p) (pr_line p).

(** The part of the file system [main] uses: does results/ exist, the indices of
    the directories in it, the lock file and the contents of the CSV file. *)
Record World := mkWorld {
  w_results : bool;
  w_dirs : gset Z;
  w_lock : bool;
  w_csv : string;
  w_procs : list Proc
}.

#[export] Instance World_fields : Fields World := fun w =>
  mkWorld (w_results w) (w_dirs w) (w_lock w) (w_csv w) (w_procs w).

(** [exists(name)] of the lock file. *)
Definition exists_lock (w : World) : bool := w_lock w.

(** [mkdir(result_path)]: its result is not looked at. *)
Definition make_result (idx : Z) (w : World) : World :=
  if w_results w then w <| w_dirs := {[ idx ]} ∪ w_dirs w |> else w.

Definition append (s : string) (w : World) : World := w <| w_csv := (w_csv w +:+ s)%string |>.

(** The effect of the next operation of a process and where it is afterwards. *)
Definition proc_step (p : Proc) (w : World) : World * phase :=
  match pr_phase p with
  | StatResults => (w, if w_results w then StatResult 0 else MkdirResults)
  | MkdirResults => (w <| w_results := true |>, StatResult 0)
  | StatResult idx => (w, if bool_decide (idx ∈ w_dirs w) then StatResult (idx + 1) else MkdirResult idx)
  | MkdirResult idx => (make_result idx w, Simulate idx)
  | Simulate idx => (w, match pr_line p with None => Done idx | Some _ => CheckLock idx end)
  | CheckLock idx => (w, if exists_lock w then CheckLock idx else CreateLock idx)
  | CreateLock idx => (w <| w_lock := true |>, StartRecord idx)
  | StartRecord idx => (append (String newline EmptyString) w, WriteRecord idx)
  | WriteRecord idx => (append (default EmptyString (pr_line p)) w, RemoveLock idx)
  | RemoveLock idx => (w <| w_lock := false |>, Done idx)
  | Done idx => (w, Done idx)
  end.

(** Process [i] takes its turn. *)
Definition step (i : nat) (w : World) : World :=
  match w_procs w !! i with
  | None => w
  | Some p =>
      let '(w, ph) := proc_step p w in
      w <| w_procs := <[i := p <| pr_phase := ph |>]> (w_procs w) |>
  end.

Definition run (sched : list nat) (w : World) : World := fold_left (fun w i => step i w) sched w.

(** A fresh directory and processes at the start of [main]. *)
Definition start (lines : list (option string)) : World :=
  mkWorld false ∅ false EmptyString (mkProc StatResults <$> lines).

(** The line of the record [sim_main] returns; the line break before it is written
    on its own. *)
Definition record_line (csv : option string) : option string :=
  match csv with Some (String _ s) => Some s | _ => None end.

(** ** Any schedule: nothing is lost, nothing is written twice *)

(** What a process has written so far. *)
Definition pieces (p : Proc) : list string :=
  match pr_phase p, pr_line p with
  | WriteRecord _, _ => [String newline EmptyString]
  | RemoveLock _, l => [String newline EmptyString; default EmptyString l]
  | Done _, Some l => [String newline EmptyString; l]
  | _, _ => []
  end.

Definition cat (l : list string) : string := foldr String.append EmptyString l.

Lemma cat_app l l' : cat (l ++ l') = (cat l +:+ cat l')%string.
Proof.
  induction l as [|s l IH]; [done|]. change (s +:+ cat (l ++ l') = (s +:+ cat l) +:+ cat l')%string.
  by rewrite IH, string_app_assoc.
Qed.

Lemma cat_snoc l s : cat (l ++ [s]) = (cat l +:+ s)%string.
Proof. rewrite cat_app. change (cat [s]) with (s +:+ EmptyString)%string. by rewrite string_app_nil. Qed.

Lemma record_pieces idx log :
  cat (pieces (mkProc (Done idx) (record_line (Some (csv_record log))))) = csv_record log.
Proof. unfold pieces, csv_record. cbn [pr_phase pr_line record_line cat foldr]. by rewrite string_app_nil. Qed.

(** A process at the lock or behind it has a line. *)
Definition inside (p : Proc) : bool :=
  match pr_phase p with StartRecord _ | WriteRecord _ | RemoveLock _ => true | _ => false end.
Definition has_line (p : Proc) : Prop :=
  match pr_phase p with
  | CheckLock _ | CreateLock _ | StartRecord _ | WriteRecord _ | RemoveLock _ => pr_line p <> None
  | _ => True
  end.
(** The directory a process has made. *)
Definition own_dir (p : Proc) : option Z :=
  match pr_phase p with
  | Simulate i | CheckLock i | CreateLock i | StartRecord i | WriteRecord i | RemoveLock i | Done i => Some i
  | _ => None
  end.
Definition past_mkdir (p : Proc) : bool :=
  match pr_phase p with StatResults | MkdirResults => false | _ => true end.

(** The new pieces of a step. *)
Lemma pieces_step p w w' ph :
  has_line p -> proc_step p w = (w', ph) ->
  exists new, pieces (p <| pr_phase := ph |>) = pieces p ++ new /\ w_csv w' = (w_csv w +:+ cat new)%string /\
    has_line (p <| pr_phase := ph |>) /\ w_procs w' = w_procs w.
Proof.
  intros Hl Hs. destruct p as [ph0 l]. unfold proc_step, pieces, has_line in *. simpl in *.
  assert (E0 : forall s, (s +:+ "" = s)%string) by apply string_app_nil.
  assert (E1 : forall s, cat [s] = s) by (intros; apply E0).
  destruct ph0; simplify_eq; simpl; try (exists []; simpl; rewrite E0; split_and!; done).
  - exists []. rewrite E0. by destruct (w_results w').
  - exists []. rewrite E0. by destruct (bool_decide _).
  - exists []. simpl. rewrite E0. unfold make_result. by destruct (w_results w).
  - exists []. rewrite E0. by destruct l.
  - exists []. rewrite E0. by destruct (exists_lock w').
  - exists [String newline EmptyString]. rewrite E1. done.
  - exists [default EmptyString l]. rewrite E1. done.
  - exists []. simpl. rewrite E0. by destruct l.
  - exists []. rewrite E0. by destruct l.
Qed.

Record world_ok (w : World) : Prop := {
  wo_lines : Forall has_line (w_procs w);
  wo_csv : exists l, w_csv w = cat l /\ l ≡ₚ concat (pieces <$> w_procs w);
  wo_lock : w_lock w = true -> exists j p, w_procs w !! j = Some p /\ inside p = true;
  wo_dirs : forall j p, w_procs w !! j = Some p -> past_mkdir p = true ->
    w_results w = true /\ forall i, own_dir p = Some i -> i ∈ w_dirs w
}.

Lemma start_ok lines : world_ok (start lines).
Proof.
  assert (Hp : forall p, p ∈ mkProc StatResults <$> lines -> pr_phase p = StatResults).
  { intros p (l & -> & _)%list_elem_of_fmap. done. }
  split; simpl; try done.
  - apply Forall_forall. intros p Hin. unfold has_line. by rewrite (Hp p Hin).
  - exists []. split; [done|]. clear Hp. induction lines as [|l lines IH]; [done|]. simpl. apply IH.
  - intros j p Hj%list_elem_of_lookup_2. unfold past_mkdir. by rewrite (Hp p Hj).
Qed.

Lemma pieces_insert (ps : list Proc) i p p' new :
  ps !! i = Some p -> pieces p' = pieces p ++ new ->
  concat (pieces <$> <[i := p']> ps) ≡ₚ concat (pieces <$> ps) ++ new.
Proof.
  intros Hi Hp. rewrite <- (take_drop_middle ps i p Hi) at 2. rewrite insert_take_drop by (by eapply lookup_lt_Some).
  rewrite !fmap_app, !concat_app, !fmap_cons. cbn [concat]. rewrite Hp, <- !app_assoc.
  by rewrite (Permutation_app_comm new).
Qed.

(** What a step does to the directories and the lock. *)
Lemma dirs_step p w w' ph :
  (past_mkdir p = true -> w_results w = true /\ forall i, own_dir p = Some i -> i ∈ w_dirs w) ->
  proc_step p w = (w', ph) ->
  (w_results w = true -> w_results w' = true) /\ w_dirs w ⊆ w_dirs w' /\
  (past_mkdir (p <| pr_phase := ph |>) = true ->
   w_results w' = true /\ forall i, own_dir (p <| pr_phase := ph |>) = Some i -> i ∈ w_dirs w').
Proof.
  intros Hp Hs. destruct p as [ph0 l]. unfold proc_step, past_mkdir, own_dir, make_result in *. simpl in *.
  destruct ph0; simplify_eq; simpl; repeat case_match; simplify_eq; simpl in *; naive_solver set_solver.
Qed.

Lemma lock_step p w w' ph :
  proc_step p w = (w', ph) -> w_lock w' = true ->
  inside (p <| pr_phase := ph |>) = true \/ (w_lock w = true /\ inside p = false).
Proof.
  intros Hs Hl. destruct p as [ph0 l]. unfold proc_step, inside, make_result in *. simpl in *.
  destruct ph0; simplify_eq; simpl in *; repeat case_match; simplify_eq; simpl in *; auto.
Qed.

Lemma world_step_ok i w : world_ok w -> world_ok (step i w).
Proof.
  intros [Hl (l & Hc & Hp) Hk Hd]. unfold step. destruct (w_procs w !! i) as [p|] eqn:Hi; [|by split; eauto].
  destruct (proc_step p w) as [w' ph] eqn:Hs. pose proof (proj1 (Forall_lookup _ _) Hl i p Hi) as Hlp.
  destruct (pieces_step p w w' ph Hlp Hs) as (new & E1 & E2 & E3 & E4).
  destruct (dirs_step p w w' ph (Hd i p Hi) Hs) as (D1 & D2 & D3). rewrite E4. split; simpl.
  - by apply Forall_insert.
  - exists (l ++ new). rewrite E2, Hc, cat_app. split; [done|]. rewrite (pieces_insert _ _ _ _ new Hi E1). by rewrite Hp.
  - intros Hw. destruct (lock_step p w w' ph Hs Hw) as [Hin|[Hw0 Hn]].
    + exists i. eexists. split; [|exact Hin]. apply list_lookup_insert_eq. by eapply lookup_lt_Some.
    + destruct (Hk Hw0) as (j & q & Hj & Hq). destruct (decide (i = j)) as [->|Hne]; [congruence|].
      exists j, q. by rewrite list_lookup_insert_ne.
  - intros j q Hj Hq. destruct (decide (i = j)) as [->|Hne].
    + rewrite list_lookup_insert_eq in Hj by (by eapply lookup_lt_Some). injection Hj as <-. auto.
    + rewrite list_lookup_insert_ne in Hj by done. destruct (Hd j q Hj Hq) as [H1 H2]. split; [auto|]. intros k Hk'. by apply D2, H2.
Qed.

Lemma world_run_ok sched w : world_ok w -> world_ok (run sched w).
Proof. revert w. induction sched as [|i sched IH]; intros w Hw; [done|]. by apply IH, world_step_ok. Qed.

(** ** If the check and the creation of the lock were one operation *)

(** A turn in which a process that finds no lock also creates it. *)
Definition atomic_step (i : nat) (w : World) : World :=
  let w1 := step i w in
  match w_procs w1 !! i with
  | Some (mkProc (CreateLock _) _) => step i w1
  | _ => w1
  end.
Definition atomic_run (sched : list nat) (w : World) : World := fold_left (fun w i => atomic_step i w) sched w.

(** The line of a process whose record is complete. *)
Definition written (p : Proc) : list string :=
  match pr_phase p, pr_line p with
  | RemoveLock _, Some l | Done _, Some l => [l]
  | _, _ => []
  end.
Definition creating (p : Proc) : bool := match pr_phase p with CreateLock _ => true | _ => false end.
(** The record the holder of the lock has begun. *)
Definition begun (h : option Proc) : string :=
  match h with
  | Some (mkProc (WriteRecord _) _) => String newline EmptyString
  | _ => EmptyString
  end.

(** The holder [h] is the only process inside, the lock file says so, and the file
    is whole records followed by what the holder has begun. *)
Record exclusive (h : option (nat * Proc)) (order : list string) (w : World) : Prop := {
  ex_lines : Forall has_line (w_procs w);
  ex_create : Forall (fun p => creating p = false) (w_procs w);
  ex_inside : forall j p, w_procs w !! j = Some p -> inside p = true -> h = Some (j, p);
  ex_holder : forall j p, h = Some (j, p) -> w_procs w !! j = Some p /\ inside p = true;
  ex_lock : w_lock w = bool_decide (h <> None);
  ex_csv : w_csv w = (cat (String newline <$> order) +:+ begun (snd <$> h))%string;
  ex_order : order ≡ₚ concat (written <$> w_procs w)
}.

Lemma written_insert (ps : list Proc) i p p' new :
  ps !! i = Some p -> written p' = written p ++ new ->
  concat (written <$> <[i := p']> ps) ≡ₚ concat (written <$> ps) ++ new.
Proof.
  intros Hi Hp. rewrite <- (take_drop_middle ps i p Hi) at 2. rewrite insert_take_drop by (by eapply lookup_lt_Some).
  rewrite !fmap_app, !concat_app, !fmap_cons. cbn [concat]. rewrite Hp, <- !app_assoc.
  by rewrite (Permutation_app_comm new).
Qed.

(** A step of a process that is outside and stays outside. *)
Lemma exclusive_outside h order w w' i p p' :
  exclusive h order w -> w_procs w !! i = Some p -> w_procs w' = <[i := p']> (w_procs w) ->
  has_line p' -> creating p' = false -> inside p = false -> inside p' = false -> written p' = written p ->
  w_lock w' = w_lock w -> w_csv w' = w_csv w -> exclusive h order w'.
Proof.
  intros [X1 X2 X3 X4 X5 X6 X7] Hi Hp Hl Hc Hin Hin' Hw Hk Hv. pose proof (lookup_lt_Some _ _ _ Hi) as Hlt.
  split; rewrite ?Hp, ?Hk, ?Hv; try done.
  - by apply Forall_insert.
  - by apply Forall_insert.
  - intros j q Hj Hq. destruct (decide (i = j)) as [->|Hne]; [rewrite list_lookup_insert_eq in Hj by done; congruence|].
    rewrite list_lookup_insert_ne in Hj by done. auto.
  - intros j q E. destruct (X4 j q E) as [Hj Hq]. destruct (decide (i = j)) as [->|Hne]; [congruence|]. by rewrite list_lookup_insert_ne.
  - rewrite (written_insert _ _ _ _ [] Hi) by (by rewrite app_nil_r). by rewrite app_nil_r.
Qed.

(** A step of the holder, or of a process that becomes the holder. *)
Lemma exclusive_holder h order new w w' i p p' :
  exclusive h order w -> w_procs w !! i = Some p -> w_procs w' = <[i := p']> (w_procs w) ->
  has_line p' -> creating p' = false -> (forall j q, h = Some (j, q) -> j = i) -> written p' = written p ++ new ->
  w_lock w' = inside p' ->
  w_csv w' = (cat (String newline <$> (order ++ new)%list) +:+ (if inside p' then begun (Some p') else EmptyString))%string ->
  exclusive (if inside p' then Some (i, p') else None) (order ++ new) w'.
Proof.
  intros [X1 X2 X3 X4 X5 X6 X7] Hi Hp Hl Hc Hh Hw Hk Hv. pose proof (lookup_lt_Some _ _ _ Hi) as Hlt.
  split; rewrite ?Hp; try done.
  - by apply Forall_insert.
  - by apply Forall_insert.
  - intros j q Hj Hq. destruct (decide (i = j)) as [->|Hne].
    + rewrite list_lookup_insert_eq in Hj by done. injection Hj as <-. by rewrite Hq.
    + rewrite list_lookup_insert_ne in Hj by done. by destruct Hne; rewrite (Hh j q (X3 j q Hj Hq)).
  - intros j q E. destruct (inside p') eqn:Hip; [|done]. injection E as <- <-. by rewrite list_lookup_insert_eq.
  - rewrite Hk. destruct (inside p'); [by rewrite bool_decide_eq_true_2|by rewrite bool_decide_eq_false_2 by auto].
  - rewrite Hv. by destruct (inside p').
  - rewrite (written_insert _ _ _ _ new Hi Hw). by rewrite X7.
Qed.

Lemma exclusive_start lines : exclusive None [] (start lines).
Proof.
  assert (Hp : forall p, p ∈ mkProc StatResults <$> lines -> pr_phase p = StatResults).
  { intros p (l & -> & _)%list_elem_of_fmap. done. }
  split; simpl; try done.
  - apply Forall_forall. intros p Hin. unfold has_line. by rewrite (Hp p Hin).
  - apply Forall_forall. intros p Hin. unfold creating. by rewrite (Hp p Hin).
  - intros j p Hj%list_elem_of_lookup_2. unfold inside. by rewrite (Hp p Hj).
  - clear Hp. induction lines as [|l lines IH]; [done|]. simpl. apply IH.
Qed.

(** Process [i] at phase [ph] takes its turn. *)
Lemma step_at i w ph l :
  w_procs w !! i = Some (mkProc ph l) ->
  step i w = let '(w', ph') := proc_step (mkProc ph l) w in w' <| w_procs := <[i := mkProc ph' l]> (w_procs w') |>.
Proof. intros Hi. unfold step. by rewrite Hi. Qed.

Lemma exclusive_step h order i w :
  exclusive h order w -> exists h' order', exclusive h' order' (atomic_step i w).
Proof.
  intros Hx. unfold atomic_step. destruct (w_procs w !! i) as [[ph l]|] eqn:Hi.
  2: { unfold step. rewrite Hi. exists h, order. by rewrite Hi. }
  pose proof (lookup_lt_Some _ _ _ Hi) as Hlt. pose proof (proj1 (Forall_lookup _ _) (ex_lines _ _ _ Hx) i _ Hi) as Hl.
  pose proof (proj1 (Forall_lookup _ _) (ex_create _ _ _ Hx) i _ Hi) as Hc.
  assert (Hout : forall ph' r d, has_line (mkProc ph' l) -> creating (mkProc ph' l) = false -> inside (mkProc ph l) = false ->
    inside (mkProc ph' l) = false -> written (mkProc ph' l) = written (mkProc ph l) ->
    exclusive h order (mkWorld r d (w_lock w) (w_csv w) (<[i := mkProc ph' l]> (w_procs w)))).
  { intros ph' r d L1 L2 L3 L4 L5. by apply (exclusive_outside h order w _ i (mkProc ph l) (mkProc ph' l)). }
  assert (Hhold : inside (mkProc ph l) = true -> h = Some (i, mkProc ph l)) by (intros; by apply (ex_inside _ _ _ Hx)).
  assert (Hstay : forall w', (forall ph', w_procs w' !! i = Some ph' -> creating ph' = false) -> exclusive h order w' ->
    exists h' order', exclusive h' order' (match w_procs w' !! i with Some (mkProc (CreateLock _) _) => step i w' | _ => w' end)).
  { intros w' Hn Hw. exists h, order. destruct (w_procs w' !! i) as [[[] ?]|] eqn:E; try done. by specialize (Hn _ eq_refl). }
  assert (Hlook : forall q (w' : World), w_procs w' = <[i := q]> (w_procs w) -> w_procs w' !! i = Some q).
  { intros q w' ->. by apply list_lookup_insert_eq. }
  rewrite (step_at i w ph l Hi). destruct ph as [| |k|k|k|k|k|k|k|k|k]; try done; cbn [proc_step pr_phase pr_line].
  - apply Hstay; [intros q; simpl; rewrite list_lookup_insert_eq by done; intros [= <-]|apply Hout]; try done; by destruct (w_results w).
  - apply Hstay; [intros q; simpl; rewrite list_lookup_insert_eq by done; intros [= <-]|apply Hout]; done.
  - apply Hstay; [intros q; simpl; rewrite list_lookup_insert_eq by done; intros [= <-]|apply Hout]; try done; by destruct (bool_decide _).
  - unfold make_result. destruct (w_results w);
      (apply Hstay; [intros q; simpl; rewrite list_lookup_insert_eq by done; intros [= <-]|apply Hout]; done).
  - apply Hstay; [intros q; simpl; rewrite list_lookup_insert_eq by done; intros [= <-]|apply Hout]; try done; by destruct l.
  - unfold exists_lock. case_eq (w_lock w); intros Hk.
    { apply Hstay; [intros q; simpl; rewrite list_lookup_insert_eq by done; intros [= <-]; done|]. by apply Hout. }
    assert (Hh : h = None) by (rewrite (ex_lock _ _ _ Hx) in Hk; apply bool_decide_eq_false in Hk; by destruct h; [destruct Hk|]).
    set (w1 := w <| w_procs := _ |>). rewrite (Hlook (mkProc (CreateLock k) l) w1) by done.
    rewrite (step_at i w1 (CreateLock k) l) by (by apply Hlook). cbn [proc_step pr_phase].
    exists (Some (i, mkProc (StartRecord k) l)), (order ++ []).
    apply (exclusive_holder h order [] w _ i (mkProc (CheckLock k) l) (mkProc (StartRecord k) l)); try done.
    + simpl. by rewrite list_insert_insert_eq.
    + intros j q E. congruence.
    + simpl. rewrite (ex_csv _ _ _ Hx), Hh, app_nil_r. done.
  - specialize (Hhold eq_refl). pose proof (ex_csv _ _ _ Hx) as Hv. rewrite Hhold in Hv. simpl in Hv. rewrite string_app_nil in Hv.
    set (w1 := (append _ w) <| w_procs := _ |>). rewrite (Hlook (mkProc (WriteRecord k) l) w1) by done.
    exists (Some (i, mkProc (WriteRecord k) l)), (order ++ []).
    apply (exclusive_holder h order [] w _ i (mkProc (StartRecord k) l) (mkProc (WriteRecord k) l)); try done.
    + intros j q E. congruence.
    + simpl. rewrite (ex_lock _ _ _ Hx), Hhold. by rewrite bool_decide_eq_true_2.
    + simpl. by rewrite Hv, app_nil_r.
  - specialize (Hhold eq_refl). pose proof (ex_csv _ _ _ Hx) as Hv. rewrite Hhold in Hv. simpl in Hv.
    destruct l as [l|]; [|done]. set (w1 := (append _ w) <| w_procs := _ |>). rewrite (Hlook (mkProc (RemoveLock k) (Some l)) w1) by done.
    exists (Some (i, mkProc (RemoveLock k) (Some l))), (order ++ [l]).
    apply (exclusive_holder h order [l] w _ i (mkProc (WriteRecord k) (Some l)) (mkProc (RemoveLock k) (Some l))); try done.
    + intros j q E. congruence.
    + simpl. rewrite (ex_lock _ _ _ Hx), Hhold. by rewrite bool_decide_eq_true_2.
    + simpl. rewrite Hv, fmap_app. change (String newline <$> [l]) with [String newline l]. rewrite cat_snoc, string_app_nil, string_app_assoc. done.
  - specialize (Hhold eq_refl). pose proof (ex_csv _ _ _ Hx) as Hv. rewrite Hhold in Hv. simpl in Hv. rewrite string_app_nil in Hv.
    destruct l as [l|]; [|done]. set (w1 := w <| w_lock := false |> <| w_procs := _ |>). rewrite (Hlook (mkProc (Done k) (Some l)) w1) by done.
    exists None, (order ++ []).
    apply (exclusive_holder h order [] w _ i (mkProc (RemoveLock k) (Some l)) (mkProc (Done k) (Some l))); try done.
    + intros j q E. congruence.
    + simpl. by rewrite Hv, app_nil_r, string_app_nil.
  - apply Hstay; [intros q; simpl; rewrite list_lookup_insert_eq by done; intros [= <-]|apply Hout]; done.
Qed.

Lemma exclusive_run sched : forall h order w, exclusive h order w ->
  exists h' order', exclusive h' order' (atomic_run sched w).
Proof.
  induction sched as [|i sched IH]; intros h order w Hw; [by exists h, order|].
  destruct (exclusive_step h order i w Hw) as (h1 & order1 & Hw1). exact (IH _ _ _ Hw1).
Qed.

(** ** A lock file left behind *)

(** A process that waits for the lock, or will, or has no CSV file. *)
Definition waiting (p : Proc) : bool :=
  match pr_phase p with
  | CreateLock _ | StartRecord _ | WriteRecord _ | RemoveLock _ => false
  | Done _ => bool_decide (pr_line p = None)
  | _ => true
  end.

Lemma stale_step i w :
  w_lock w = true -> Forall (fun p => waiting p = true) (w_procs w) ->
  w_lock (step i w) = true /\ w_csv (step i w) = w_csv w /\ Forall (fun p => waiting p = true) (w_procs (step i w)).
Proof.
  intros Hk Hw. destruct (w_procs w !! i) as [[ph l]|] eqn:Hi; [|unfold step; by rewrite Hi].
  pose proof (proj1 (Forall_lookup _ _) Hw i _ Hi) as Hp. rewrite (step_at i w ph l Hi). unfold proc_step, exists_lock, make_result. rewrite Hk.
  assert (Hins : forall ph', waiting (mkProc ph' l) = true -> Forall (fun p => waiting p = true) (<[i := mkProc ph' l]> (w_procs w)))
    by (intros; by apply Forall_insert).
  destruct ph; try done; simpl; split_and!; try done; try (by apply Hins); try (destruct (w_results w); simpl; try done; by apply Hins).
  - apply Hins. by destruct (bool_decide _).
  - apply Hins. destruct l; [done|]. by apply bool_decide_eq_true.
Qed.

Lemma stale_run sched w :
  w_lock w = true -> Forall (fun p => waiting p = true) (w_procs w) ->
  w_csv (run sched w) = w_csv w /\ Forall (fun p => waiting p = true) (w_procs (run sched w)).
Proof.
  revert w. induction sched as [|i sched IH]; intros w Hk Hw; [done|].
  destruct (stale_step i w Hk Hw) as (K1 & K2 & K3). destruct (IH _ K1 K3) as [E F]. split; [|done]. by rewrite <- K2.
Qed.

(** ** The properties *)

(** C37. Runs that share a directory, in any interleaving of their file
    operations.  Whatever the schedule, every process appends its pieces (the
    line break and the record) exactly once and none is lost, the lock file
    exists only while some process is at work on the CSV file, and every process
    past the choice of its result directory has that directory.  If finding no
    lock and creating it were one operation, at most one process would be at work
    and the file would consist of whole records, one per line, in some order. *)
Theorem csv_log_shared (lines : list (option string)) (sched : list nat) :
  let w := run sched (start lines) in
  let v := atomic_run sched (start lines) in
  ((exists l, w_csv w = cat l /\ l ≡ₚ concat (pieces <$> w_procs w)) /\
   (w_lock w = true -> exists j p, w_procs w !! j = Some p /\ inside p = true) /\
   (forall j p i, w_procs w !! j = Some p -> own_dir p = Some i -> i ∈ w_dirs w)) /\
  (forall j k p q, w_procs v !! j = Some p -> w_procs v !! k = Some q -> inside p = true -> inside q = true -> j = k) /\
  (exists order h, w_csv v = (cat (String newline <$> order) +:+ begun h)%string /\ order ≡ₚ concat (written <$> w_procs v)).
Proof.
  intros w v. split; [|].
  - destruct (world_run_ok sched _ (start_ok lines)) as [_ H2 H3 H4]. split_and!; [done|done|]. intros j p i Hj Hi.
    apply (H4 j p Hj); [|done]. unfold own_dir in Hi. unfold past_mkdir. by destruct (pr_phase p).
  - destruct (exclusive_run sched _ _ _ (exclusive_start lines)) as (h & order & [_ _ X3 _ _ X6 X7]). split.
    + intros j k p q Hj Hk Hp Hq. pose proof (X3 j p Hj Hp) as E1. pose proof (X3 k q Hk Hq) as E2. congruence.
    + by exists order, (snd <$> h).
Qed.

(** A turn of each of two processes, [n] times. *)
Fixpoint lockstep (n : nat) : list nat := match n with O => [] | S n => 0%nat :: 1%nat :: lockstep n end.

(** C38. The lock does not lock: two processes in step both find no result_0 and no
    lock file.  They share the result directory, are inside at the same time, and
    both records end up on one line of the CSV file, behind an empty one; run one
    after the other they give two records on two lines.  And a lock file left
    behind by a run that was killed stops all later ones for good: whatever the
    schedule, nothing is appended any more and no process that has a CSV file
    ends. *)
Theorem csv_lock_race :
  let lines := [Some "a,"; Some "b,"]%string in
  let w := run (lockstep 8) (start lines) in
  let done := run (lockstep 12) (start lines) in
  let apart := run (replicate 12 0%nat ++ replicate 12 1%nat) (start lines) in
  (map pr_phase (w_procs w) = [WriteRecord 0; WriteRecord 0] /\
   map pr_phase (w_procs done) = [Done 0; Done 0] /\
   w_csv done = String newline (String newline "a,b,") /\
   map pr_phase (w_procs apart) = [Done 0; Done 1] /\
   w_csv apart = (String newline "a," +:+ String newline "b,")%string) /\
  forall lines sched, let v := run sched ((start lines) <| w_lock := true |>) in
    w_csv v = EmptyString /\ forall p i, p ∈ w_procs v -> pr_phase p = Done i -> pr_line p = None.
Proof.
  intros lines w done apart. split; [vm_compute; split_and!; reflexivity|]. clear. intros lines sched v.
  destruct (stale_run sched ((start lines) <| w_lock := true |>)) as [E F]; [done|..].
  - simpl. apply Forall_fmap, Forall_forall. intros l _. done.
  - split; [exact E|]. intros p i Hp Hd. pose proof (proj1 (Forall_forall _ _) F p Hp) as Hw. unfold waiting in Hw.
    rewrite Hd in Hw. by apply bool_decide_eq_true in Hw.
Qed.
